(** * strong-soap: the XML codec core ([src/parser/xmlHandler.js])

    A shallow embedding of [XMLHandler]: the serializer [jsonToXml] with
    [mapObject], [addAttributes], [getXsiType] and [_sortKeys]; the
    deserializer [xmlToJson] with its four event handlers and
    [_processText]; the SOAP fault message builders; [parseValue] and the
    date formatters.

    JavaScript strings are modelled as [string], one character per UTF-16
    code unit below 256.  Numbers are modelled as integers ([Z]).  A [Date]
    object is identified with the text it was built from. *)

From Stdlib Require Import String Ascii List ZArith Lia Bool Arith.
From Stdlib Require Import Permutation Sorted DecimalString.
From stdpp Require Import base list.
Import ListNotations.
Open Scope string_scope.
Set Warnings "-register-all".

(** ** Strings as JavaScript uses them *)

Module Str.

(** [String.prototype.trim]: white space and line terminators of the
    Latin-1 range. *)
Definition is_space (c : ascii) : bool :=
  let n := nat_of_ascii c in
  (n =? 9)%nat || (n =? 10)%nat || (n =? 11)%nat || (n =? 12)%nat
  || (n =? 13)%nat || (n =? 32)%nat || (n =? 160)%nat.

Fixpoint trim_start (s : string) : string :=
  match s with
  | String c r => if is_space c then trim_start r else s
  | EmptyString => EmptyString
  end.

Fixpoint trim_end (s : string) : string :=
  match s with
  | EmptyString => EmptyString
  | String c r =>
      match trim_end r with
      | EmptyString => if is_space c then EmptyString else String c EmptyString
      | r' => String c r'
      end
  end.

Definition trim (s : string) : string := trim_end (trim_start s).

(** [s.substr(n)] / [s.substring(n)] with one argument. *)
Fixpoint drop (n : nat) (s : string) : string :=
  match n, s with
  | O, _ => s
  | S n', String _ r => drop n' r
  | S _, EmptyString => EmptyString
  end.

(** [s.indexOf(needle) !== -1]. *)
Fixpoint contains (needle s : string) : bool :=
  String.prefix needle s
  || match s with
     | String _ r => contains needle r
     | EmptyString => false
     end.

(** [s.replace(pat, rep)] with a string pattern: the first occurrence only. *)
Fixpoint replace_first (pat rep s : string) : string :=
  if String.prefix pat s then rep ++ drop (String.length pat) s
  else match s with
       | String c r => String c (replace_first pat rep r)
       | EmptyString => EmptyString
       end.

(** [/<\?xml[\s\S]+\?>/.test(s)]: the text [<?xml], one character at
    least, then [?>]. *)
Fixpoint has_xml_declaration (s : string) : bool :=
  (String.prefix "<?xml" s && contains "?>" (drop 6 s))
  || match s with
     | String _ r => has_xml_declaration r
     | EmptyString => false
     end.

(** [/<!\[CDATA/.test(s)]. *)
Definition has_cdata_marker (s : string) : bool := contains "<![CDATA" s.

(** [/^xmlns:|^xmlns$/.test(a)]. *)
Definition is_xmlns (a : string) : bool :=
  String.prefix "xmlns:" a || String.eqb a "xmlns".

(** The text after the last colon, and the text before it. *)
Fixpoint after_last_colon (s : string) : string :=
  match s with
  | EmptyString => EmptyString
  | String c r =>
      if contains ":" r then after_last_colon r
      else if Ascii.eqb c ":"%char then r else s
  end.

Fixpoint before_last_colon (s : string) : string :=
  match s with
  | EmptyString => EmptyString
  | String c r =>
      if contains ":" r then String c (before_last_colon r)
      else EmptyString
  end.

(** [s.split(sep)[1]] for a one-character separator: the text between the
    first and the second separator, when there is a first one. *)
Fixpoint up_to (sep : ascii) (s : string) : string :=
  match s with
  | EmptyString => EmptyString
  | String c r => if Ascii.eqb c sep then EmptyString else String c (up_to sep r)
  end.

Fixpoint split_second (sep : ascii) (s : string) : option string :=
  match s with
  | EmptyString => None
  | String c r => if Ascii.eqb c sep then Some (up_to sep r) else split_second sep r
  end.

Definition quote : string := String (ascii_of_nat 34) EmptyString.
Definition backslash : string := String (ascii_of_nat 92) EmptyString.

Definition of_nat (n : nat) : string := NilEmpty.string_of_uint (Nat.to_uint n).
Definition of_Z (z : Z) : string := NilEmpty.string_of_int (Z.to_int z).

End Str.

(** ** JavaScript values

    The deserializer builds its result by mutating objects that are shared
    between the stack, the multiref registry and the tree itself, so its
    values live in a heap: an object is named by its address. *)

Inductive jsval :=
| JUndefined
| JNull
| JBool (b : bool)
| JNum (n : Z)
| JStr (s : string)
| JDate (t : string)        (* the object [new Date(t)] *)
| JBuiltin (member : string) (* a member inherited from [Object.prototype] *)
| JRef (a : nat).

Inductive hobj :=
| HObject (props : list (string * jsval))  (* own properties, in insertion order *)
| HArray (items : list jsval).

Abbreviation heap := (list hobj).

(** The value trees the serializer reads and the caller gets back. *)
Inductive value :=
| VUndefined
| VNull
| VBool (b : bool)
| VNum (n : Z)
| VStr (s : string)
| VDate (t : string)
| VArr (items : list value)
| VObj (props : list (string * value)).

Inductive error :=
| TypeError
| TokenizerError
| SoapFault (message : string) (h : heap) (root : jsval)
| OutOfFuel
| Unmodelled.   (* behaviour of the JavaScript run time this model leaves out *)

Inductive result (A : Type) :=
| Ok (a : A)
| Err (e : error).
Arguments Ok {A} a.
Arguments Err {A} e.

Definition bind {A B} (r : result A) (k : A -> result B) : result B :=
  match r with
  | Ok a => k a
  | Err e => Err e
  end.

Notation "'do' x <- r ; k" := (bind r (fun x => k))
  (at level 10, x name, r at level 100, k at level 200).
Notation "'do' ( x , y ) <- r ; k" := (bind r (fun '(x, y) => k))
  (at level 10, x name, y name, r at level 100, k at level 200).

Fixpoint foldM {A S} (f : S -> A -> result S) (l : list A) (s : S) : result S :=
  match l with
  | [] => Ok s
  | a :: l' => do s' <- f s a; foldM f l' s'
  end.

Module Js.

(** The members every plain object inherits from [Object.prototype]: the
    [in] operator and a property read see them. *)
Definition prototype_members : list string :=
  [ "constructor"; "__defineGetter__"; "__defineSetter__"; "hasOwnProperty";
    "__lookupGetter__"; "__lookupSetter__"; "isPrototypeOf";
    "propertyIsEnumerable"; "toString"; "valueOf"; "__proto__";
    "toLocaleString" ].

Definition mem (k : string) (l : list string) : bool := existsb (String.eqb k) l.

Fixpoint own {A} (k : string) (props : list (string * A)) : option A :=
  match props with
  | [] => None
  | (k', v) :: r => if String.eqb k k' then Some v else own k r
  end.

Definition has_own {A} (k : string) (props : list (string * A)) : bool :=
  match own k props with Some _ => true | None => false end.

(** [k in o] for a plain object. *)
Definition has (k : string) (props : list (string * jsval)) : bool :=
  has_own k props || mem k prototype_members.

(** [o[k]] for a plain object. *)
Definition get (k : string) (props : list (string * jsval)) : jsval :=
  match own k props with
  | Some v => v
  | None => if mem k prototype_members then JBuiltin k else JUndefined
  end.

(** [o[k] = v] on own properties: an existing key keeps its place, a new
    one goes last. *)
Fixpoint set {A} (k : string) (v : A) (props : list (string * A)) : list (string * A) :=
  match props with
  | [] => [(k, v)]
  | (k', v') :: r => if String.eqb k k' then (k, v) :: r else (k', v') :: set k v r
  end.

(** An array index: a canonical decimal numeral below 2^32 - 1. *)
Fixpoint digits_value (s : string) (acc : N) : option N :=
  match s with
  | EmptyString => Some acc
  | String c r =>
      let n := nat_of_ascii c in
      if (48 <=? n)%nat && (n <=? 57)%nat
      then digits_value r (acc * 10 + N.of_nat (n - 48))%N
      else None
  end.

Definition index_value (s : string) : option N :=
  match s with
  | EmptyString => None
  | String c r =>
      if Ascii.eqb c "0"%char && negb (String.eqb r "") then None
      else match digits_value s 0%N with
           | Some n => if (n <? 4294967295)%N then Some n else None
           | None => None
           end
  end.

Fixpoint insert_index {A} (n : N) (x : A) (l : list (N * A)) : list (N * A) :=
  match l with
  | [] => [(n, x)]
  | (m, y) :: r => if (n <? m)%N then (n, x) :: l else (m, y) :: insert_index n x r
  end.

(** The order in which [for-in] and [Object.keys] list own properties:
    array indices first, in ascending order, then the other keys in
    insertion order. *)
Definition ordered {A} (props : list (string * A)) : list (string * A) :=
  let idx := fold_left
               (fun acc p => match index_value (fst p) with
                             | Some n => insert_index n p acc
                             | None => acc
                             end) props [] in
  map snd idx
  ++ List.filter (fun p => match index_value (fst p) with Some _ => false | None => true end) props.

Definition keys {A} (props : list (string * A)) : list string := map fst (ordered props).

(** Truthiness, as [if (v)] and [a || b] decide it. *)
Definition truthy (v : jsval) : bool :=
  match v with
  | JUndefined | JNull => false
  | JBool b => b
  | JNum n => negb (n =? 0)%Z
  | JStr s => negb (String.eqb s "")
  | JDate _ | JBuiltin _ | JRef _ => true
  end.

Definition or (a b : jsval) : jsval := if truthy a then a else b.

(** [v != null]. *)
Definition not_nullish (v : jsval) : bool :=
  match v with
  | JUndefined | JNull => false
  | _ => true
  end.

(** [String(v)] for a primitive. *)
Definition to_string (v : jsval) : option string :=
  match v with
  | JUndefined => Some "undefined"
  | JNull => Some "null"
  | JBool true => Some "true"
  | JBool false => Some "false"
  | JNum n => Some (Str.of_Z n)
  | JStr s => Some s
  | JDate _ | JBuiltin _ | JRef _ => None
  end.

(** [a + b] on primitives: concatenation when one side is a string,
    addition of numbers otherwise ([undefined] would give NaN). *)
Definition add (a b : jsval) : result jsval :=
  match a, b with
  | JStr s, _ => match to_string b with Some t => Ok (JStr (s ++ t)) | None => Err Unmodelled end
  | _, JStr t => match to_string a with Some s => Ok (JStr (s ++ t)) | None => Err Unmodelled end
  | _, _ =>
      let num v := match v with
                   | JNum n => Some n
                   | JBool true => Some 1%Z
                   | JBool false | JNull => Some 0%Z
                   | _ => None
                   end in
      match num a, num b with
      | Some x, Some y => Ok (JNum (x + y))
      | _, _ => Err Unmodelled
      end
  end.

Definition alloc (h : heap) (o : hobj) : heap * jsval := ((h ++ [o])%list, JRef (List.length h)).

(** [v[k]] for a key that no built-in prototype defines ([Envelope],
    [Body], [Fault], the fault fields): an own property of a plain object,
    [undefined] on anything else that is not [null] or [undefined]. *)
Definition member (h : heap) (v : jsval) (k : string) : jsval :=
  match v with
  | JRef a =>
      match h !! a with
      | Some (HObject props) => match own k props with Some x => x | None => JUndefined end
      | _ => JUndefined
      end
  | _ => JUndefined
  end.

End Js.

Fixpoint traverse {A B} (f : A -> option B) (l : list A) : option (list B) :=
  match l with
  | [] => Some []
  | a :: r =>
      match f a, traverse f r with
      | Some b, Some bs => Some (b :: bs)
      | _, _ => None
      end
  end.

(** The tree a heap value stands for; [None] when the fuel runs out (a
    cyclic graph has no tree) or a built-in member is met. *)
Fixpoint reify (fuel : nat) (h : heap) (v : jsval) : option value :=
  match fuel with
  | O => None
  | S fuel' =>
      match v with
      | JUndefined => Some VUndefined
      | JNull => Some VNull
      | JBool b => Some (VBool b)
      | JNum n => Some (VNum n)
      | JStr s => Some (VStr s)
      | JDate t => Some (VDate t)
      | JBuiltin _ => None
      | JRef a =>
          match h !! a with
          | Some (HObject props) =>
              option_map VObj
                (traverse (fun p => option_map (pair (fst p)) (reify fuel' h (snd p))) props)
          | Some (HArray items) => option_map VArr (traverse (reify fuel' h) items)
          | None => None
          end
      end
  end.

(** ** Collaborators of the handler that are not part of [xmlHandler.js] *)

Module QName.

(** Modelled from the spec: a qualified name is a (namespace-URI,
    local-name, prefix) triple; [./qname] is not among the sources. *)
Record t := make { nsURI : string; name : string; prefix : string }.

(** Modelled from the spec: [QName.parse] of [./qname] is not among the
    sources; the spec describes a qualified name as a (namespace-URI,
    local-name, prefix) triple with text parse.  The text [prefix:local]
    parses into its prefix and local name, a text without colon has the
    empty prefix; the namespace URI is the second argument when given. *)
Definition parse (qname : string) (uri : option string) : t :=
  {| nsURI := match uri with Some u => u | None => "" end;
     name := Str.after_last_colon qname;
     prefix := Str.before_last_colon qname |}.

End QName.

Module helper.

(** Modelled from the spec: [helper.namespaces.xsi] of [./helper], the
    XML-Schema-Instance namespace. *)
Definition xsi : string := "http://www.w3.org/2001/XMLSchema-instance".

End helper.

Module NamespaceContext.

(** Modelled from the spec: a binding of a scope, prefix to (URI,
    declared-flag); [./nscontext] is not among the sources. *)
Record mapping := { prefix : string; uri : string; declared : bool }.

(** Modelled from the spec: a scope binds prefixes. *)
Definition scope := list mapping.

(** Modelled from the spec: the context is the stack of scopes, the
    current one first. *)
Definition t := list scope.

(** Modelled from the spec: [new NamespaceContext()].  The spec has a
    binding that is not yet visible declared in the current scope, also
    before any element has pushed a scope of its own: a new context has
    its first scope, with no binding in it. *)
Definition empty : t := [[]].

(** Modelled from the spec: the binding of a prefix in one scope. *)
Definition find_prefix (p : string) (s : scope) : option mapping :=
  List.find (fun m => String.eqb (prefix m) p) s.

(** Modelled from the spec: the binding of a URI in one scope. *)
Definition find_uri (u : string) (s : scope) : option mapping :=
  List.find (fun m => String.eqb (uri m) u) s.

(** Modelled from the spec: resolution walks the scopes from the current
    one outwards. *)
Fixpoint resolve {A} (f : scope -> option A) (c : t) : option A :=
  match c with
  | [] => None
  | s :: r => match f s with Some a => Some a | None => resolve f r end
  end.

(** Modelled from the spec: a scope is pushed around each element. *)
Definition pushContext (c : t) : t := [] :: c.

(** Modelled from the spec: and popped again; a context without scope
    has none to pop. *)
Definition popContext (c : t) : option t :=
  match c with
  | [] => None
  | _ :: r => Some r
  end.

(** Modelled from the spec: the URI a prefix resolves to in the visible
    scopes. *)
Definition getNamespaceURI (p : string) (c : t) : option string :=
  option_map uri (resolve (find_prefix p) c).

(** Modelled from the spec: the binding of a URI in the visible
    scopes. *)
Definition getPrefixMapping (u : string) (c : t) : option mapping :=
  resolve (find_uri u) c.

(** Modelled from the spec: [addNamespace] registers a binding of the
    document being read in the current scope. *)
Definition addNamespace (p u : string) (c : t) : t :=
  match c with
  | [] => []
  | s :: r => ({| prefix := p; uri := u; declared := false |} :: s) :: r
  end.

(** Modelled from the spec: the number of bindings of all scopes. *)
Definition bindings (c : t) : nat := List.length (concat c).

(** Modelled from the spec: the synthetic prefix of a declaration that
    asks for none.  The spec does not say which one is made; here it is
    the first of [ns1], [ns2], ... that no visible scope binds.  Among
    the first [bindings c + 1] of them one is free. *)
Fixpoint fresh_from (fuel n : nat) (c : t) : string :=
  let p := "ns" ++ Str.of_nat n in
  match fuel with
  | O => p
  | S fuel' =>
      match getNamespaceURI p c with
      | Some _ => fresh_from fuel' (S n) c
      | None => p
      end
  end.

(** Modelled from the spec: the synthetic prefix made in the context
    [c]. *)
Definition generatePrefix (c : t) : string := fresh_from (bindings c) 1 c.

(** Modelled from the spec: [declare] returns the existing binding when
    the URI is already visible, else it creates one in the current scope,
    with a synthetic prefix when none was requested, and marks it
    declared. *)
Definition declareNamespace (p u : string) (c : t) : option mapping * t :=
  match getPrefixMapping u c with
  | Some m => (Some m, c)
  | None =>
      match c with
      | [] => (None, c)
      | s :: r =>
          let p' := if String.eqb p "" then generatePrefix c else p in
          let m := {| prefix := p'; uri := u; declared := true |} in
          (Some m, (m :: s) :: r)
      end
  end.

End NamespaceContext.

(** ** Descriptors

    A descriptor is an object of the schema layer.  [jsonToXml] assigns to
    the [elements] field of one (line 185), and the same descriptor object
    can be reached along several paths, so descriptors live in a store and
    refer to each other by their index in it. *)

Inductive jstype :=
| JsDate                            (* [jsType === Date] *)
| JsBoolean                         (* [jsType === Boolean] *)
| JsFunction (f : string -> jsval)  (* any other function *)
| JsOther.                          (* a value that is no function *)

Record restriction := { enforce : value -> value }.

Record simple_type := { st_restriction : option restriction }.

Record type_ref := {
  t_name : string;
  t_nsURI : string;
  t_anonymous : option simple_type }.

Inductive dkind := ElementDescriptor | AttributeDescriptor | TypeDescriptor | OtherObject.

Abbreviation did := nat.

Record descriptor := {
  d_kind : dkind;                       (* what [instanceof] answers *)
  d_qname : option QName.t;
  d_type : option type_ref;
  d_form : string;
  d_isMany : bool;
  d_isNillable : bool;
  d_isSimple : bool;
  d_jsType : option jstype;
  d_elements : list did;
  d_attributes : list did;
  d_refOriginal : option did;
  d_typeDescriptor : option did;
  d_inheritance : option (list (string * did)) }.

Abbreviation dstore := (list descriptor).

(** A descriptor argument: one of the store, or a fresh object made by
    [new ElementDescriptor(..)] / [new AttributeDescriptor(..)] during the
    call, which nothing else refers to. *)
Inductive dref :=
| Stored (id : did)
| Fresh (d : descriptor).

Definition deref (ds : dstore) (r : dref) : option descriptor :=
  match r with
  | Stored id => ds !! id
  | Fresh d => Some d
  end.

Definition local_name (d : descriptor) : option string :=
  option_map QName.name (d_qname d).

Definition named (ds : dstore) (n : string) (id : did) : bool :=
  match ds !! id with
  | Some d => match local_name d with Some m => String.eqb m n | None => false end
  | None => false
  end.

(** Modelled from the spec: [findElement] and [findAttribute] of
    [./xsd/descriptor] are not among the sources; the spec has the
    deserializer ask a descriptor for the child, or the attribute
    descriptor, with a given local name. *)
Definition findElement (ds : dstore) (d : descriptor) (n : string) : option did :=
  List.find (named ds n) (d_elements d).

(** Modelled from the spec: [findAttribute] of [./xsd/descriptor], the
    attribute descriptor with a given local name. *)
Definition findAttribute (ds : dstore) (d : descriptor) (n : string) : option did :=
  List.find (named ds n) (d_attributes d).

(** Modelled from the spec: the constructors of [./xsd/descriptor]; an ad
    hoc descriptor has a name, a form and the repeatable flag, and nothing
    else. *)
Definition new_ElementDescriptor (q : QName.t) (form : string) (isMany : bool) : descriptor :=
  {| d_kind := ElementDescriptor; d_qname := Some q; d_type := None; d_form := form;
     d_isMany := isMany; d_isNillable := false; d_isSimple := false; d_jsType := None;
     d_elements := []; d_attributes := []; d_refOriginal := None;
     d_typeDescriptor := None; d_inheritance := None |}.

(** Modelled from the spec: [new AttributeDescriptor(qname, type, form)]
    of [./xsd/descriptor], a qualified name and a form. *)
Definition new_AttributeDescriptor (q : QName.t) (form : string) : descriptor :=
  {| d_kind := AttributeDescriptor; d_qname := Some q; d_type := None; d_form := form;
     d_isMany := false; d_isNillable := false; d_isSimple := false; d_jsType := None;
     d_elements := []; d_attributes := []; d_refOriginal := None;
     d_typeDescriptor := None; d_inheritance := None |}.

(** ** The handler and its configuration *)

Record options := {
  valueKey : string;
  xmlKey : string;
  attributesKey : string;
  xsiTypeKey : string;
  enforceRestrictions : bool;
  ignoreUnknownProperties : bool }.

Record schema := {
  simpleTypes : string -> option simple_type;
  (* [complexTypes[name] || simpleTypes[name]], described *)
  describe : string -> option did }.

Record XMLHandler := {
  schemas : string -> option schema;
  opts : options }.

(** The constructor (lines 24-31): a key name that is missing or empty
    gets its default. *)
Definition or_default (s dflt : string) : string :=
  if String.eqb s "" then dflt else s.

Definition constructor (schemas : string -> option schema) (o : options) : XMLHandler :=
  {| schemas := schemas;
     opts := {| valueKey := or_default (valueKey o) "$value";
                xmlKey := or_default (xmlKey o) "$xml";
                attributesKey := or_default (attributesKey o) "$attributes";
                xsiTypeKey := or_default (xsiTypeKey o) "$xsiType";
                enforceRestrictions := enforceRestrictions o;
                ignoreUnknownProperties := ignoreUnknownProperties o |} |}.

Definition no_options : options :=
  {| valueKey := ""; xmlKey := ""; attributesKey := ""; xsiTypeKey := "";
     enforceRestrictions := false; ignoreUnknownProperties := false |}.

(** ** The tokenizer's events and the tree builder's nodes *)

Inductive event :=
| OpenTag (name : string) (attributes : list (string * string))
| CloseTag (name : string)
| Text (text : string)
| CData (text : string).

Inductive xnode :=
| XDocument (children : list xnode)
| XElement (name : string) (attrs : list (string * string)) (children : list xnode)
| XText (text : string)
| XCData (text : string)
| XRaw (text : string).

(** ** Typed value coercion (lines 847-896) *)

Definition parseValue (text : jsval) (descriptor : option descriptor) : jsval :=
  match text with
  | JStr s =>
      match descriptor with
      | None => text
      | Some d =>
          match d_jsType d with
          | Some JsDate =>
              if (String.length s =? 10)%nat then JStr s else JDate s
          | Some JsBoolean =>
              if String.eqb s "true" || String.eqb s "1" then JBool true else JBool false
          | Some (JsFunction f) => f s
          | Some JsOther | None => JStr s
          end
      end
  | _ => text
  end.

Definition toXmlDate (date : value) : value := date.

Section Dates.

(** [new Date(v).toISOString()], the run time's rendering of an instant;
    [None] when the date is invalid and the call throws. *)
Variable toISOString : value -> option string.

Definition toXmlTime (date : value) : result value :=
  match toISOString date with
  | Some iso => Ok (match Str.split_second "T" iso with
                    | Some t => VStr t
                    | None => VUndefined
                    end)
  | None => Err Unmodelled
  end.

Definition toXmlDateTime (date : value) : result value :=
  match toISOString date with
  | Some iso => Ok (VStr iso)
  | None => Err Unmodelled
  end.

Definition toXmlDateOrTime (descriptor : option descriptor) (val : value) : result value :=
  match descriptor with
  | None => Ok val
  | Some d =>
      match d_type d, val with
      | None, _ => Ok val
      | Some _, VNull => Ok val
      | Some t, _ =>
          if String.eqb (t_name t) "date" then Ok (toXmlDate val)
          else if String.eqb (t_name t) "time" then toXmlTime val
          else if String.eqb (t_name t) "dateTime" then toXmlDateTime val
          else Ok val
      end
  end.

End Dates.

(** ** The deserializer (lines 533-750) *)

Record frame := {
  f_name : option string;
  f_object : jsval;
  f_descriptor : option did;
  f_id : option string }.

Record href := { h_parent : jsval; h_key : string; h_object : jsval }.

(** A slot of the multiref registry [refs]. *)
Record ref := { r_hrefs : list href; r_object : jsval }.

Record pstate := {
  p_heap : heap;
  p_stack : list frame;             (* the top frame first *)
  p_refs : list (string * ref);
  p_ns : NamespaceContext.t }.

Definition with_heap (h : heap) (s : pstate) : pstate :=
  {| p_heap := h; p_stack := p_stack s; p_refs := p_refs s; p_ns := p_ns s |}.

Definition with_stack (st : list frame) (s : pstate) : pstate :=
  {| p_heap := p_heap s; p_stack := st; p_refs := p_refs s; p_ns := p_ns s |}.

Definition with_refs (r : list (string * ref)) (s : pstate) : pstate :=
  {| p_heap := p_heap s; p_stack := p_stack s; p_refs := r; p_ns := p_ns s |}.

Definition with_ns (c : NamespaceContext.t) (s : pstate) : pstate :=
  {| p_heap := p_heap s; p_stack := p_stack s; p_refs := p_refs s; p_ns := c |}.

Definition with_object (o : jsval) (f : frame) : frame :=
  {| f_name := f_name f; f_object := o; f_descriptor := f_descriptor f; f_id := f_id f |}.

(** [o[k] = v] for the object at address [a].  Assigning to [__proto__]
    replaces the prototype instead of making a property: left out. *)
Definition heap_set (h : heap) (a : nat) (k : string) (v : jsval) : result heap :=
  match h !! a with
  | Some (HObject props) =>
      if String.eqb k "__proto__" then Err Unmodelled
      else Ok (<[a := HObject (Js.set k v props)]> h)
  | _ => Err Unmodelled
  end.

(** [base[k] = v] for any base, in strict mode. *)
Definition put (h : heap) (base : jsval) (k : string) (v : jsval) : result heap :=
  match base with
  | JRef a => heap_set h a k v
  | JUndefined | JNull | JBool _ | JNum _ | JStr _ => Err TypeError
  | JDate _ | JBuiltin _ => Err Unmodelled
  end.

Definition _processText (o : options) (h : heap) (top : frame) (val : jsval)
  : result (heap * frame) :=
  match f_object top with
  | JNull => Ok (h, top)
  | JUndefined => Ok (h, with_object val top)
  | JRef a =>
      match h !! a with
      | Some (HObject props) =>
          if Js.has_own "constructor" props then Err Unmodelled
          else
            match Js.get (valueKey o) props with
            | JUndefined =>
                do h' <- heap_set h a (valueKey o) val; Ok (h', top)
            | value =>
                do sum <- Js.add value val;
                do h' <- heap_set h a (valueKey o) sum; Ok (h', top)
            end
      | _ => Err Unmodelled
      end
  | JStr _ | JBool _ | JNum _ =>
      do sum <- Js.add (f_object top) val; Ok (h, with_object sum top)
  | JDate _ | JBuiltin _ => Err Unmodelled
  end.

Section Deserializer.

Variable self : XMLHandler.
Variable ds : dstore.
(** [self.xmlToJson(null, text)], for a document inside a CDATA section. *)
Variable nested : heap -> string -> result (heap * jsval).

Definition frame_descriptor (f : frame) : option descriptor :=
  match f_descriptor f with
  | Some id => ds !! id
  | None => None
  end.

(** The state of the loop over the regular attributes (lines 581-620). *)
Record attr_loop := {
  al_heap : heap;
  al_attrs : list (string * string);
  al_obj : jsval;
  al_elementAttributes : option nat }.

Definition attr_step (ns : NamespaceContext.t) (descriptor : option descriptor)
    (s : attr_loop) (a : string) : result attr_loop :=
  if Str.is_xmlns a then Ok s
  else
    let qname := QName.parse a None in
    let text := match Js.own a (al_attrs s) with Some t => t | None => "" end in
    let in_xsi :=
      match NamespaceContext.getNamespaceURI (QName.prefix qname) ns with
      | Some u => String.eqb u helper.xsi
      | None => false
      end in
    if in_xsi && String.eqb (QName.name qname) "nil" then
      Ok {| al_heap := al_heap s; al_attrs := al_attrs s;
            al_obj := if String.eqb text "true" then JNull else al_obj s;
            al_elementAttributes := al_elementAttributes s |}
    else
      let isXsiType := in_xsi && String.eqb (QName.name qname) "type" in
      let xsiType := QName.parse text None in
      let attrs' := if isXsiType then Js.set a (QName.name xsiType) (al_attrs s)
                    else al_attrs s in
      let xsiXmlns :=
        if isXsiType && negb (String.eqb (QName.prefix xsiType) "") then
          match NamespaceContext.getNamespaceURI (QName.prefix xsiType) ns with
          | Some u => JStr u
          | None => JNull
          end
        else JNull in
      let text' := match Js.own a attrs' with Some t => t | None => "" end in
      let '(h1, ea) :=
        match al_elementAttributes s with
        | Some ea => (al_heap s, ea)
        | None => ((al_heap s ++ [HObject []])%list, List.length (al_heap s))
        end in
      if isXsiType then
        let h2 := (h1 ++ [HObject [("type", JStr text'); ("xmlns", xsiXmlns)]])%list in
        do h3 <- heap_set h2 ea (xsiTypeKey (opts self)) (JRef (List.length h1));
        Ok {| al_heap := h3; al_attrs := attrs'; al_obj := al_obj s;
              al_elementAttributes := Some ea |}
      else
        do h2 <- heap_set h1 ea (QName.name qname) (JStr text');
        Ok {| al_heap := h2; al_attrs := attrs'; al_obj := al_obj s;
              al_elementAttributes := Some ea |}.

Definition register_namespaces (attrs : list (string * string))
    (ns : NamespaceContext.t) : NamespaceContext.t :=
  fold_left
    (fun c a =>
       if Str.is_xmlns a then
         NamespaceContext.addNamespace
           (if String.eqb a "xmlns" then "" else Str.drop 6 a)
           (match Js.own a attrs with Some u => u | None => "" end) c
       else c)
    (Js.keys attrs) ns.

Definition empty_ref : ref := {| r_hrefs := []; r_object := JNull |}.

(** [if (refs[id] === undefined) refs[id] = { hrefs: [], object: null }];
    a name that [Object.prototype] defines is never [undefined]. *)
Definition ensure_ref (id : string) (refs : list (string * ref)) : list (string * ref) :=
  if Js.has_own id refs || Js.mem id Js.prototype_members then refs
  else Js.set id empty_ref refs.

Definition onopentag (s : pstate) (nsName : string) (attributes : list (string * string))
  : result pstate :=
  let ns := NamespaceContext.pushContext (p_ns s) in
  match p_stack s with
  | [] => Err TypeError
  | top :: _ =>
      let descriptor := frame_descriptor top in
      let ns := register_namespaces attributes ns in
      do l <- foldM (attr_step ns descriptor) (Js.keys attributes)
                {| al_heap := p_heap s; al_attrs := attributes;
                   al_obj := JUndefined; al_elementAttributes := None |};
      do (h, obj) <-
        match al_elementAttributes l with
        | Some ea =>
            let h1 := (al_heap l ++ [HObject []])%list in
            do h2 <- heap_set h1 (List.length (al_heap l)) (attributesKey (opts self)) (JRef ea);
            Ok (h2, JRef (List.length (al_heap l)))
        | None => Ok (al_heap l, al_obj l)
        end;
      let attrs := al_attrs l in
      let elementQName := QName.parse nsName None in
      do refs <-
        match Js.own "href" attrs with
        | Some target =>
            let id := Str.drop 1 target in
            if Js.mem id Js.prototype_members then Err TypeError
            else
              let slot := match Js.own id (p_refs s) with
                          | Some r => r
                          | None => empty_ref
                          end in
              Ok (Js.set id
                    {| r_hrefs := (r_hrefs slot ++
                                  [{| h_parent := f_object top;
                                      h_key := QName.name elementQName;
                                      h_object := obj |}])%list;
                       r_object := r_object slot |} (p_refs s))
        | None => Ok (p_refs s)
        end;
      let refs := match Js.own "id" attrs with
                  | Some id => ensure_ref id refs
                  | None => refs
                  end in
      Ok {| p_heap := h;
            p_stack := {| f_name := Some (QName.name elementQName);
                          f_object := obj;
                          f_descriptor :=
                            match descriptor with
                            | Some d => findElement ds d (QName.name elementQName)
                            | None => None
                            end;
                          f_id := Js.own "id" attrs |} :: p_stack s;
            p_refs := refs;
            p_ns := ns |}
  end.

Definition is_many (f : frame) : bool :=
  match frame_descriptor f with
  | Some d => d_isMany d
  | None => false
  end.

(** The merge of a closed element into its parent (lines 658-677). *)
Definition merge_child (h : heap) (top current : frame) (elementName : string)
  : result (heap * frame) :=
  let '(h, top) :=
    match f_object top with
    | JUndefined => ((h ++ [HObject []])%list, with_object (JRef (List.length h)) top)
    | _ => (h, top)
    end in
  match f_object top with
  | JNull => Ok (h, top)
  | JRef a =>
      match h !! a with
      | Some (HObject props) =>
          if Js.has elementName props then
            match Js.get elementName props with
            | JRef b =>
                match h !! b with
                | Some (HArray items) =>
                    Ok (<[b := HArray (items ++ [f_object current])%list]> h, top)
                | _ =>
                    do h' <- heap_set (h ++ [HArray [JRef b; f_object current]])%list a
                               elementName (JRef (List.length h));
                    Ok (h', top)
                end
            | val =>
                do h' <- heap_set (h ++ [HArray [val; f_object current]])%list a
                           elementName (JRef (List.length h));
                Ok (h', top)
            end
          else if is_many current then
            do h' <- heap_set (h ++ [HArray [f_object current]])%list a
                       elementName (JRef (List.length h));
            Ok (h', top)
          else
            do h' <- heap_set h a elementName (f_object current);
            Ok (h', top)
      | _ => Err Unmodelled
      end
  | JStr _ | JBool _ | JNum _ => Err TypeError
  | _ => Err Unmodelled
  end.

Definition onclosetag (s : pstate) (nsName : string) : result pstate :=
  let elementName := QName.name (QName.parse nsName None) in
  match NamespaceContext.popContext (p_ns s) with
  | None => Err Unmodelled
  | Some ns =>
      match p_stack s with
      | current :: top :: rest =>
          do (h, top') <- merge_child (p_heap s) top current elementName;
          do refs <-
            match f_id current with
            | Some id =>
                match Js.own id (p_refs s) with
                | Some slot =>
                    Ok (Js.set id {| r_hrefs := r_hrefs slot;
                                     r_object := f_object current |} (p_refs s))
                | None =>
                    if Js.mem id Js.prototype_members then Err Unmodelled
                    else Err TypeError
                end
            | None => Ok (p_refs s)
            end;
          Ok {| p_heap := h; p_stack := top' :: rest; p_refs := refs; p_ns := ns |}
      | _ => Err TypeError
      end
  end.

Definition handleJsonObject (s : pstate) (text : jsval) : result pstate :=
  match p_stack s with
  | [] => Err TypeError
  | top :: rest =>
      do (h, top') <- _processText (opts self) (p_heap s) top text;
      Ok (with_stack (top' :: rest) (with_heap h s))
  end.

Definition oncdata (s : pstate) (text : string) : result pstate :=
  let text := Str.trim text in
  if (String.length text =? 0)%nat then Ok s
  else if Str.has_xml_declaration text then
    do (h, v) <- nested (p_heap s) text;
    handleJsonObject (with_heap h s) v
  else handleJsonObject s (JStr text).

Definition ontext (s : pstate) (text : string) : result pstate :=
  let text := Str.trim text in
  if (String.length text =? 0)%nat then Ok s
  else
    match p_stack s with
    | [] => Err TypeError
    | top :: rest =>
        let value := parseValue (JStr text) (frame_descriptor top) in
        do (h, top') <- _processText (opts self) (p_heap s) top value;
        Ok (with_stack (top' :: rest) (with_heap h s))
    end.

Definition handle (s : pstate) (e : event) : result pstate :=
  match e with
  | OpenTag n attrs => onopentag s n attrs
  | CloseTag n => onclosetag s n
  | Text t => ontext s t
  | CData t => oncdata s t
  end.

(** [merge(href, obj)] (lines 712-718): the own properties of [obj] are
    copied onto the placeholder [href.object]. *)
Definition merge_step (obj : nat) (target : jsval) (h : heap) (j : string) : result heap :=
  match h !! obj with
  | Some (HObject props) =>
      if Js.has_own "hasOwnProperty" props then Err TypeError
      else put h target j (Js.get j props)
  | _ => Err Unmodelled
  end.

Definition merge (h : heap) (hr : href) (obj : jsval) : result heap :=
  match obj with
  | JRef a =>
      match h !! a with
      | Some (HObject props) => foldM (merge_step a (h_object hr)) (Js.keys props) h
      | _ => Err Unmodelled
      end
  | JStr s => if String.eqb s "" then Ok h else Err Unmodelled
  | _ => Ok h
  end.

(** MultiRef support (lines 720-726). *)
Definition merge_refs (h : heap) (refs : list (string * ref)) : result heap :=
  foldM (fun h r => foldM (fun h hr => merge h hr (r_object (snd r))) (r_hrefs (snd r)) h)
        (Js.ordered refs) h.

End Deserializer.

(** ** Fault messages (lines 753-830) *)

Module Json.

Definition hex_digit (n : nat) : string :=
  match n with
  | 10 => "a" | 11 => "b" | 12 => "c" | 13 => "d" | 14 => "e" | 15 => "f"
  | _ => Str.of_nat n
  end.

Definition escape (c : ascii) : string :=
  let n := nat_of_ascii c in
  if (n =? 34)%nat then Str.backslash ++ Str.quote
  else if (n =? 92)%nat then Str.backslash ++ Str.backslash
  else if (n =? 8)%nat then Str.backslash ++ "b"
  else if (n =? 12)%nat then Str.backslash ++ "f"
  else if (n =? 10)%nat then Str.backslash ++ "n"
  else if (n =? 13)%nat then Str.backslash ++ "r"
  else if (n =? 9)%nat then Str.backslash ++ "t"
  else if (n <? 32)%nat then
    Str.backslash ++ "u00" ++ hex_digit (n / 16) ++ hex_digit (n mod 16)
  else String c EmptyString.

Fixpoint escape_all (s : string) : string :=
  match s with
  | EmptyString => EmptyString
  | String c r => escape c ++ escape_all r
  end.

Definition quote (s : string) : string := Str.quote ++ escape_all s ++ Str.quote.

Fixpoint join (sep : string) (l : list string) : string :=
  match l with
  | [] => ""
  | [x] => x
  | x :: r => x ++ sep ++ join sep r
  end.

(** [JSON.stringify(v)]: [Ok None] is the result [undefined].  The fuel
    bounds the nesting; more nesting than the heap has objects means a
    cycle, on which [JSON.stringify] throws a [TypeError]. *)
Fixpoint stringify_fuel (fuel : nat) (h : heap) (v : jsval) : result (option string) :=
  match v with
  | JUndefined | JBuiltin _ => Ok None
  | JNull => Ok (Some "null")
  | JBool true => Ok (Some "true")
  | JBool false => Ok (Some "false")
  | JNum n => Ok (Some (Str.of_Z n))
  | JStr s => Ok (Some (quote s))
  | JDate _ => Err Unmodelled
  | JRef a =>
      match fuel with
      | O => Err TypeError
      | S fuel' =>
          match h !! a with
          | Some (HObject props) =>
              do parts <-
                foldM (fun acc p =>
                         do r <- stringify_fuel fuel' h (snd p);
                         Ok (match r with
                             | Some t => (acc ++ [(quote (fst p) ++ ":" ++ t)%string])%list
                             | None => acc
                             end))
                      (Js.ordered props) [];
              Ok (Some ("{" ++ join "," parts ++ "}"))
          | Some (HArray items) =>
              do parts <-
                foldM (fun acc x =>
                         do r <- stringify_fuel fuel' h x;
                         Ok (acc ++ [match r with Some t => t | None => "null"%string end])%list)
                      items [];
              Ok (Some ("[" ++ join "," parts ++ "]"))
          | None => Err Unmodelled
          end
      end
  end.

Definition stringify (h : heap) (v : jsval) : result (option string) :=
  stringify_fuel (List.length h) h v.

(** ['text' + JSON.stringify(v)] *)
Definition dump (h : heap) (v : jsval) : result string :=
  do r <- stringify h v;
  Ok (match r with Some t => t | None => "undefined" end).

End Json.

(** [selectn(path, object)] of the [selectn] package, for the paths of
    this file: the walk stops with [undefined] at a value that is no
    object. *)
Fixpoint selectn (h : heap) (path : list string) (object : jsval) : jsval :=
  match path with
  | [] => object
  | seg :: rest =>
      match object with
      | JRef _ | JDate _ | JBuiltin _ => selectn h rest (Js.member h object seg)
      | _ => JUndefined
      end
  end.

Definition is_string (v : jsval) : bool :=
  match v with JStr _ => true | _ => false end.

Definition text_of (v : jsval) : string :=
  match v with JStr s => s | _ => "" end.

(** [field.$value || field] *)
Definition fault_field (h : heap) (field : string) (faultBody : jsval) : jsval :=
  Js.or (selectn h [field; "$value"] faultBody) (selectn h [field] faultBody).

Definition plain_or_dump (h : heap) (label : string) (detail : jsval) (msg : string)
  : result string :=
  if Js.not_nullish detail then
    if is_string detail then Ok (msg ++ label ++ text_of detail)
    else do d <- Json.dump h detail; Ok (msg ++ label ++ d)
  else Ok msg.

Definition getSoap11FaultErrorMessage (h : heap) (faultBody : jsval)
  : result (option string) :=
  let faultcode := fault_field h "faultcode" faultBody in
  if Js.truthy faultcode then
    let errorMessage := " " in
    let errorMessage :=
      if is_string faultcode then "faultcode: " ++ text_of faultcode else errorMessage in
    let faultstring := fault_field h "faultstring" faultBody in
    let errorMessage :=
      if Js.truthy faultstring && is_string faultstring
      then errorMessage ++ " faultstring: " ++ text_of faultstring else errorMessage in
    let faultactor := fault_field h "faultactor" faultBody in
    let errorMessage :=
      if Js.truthy faultactor && is_string faultactor
      then errorMessage ++ " faultactor: " ++ text_of faultactor else errorMessage in
    let detail := fault_field h "detail" faultBody in
    do errorMessage <- plain_or_dump h " detail: " detail errorMessage;
    Ok (Some errorMessage)
  else Ok None.

Definition dump_if (h : heap) (label : string) (v : jsval) (msg : string) : result string :=
  if Js.truthy v then do d <- Json.dump h v; Ok (msg ++ " " ++ label ++ d)
  else Ok msg.

Definition getSoap12FaultErrorMessage (h : heap) (faultBody : jsval)
  : result (option string) :=
  let code := Js.or (selectn h ["Code"] faultBody) (selectn h ["Code"] faultBody) in
  if Js.truthy code then
    let errorMessage := " " in
    do d <- Json.dump h code;
    let errorMessage := errorMessage ++ "Code: " ++ d in
    do errorMessage <- dump_if h "Value: " (fault_field h "Value" faultBody) errorMessage;
    do errorMessage <- dump_if h "Subcode: " (fault_field h "Subcode" faultBody) errorMessage;
    let reason := Js.or (selectn h ["reason"; "$value"] faultBody)
                        (selectn h ["Reason"] faultBody) in
    do errorMessage <- dump_if h "Reason: " reason errorMessage;
    do errorMessage <- dump_if h "Node: " (fault_field h "Node" faultBody) errorMessage;
    do errorMessage <- dump_if h "Role: " (fault_field h "Role" faultBody) errorMessage;
    let detail := fault_field h "Detail" faultBody in
    do errorMessage <- plain_or_dump h " Detail: " detail errorMessage;
    Ok (Some errorMessage)
  else Ok None.

(** The message of the fault error (lines 732-742). *)
Definition fault_message (h : heap) (fault : jsval) : result string :=
  do m11 <- getSoap11FaultErrorMessage h fault;
  match m11 with
  | Some m => Ok m
  | None =>
      do m12 <- getSoap12FaultErrorMessage h fault;
      Ok (match m12 with
          | Some m => m
          | None => "Error occurred processing Fault response."
          end)
  end.

(** ** [xmlToJson] (lines 553-750) *)

(** What follows [p.write(xml).close()]: the multiref merge, then the
    fault check and the envelope unwrapping. *)
Definition finish (h : heap) (refs : list (string * ref)) (root : jsval)
  : result (heap * jsval) :=
  do h <- merge_refs h refs;
  let envelope := Js.member h root "Envelope" in
  if Js.truthy envelope then
    let body := Js.member h envelope "Body" in
    let fault := Js.member h body "Fault" in
    if Js.not_nullish body && Js.not_nullish fault then
      do errorMessage <- fault_message h fault;
      Err (SoapFault errorMessage h root)
    else Ok (h, envelope)
  else Ok (h, root).

Definition initial (h : heap) (nsContext : option NamespaceContext.t)
    (descriptor : option did) : pstate :=
  {| p_heap := (h ++ [HObject []])%list;
     p_stack := [{| f_name := None; f_object := JRef (List.length h);
                    f_descriptor := descriptor; f_id := None |}];
     p_refs := [];
     p_ns := match nsContext with
             | Some c => c
             | None => NamespaceContext.empty
             end |}.

(** [xmlToJson] on the events the tokenizer emits for the document. *)
Definition xmlToJson_events (self : XMLHandler) (ds : dstore)
    (nested : heap -> string -> result (heap * jsval))
    (h : heap) (nsContext : option NamespaceContext.t) (events : list event)
    (descriptor : option did) : result (heap * jsval) :=
  do s <- foldM (handle self ds nested) events (initial h nsContext descriptor);
  finish (p_heap s) (p_refs s) (JRef (List.length h)).

Section Tokenizer.

(** The [sax] parser in strict mode: the events of a document, [None] when
    the text is malformed and the parser throws. *)
Variable tokenize : string -> option (list event).

(** The fuel bounds how deep documents nest inside CDATA sections. *)
Fixpoint xmlToJson_from (fuel : nat) (self : XMLHandler) (ds : dstore) (h : heap)
    (nsContext : option NamespaceContext.t) (xml : string) (descriptor : option did)
  : result (heap * jsval) :=
  match tokenize xml with
  | None => Err TokenizerError
  | Some events =>
      xmlToJson_events self ds
        (fun h' text =>
           match fuel with
           | O => Err OutOfFuel
           | S fuel' => xmlToJson_from fuel' self ds h' None text None
           end)
        h nsContext events descriptor
  end.

Definition xmlToJson (fuel : nat) (self : XMLHandler) (ds : dstore)
    (nsContext : option NamespaceContext.t) (xml : string) (descriptor : option did)
  : result (heap * jsval) :=
  xmlToJson_from fuel self ds [] nsContext xml descriptor.

End Tokenizer.

(** The value tree a call returns. *)
Definition tree_of (r : result (heap * jsval)) : option value :=
  match r with
  | Ok (h, v) => reify (S (List.length h)) h v
  | Err _ => None
  end.

(** ** The tree builder

    The nodes of the [xmlbuilder] package, by the operations the spec
    lists for it.  A document node has no [attribute] method. *)

Module Xml.

(** The characters XML 1.0 allows, among those of this model: tab, line
    feed, carriage return, and everything from the space on. *)
Definition legal_char (c : ascii) : bool :=
  let n := nat_of_ascii c in
  (n =? 9)%nat || (n =? 10)%nat || (n =? 13)%nat || (32 <=? n)%nat.

Fixpoint legal (s : string) : bool :=
  match s with
  | EmptyString => true
  | String c r => legal_char c && legal r
  end.

(** The names of XML 1.0, among the texts of this model: a letter, [_]
    or [:] first, then letters, digits, [.], [-], [_], [:] and the middle
    dot. *)
Definition name_start (c : ascii) : bool :=
  let n := nat_of_ascii c in
  (n =? 58)%nat || (n =? 95)%nat
  || ((65 <=? n)%nat && (n <=? 90)%nat) || ((97 <=? n)%nat && (n <=? 122)%nat)
  || ((192 <=? n)%nat && (n <=? 214)%nat) || ((216 <=? n)%nat && (n <=? 246)%nat)
  || (248 <=? n)%nat.

Definition name_char (c : ascii) : bool :=
  let n := nat_of_ascii c in
  name_start c || (n =? 45)%nat || (n =? 46)%nat || (n =? 183)%nat
  || ((48 <=? n)%nat && (n <=? 57)%nat).

Fixpoint name_chars (s : string) : bool :=
  match s with
  | EmptyString => true
  | String c r => name_char c && name_chars r
  end.

Definition is_name (s : string) : bool :=
  match s with
  | EmptyString => false
  | String c r => name_start c && name_chars r
  end.

Definition add_child (node child : xnode) : result xnode :=
  match node with
  | XDocument c => Ok (XDocument (c ++ [child]))
  | XElement n a c => Ok (XElement n a (c ++ [child]))
  | _ => Err Unmodelled
  end.

(** [typeof node.attribute === 'function'] *)
Definition has_attribute (node : xnode) : bool :=
  match node with
  | XElement _ _ _ => true
  | _ => false
  end.

(** [node.attribute(name, value)] *)
Definition attribute (name value : string) (node : xnode) : result xnode :=
  match node with
  | XElement n a c => Ok (XElement n (Js.set name value a) c)
  | _ => Err TypeError
  end.

(** The text the builder renders for a scalar.  The builder throws on a
    text that holds a character XML does not allow (the NUL character for
    one; which other ones it refuses depends on its version): texts
    outside [legal] are left out.  An object in the place of a text is
    read by the builder as an attribute map: left out as well. *)
Definition scalar_text (v : value) : result (option string) :=
  match v with
  | VUndefined | VNull => Ok None
  | VBool true => Ok (Some "true")
  | VBool false => Ok (Some "false")
  | VNum n => Ok (Some (Str.of_Z n))
  | VStr s => if legal s then Ok (Some s) else Err Unmodelled
  | VDate _ | VArr _ | VObj _ => Err Unmodelled
  end.

Definition required_text (v : value) : result string :=
  do t <- scalar_text v;
  match t with
  | Some s => Ok s
  | None => Err Unmodelled
  end.

(** [node.element(name, val)], not yet attached to its parent. *)
Definition element (name : string) (val : value) : result xnode :=
  do t <- scalar_text val;
  Ok (XElement name [] match t with Some s => [XText s] | None => [] end).

(** [element.cdata(val)]: the section.  A content that holds the mark
    closing a section is split by the builder into two sections, and one
    with a character XML does not allow makes it throw: left out. *)
Definition cdata (s : string) : result xnode :=
  if legal s && negb (Str.contains "]]>" s) then Ok (XCData s) else Err Unmodelled.

(** The events the tokenizer emits for the rendering of a tree: an empty
    text gives no event, and raw content would have to be parsed.  This
    is what the strict tokenizer reports when the names of the tree are
    XML names ([is_name]) and its texts are made of the characters XML
    allows ([legal]), no section holding the mark that closes it; on the
    rendering of another tree it raises, or reports other events. *)
Fixpoint events (n : xnode) : option (list event) :=
  match n with
  | XDocument c =>
      option_map (@concat event) (traverse events c)
  | XElement name attrs c =>
      option_map (fun es => OpenTag name attrs :: concat es ++ [CloseTag name])
                 (traverse events c)
  | XText t => Some (if String.eqb t "" then [] else [Text t])
  | XCData t => Some [CData t]
  | XRaw _ => None
  end.

(** The tokenizer reports adjacent texts as one. *)
Fixpoint coalesce (es : list event) : list event :=
  match es with
  | [] => []
  | Text a :: rest =>
      match coalesce rest with
      | Text b :: rest' => Text (a ++ b) :: rest'
      | rest' => Text a :: rest'
      end
  | e :: rest => e :: coalesce rest
  end.

Definition tokens (n : xnode) : option (list event) := option_map coalesce (events n).

End Xml.

(** ** The serializer (lines 33-381) *)

Record sstate := {
  s_ds : dstore;                 (* the descriptors, which line 185 updates *)
  s_ns : NamespaceContext.t }.

Definition with_ds (ds : dstore) (s : sstate) : sstate :=
  {| s_ds := ds; s_ns := s_ns s |}.

Definition with_sns (c : NamespaceContext.t) (s : sstate) : sstate :=
  {| s_ds := s_ds s; s_ns := c |}.

(** [val[key]] for one of the handler's key names, none of which names a
    built-in member: an own property of an object, [undefined] otherwise. *)
Definition vget (key : string) (val : value) : value :=
  match val with
  | VObj props => match Js.own key props with Some v => v | None => VUndefined end
  | _ => VUndefined
  end.

Definition is_undefined (v : value) : bool :=
  match v with VUndefined => true | _ => false end.

Definition is_nullish (v : value) : bool :=
  match v with VUndefined | VNull => true | _ => false end.

(** [typeof v === 'object'] *)
Definition typeof_object (v : value) : bool :=
  match v with VNull | VDate _ | VArr _ | VObj _ => true | _ => false end.

(** [typeof v !== 'object' || v instanceof Date], for a [v] that is not
    [null] or [undefined]. *)
Definition is_terminal (v : value) : bool :=
  match v with VArr _ | VObj _ => false | _ => true end.

Definition is_array (v : value) : bool :=
  match v with VArr _ => true | _ => false end.

Fixpoint indexed {A} (i : nat) (l : list A) : list (string * A) :=
  match l with
  | [] => []
  | x :: r => (Str.of_nat i, x) :: indexed (S i) r
  end.

(** The pairs [for (const p in v)] visits, for a [v] with
    [typeof v === 'object']. *)
Definition entries (v : value) : list (string * value) :=
  match v with
  | VObj props => Js.ordered props
  | VArr items => indexed 0 items
  | _ => []
  end.

(** The helper [declareNamespace] (lines 833-845). *)
Definition declareNamespace (nsContext : NamespaceContext.t) (node : option xnode)
    (prefix nsURI : string)
  : result (option NamespaceContext.mapping * NamespaceContext.t * option xnode) :=
  match NamespaceContext.declareNamespace prefix nsURI nsContext with
  | (None, c) => Ok (None, c, node)
  | (Some mapping, c) =>
      match node with
      | Some n =>
          if Xml.has_attribute n then
            do n' <- Xml.attribute ("xmlns:" ++ NamespaceContext.prefix mapping)
                       (NamespaceContext.uri mapping) n;
            Ok (Some mapping, c, Some n')
          else Ok (Some mapping, c, node)
      | None => Ok (Some mapping, c, None)
      end
  end.

Definition declare_on (st : sstate) (node : xnode) (prefix nsURI : string)
  : result (option NamespaceContext.mapping * sstate * xnode) :=
  do r <- declareNamespace (s_ns st) (Some node) prefix nsURI;
  match r with
  | (m, c, Some n) => Ok (m, with_sns c st, n)
  | (m, c, None) => Ok (m, with_sns c st, node)
  end.

Definition prefixed (prefix name : string) : string :=
  if String.eqb prefix "" then name else prefix ++ ":" ++ name.

(** [_sortKeys] (lines 260-277) *)
Fixpoint indexOf (n : string) (order : list string) : option nat :=
  match order with
  | [] => None
  | m :: r => if String.eqb m n then Some O else option_map S (indexOf n r)
  end.

Definition compare (n1 n2 : string) (order : list string) : Z :=
  let i1 := match indexOf n1 order with Some i => i | None => List.length order end in
  let i2 := match indexOf n2 order with Some i => i | None => List.length order end in
  (Z.of_nat i1 - Z.of_nat i2)%Z.

Definition key_order (elementOrder keys : list string) (n1 n2 : string) : Z :=
  let result := compare n1 n2 elementOrder in
  if (result =? 0)%Z then compare n1 n2 keys else result.

(** [Array.prototype.sort] with a comparator: a stable sort. *)
Fixpoint sort_insert (cmp : string -> string -> Z) (x : string) (l : list string)
  : list string :=
  match l with
  | [] => [x]
  | y :: r => if (cmp x y <=? 0)%Z then x :: l else y :: sort_insert cmp x r
  end.

Definition sort (cmp : string -> string -> Z) (l : list string) : list string :=
  fold_right (sort_insert cmp) [] l.

Definition _sortKeys (val : list (string * value)) (elementOrder : list string)
  : list string :=
  let keys := Js.keys val in
  sort (key_order elementOrder keys) keys.

(** The property key [child.type] converts to. *)
Definition type_key (child : value) : result string :=
  match child with
  | VUndefined | VNull => Err TypeError
  | VObj props =>
      match Js.own "type" props with
      | Some (VStr s) => Ok s
      | Some VUndefined | None => Ok "undefined"
      | Some VNull => Ok "null"
      | Some (VBool true) => Ok "true"
      | Some (VBool false) => Ok "false"
      | Some (VNum n) => Ok (Str.of_Z n)
      | Some _ => Err Unmodelled
      end
  | _ => Ok "undefined"
  end.

(** The qualified name an xsi-type entry stands for (lines 238-244 and
    356-362). *)
Definition xsi_qname (child : value) : result QName.t :=
  match child with
  | VNull => Err TypeError
  | VStr s => Ok (QName.parse s None)
  | VObj props =>
      match Js.own "type" props with
      | Some (VStr t) =>
          match Js.own "xmlns" props with
          | Some (VStr u) => Ok (QName.parse t (if String.eqb u "" then None else Some u))
          | Some VNull | Some VUndefined | None => Ok (QName.parse t None)
          | Some _ => Err Unmodelled
          end
      | _ => Err Unmodelled
      end
  | _ => Err Unmodelled
  end.

Section Serializer.

Variable toISOString : value -> option string.
Variable self : XMLHandler.

(** [descriptor.refOriginal.typeDescriptor.inheritance[child.type]] *)
Definition extension_of (ds : dstore) (d : descriptor) (child : value)
  : result (option descriptor) :=
  match d_refOriginal d with
  | None => Ok None
  | Some o =>
      match ds !! o with
      | None => Ok None
      | Some od =>
          match d_typeDescriptor od with
          | None => Ok None
          | Some t =>
              match ds !! t with
              | None => Ok None
              | Some td =>
                  match d_inheritance td with
                  | None => Ok None
                  | Some table =>
                      do key <- type_key child;
                      match Js.own key table with
                      | Some x => Ok (ds !! x)
                      | None =>
                          if Js.mem key Js.prototype_members then Err Unmodelled
                          else Ok None
                      end
                  end
              end
          end
      end
  end.

Definition set_elements (els : list did) (d : descriptor) : descriptor :=
  {| d_kind := d_kind d; d_qname := d_qname d; d_type := d_type d; d_form := d_form d;
     d_isMany := d_isMany d; d_isNillable := d_isNillable d; d_isSimple := d_isSimple d;
     d_jsType := d_jsType d; d_elements := els; d_attributes := d_attributes d;
     d_refOriginal := d_refOriginal d; d_typeDescriptor := d_typeDescriptor d;
     d_inheritance := d_inheritance d |}.

(** Lines 173-194: an xsi-type entry among the attributes of the value
    appends the elements of the subtype's extension to
    [descriptor.elements]. *)
Definition extend_step (r : dref) (ds : dstore) (entry : string * value) : result dstore :=
  if String.eqb (fst entry) (xsiTypeKey (opts self)) then
    match deref ds r with
    | None => Err TypeError
    | Some d =>
        do ext <- extension_of ds d (snd entry);
        match ext, r with
        | Some e, Stored id =>
            Ok (<[id := set_elements (d_elements d ++ d_elements e) d]> ds)
        | Some _, Fresh _ => Err Unmodelled
        | None, _ => Ok ds
        end
    end
  else Ok ds.

Definition extend_elements (r : dref) (ds : dstore) (val : value) : result dstore :=
  if is_nullish val then Ok ds
  else
    let attrs := vget (attributesKey (opts self)) val in
    if typeof_object attrs then foldM (extend_step r) (entries attrs) ds
    else Ok ds.

(** The type restriction to enforce (lines 124-140). *)
Definition enforce_restrictions (d : descriptor) (val : value) : value :=
  if enforceRestrictions (opts self) then
    match d_type d with
    | None => val
    | Some t =>
        match schemas self (t_nsURI t) with
        | None => val
        | Some schema =>
            let type := match simpleTypes schema (t_name t) with
                        | Some ty => Some ty
                        | None => t_anonymous t
                        end in
            match type with
            | Some ty =>
                match st_restriction ty with
                | Some r => enforce r val
                | None => val
                end
            | None => val
            end
        end
    end
  else val.

(** [getXsiType] (lines 231-258) *)
Definition getXsiType (attrs : value) : result (option did) :=
  if negb (is_nullish attrs) && typeof_object attrs then
    match Js.own (xsiTypeKey (opts self)) (entries attrs) with
    | Some child =>
        do xsiType <- xsi_qname child;
        match schemas self (QName.nsURI xsiType) with
        | Some schema => Ok (describe schema (QName.name xsiType))
        | None => Ok None
        end
    | None => Ok None
    end
  else Ok None.

(** A table [{}] filled by [table[name] = descriptor]: the last
    descriptor of a name is the one found. *)
Fixpoint table_of (ds : dstore) (ids : list did) (acc : list (string * did))
  : result (list (string * did)) :=
  match ids with
  | [] => Ok acc
  | id :: r =>
      match ds !! id with
      | Some d =>
          match local_name d with
          | Some n => table_of ds r (Js.set n id acc)
          | None => Err TypeError
          end
      | None => Err TypeError
      end
  end.

Fixpoint names_of (ds : dstore) (ids : list did) : result (list string) :=
  match ids with
  | [] => Ok []
  | id :: r =>
      match ds !! id with
      | Some d =>
          match local_name d with
          | Some n => do ns <- names_of ds r; Ok (n :: ns)
          | None => Err TypeError
          end
      | None => Err TypeError
      end
  end.

(** A name of [Object.prototype] looked up in a table [{}] finds the
    built-in member, which is no descriptor of any kind. *)
Definition builtin_object : descriptor :=
  {| d_kind := OtherObject; d_qname := None; d_type := None; d_form := "";
     d_isMany := false; d_isNillable := false; d_isSimple := false; d_jsType := None;
     d_elements := []; d_attributes := []; d_refOriginal := None;
     d_typeDescriptor := None; d_inheritance := None |}.

Definition lookup_table (table : list (string * did)) (p : string) : option dref :=
  match Js.own p table with
  | Some id => Some (Stored id)
  | None => if Js.mem p Js.prototype_members then Some (Fresh builtin_object) else None
  end.

Definition rec_call : Type := sstate -> xnode -> option dref -> value -> result (sstate * xnode).

(** [addAttributes] (lines 344-381) *)
Definition attribute_step (jsonToXml : rec_call) (attributes : list (string * did))
    (acc : sstate * xnode) (entry : string * value) : result (sstate * xnode) :=
  let '(st, node) := acc in
  let '(p, child) := entry in
  if String.eqb p (xsiTypeKey (opts self)) then
    do xsiType <- xsi_qname child;
    do r1 <- declare_on st node "xsi" helper.xsi;
    let '(_, st, node) := r1 in
    do r2 <- declare_on st node (QName.prefix xsiType) (QName.nsURI xsiType);
    let '(mapping, st, node) := r2 in
    let prefix := match mapping with
                  | Some m => NamespaceContext.prefix m
                  | None => QName.prefix xsiType
                  end in
    do node <- Xml.attribute "xsi:type" (prefixed prefix (QName.name xsiType)) node;
    Ok (st, node)
  else
    match lookup_table attributes p with
    | Some childDescriptor => jsonToXml st node (Some childDescriptor) child
    | None =>
        if ignoreUnknownProperties (opts self) then Ok (st, node)
        else jsonToXml st node
               (Some (Fresh (new_AttributeDescriptor (QName.parse p None) "unqualified")))
               child
    end.

Definition addAttributes (jsonToXml : rec_call) (st : sstate) (node : xnode)
    (descriptor : option dref) (attrs : value) : result (sstate * xnode) :=
  do attributes <-
    match descriptor with
    | None => Ok []
    | Some r =>
        match deref (s_ds st) r with
        | Some d => table_of (s_ds st) (d_attributes d) []
        | None => Err TypeError
        end
    end;
  if negb (is_nullish attrs) && typeof_object attrs then
    foldM (attribute_step jsonToXml attributes) (entries attrs) (st, node)
  else Ok (st, node).

(** [mapObject] (lines 287-342) *)
Definition property_step (jsonToXml : rec_call) (val : list (string * value))
    (elements attributes : list (string * did))
    (acc : sstate * xnode) (p : string) : result (sstate * xnode) :=
  let '(st, node) := acc in
  if String.eqb p (attributesKey (opts self)) then Ok (st, node)
  else
    let child := match Js.own p val with Some v => v | None => VUndefined end in
    let childDescriptor :=
      match lookup_table elements p with
      | Some c => Some c
      | None => lookup_table attributes p
      end in
    match childDescriptor with
    | Some c => jsonToXml st node (Some c) child
    | None =>
        if ignoreUnknownProperties (opts self) then Ok (st, node)
        else jsonToXml st node
               (Some (Fresh (new_ElementDescriptor (QName.parse p None) "unqualified"
                               (is_array child))))
               child
    end.

Definition mapObject (jsonToXml : rec_call) (st : sstate) (node : xnode)
    (descriptor : option dref) (val attrs : value) : result (sstate * xnode) :=
  if is_nullish val then Ok (st, node)
  else if is_terminal val then
    do v <- toXmlDateOrTime toISOString
              (match descriptor with Some r => deref (s_ds st) r | None => None end) val;
    do t <- Xml.required_text v;
    do node <- Xml.add_child node (XText t);
    Ok (st, node)
  else
    do xsiType <- getXsiType attrs;
    let descriptor := match xsiType with
                      | Some id => Some (Stored id)
                      | None => descriptor
                      end in
    do tables <-
      match descriptor with
      | None => Ok ([], [], [])
      | Some r =>
          match deref (s_ds st) r with
          | None => Err TypeError
          | Some d =>
              do elements <- table_of (s_ds st) (d_elements d) [];
              do elementOrder <- names_of (s_ds st) (d_elements d);
              do attributes <- table_of (s_ds st) (d_attributes d) [];
              Ok (elements, elementOrder, attributes)
          end
      end;
    let '(elements, elementOrder, attributes) := tables in
    do r <-
      match val with
      | VObj props =>
          foldM (property_step jsonToXml props elements attributes)
                (_sortKeys props elementOrder) (st, node)
      | _ => Ok (st, node)
      end;
    addAttributes jsonToXml (fst r) (snd r) descriptor attrs.

(** The attribute branch of [jsonToXml] (lines 45-58). *)
Definition attribute_branch (st : sstate) (node : xnode) (d : descriptor) (val : value)
  : result (sstate * xnode) :=
  do val <- toXmlDateOrTime toISOString (Some d) val;
  match d_qname d with
  | None => Err TypeError
  | Some qname =>
      let name := QName.name qname in
      if String.eqb (d_form d) "unqualified" then
        do t <- Xml.required_text val;
        do node <- Xml.attribute name t node;
        Ok (st, node)
      else
        do r <- declare_on st node (QName.prefix qname) (QName.nsURI qname);
        let '(mapping, st, node) := r in
        let prefix := match mapping with
                      | Some m => NamespaceContext.prefix m
                      | None => QName.prefix qname
                      end in
        do t <- Xml.required_text val;
        do node <- Xml.attribute (prefixed prefix name) t node;
        Ok (st, node)
  end.

(** The name of the element and the [xmlns] attribute to put on it
    (lines 85-108). *)
Definition element_name (st : sstate) (d : descriptor) (qname : QName.t)
  : result (sstate * string * option string) :=
  if String.eqb (d_form d) "unqualified" then
    Ok (with_sns (NamespaceContext.pushContext (s_ns st)) st, QName.name qname, None)
  else
    let ns := NamespaceContext.pushContext (s_ns st) in
    let mapping := NamespaceContext.getPrefixMapping (QName.nsURI qname) ns in
    let newlyDeclared := match mapping with
                         | None => true
                         | Some m => negb (NamespaceContext.declared m)
                         end in
    do r <- if newlyDeclared
            then declareNamespace ns None (QName.prefix qname) (QName.nsURI qname)
            else Ok (mapping, ns, None);
    let '(mapping, ns, _) := r in
    let prefix := match mapping with
                  | Some m => NamespaceContext.prefix m
                  | None => QName.prefix qname
                  end in
    Ok (with_sns ns st, prefixed prefix (QName.name qname),
        if newlyDeclared
        then Some (if String.eqb prefix "" then "xmlns" else "xmlns:" ++ prefix)
        else None).

(** [/<!\[CDATA/.test(val)]: the test reads [val] as a string. *)
Definition cdata_test (val : value) : result bool :=
  match val with
  | VStr s => Ok (Str.has_cdata_marker s)
  | VArr _ => Err Unmodelled
  | _ => Ok false
  end.

Definition pop_scope (st : sstate) : result sstate :=
  match NamespaceContext.popContext (s_ns st) with
  | Some c => Ok (with_sns c st)
  | None => Err Unmodelled
  end.

(** The element of lines 110-143, not yet attached to [node]. *)
Definition make_element (d : descriptor) (elementName : string) (val : value)
  : result (xnode * value) :=
  do cdata <- if d_isSimple d then cdata_test val else Ok false;
  if cdata then
    match val with
    | VStr s =>
        let s := Str.replace_first "<![CDATA[" "" s in
        let s := Str.replace_first "]]>" "" s in
        do section <- Xml.cdata s;
        Ok (XElement elementName [] [section], VStr s)
    | _ => Err Unmodelled
    end
  else if d_isSimple d && negb (is_nullish val)
          && negb (is_undefined (vget (xmlKey (opts self)) val)) then
    let val := vget (xmlKey (opts self)) val in
    do val <- toXmlDateOrTime toISOString (Some d) val;
    do t <- Xml.required_text val;
    Ok (XElement elementName [] [XRaw t], val)
  else
    let val := enforce_restrictions d val in
    do val <- toXmlDateOrTime toISOString (Some d) val;
    do element <- if d_isSimple d then Xml.element elementName val
                  else Ok (XElement elementName [] []);
    Ok (element, val).

(** The element branch for one value (lines 72-215). *)
Definition element_branch (jsonToXml : rec_call) (st : sstate) (node : xnode)
    (r : dref) (d : descriptor) (val : value) : result (sstate * xnode) :=
  match d_qname d with
  | None => Err TypeError
  | Some qname =>
      let attrs :=
        if negb (is_nullish val) && typeof_object val
           && negb (is_undefined (vget (attributesKey (opts self)) val))
        then Some (vget (attributesKey (opts self)) val) else None in
      let val :=
        if negb (is_nullish val) && typeof_object val
           && negb (is_undefined (vget (valueKey (opts self)) val))
        then vget (valueKey (opts self)) val else val in
      do n <- element_name st d qname;
      let '(st, elementName, xmlns) := n in
      do e <- make_element d elementName val;
      let '(element, val) := e in
      do element <-
        match xmlns with
        | Some x => if String.eqb (QName.nsURI qname) "" then Ok element
                    else Xml.attribute x (QName.nsURI qname) element
        | None => Ok element
        end;
      do r1 <-
        if is_nullish val && d_isNillable d then
          do r0 <- declare_on st element "xsi" helper.xsi;
          let '(_, st, element) := r0 in
          do element <- Xml.attribute "xsi:nil" "true" element;
          Ok (st, element)
        else Ok (st, element);
      let '(st, element) := r1 in
      if d_isSimple d then
        do r2 <- match attrs with
                 | Some a =>
                     if negb (is_nullish a) && typeof_object a
                     then addAttributes jsonToXml st element (Some r) a
                     else Ok (st, element)
                 | None => Ok (st, element)
                 end;
        do st <- pop_scope (fst r2);
        do node <- Xml.add_child node (snd r2);
        Ok (st, node)
      else
        do ds <- extend_elements r (s_ds st) val;
        let st := with_ds ds st in
        if negb (is_nullish val) && is_terminal val then
          do val <- toXmlDateOrTime toISOString (deref (s_ds st) r) val;
          do t <- Xml.required_text val;
          do element <- Xml.add_child element (XText t);
          do r2 <- match attrs with
                   | Some a =>
                       if is_nullish a then Ok (st, element)
                       else addAttributes jsonToXml st element (Some r) a
                   | None => Ok (st, element)
                   end;
          do st <- pop_scope (fst r2);
          do node <- Xml.add_child node (snd r2);
          Ok (st, node)
        else
          do r2 <- mapObject jsonToXml st element (Some r) val
                     (match attrs with Some a => a | None => VNull end);
          do st <- pop_scope (fst r2);
          do node <- Xml.add_child node (snd r2);
          Ok (st, node)
  end.

(** [jsonToXml] (lines 33-224).  The fuel bounds the depth of the
    recursion, which follows the nesting of the value. *)
Fixpoint jsonToXml_fuel (fuel : nat) (st : sstate) (node : xnode)
    (descriptor : option dref) (val : value) : result (sstate * xnode) :=
  match fuel with
  | O => Err OutOfFuel
  | S fuel' =>
      match descriptor with
      | None => mapObject (jsonToXml_fuel fuel') st node None val VUndefined
      | Some r =>
          match deref (s_ds st) r with
          | None => Err TypeError
          | Some d =>
              match d_kind d with
              | AttributeDescriptor => attribute_branch st node d val
              | ElementDescriptor =>
                  match d_isMany d, val with
                  | true, VArr items =>
                      foldM (fun acc v => jsonToXml_fuel fuel' (fst acc) (snd acc) descriptor v)
                            items (st, node)
                  | _, _ => element_branch (jsonToXml_fuel fuel') st node r d val
                  end
              | TypeDescriptor =>
                  mapObject (jsonToXml_fuel fuel') st node descriptor val VUndefined
              | OtherObject => Ok (st, node)
              end
          end
      end
  end.

(** The public entry: a missing node is a new document, a missing
    namespace context a new one. *)
Definition jsonToXml (fuel : nat) (ds : dstore) (node : option xnode)
    (nsContext : option NamespaceContext.t) (descriptor : option dref) (val : value)
  : result (sstate * xnode) :=
  jsonToXml_fuel fuel
    {| s_ds := ds;
       s_ns := match nsContext with Some c => c | None => NamespaceContext.empty end |}
    (match node with Some n => n | None => XDocument [] end)
    descriptor val.

End Serializer.

(** * Notions the statements are phrased with *)

(** The names of a list, each at its first occurrence. *)
Fixpoint first_occurrences (l : list string) : list string :=
  match l with
  | [] => []
  | x :: r => x :: List.filter (fun y => negb (String.eqb y x)) (first_occurrences r)
  end.

(** The order the spec gives for the properties of an object: the
    declared element names that are properties, in declaration order,
    then the other properties in their own order. *)
Definition declared_first (elementOrder keys : list string) : list string :=
  List.filter (fun n => Js.mem n keys) (first_occurrences elementOrder)
  ++ List.filter (fun k => negb (Js.mem k elementOrder)) keys.

(** The pending merge sites of the registry, in the order the end of
    [xmlToJson] visits them, each with the object its id resolved to. *)
Definition merge_sites (refs : list (string * ref)) : list (href * jsval) :=
  flat_map (fun r => map (fun hr => (hr, r_object (snd r))) (r_hrefs (snd r)))
           (Js.ordered refs).

(** The open tags of a document that carry an [href] attribute. *)
Definition has_href (e : event) : bool :=
  match e with
  | OpenTag _ attrs => Js.has_own "href" attrs
  | _ => false
  end.

(** A shallow copy of the own properties of [src] onto [dst]. *)
Definition copy_props (src dst : list (string * jsval)) : list (string * jsval) :=
  fold_left (fun acc k => Js.set k (Js.get k src) acc) (Js.keys src) dst.

(** The namespace scope [onopentag] reads the attributes of an element
    in: a new scope holding the element's namespace declarations. *)
Definition scope_of (s : pstate) (attrs : list (string * string)) : NamespaceContext.t :=
  register_namespaces attrs (NamespaceContext.pushContext (p_ns s)).

Definition in_xsi (ns : NamespaceContext.t) (a : string) : bool :=
  match NamespaceContext.getNamespaceURI (QName.prefix (QName.parse a None)) ns with
  | Some u => String.eqb u helper.xsi
  | None => false
  end.

Definition is_xsi_nil (ns : NamespaceContext.t) (a : string) : bool :=
  in_xsi ns a && String.eqb (QName.name (QName.parse a None)) "nil".

Definition is_xsi_type (ns : NamespaceContext.t) (a : string) : bool :=
  in_xsi ns a && String.eqb (QName.name (QName.parse a None)) "type".

(** An attribute that is neither a namespace declaration nor [xsi:nil]. *)
Definition collected (ns : NamespaceContext.t) (a : string) : bool :=
  negb (Str.is_xmlns a) && negb (is_xsi_nil ns a).

(** The key an attribute is recorded under. *)
Definition attribute_key (self : XMLHandler) (ns : NamespaceContext.t) (a : string) : string :=
  if is_xsi_type ns a then xsiTypeKey (opts self) else QName.name (QName.parse a None).

(** An [xsi:nil] attribute with the value [true]. *)
Definition nil_true (ns : NamespaceContext.t) (attrs : list (string * string)) (a : string)
  : bool :=
  negb (Str.is_xmlns a) && is_xsi_nil ns a
  && match Js.own a attrs with Some t => String.eqb t "true" | None => false end.

(** Whether a property named [k] occurs anywhere in a value. *)
Fixpoint mentions (k : string) (v : value) : bool :=
  match v with
  | VObj props => Js.has_own k props || existsb (fun p => mentions k (snd p)) props
  | VArr items => Js.has_own k (indexed 0 items) || existsb (mentions k) items
  | _ => false
  end.

(** The store [ds'] is [ds] with elements appended to the [elements]
    lists of some descriptors, and nothing else changed. *)
Definition store_grows (ds ds' : dstore) : Prop :=
  List.length ds' = List.length ds
  /\ forall id d, ds !! id = Some d ->
       exists extra, ds' !! id = Some (set_elements (d_elements d ++ extra) d).

(** ** Sample descriptors and values *)

Definition no_iso : value -> option string := fun _ => None.

Definition sample_element (q : QName.t) (form : string) (isMany isNillable isSimple : bool)
    (elements : list did) (refOriginal : option did) : descriptor :=
  {| d_kind := ElementDescriptor; d_qname := Some q; d_type := None; d_form := form;
     d_isMany := isMany; d_isNillable := isNillable; d_isSimple := isSimple;
     d_jsType := None; d_elements := elements; d_attributes := [];
     d_refOriginal := refOriginal; d_typeDescriptor := None; d_inheritance := None |}.

Definition sample_type (elements : list did) (inheritance : option (list (string * did)))
  : descriptor :=
  {| d_kind := TypeDescriptor; d_qname := None; d_type := None; d_form := "";
     d_isMany := false; d_isNillable := false; d_isSimple := false; d_jsType := None;
     d_elements := elements; d_attributes := []; d_refOriginal := None;
     d_typeDescriptor := None; d_inheritance := inheritance |}.

Definition sample_original (typeDescriptor : did) : descriptor :=
  {| d_kind := OtherObject; d_qname := None; d_type := None; d_form := "";
     d_isMany := false; d_isNillable := false; d_isSimple := false; d_jsType := None;
     d_elements := []; d_attributes := []; d_refOriginal := None;
     d_typeDescriptor := Some typeDescriptor; d_inheritance := None |}.

Definition local (n : string) : QName.t := QName.make "" n "".

(** An element [shape] whose original type has the subtype [Circle],
    which adds the element [radius]. *)
Definition shape_store : dstore :=
  [ sample_element (local "shape") "unqualified" false false false [1] (Some 2);
    sample_element (local "name") "unqualified" false false true [] None;
    sample_original 3;
    sample_type [1] (Some [("Circle", 4)]);
    sample_type [5] None;
    sample_element (local "radius") "unqualified" false false true [] None ].

Definition circle : value :=
  VObj [("$attributes",
         VObj [("$xsiType", VObj [("type", VStr "Circle"); ("xmlns", VStr "urn:shapes")])]);
        ("name", VStr "c"); ("radius", VStr "2")].

Definition position (l : list string) (n : string) : nat :=
  match indexOf n l with Some i => i | None => List.length l end.

Definition is_index {A} (p : string * A) : bool :=
  match Js.index_value (fst p) with Some _ => true | None => false end.

Definition sample_object : list (string * value) :=
  [("zip", VStr "z"); ("$attributes", VObj [("id", VStr "7")]); ("b", VStr "2");
   ("extra", VStr "e"); ("a", VStr "1")].

Definition no_nested : heap -> string -> result (heap * jsval) := fun _ _ => Err OutOfFuel.
Definition default_handler : XMLHandler := constructor (fun _ => None) no_options.

Definition promotion_events : list event :=
  [OpenTag "p" []; OpenTag "x" []; Text "1"; CloseTag "x";
   OpenTag "x" []; Text "2"; CloseTag "x"; CloseTag "p"].

Definition sample_parent : frame :=
  {| f_name := Some "p"; f_object := JRef 1; f_descriptor := None; f_id := None |}.
Definition sample_child (o : jsval) : frame :=
  {| f_name := Some "x"; f_object := o; f_descriptor := None; f_id := None |}.
Definition sample_heap : heap := [HObject [("p", JRef 1)]; HObject [("x", JStr "1")]].

Definition nil_attributes : list (string * string) :=
  [("xmlns:xsi", helper.xsi); ("xsi:nil", "true")].

Definition fault_events : list event :=
  [OpenTag "soap:Envelope" [("xmlns:soap", "http://schemas.xmlsoap.org/soap/envelope/")];
   OpenTag "soap:Body" [];
   OpenTag "soap:Fault" [];
   OpenTag "faultcode" []; Text "Server"; CloseTag "faultcode";
   OpenTag "faultstring" []; Text "boom"; CloseTag "faultstring";
   CloseTag "soap:Fault"; CloseTag "soap:Body"; CloseTag "soap:Envelope"].

Definition fault_root : value :=
  VObj [("Envelope",
         VObj [("Body",
                VObj [("Fault",
                       VObj [("faultcode", VStr "Server");
                             ("faultstring", VStr "boom")])])])].

(** What a call raises: the message and the tree of the root it carries. *)
Definition raised (r : result (heap * jsval)) : option (string * option value) :=
  match r with
  | Err (SoapFault m h root) => Some (m, reify (S (List.length h)) h root)
  | _ => None
  end.

Definition pending (refs : list (string * ref)) : nat :=
  list_sum (map (fun r => List.length (r_hrefs (snd r))) refs).

Definition multiref_events : list event :=
  [OpenTag "a" [("id", "1")]; OpenTag "v" []; Text "5"; CloseTag "v"; CloseTag "a";
   OpenTag "b" [("href", "#1")]; CloseTag "b"].

Definition multiref_a : value :=
  VObj [("$attributes", VObj [("id", VStr "1")]); ("v", VStr "5")].

Definition plain_shape : value := VObj [("name", VStr "c")].

(** The order [_sortKeys] sorts by, read on positions: the position of a
    name in the declared order first (undeclared names all come last),
    then the position among the keys. *)
Definition before (order keys : list string) (x y : string) : Prop :=
  (position order x < position order y)%nat
  \/ (position order x = position order y /\ (position keys x <= position keys y)%nat).

(** The attribute map the loop has made so far, if any. *)
Definition map_of (st : attr_loop) (m : list (string * jsval)) : Prop :=
  match al_elementAttributes st with
  | Some ea => al_heap st !! ea = Some (HObject m)
  | None => m = []
  end.


(** What a call may do to the store: it only grows, and it is left as it
    is when restrictions are not enforced and the value holds no
    xsi-type entry. *)
Definition keeps (self : XMLHandler) (ds ds' : dstore) (v : value) : Prop :=
  store_grows ds ds'
  /\ (enforceRestrictions (opts self) = false ->
      mentions (xsiTypeKey (opts self)) v = false -> ds' = ds).

Definition rec_ok (self : XMLHandler) (rec : rec_call) : Prop :=
  forall st node d val st' node',
    rec st node d val = Ok (st', node') -> keeps self (s_ds st) (s_ds st') val.

(** The attributes of [<a xmlns:xsi=... xsi:nil="true" id="7">]. *)
Definition nil_and_id_attributes : list (string * string) :=
  [("xmlns:xsi", helper.xsi); ("xsi:nil", "true"); ("id", "7")].

(** ** The element of a null (lines 85-159) *)

(** The prefix a qualified element is given when its namespace is not
    yet declared: its own, or the first synthetic one. *)
Definition nil_prefix (q : QName.t) : string :=
  if String.eqb (QName.prefix q) "" then "ns1" else QName.prefix q.

Definition nil_name (d : descriptor) (q : QName.t) : string :=
  if String.eqb (d_form d) "unqualified" then QName.name q
  else prefixed (nil_prefix q) (QName.name q).

Definition nil_attrs (d : descriptor) (q : QName.t) : list (string * string) :=
  Js.set "xsi:nil" "true"
    (Js.set "xmlns:xsi" helper.xsi
       (if String.eqb (d_form d) "unqualified" || String.eqb (QName.nsURI q) "" then []
        else [("xmlns:" ++ nil_prefix q, QName.nsURI q)])).

(** A nillable element [note] of the namespace [urn:t]. *)
Definition note_store : dstore :=
  [ sample_element (QName.make "urn:t" "note" "t") "qualified" false true true [] None ].

(** The attributes of the element of a null: the declaration of the
    element's own namespace, if any, that of the XML-Schema-Instance
    namespace, and the nil mark. *)
Definition nil_shape (attrs : list (string * string)) : Prop :=
  attrs = nil_attributes
  \/ exists x u, attrs = (x, u) :: nil_attributes
                 /\ Str.is_xmlns x = true /\ x <> "xmlns:xsi".

(** ** Counting tags *)

Definition is_open (e : event) : bool :=
  match e with OpenTag _ _ => true | _ => false end.

Definition is_close (e : event) : bool :=
  match e with CloseTag _ => true | _ => false end.

Definition opens (es : list event) : nat := List.length (List.filter is_open es).
Definition closes (es : list event) : nat := List.length (List.filter is_close es).

(** The frame [xmlToJson] starts its stack with. *)
Definition root_frame (h : heap) (descriptor : option did) : frame :=
  {| f_name := None; f_object := JRef (List.length h); f_descriptor := descriptor;
     f_id := None |}.

(** The stack is the frames [frames] above the root frame. *)
Definition above (root : frame) (s : pstate) (frames : list frame) : Prop :=
  p_stack s = (frames ++ [root])%list.

(** ** Fault fields that are plain texts *)

(** The part of the SOAP 1.1 message for an optional text field: nothing
    for a missing or empty one. *)
Definition labelled (label : string) (field : option jsval) : string :=
  match field with
  | Some (JStr s) => if String.eqb s "" then "" else label ++ s
  | _ => ""
  end.

(** The part for [detail], which is tested against null only. *)
Definition labelled_detail (label : string) (field : option jsval) : string :=
  match field with
  | Some (JStr s) => label ++ s
  | _ => ""
  end.

Definition text_or_absent (field : option jsval) : Prop :=
  field = None \/ exists s, field = Some (JStr s).

(** ** A sample clock and a typed descriptor *)

Definition sample_iso : value -> option string :=
  fun _ => Some "2020-01-02T03:04:05.000Z".

Definition typed_element (n type : string) : descriptor :=
  {| d_kind := ElementDescriptor; d_qname := Some (local n);
     d_type := Some {| t_name := type; t_nsURI := "http://www.w3.org/2001/XMLSchema";
                       t_anonymous := None |};
     d_form := "unqualified"; d_isMany := false; d_isNillable := false; d_isSimple := true;
     d_jsType := None; d_elements := []; d_attributes := []; d_refOriginal := None;
     d_typeDescriptor := None; d_inheritance := None |}.

(** A handler made with the option [ignoreUnknownProperties]. *)
Definition ignoring_handler : XMLHandler :=
  constructor (fun _ => None)
    {| valueKey := ""; xmlKey := ""; attributesKey := ""; xsiTypeKey := "";
       enforceRestrictions := false; ignoreUnknownProperties := true |}.

(** The declaration a qualified element brings for its own namespace. *)
Definition own_declaration (d : descriptor) (q : QName.t) : list (string * string) :=
  if String.eqb (d_form d) "unqualified" || String.eqb (QName.nsURI q) "" then []
  else [("xmlns:" ++ nil_prefix q, QName.nsURI q)].

(** ** Flat records of texts *)

(** A text that is written and read back as it is: made of characters
    that XML allows, not empty, without white space around it, without
    CDATA marker. *)
Definition good_text (s : string) : bool :=
  negb (String.eqb s "") && String.eqb (Str.trim s) s && negb (Str.has_cdata_marker s)
  && Xml.legal s.

(** A descriptor whose type, if any, is not converted by
    [toXmlDateOrTime]. *)
Definition keeps_text (d : descriptor) : bool :=
  match d_type d with
  | None => true
  | Some t => negb (String.eqb (t_name t) "time") && negb (String.eqb (t_name t) "dateTime")
  end.

Definition is_element (d : descriptor) : bool :=
  match d_kind d with ElementDescriptor => true | _ => false end.

(** The property [k] of the record is a good text, and the table of the
    declared elements has for it an unqualified element descriptor of
    that name. *)
Definition plain_field (self : XMLHandler) (ds : dstore) (elements : list (string * did))
    (props : list (string * value)) (k : string) : bool :=
  match Js.own k props, Js.own k elements with
  | Some (VStr s), Some id =>
      match ds !! id with
      | Some d =>
          good_text s && is_element d && String.eqb (d_form d) "unqualified"
          && match local_name d with Some n => String.eqb n k | None => false end
          && keeps_text d
          && negb (Str.contains ":" k) && negb (Js.mem k Js.prototype_members)
          && negb (String.eqb k (attributesKey (opts self)))
          && negb (String.eqb k (valueKey (opts self)))
      | None => false
      end
  | _, _ => false
  end.

(** The property [k] of the record is a text of characters that XML
    allows, without CDATA marker, and the table of the declared elements
    has for it an unqualified element descriptor of that name. *)
Definition text_field (self : XMLHandler) (ds : dstore) (elements : list (string * did))
    (props : list (string * value)) (k : string) : bool :=
  match Js.own k props, Js.own k elements with
  | Some (VStr s), Some id =>
      match ds !! id with
      | Some d =>
          Xml.legal s && negb (Str.has_cdata_marker s)
          && is_element d && String.eqb (d_form d) "unqualified"
          && match local_name d with Some n => String.eqb n k | None => false end
          && keeps_text d
          && negb (Str.contains ":" k) && negb (Js.mem k Js.prototype_members)
          && negb (String.eqb k (attributesKey (opts self)))
          && negb (String.eqb k (valueKey (opts self)))
      | None => false
      end
  | _, _ => false
  end.

(** The text of a property. *)
Definition text_at (props : list (string * value)) (k : string) : string :=
  match Js.own k props with Some (VStr s) => s | _ => "" end.

Definition field_node (props : list (string * value)) (k : string) : xnode :=
  XElement k [] [XText (text_at props k)].

Definition field_events (props : list (string * value)) (k : string) : list event :=
  [OpenTag k []; Text (text_at props k); CloseTag k].

(** The record with its properties in the order of the names [names]. *)
Definition in_order (props : list (string * value)) (names : list string)
  : list (string * value) :=
  map (fun k => (k, VStr (text_at props k))) names.

(** The properties the parser makes of the fields [names]. *)
Definition read_fields (props : list (string * value)) (names : list string)
  : list (string * jsval) :=
  map (fun k => (k, JStr (text_at props k))) names.

(** What the parser makes of the text of an element: the text without
    the white space around it, and nothing when that is empty. *)
Definition text_as_read (s : string) : jsval :=
  if (String.length (Str.trim s) =? 0)%nat then JUndefined else JStr (Str.trim s).

Definition text_read_back (s : string) : value :=
  if (String.length (Str.trim s) =? 0)%nat then VUndefined else VStr (Str.trim s).

(** The events of a field: an empty text gives no event. *)
Definition field_tokens (props : list (string * value)) (k : string) : list event :=
  OpenTag k []
  :: (if String.eqb (text_at props k) "" then [] else [Text (text_at props k)])
  ++ [CloseTag k].

(** The record as it is read back, its properties in the order of the
    names [names]. *)
Definition read_back (props : list (string * value)) (names : list string)
  : list (string * value) :=
  map (fun k => (k, text_read_back (text_at props k))) names.

(** The descriptor [onopentag] gives the frame of an element [name]
    under the frame [top] (line 648). *)
Definition child_of (ds : dstore) (top : frame) (name : string) : option did :=
  match frame_descriptor ds top with
  | Some d => findElement ds d name
  | None => None
  end.

(** A frame descriptor under which a text is read as it is, and merged
    as one value: none, or one that is not repeatable and whose JavaScript
    type leaves texts alone. *)
Definition reads_text (ds : dstore) (cd : option did) : Prop :=
  match cd with
  | None => True
  | Some id =>
      exists d, ds !! id = Some d /\ d_isMany d = false
                /\ forall t, parseValue (JStr t) (Some d) = JStr t
  end.

(** A frame descriptor that is not repeatable. *)
Definition single (ds : dstore) (cd : option did) : Prop :=
  match cd with
  | None => True
  | Some id => exists d, ds !! id = Some d /\ d_isMany d = false
  end.

(** A record [rec] of the namespace [urn:t] with the fields [a] and [b],
    and a value for it that lists [b] first. *)
Definition record_store : dstore :=
  [ sample_element (QName.make "urn:t" "rec" "t") "qualified" false false false [1; 2] None;
    sample_element (local "a") "unqualified" false false true [] None;
    typed_element "b" "string" ].

Definition record_value : list (string * value) :=
  [("b", VStr "two"); ("a", VStr "one")].

(** The same store with a type whose only element is the record. *)
Definition described_store : dstore := (record_store ++ [sample_type [0%nat] None])%list.

(** A value for it with white space around one text. *)
Definition padded_value : list (string * value) :=
  [("a", VStr " one "); ("b", VStr "two")].

(** ** [parseXml] (lines 460-531)

    The builder's tree is updated in place while the parser's stack
    holds the nodes that are open.  Here the tree is one value and a
    node of the stack is the path to it from the root: the indices of the
    children to follow. *)

Definition children (n : xnode) : list xnode :=
  match n with
  | XDocument c | XElement _ _ c => c
  | _ => []
  end.

Definition with_children (n : xnode) (c : list xnode) : xnode :=
  match n with
  | XDocument _ => XDocument c
  | XElement name attrs _ => XElement name attrs c
  | _ => n
  end.

Fixpoint node_at (p : list nat) (n : xnode) : option xnode :=
  match p with
  | [] => Some n
  | i :: p' =>
      match children n !! i with
      | Some c => node_at p' c
      | None => None
      end
  end.

Fixpoint update_at (p : list nat) (f : xnode -> option xnode) (n : xnode) : option xnode :=
  match p with
  | [] => f n
  | i :: p' =>
      match children n !! i with
      | Some c =>
          match update_at p' f c with
          | Some c' => Some (with_children n (<[i := c']> (children n)))
          | None => None
          end
      | None => None
      end
  end.

(** [node.element(..)], [node.text(..)], [node.cdata(..)]: a new last
    child of a document or an element. *)
Definition append_child (child : xnode) (n : xnode) : option xnode :=
  match n with
  | XDocument c => Some (XDocument (c ++ [child])%list)
  | XElement name attrs c => Some (XElement name attrs (c ++ [child])%list)
  | _ => None
  end.

(** [element.attribute(map)]: one attribute for each entry of the map,
    in the order the map enumerates them. *)
Definition attribute_map (attrs : list (string * string)) : list (string * string) :=
  fold_left (fun acc p => Js.set (fst p) (snd p) acc) (Js.ordered attrs) [].

Inductive failure :=
| AssertionFailed                (* an [assert] of [onclosetag] fails *)
| NoCurrent                      (* [current] is undefined: a TypeError *)
| NotAContainer.                 (* the caller's root is no document and no element *)

Inductive outcome (A : Type) :=
| Done (a : A)
| Raised (e : failure).

Arguments Done {A} a.
Arguments Raised {A} e.

Record builder := {
  b_root : xnode;
  b_stack : list (list nat) }.    (* the current node first *)

Definition grow (st : builder) (p : list nat) (child : xnode) : outcome builder :=
  match update_at p (append_child child) (b_root st) with
  | Some root => Done {| b_root := root; b_stack := b_stack st |}
  | None => Raised NotAContainer
  end.

(** [parser.ontext] and [parser.oncdata]: nothing at the level of the
    document, and nothing for white space. *)
Definition b_text (make : string -> xnode) (st : builder) (text : string) : outcome builder :=
  match b_stack st with
  | [] => Raised NoCurrent
  | p :: _ =>
      match node_at p (b_root st) with
      | Some (XDocument _) => Done st
      | Some (XElement _ _ _) =>
          let text := Str.trim text in
          if String.eqb text "" then Done st else grow st p (make text)
      | _ => Raised NotAContainer
      end
  end.

(** [parser.onopentag]: the new element is the last child of the
    current node, and the current node from now on. *)
Definition b_open (st : builder) (name : string) (attrs : list (string * string))
  : outcome builder :=
  match b_stack st with
  | [] => Raised NoCurrent
  | p :: _ =>
      match node_at p (b_root st) with
      | Some n =>
          match grow st p (XElement name (attribute_map attrs) []) with
          | Done st' =>
              Done {| b_root := b_root st';
                      b_stack := (p ++ [List.length (children n)])%list :: b_stack st |}
          | Raised e => Raised e
          end
      | None => Raised NotAContainer
      end
  end.

(** [parser.onclosetag]: the stack is popped; the node popped is the
    current one, and it has to bear the name of the tag. *)
Definition b_close (st : builder) (nsName : string) : outcome builder :=
  match b_stack st with
  | [] => Raised NoCurrent
  | p :: rest =>
      match node_at p (b_root st) with
      | Some (XElement name _ _) =>
          if String.eqb name nsName then Done {| b_root := b_root st; b_stack := rest |}
          else Raised AssertionFailed
      | Some (XDocument _) => Raised AssertionFailed
      | _ => Raised NotAContainer
      end
  end.

Definition b_handle (st : builder) (e : event) : outcome builder :=
  match e with
  | OpenTag n attrs => b_open st n attrs
  | CloseTag n => b_close st n
  | Text t => b_text XText st t
  | CData t => b_text XCData st t
  end.

Fixpoint b_run (es : list event) (st : builder) : outcome builder :=
  match es with
  | [] => Done st
  | e :: rest =>
      match b_handle st e with
      | Done st' => b_run rest st'
      | Raised x => Raised x
      end
  end.

(** [parseXml(root, xml)] on the events the tokenizer emits for [xml]:
    the tree that is returned.  The callback, which is called later, is
    left out. *)
Definition parseXml_events (root : option xnode) (es : list event) : outcome xnode :=
  let root := match root with Some r => r | None => XDocument [] end in
  match b_run es {| b_root := root; b_stack := [[]] |} with
  | Done st => Done (b_root st)
  | Raised x => Raised x
  end.

(** The trees [parseXml] rebuilds from their events: elements whose
    attributes are in the order an object enumerates them, texts and
    CDATA sections that are not empty and have no white space around
    them, and no text next to another one. *)
Definition trimmed (t : string) : bool :=
  negb (String.eqb t "") && String.eqb (Str.trim t) t.

Definition is_text (n : xnode) : bool :=
  match n with XText _ => true | _ => false end.

Fixpoint apart (c : list xnode) : bool :=
  match c with
  | a :: (b :: _) as r => negb (is_text a && is_text b) && apart r
  | _ => true
  end.

Fixpoint same_attrs (a b : list (string * string)) : bool :=
  match a, b with
  | [], [] => true
  | (k, v) :: a', (k', v') :: b' =>
      String.eqb k k' && String.eqb v v' && same_attrs a' b'
  | _, _ => false
  end.

Fixpoint rebuilt (n : xnode) : bool :=
  match n with
  | XElement _ attrs c =>
      same_attrs (attribute_map attrs) attrs && forallb rebuilt c && apart c
  | XText t | XCData t => trimmed t
  | _ => false
  end.

Fixpoint height (n : xnode) : nat :=
  match n with
  | XDocument c | XElement _ _ c => S (list_max (map height c))
  | _ => 0
  end.

Definition is_container (n : xnode) : bool :=
  match n with XDocument _ | XElement _ _ _ => true | _ => false end.

Definition is_element_node (n : xnode) : bool :=
  match n with XElement _ _ _ => true | _ => false end.

(** [n] with the nodes [cs] as further children. *)
Definition append_children (cs : list xnode) (n : xnode) : option xnode :=
  if is_container n then Some (with_children n (children n ++ cs)%list) else None.

Definition starts_text (es : list event) : bool :=
  match es with Text _ :: _ => true | _ => false end.

(** ** The message of a SOAP 1.2 fault *)

(** The part of the message for a field that is rendered by
    [JSON.stringify]: nothing for a field that is missing or empty. *)
Definition quoted (label : string) (field : option jsval) : string :=
  match field with
  | Some (JStr s) => if String.eqb s "" then "" else " " ++ label ++ Json.quote s
  | _ => ""
  end.

(** ** [createSOAPEnvelope] (lines 383-397)

    The three nodes returned are nodes of one tree: the document
    element, and the header and the body by their paths in it.  A
    missing argument is the empty text.  The XML declaration, which the
    tokenizer reports as no event, is left out. *)

Record envelope := {
  e_doc : xnode;
  e_header : list nat;
  e_body : list nat }.

Definition createSOAPEnvelope (prefix nsURI : string) : result envelope :=
  let prefix := or_default prefix "soap" in
  let doc := XElement (prefix ++ ":Envelope") [] [] in
  let nsURI := or_default nsURI "http://schemas.xmlsoap.org/soap/envelope/" in
  do doc <- Xml.attribute ("xmlns:" ++ prefix) nsURI doc;
  let header := List.length (children doc) in
  do doc <- Xml.add_child doc (XElement (prefix ++ ":Header") [] []);
  let body := List.length (children doc) in
  do doc <- Xml.add_child doc (XElement (prefix ++ ":Body") [] []);
  Ok {| e_doc := doc; e_header := [header]; e_body := [body] |}.

(** ** An element with attributes and a text *)

Definition is_text_value (v : value) : bool :=
  match v with VStr _ => true | _ => false end.

(** An attribute that is written and read as it is: a text of
    characters that XML allows, under an XML name without prefix that is
    no array index, no member of [Object.prototype], no namespace
    declaration and none of the names the parser and the serializer treat
    on their own. *)
Definition plain_attribute (self : XMLHandler) (p : string * value) : bool :=
  is_text_value (snd p) && negb (is_index p) && negb (Str.contains ":" (fst p))
  && negb (Js.mem (fst p) Js.prototype_members)
  && negb (String.eqb (fst p) "xmlns") && negb (String.eqb (fst p) "href")
  && negb (String.eqb (fst p) "id")
  && negb (String.eqb (fst p) (xsiTypeKey (opts self)))
  && Xml.is_name (fst p)
  && match snd p with VStr s => Xml.legal s | _ => false end.

Definition attribute_texts (attrs : list (string * value)) : list (string * string) :=
  map (fun p => (fst p, match snd p with VStr s => s | _ => "" end)) attrs.

Definition read_attributes (texts : list (string * string)) : list (string * jsval) :=
  map (fun p => (fst p, JStr (snd p))) texts.

(** The attributes key and the value key are two keys, and none of them
    is a member of [Object.prototype]. *)
Definition plain_keys (self : XMLHandler) : bool :=
  negb (Js.mem (attributesKey (opts self)) Js.prototype_members)
  && negb (Js.mem (valueKey (opts self)) Js.prototype_members)
  && negb (String.eqb (attributesKey (opts self)) (valueKey (opts self))).

(** A price with its currency. *)
Definition price_store : dstore := [typed_element "price" "decimal"].

Definition price_value : list (string * value) :=
  [("$value", VStr "12.50"); ("note", VStr "dropped");
   ("$attributes", VObj [("currency", VStr "USD"); ("tax", VStr "")])].

(** ** Objects of texts without descriptors *)

Fixpoint distinct (l : list string) : bool :=
  match l with
  | [] => true
  | k :: r => negb (Js.mem k r) && distinct r
  end.

(** A key that is written as an element of its name and read as a
    property of its name: an XML name without prefix, no array index, no
    member of [Object.prototype], and none of the keys of the handler. *)
Definition plain_key (self : XMLHandler) (k : string) : bool :=
  negb (Str.contains ":" k) && negb (Js.mem k Js.prototype_members)
  && match Js.index_value k with None => true | Some _ => false end
  && negb (String.eqb k (attributesKey (opts self)))
  && negb (String.eqb k (valueKey (opts self)))
  && Xml.is_name k.

(** A text of characters that XML allows that is not empty and has no
    white space around it, or an object with one property at least whose
    keys are distinct and plain and whose values are such trees. *)
Fixpoint plain_tree (self : XMLHandler) (v : value) : bool :=
  match v with
  | VStr s => trimmed s && Xml.legal s
  | VObj props =>
      negb (match props with [] => true | _ => false end)
      && distinct (map fst props)
      && forallb (fun p => plain_key self (fst p) && plain_tree self (snd p)) props
  | _ => false
  end.

(** The element a tree is written as under the key [k]. *)
Fixpoint tree_node (k : string) (v : value) : xnode :=
  match v with
  | VObj props => XElement k [] (map (fun p => tree_node (fst p) (snd p)) props)
  | VStr s => XElement k [] [XText s]
  | _ => XElement k [] []
  end.

Fixpoint tree_events (k : string) (v : value) : list event :=
  match v with
  | VObj props =>
      OpenTag k [] :: flat_map (fun p => tree_events (fst p) (snd p)) props ++ [CloseTag k]
  | VStr s => [OpenTag k []; Text s; CloseTag k]
  | _ => [OpenTag k []; CloseTag k]
  end.

Fixpoint depth (v : value) : nat :=
  match v with
  | VObj props => S (list_max (map (fun p => depth (snd p)) props))
  | VArr items => S (list_max (map depth items))
  | _ => 0
  end.

(** The heap value [j] stands for the tree [v], in objects at the
    addresses from [lo] to [hi - 1], nested [n] deep at most; the objects
    of a property lie in a range of their own that leaves out the address
    of the object that holds them. *)
Fixpoint within (n lo hi : nat) (h : heap) (j : jsval) (v : value) : Prop :=
  match n with
  | O => False
  | S n' =>
      match v, j with
      | VStr s, JStr s' => s' = s
      | VObj props, JRef a =>
          (lo <= a < hi)%nat
          /\ exists jprops,
               h !! a = Some (HObject jprops)
               /\ Forall2 (fun jp vp =>
                             fst jp = fst vp
                             /\ exists lo' hi',
                                  (lo <= lo')%nat /\ (hi' <= hi)%nat
                                  /\ ~ (lo' <= a < hi')%nat
                                  /\ within n' lo' hi' h (snd jp) (snd vp))
                    jprops props
      | _, _ => False
      end
  end.

(** The descriptor [mapObject] makes for a property that no descriptor
    declares and that is no array. *)
Definition ad_hoc (k : string) : descriptor :=
  new_ElementDescriptor (QName.parse k None) "unqualified" false.

(** A property of the object at the address [a]: its key, and its
    value in a range of its own between [lo] and [hi]. *)
Definition held (lo hi a : nat) (h : heap) (jp : string * jsval) (vp : string * value)
  : Prop :=
  fst jp = fst vp
  /\ exists lo' hi',
       (lo <= lo')%nat /\ (hi' <= hi)%nat /\ ~ (lo' <= a < hi')%nat
       /\ within (S (hi' - lo')) lo' hi' h (snd jp) (snd vp).

Definition order_value : list (string * value) :=
  [("id", VStr "42");
   ("customer", VObj [("name", VStr "Ann"); ("address", VObj [("city", VStr "Paris")])]);
   ("note", VStr "urgent")].

(** ** The type of an element *)

(** The entry of the type [T] of the namespace [U]. *)
Definition type_entry (T U : string) : value :=
  VObj [("type", VStr T); ("xmlns", VStr U)].

(** The attributes it is written as, on an element that declares no
    namespace of its own, when the namespace of the type is declared
    under the prefix [p]. *)
Definition type_attributes (p T U : string) : list (string * string) :=
  [("xmlns:xsi", helper.xsi); (("xmlns:" ++ p)%string, U);
   ("xsi:type", (p ++ ":" ++ T)%string)].

(** A handler that ignores unknown properties and knows the type
    [Circle] of the namespace [urn:shapes], described by the descriptor 1
    of the store that follows: a shape without elements of its own, and
    the type that declares the radius. *)
Definition typed_handler : XMLHandler :=
  {| schemas := fun u =>
       if String.eqb u "urn:shapes"
       then Some {| simpleTypes := fun _ => None;
                    describe := fun t => if String.eqb t "Circle" then Some 1%nat else None |}
       else None;
     opts := opts ignoring_handler |}.

Definition circle_store : dstore :=
  [ sample_element (local "shape") "unqualified" false false false [] None;
    sample_type [2%nat] None;
    typed_element "radius" "decimal" ].

(** ** Scopes and white space *)

(** The scopes around the current one. *)
Definition enclosing (c : NamespaceContext.t) : option NamespaceContext.t :=
  match c with
  | [] => None
  | _ :: r => Some r
  end.

(** A call that returns leaves the scopes around the current one as
    they were. *)
Definition scope_ok (rec : rec_call) : Prop :=
  forall st node d val st' node',
    rec st node d val = Ok (st', node') -> enclosing (s_ns st') = enclosing (s_ns st).

(** An event with its text trimmed. *)
Definition trim_event (e : event) : event :=
  match e with
  | Text t => Text (Str.trim t)
  | CData t => CData (Str.trim t)
  | _ => e
  end.

Definition is_blank (e : event) : bool :=
  match e with
  | Text t | CData t => String.eqb (Str.trim t) ""
  | _ => false
  end.

(** ** The merge of a closed element (lines 658-677) *)

(** The object of the parent when the merge comes: its own object at the
    address [a], or, when the parent has none yet, the empty object that
    lines 658-660 make for it at the end of the heap. *)
Definition parent_ready (h : heap) (top : frame) (h1 : heap) (top1 : frame) (a : nat)
  : Prop :=
  (f_object top = JRef a /\ h1 = h /\ top1 = top)
  \/ (f_object top = JUndefined /\ h1 = (h ++ [HObject []])%list
      /\ top1 = with_object (JRef (List.length h)) top /\ a = List.length h).

(** The value [v] is what the key [k] holds, or the last item of the
    array that the key holds. *)
Definition merged_at (h : heap) (props : list (string * jsval)) (k : string) (v : jsval)
  : Prop :=
  match Js.own k props with
  | Some x => x = v \/ exists b items, x = JRef b /\ h !! b = Some (HArray (items ++ [v])%list)
  | None => False
  end.

(** A repeatable element [x], a frame for it, and a parent that has no
    object yet. *)
Definition many_store : dstore :=
  [ sample_element (local "x") "unqualified" true false true [] None ].

Definition many_child (o : jsval) : frame :=
  {| f_name := Some "x"; f_object := o; f_descriptor := Some 0%nat; f_id := None |}.

Definition fresh_parent : frame :=
  {| f_name := Some "p"; f_object := JUndefined; f_descriptor := None; f_id := None |}.

(** ** The element of a null, read back *)

(** The frame [onopentag] pushes for an element [name] marked nil, under
    the frame [top]. *)
Definition nil_frame (ds : dstore) (top : frame) (name : string) : frame :=
  {| f_name := Some name;
     f_object := JNull;
     f_descriptor := match frame_descriptor ds top with
                     | Some td => findElement ds td name
                     | None => None
                     end;
     f_id := None |}.

(** A nillable element with a name that every object inherits. *)
Definition inherited_store : dstore :=
  [ sample_element (local "toString") "unqualified" false true true [] None ].

(** ** Objects for the order of the visit *)

(** A type that declares the elements [a], [b], [c], and [a] again. *)
Definition order_store : dstore :=
  [ sample_type [1%nat; 2%nat; 3%nat; 1%nat] None;
    typed_element "a" "string"; typed_element "b" "string"; typed_element "c" "string" ].

(** An object given the key [b], then the key [1]. *)
Definition index_object : list (string * value) := [("b", VStr "x"); ("1", VStr "y")].

(** * Properties *)

(** ** Coercion of a text (lines 847-868) *)

(** C8: [parseValue] coerces a text by the declared type of its
    descriptor.  With the type [date] a text of ten characters is
    returned as it is and any other text becomes the date the [Date]
    constructor reads in it; with the type [boolean] the texts [true] and
    [1] give [true] and every other text gives [false]; with any other
    declared conversion function the result is that function applied to
    the text; with no declared type, or no descriptor at all, the text is
    returned as it is. *)
Theorem parseValue_coerces (text : string) (d : descriptor) :
  (d_jsType d = Some JsDate ->
     (String.length text = 10%nat -> parseValue (JStr text) (Some d) = JStr text)
     /\ (String.length text <> 10%nat -> parseValue (JStr text) (Some d) = JDate text))
  /\ (d_jsType d = Some JsBoolean ->
     (text = "true" \/ text = "1" -> parseValue (JStr text) (Some d) = JBool true)
     /\ (text <> "true" -> text <> "1" -> parseValue (JStr text) (Some d) = JBool false))
  /\ (forall f, d_jsType d = Some (JsFunction f) -> parseValue (JStr text) (Some d) = f text)
  /\ (d_jsType d = None -> parseValue (JStr text) (Some d) = JStr text)
  /\ parseValue (JStr text) None = JStr text.
Proof.
  unfold parseValue.
  split; [intros Hd; rewrite Hd; split; intros Hl|].
  { apply Nat.eqb_eq in Hl. now rewrite Hl. }
  { apply Nat.eqb_neq in Hl. now rewrite Hl. }
  split; [intros Hd; rewrite Hd; split|].
  { now intros [-> | ->]. }
  { intros H1 H2. apply String.eqb_neq in H1, H2. now rewrite H1, H2. }
  split; [intros f Hd; now rewrite Hd|].
  split; [intros Hd; now rewrite Hd|reflexivity].
Qed.

(** *** Membership and positions *)

Lemma mem_In (k : string) (l : list string) : Js.mem k l = true <-> In k l.
Proof.
  unfold Js.mem. rewrite existsb_exists. split.
  - intros (x & Hx & He). apply String.eqb_eq in He. now subst.
  - intros H. exists k. split; [assumption | apply String.eqb_refl].
Qed.

Lemma mem_not_In (k : string) (l : list string) : Js.mem k l = false <-> ~ In k l.
Proof.
  rewrite <- mem_In. destruct (Js.mem k l); split; congruence.
Qed.

Lemma position_cons (x n : string) (l : list string) :
  position (x :: l) n = if String.eqb x n then O else S (position l n).
Proof.
  unfold position. simpl. destruct (String.eqb x n); [reflexivity|].
  now destruct (indexOf n l).
Qed.

Lemma position_lt_In (l : list string) (n : string) :
  (position l n < List.length l)%nat <-> In n l.
Proof.
  induction l as [|x l IH]; simpl.
  - unfold position. simpl. split; [lia | tauto].
  - rewrite position_cons. destruct (String.eqb_spec x n) as [->|Hne].
    + split; [now left | lia].
    + split.
      * intros H. right. apply IH. lia.
      * intros [H|H]; [congruence|]. apply IH in H. lia.
Qed.

Lemma position_le (l : list string) (n : string) : (position l n <= List.length l)%nat.
Proof.
  induction l as [|x l IH]; [unfold position; simpl; lia|].
  rewrite position_cons. destruct (String.eqb x n); simpl; lia.
Qed.

Lemma position_not_In (l : list string) (n : string) :
  ~ In n l -> position l n = List.length l.
Proof.
  intros H. pose proof (position_le l n). pose proof (position_lt_In l n). 
  destruct (Nat.eq_dec (position l n) (List.length l)); [assumption|].
  exfalso. apply H, H1. lia.
Qed.

Lemma position_inj (l : list string) (x y : string) :
  In x l -> position l x = position l y -> x = y.
Proof.
  induction l as [|z l IH]; simpl; [tauto|].
  rewrite !position_cons.
  destruct (String.eqb_spec z x) as [Hx|Hx], (String.eqb_spec z y) as [Hy|Hy];
    intros Hin Hp; try congruence; try discriminate.
  destruct Hin as [?|Hin]; [congruence|]. apply IH; [assumption | lia].
Qed.

(** *** The comparator of [_sortKeys] as an order on positions *)

Lemma compare_position (n1 n2 : string) (l : list string) :
  compare n1 n2 l = (Z.of_nat (position l n1) - Z.of_nat (position l n2))%Z.
Proof. reflexivity. Qed.

Section KeyOrder.

Variables order keys : list string.

Lemma key_order_before (x y : string) :
  (key_order order keys x y <=? 0)%Z = true <-> before order keys x y.
Proof.
  unfold key_order, before. rewrite !compare_position, Z.leb_le.
  destruct (Z.eqb_spec (Z.of_nat (position order x) - Z.of_nat (position order y)) 0); lia.
Qed.

Lemma before_total (x y : string) : before order keys x y \/ before order keys y x.
Proof. unfold before. lia. Qed.

Lemma before_trans (x y z : string) : before order keys x y -> before order keys y z -> before order keys x z.
Proof. unfold before. lia. Qed.

Lemma before_antisym (x y : string) :
  In x keys -> before order keys x y -> before order keys y x -> x = y.
Proof.
  unfold before. intros Hin H1 H2. apply (position_inj keys); [assumption | lia].
Qed.

(** *** The sort *)

Let cmp := key_order order keys.

Lemma sort_insert_perm (x : string) (l : list string) :
  Permutation (sort_insert cmp x l) (x :: l).
Proof.
  induction l as [|y l IH]; simpl; [reflexivity|].
  destruct (cmp x y <=? 0)%Z; [reflexivity|].
  rewrite IH. apply perm_swap.
Qed.

Lemma sort_perm (l : list string) : Permutation (sort cmp l) l.
Proof.
  induction l as [|x l IH]; simpl; [reflexivity|].
  rewrite sort_insert_perm. now constructor.
Qed.

Lemma sort_insert_sorted (x : string) (l : list string) :
  StronglySorted (before order keys) l -> StronglySorted (before order keys) (sort_insert cmp x l).
Proof.
  induction 1 as [|y l Hs IH Hall]; simpl.
  - repeat constructor.
  - destruct (cmp x y <=? 0)%Z eqn:E.
    + apply key_order_before in E. constructor.
      * now constructor.
      * constructor; [assumption|].
        eapply List.Forall_impl; [|exact Hall]. intros z Hz. eapply before_trans; eassumption.
    + assert (Hyx : before order keys y x).
      { destruct (before_total x y) as [H|H]; [|assumption].
        apply key_order_before in H. unfold cmp in E. congruence. }
      constructor; [assumption|].
      rewrite List.Forall_forall. intros z Hz.
      apply (Permutation_in _ (sort_insert_perm x l)) in Hz.
      destruct Hz as [<-|Hz]; [assumption|].
      rewrite List.Forall_forall in Hall. now apply Hall.
Qed.

Lemma sort_sorted (l : list string) : StronglySorted (before order keys) (sort cmp l).
Proof.
  induction l as [|x l IH]; simpl; [constructor|]. now apply sort_insert_sorted.
Qed.

Lemma sorted_perm_unique (l1 l2 : list string) :
  StronglySorted (before order keys) l1 -> StronglySorted (before order keys) l2 ->
  Permutation l1 l2 -> (forall x, In x l1 -> In x keys) -> l1 = l2.
Proof.
  intros H1. revert l2. induction H1 as [|x l1 Hs1 IH Hall1]; intros l2 H2 Hp Hk.
  - apply Permutation_nil in Hp. now subst.
  - destruct H2 as [|y l2 Hs2 Hall2].
    + apply Permutation_sym, Permutation_nil in Hp. discriminate.
    + assert (x = y) as <-.
      { rewrite List.Forall_forall in Hall1, Hall2.
        assert (Hy : In y (x :: l1)) by (eapply Permutation_in; [symmetry; exact Hp | now left]).
        assert (Hx : In x (y :: l2)) by (eapply Permutation_in; [exact Hp | now left]).
        destruct Hy as [?|Hy]; [assumption|].
        destruct Hx as [?|Hx]; [congruence|].
        apply before_antisym; [apply Hk; now left | now apply Hall1 | now apply Hall2]. }
      f_equal. apply IH; [assumption | eapply Permutation_cons_inv; exact Hp |].
      intros z Hz. apply Hk. now right.
Qed.

End KeyOrder.

(** *** The explicit order *)

Lemma first_occurrences_In (l : list string) (x : string) :
  In x (first_occurrences l) <-> In x l.
Proof.
  induction l as [|y l IH]; simpl; [tauto|].
  rewrite List.filter_In, IH. destruct (String.eqb_spec x y) as [->|Hne]; simpl.
  - split; [intros [?|[? ?]]; [now left | discriminate] | intros _; now left].
  - split; [intros [?|[? _]]; tauto | intros [?|?]; [congruence | tauto]].
Qed.

Lemma NoDup_filter' {A} (f : A -> bool) (l : list A) : List.NoDup l -> List.NoDup (List.filter f l).
Proof.
  induction 1 as [|x l Hx Hn IH]; simpl; [constructor|].
  destruct (f x); [constructor; [rewrite List.filter_In; tauto | assumption] | assumption].
Qed.

Lemma first_occurrences_NoDup (l : list string) : List.NoDup (first_occurrences l).
Proof.
  induction l as [|y l IH]; simpl; constructor.
  - rewrite List.filter_In. intros [_ H]. now rewrite String.eqb_refl in H.
  - now apply NoDup_filter'.
Qed.

Lemma StronglySorted_filter' {A} (R : A -> A -> Prop) (f : A -> bool) (l : list A) :
  StronglySorted R l -> StronglySorted R (List.filter f l).
Proof.
  induction 1 as [|x l Hs IH Hall]; simpl; [constructor|].
  destruct (f x); [|assumption]. constructor; [assumption|].
  rewrite List.Forall_forall in *. intros y Hy. apply List.filter_In in Hy. now apply Hall.
Qed.

Lemma StronglySorted_app' {A} (R : A -> A -> Prop) (l1 l2 : list A) :
  StronglySorted R l1 -> StronglySorted R l2 ->
  (forall x y, In x l1 -> In y l2 -> R x y) -> StronglySorted R (l1 ++ l2).
Proof.
  induction 1 as [|x l1 Hs IH Hall]; simpl; intros H2 H12; [assumption|].
  constructor.
  - apply IH; [assumption|]. intros a b Ha Hb. apply H12; [now right | assumption].
  - rewrite List.Forall_forall in *. intros y Hy. apply in_app_or in Hy as [Hy|Hy].
    + now apply Hall.
    + apply H12; [now left | assumption].
Qed.

Lemma StronglySorted_weaken {A} (R S : A -> A -> Prop) (l : list A) :
  (forall x y, In x l -> In y l -> R x y -> S x y) ->
  StronglySorted R l -> StronglySorted S l.
Proof.
  intros HRS H. induction H as [|x l Hs IH Hall]; constructor.
  - apply IH. intros a b Ha Hb. apply HRS; now right.
  - rewrite List.Forall_forall in *. intros y Hy. apply HRS; [now left | now right | now apply Hall].
Qed.

Lemma first_occurrences_sorted (l : list string) :
  StronglySorted (fun a b => (position l a < position l b)%nat) (first_occurrences l).
Proof.
  induction l as [|x l IH]; simpl; [constructor|].
  constructor.
  - eapply StronglySorted_weaken; [|apply StronglySorted_filter', IH].
    intros a b Ha Hb Hlt. apply List.filter_In in Ha as [_ Ha], Hb as [_ Hb].
    apply negb_true_iff in Ha, Hb. rewrite String.eqb_sym in Ha, Hb.
    cbv beta in Hlt |- *. rewrite !position_cons, Ha, Hb. lia.
  - rewrite List.Forall_forall. intros y Hy. apply List.filter_In in Hy as [_ Hy].
    rewrite !position_cons, String.eqb_refl.
    destruct (String.eqb_spec x y) as [->|_]; [|lia].
    now rewrite String.eqb_refl in Hy.
Qed.

Lemma NoDup_positions_sorted (l : list string) :
  List.NoDup l -> StronglySorted (fun a b => (position l a <= position l b)%nat) l.
Proof.
  induction 1 as [|x l Hx Hn IH]; constructor.
  - eapply StronglySorted_weaken; [|exact IH].
    intros a b Ha Hb Hle. cbv beta in Hle |- *. rewrite !position_cons.
    destruct (String.eqb_spec x a) as [->|_]; [contradiction|].
    destruct (String.eqb_spec x b) as [->|_]; [contradiction|]. lia.
  - rewrite List.Forall_forall. intros y Hy. rewrite !position_cons, String.eqb_refl. lia.
Qed.

Lemma declared_first_sorted (order keys : list string) :
  List.NoDup keys -> StronglySorted (before order keys) (declared_first order keys).
Proof.
  intros Hnd. unfold declared_first. apply StronglySorted_app'.
  - apply StronglySorted_filter'.
    eapply StronglySorted_weaken; [|apply first_occurrences_sorted].
    intros x y _ _ H. cbv beta in H. now left.
  - eapply StronglySorted_weaken;
      [|apply StronglySorted_filter', NoDup_positions_sorted, Hnd].
    intros x y Hx Hy H. cbv beta in H.
    apply List.filter_In in Hx as [_ Hx], Hy as [_ Hy].
    apply negb_true_iff, mem_not_In in Hx, Hy.
    right. now rewrite (position_not_In _ _ Hx), (position_not_In _ _ Hy).
  - intros x y Hx Hy. apply List.filter_In in Hx as [Hx _], Hy as [_ Hy].
    rewrite first_occurrences_In in Hx.
    apply negb_true_iff, mem_not_In in Hy.
    left. rewrite (position_not_In _ _ Hy). now apply position_lt_In.
Qed.

Lemma declared_first_perm (order keys : list string) :
  List.NoDup keys -> Permutation (declared_first order keys) keys.
Proof.
  intros Hnd. apply Permutation.NoDup_Permutation; [|assumption|].
  - unfold declared_first. apply List.NoDup_app.
    + apply NoDup_filter', first_occurrences_NoDup.
    + now apply NoDup_filter'.
    + intros x Hx Hy. apply List.filter_In in Hx as [Hx _], Hy as [_ Hy].
      rewrite first_occurrences_In in Hx. apply negb_true_iff, mem_not_In in Hy. tauto.
  - intros x. unfold declared_first. rewrite in_app_iff, !List.filter_In, first_occurrences_In.
    rewrite mem_In, negb_true_iff, mem_not_In.
    destruct (in_dec string_dec x order); tauto.
Qed.

Lemma sort_declared_first (order keys : list string) :
  List.NoDup keys -> sort (key_order order keys) keys = declared_first order keys.
Proof.
  intros Hnd. apply (sorted_perm_unique order keys).
  - apply sort_sorted.
  - now apply declared_first_sorted.
  - rewrite sort_perm. symmetry. now apply declared_first_perm.
  - intros x Hx. eapply Permutation_in; [apply sort_perm | exact Hx].
Qed.

(** *** The enumeration order of own properties *)

Lemma insert_index_perm {A} (n : N) (x : A) (l : list (N * A)) :
  Permutation (Js.insert_index n x l) ((n, x) :: l).
Proof.
  induction l as [|[m y] l IH]; simpl; [reflexivity|].
  destruct (n <? m)%N; [reflexivity|]. rewrite IH. apply perm_swap.
Qed.

Lemma ordered_indices_perm {A} (l : list (string * A)) (acc : list (N * (string * A))) :
  Permutation
    (map snd (fold_left (fun acc p => match Js.index_value (fst p) with
                                      | Some n => Js.insert_index n p acc
                                      | None => acc
                                      end) l acc))
    (map snd acc ++ List.filter is_index l).
Proof.
  revert acc. induction l as [|p l IH]; intros acc; simpl.
  - now rewrite app_nil_r.
  - rewrite IH. unfold is_index at 2. destruct (Js.index_value (fst p)); [|reflexivity].
    rewrite insert_index_perm. simpl. apply Permutation_middle.
Qed.

Lemma filter_partition_perm {A} (f : A -> bool) (l : list A) :
  Permutation (List.filter f l ++ List.filter (fun x => negb (f x)) l) l.
Proof.
  induction l as [|x l IH]; simpl; [reflexivity|].
  destruct (f x); simpl.
  - now constructor.
  - rewrite <- Permutation_middle. now constructor.
Qed.

Lemma ordered_perm {A} (props : list (string * A)) : Permutation (Js.ordered props) props.
Proof.
  unfold Js.ordered. rewrite ordered_indices_perm. simpl.
  rewrite <- (filter_partition_perm is_index props) at 3.
  apply Permutation_app_head.
  rewrite (List.filter_ext _ (fun x => negb (is_index x))); [reflexivity|].
  intros p. unfold is_index. now destruct (Js.index_value (fst p)).
Qed.

Lemma keys_perm {A} (props : list (string * A)) : Permutation (Js.keys props) (map fst props).
Proof. unfold Js.keys. apply Permutation_map, ordered_perm. Qed.

Lemma keys_NoDup {A} (props : list (string * A)) :
  List.NoDup (map fst props) -> List.NoDup (Js.keys props).
Proof.
  intros H. eapply Permutation_NoDup; [symmetry; apply keys_perm | exact H].
Qed.

(** A property that [mapObject] skips is as good as not visited. *)
Lemma property_step_skips (self : XMLHandler) (rec : rec_call)
    (props : list (string * value)) (els attrs : list (string * did))
    (names : list string) (acc : sstate * xnode) :
  foldM (property_step self rec props els attrs) names acc
  = foldM (property_step self rec props els attrs)
      (List.filter (fun p => negb (String.eqb p (attributesKey (opts self)))) names) acc.
Proof.
  revert acc. induction names as [|p names IH]; intros acc; simpl; [reflexivity|].
  destruct (String.eqb p (attributesKey (opts self))) eqn:E; simpl.
  - unfold property_step at 1. destruct acc as [st node]. rewrite E. simpl. apply IH.
  - destruct (property_step self rec props els attrs acc p); simpl; [apply IH | reflexivity].
Qed.

(** Without an array index among the keys, the keys are enumerated in
    insertion order. *)
Lemma ordered_plain {A} (props : list (string * A)) :
  (forall p, In p props -> Js.index_value (fst p) = None) -> Js.ordered props = props.
Proof.
  intros H. unfold Js.ordered.
  assert (Hf : forall acc,
             fold_left (fun acc p => match Js.index_value (fst p) with
                                     | Some n => Js.insert_index n p acc
                                     | None => acc
                                     end) props acc = acc).
  { induction props as [|p props IH]; intros acc; [reflexivity|].
    cbn [fold_left]. rewrite (H p) by now left.
    apply IH. intros q Hq. apply H. now right. }
  rewrite Hf. cbn [map app].
  induction props as [|p props IH]; [reflexivity|].
  cbn [List.filter]. rewrite (H p) by now left.
  f_equal. apply IH.
  - intros q Hq. apply H. now right.
  - intros acc. specialize (Hf acc). cbn [fold_left] in Hf.
    now rewrite (H p) in Hf by now left.
Qed.

(** The names [mapObject] collects are those of the declared elements,
    in their order. *)
Lemma names_of_declared (ds : dstore) (ids : list did) (names : list string) :
  names_of ds ids = Ok names ->
  Forall2 (fun id n => exists e, ds !! id = Some e /\ local_name e = Some n) ids names.
Proof.
  revert names. induction ids as [|id ids IH]; intros names H; cbn [names_of] in H.
  - injection H as <-. constructor.
  - destruct (ds !! id) as [e|] eqn:He; [|discriminate].
    destruct (local_name e) as [n|] eqn:Hn; [|discriminate].
    destruct (names_of ds ids) as [ns|] eqn:Hns; [|discriminate].
    cbn [bind] in H. injection H as <-. constructor; [|now apply IH].
    exists e. now split.
Qed.

(** The loop of [mapObject] over an object, by the names it visits. *)
Lemma mapObject_visits (toISOString : value -> option string) (self : XMLHandler)
    (rec : rec_call) (st : sstate) (node : xnode) (d : descriptor)
    (descriptor : option dref) (props : list (string * value)) (attrs : value)
    (xsiType : option did) (r : dref)
    (elements attributes : list (string * did)) (elementOrder : list string) :
  List.NoDup (map fst props) ->
  getXsiType self attrs = Ok xsiType ->
  match xsiType with Some id => Some (Stored id) | None => descriptor end = Some r ->
  deref (s_ds st) r = Some d ->
  table_of (s_ds st) (d_elements d) [] = Ok elements ->
  names_of (s_ds st) (d_elements d) = Ok elementOrder ->
  table_of (s_ds st) (d_attributes d) [] = Ok attributes ->
  mapObject toISOString self rec st node descriptor (VObj props) attrs
  = (do acc <- foldM (property_step self rec props elements attributes)
                 (List.filter (fun p => negb (String.eqb p (attributesKey (opts self))))
                    (declared_first elementOrder (Js.keys props))) (st, node);
     addAttributes self rec (fst acc) (snd acc) (Some r) attrs).
Proof.
  intros Hnd Hxsi Hr Hd Hel Hnames Hat.
  unfold mapObject. cbn [is_nullish is_terminal]. rewrite Hxsi. cbn [bind].
  rewrite Hr, Hd, Hel, Hnames, Hat. cbn [bind].
  rewrite property_step_skips.
  unfold _sortKeys. rewrite sort_declared_first by now apply keys_NoDup.
  reflexivity.
Qed.

(** C9: the order in which [mapObject] visits the properties of an
    object (its keys are distinct) that it maps with a descriptor, the
    one of the type named under the type key when there is one: the loop
    calls [jsonToXml] for the properties that bear a declared element
    name first, in the declaration order of the descriptor, then for all
    the other properties but the attributes key, in the order the object
    enumerates them; then come the attributes.  The enumeration order is
    the insertion order when no key is an array index.  The sort of
    [_sortKeys] being stable, equal ranks keep the enumeration order. *)
Theorem mapObject_declared_first (toISOString : value -> option string) (self : XMLHandler)
    (rec : rec_call) (st : sstate) (node : xnode) (d : descriptor)
    (descriptor : option dref) (props : list (string * value)) (attrs : value)
    (xsiType : option did) (r : dref)
    (elements attributes : list (string * did)) (elementOrder : list string) :
  List.NoDup (map fst props) ->
  getXsiType self attrs = Ok xsiType ->
  match xsiType with Some id => Some (Stored id) | None => descriptor end = Some r ->
  deref (s_ds st) r = Some d ->
  table_of (s_ds st) (d_elements d) [] = Ok elements ->
  names_of (s_ds st) (d_elements d) = Ok elementOrder ->
  table_of (s_ds st) (d_attributes d) [] = Ok attributes ->
  let visited :=
    List.filter (fun p => negb (String.eqb p (attributesKey (opts self))))
      (List.filter (fun n => Js.mem n (Js.keys props)) (first_occurrences elementOrder)
       ++ List.filter (fun k => negb (Js.mem k elementOrder)) (Js.keys props)) in
  mapObject toISOString self rec st node descriptor (VObj props) attrs
  = (do acc <- foldM (property_step self rec props elements attributes) visited (st, node);
     addAttributes self rec (fst acc) (snd acc) (Some r) attrs)
  /\ Forall2 (fun id n => exists e, s_ds st !! id = Some e /\ local_name e = Some n)
       (d_elements d) elementOrder
  /\ ((forall p, In p props -> Js.index_value (fst p) = None) ->
      Js.keys props = map fst props)
  /\ _sortKeys props elementOrder = declared_first elementOrder (Js.keys props).
Proof.
  intros Hnd Hxsi Hr Hd Hel Hnames Hat visited.
  split; [|split; [|split]].
  - now apply (mapObject_visits toISOString self rec st node d descriptor props attrs
                 xsiType r elements attributes elementOrder).
  - now apply names_of_declared.
  - intros Hp. unfold Js.keys. now rewrite ordered_plain.
  - unfold _sortKeys. apply sort_declared_first, keys_NoDup, Hnd.
Qed.

Lemma mapObject_declared_first_witness :
  let rec0 : rec_call := fun st node _ _ => Ok (st, node) in
  let st0 := {| s_ds := order_store; s_ns := NamespaceContext.empty |} in
  mapObject sample_iso default_handler rec0 st0 (XElement "e" [] []) (Some (Stored 0))
    (VObj sample_object) VUndefined
  = (do acc <- foldM (property_step default_handler rec0 sample_object
                        [("a", 1%nat); ("b", 2%nat); ("c", 3%nat)] [])
                 ["a"; "b"; "zip"; "extra"] (st0, XElement "e" [] []);
     addAttributes default_handler rec0 (fst acc) (snd acc) (Some (Stored 0)) VUndefined).
Proof.
  intros rec0 st0.
  refine (proj1 (mapObject_declared_first sample_iso default_handler rec0 st0
                   (XElement "e" [] []) (sample_type [1%nat; 2%nat; 3%nat; 1%nat] None)
                   (Some (Stored 0)) sample_object VUndefined None (Stored 0)
                   [("a", 1%nat); ("b", 2%nat); ("c", 3%nat)] [] ["a"; "b"; "c"; "a"]
                   _ eq_refl eq_refl eq_refl eq_refl eq_refl eq_refl)).
  repeat constructor; simpl; intuition discriminate.
Defined.

(** C9, to the contrary of the claim as worded: a key that is an array
    index is enumerated before the keys inserted before it.  In an object
    given the key [b] and then the key [1], and mapped without declared
    elements, the loop calls [jsonToXml] for [1] first. *)
Lemma index_key_is_visited_first :
  map fst index_object = ["b"; "1"]
  /\ _sortKeys index_object [] = ["1"; "b"]
  /\ forall (rec : rec_call) st node,
       mapObject sample_iso default_handler rec st node None (VObj index_object) VUndefined
       = (do acc <- rec st node
                      (Some (Fresh (new_ElementDescriptor (QName.parse "1" None)
                                      "unqualified" false))) (VStr "y");
          do acc <- rec (fst acc) (snd acc)
                      (Some (Fresh (new_ElementDescriptor (QName.parse "b" None)
                                      "unqualified" false))) (VStr "x");
          Ok acc).
Proof.
  split; [reflexivity|]. split; [reflexivity|].
  intros rec st node. unfold mapObject.
  cbn [is_nullish is_terminal getXsiType bind negb andb typeof_object].
  change (_sortKeys index_object []) with ["1"; "b"].
  assert (H1 : forall acc,
             property_step default_handler rec index_object [] [] acc "1"
             = rec (fst acc) (snd acc)
                 (Some (Fresh (new_ElementDescriptor (QName.parse "1" None) "unqualified"
                                 false))) (VStr "y")).
  { now intros [st0 node0]. }
  assert (Hb : forall acc,
             property_step default_handler rec index_object [] [] acc "b"
             = rec (fst acc) (snd acc)
                 (Some (Fresh (new_ElementDescriptor (QName.parse "b" None) "unqualified"
                                 false))) (VStr "x")).
  { now intros [st0 node0]. }
  cbn [foldM]. rewrite H1. cbn [fst snd].
  destruct (rec st node _ (VStr "y")) as [acc|e]; [|reflexivity].
  cbn [bind]. rewrite Hb.
  destruct (rec (fst acc) (snd acc) _ (VStr "x")) as [acc'|e]; [|reflexivity].
  cbn [bind]. unfold addAttributes. destruct acc' as [st2 node2]. reflexivity.
Qed.

Open Scope list_scope.

(** *** Fault fields that are texts *)

Lemma str_app_assoc (a b c : string) : ((a ++ b) ++ c)%string = (a ++ b ++ c)%string.
Proof. induction a as [|x a IH]; [reflexivity|]. cbn. now rewrite IH. Qed.

Lemma str_app_empty (a : string) : (a ++ "")%string = a.
Proof. induction a as [|c a IH]; [reflexivity|]. cbn. now rewrite IH. Qed.

(** A field of the fault that is a text or missing is read as it is. *)
Lemma fault_field_text (h : heap) (a : nat) (props : list (string * jsval)) (f : string) :
  h !! a = Some (HObject props) ->
  text_or_absent (Js.own f props) ->
  fault_field h f (JRef a)
  = match Js.own f props with Some v => v | None => JUndefined end.
Proof.
  intros Ha Hf. unfold fault_field. cbn [selectn]. unfold Js.member. rewrite Ha.
  destruct Hf as [->|[s ->]]; reflexivity.
Qed.

Lemma soap11_texts (h : heap) (a : nat) (props : list (string * jsval)) (code : string) :
  h !! a = Some (HObject props) ->
  Js.own "faultcode" props = Some (JStr code) ->
  code <> "" ->
  text_or_absent (Js.own "faultstring" props) ->
  text_or_absent (Js.own "faultactor" props) ->
  text_or_absent (Js.own "detail" props) ->
  getSoap11FaultErrorMessage h (JRef a)
  = Ok (Some ("faultcode: " ++ code
              ++ labelled " faultstring: " (Js.own "faultstring" props)
              ++ labelled " faultactor: " (Js.own "faultactor" props)
              ++ labelled_detail " detail: " (Js.own "detail" props))%string).
Proof.
  intros Ha Hcode Hne Hs Hact Hdet. unfold getSoap11FaultErrorMessage.
  rewrite (fault_field_text h a props "faultcode" Ha) by (right; eauto).
  rewrite (fault_field_text h a props "faultstring" Ha Hs).
  rewrite (fault_field_text h a props "faultactor" Ha Hact).
  rewrite (fault_field_text h a props "detail" Ha Hdet).
  rewrite Hcode. cbn [Js.truthy is_string text_of].
  apply String.eqb_neq in Hne. rewrite Hne. cbn [negb].
  unfold plain_or_dump, labelled, labelled_detail.
  destruct Hs as [->|[s ->]], Hact as [->|[t ->]], Hdet as [->|[d ->]];
    cbn [Js.truthy Js.not_nullish is_string text_of andb negb bind];
    repeat match goal with
           | |- context [String.eqb ?x ""] => destruct (String.eqb x "")
           end;
    cbn [negb andb bind]; rewrite ?str_app_assoc, ?str_app_empty; reflexivity.
Qed.

(** Without a fault code there is no SOAP 1.1 message. *)
Lemma soap11_none (h : heap) (a : nat) (props : list (string * jsval)) :
  h !! a = Some (HObject props) ->
  Js.own "faultcode" props = None ->
  getSoap11FaultErrorMessage h (JRef a) = Ok None.
Proof.
  intros Ha Hfc. unfold getSoap11FaultErrorMessage.
  rewrite (fault_field_text h a props "faultcode" Ha) by now left.
  now rewrite Hfc.
Qed.

Lemma dump_text (h : heap) (s : string) : Json.dump h (JStr s) = Ok (Json.quote s).
Proof. unfold Json.dump, Json.stringify. now destruct (List.length h). Qed.

(** A field that is a text or missing adds its quoted text under its
    label, and nothing when it is missing or empty. *)
Lemma dump_if_text (h : heap) (label : string) (f : option jsval) (msg : string) :
  text_or_absent f ->
  dump_if h label (match f with Some v => v | None => JUndefined end) msg
  = Ok (msg ++ quoted label f)%string.
Proof.
  intros [->|[s ->]]; unfold dump_if, quoted; cbn [Js.truthy].
  - now rewrite str_app_empty.
  - destruct (String.eqb s ""); cbn [negb]; [now rewrite str_app_empty|].
    now rewrite dump_text.
Qed.

(** The lower-case path [reason.$value] finds nothing in a text. *)
Lemma reason_field (h : heap) (a : nat) (props : list (string * jsval)) :
  h !! a = Some (HObject props) ->
  text_or_absent (Js.own "reason" props) ->
  text_or_absent (Js.own "Reason" props) ->
  Js.or (selectn h ["reason"; "$value"] (JRef a)) (selectn h ["Reason"] (JRef a))
  = match Js.own "Reason" props with Some v => v | None => JUndefined end.
Proof.
  intros Ha Hl Hr. cbn [selectn]. unfold Js.member. rewrite Ha.
  destruct Hl as [->|[s ->]]; reflexivity.
Qed.

Lemma soap12_texts (h : heap) (a : nat) (props : list (string * jsval)) (code : string) :
  h !! a = Some (HObject props) ->
  Js.own "Code" props = Some (JStr code) ->
  code <> "" ->
  text_or_absent (Js.own "Value" props) ->
  text_or_absent (Js.own "Subcode" props) ->
  text_or_absent (Js.own "reason" props) ->
  text_or_absent (Js.own "Reason" props) ->
  text_or_absent (Js.own "Node" props) ->
  text_or_absent (Js.own "Role" props) ->
  text_or_absent (Js.own "Detail" props) ->
  getSoap12FaultErrorMessage h (JRef a)
  = Ok (Some (" Code: " ++ Json.quote code
              ++ quoted "Value: " (Js.own "Value" props)
              ++ quoted "Subcode: " (Js.own "Subcode" props)
              ++ quoted "Reason: " (Js.own "Reason" props)
              ++ quoted "Node: " (Js.own "Node" props)
              ++ quoted "Role: " (Js.own "Role" props)
              ++ labelled_detail " Detail: " (Js.own "Detail" props))%string).
Proof.
  intros Ha Hcode Hne Hv Hs Hl Hr Hn Hro Hd.
  unfold getSoap12FaultErrorMessage.
  rewrite (reason_field h a props Ha Hl Hr).
  rewrite (fault_field_text h a props "Value" Ha Hv).
  rewrite (fault_field_text h a props "Subcode" Ha Hs).
  rewrite (fault_field_text h a props "Node" Ha Hn).
  rewrite (fault_field_text h a props "Role" Ha Hro).
  rewrite (fault_field_text h a props "Detail" Ha Hd).
  cbn [selectn]. unfold Js.member. rewrite Ha, Hcode.
  unfold Js.or. cbn [Js.truthy].
  apply String.eqb_neq in Hne. rewrite Hne. cbn [negb].
  cbn [Js.truthy]. rewrite Hne. cbn [negb].
  rewrite dump_text. cbn [bind].
  rewrite (dump_if_text h "Value: " _ _ Hv). cbn [bind].
  rewrite (dump_if_text h "Subcode: " _ _ Hs). cbn [bind].
  rewrite (dump_if_text h "Reason: " _ _ Hr). cbn [bind].
  rewrite (dump_if_text h "Node: " _ _ Hn). cbn [bind].
  rewrite (dump_if_text h "Role: " _ _ Hro). cbn [bind].
  unfold plain_or_dump, labelled_detail.
  change (" " ++ "Code: " ++ Json.quote code)%string
    with (" Code: " ++ Json.quote code)%string.
  destruct Hd as [->|[d ->]]; cbn [Js.not_nullish is_string text_of bind];
    rewrite ?str_app_assoc, ?str_app_empty; reflexivity.
Qed.

(** Without a [Code] there is no SOAP 1.2 message. *)
Lemma soap12_none (h : heap) (a : nat) (props : list (string * jsval)) :
  h !! a = Some (HObject props) ->
  Js.own "Code" props = None ->
  getSoap12FaultErrorMessage h (JRef a) = Ok None.
Proof.
  intros Ha Hc. unfold getSoap12FaultErrorMessage.
  cbn [selectn]. unfold Js.member. now rewrite Ha, Hc.
Qed.

(** *** Own properties *)

Lemma own_set_eq {A} (k : string) (v : A) (l : list (string * A)) :
  Js.own k (Js.set k v l) = Some v.
Proof.
  induction l as [|[k' v'] l IH]; simpl.
  - now rewrite String.eqb_refl.
  - destruct (String.eqb k k') eqn:E; simpl; rewrite ?String.eqb_refl, ?E; auto.
Qed.

Lemma own_set_ne {A} (k j : string) (v : A) (l : list (string * A)) :
  j <> k -> Js.own j (Js.set k v l) = Js.own j l.
Proof.
  intros Hne. apply String.eqb_neq in Hne.
  induction l as [|[k' v'] l IH]; simpl.
  - now rewrite Hne.
  - destruct (String.eqb k k') eqn:E; simpl.
    + apply String.eqb_eq in E. subst k'. now rewrite Hne.
    + now rewrite IH.
Qed.

Lemma get_own (k : string) (v : jsval) (l : list (string * jsval)) :
  Js.own k l = Some v -> Js.get k l = v.
Proof. unfold Js.get. now intros ->. Qed.

Lemma has_own_has (k : string) (v : jsval) (l : list (string * jsval)) :
  Js.own k l = Some v -> Js.has k l = true.
Proof. unfold Js.has, Js.has_own. now intros ->. Qed.

(** *** Heap updates *)

Lemma heap_set_ok (h : heap) (a : nat) (k : string) (v : jsval) (props : list (string * jsval)) :
  h !! a = Some (HObject props) -> k <> "__proto__" ->
  heap_set h a k v = Ok (<[a := HObject (Js.set k v props)]> h).
Proof.
  intros Ha Hk. unfold heap_set. rewrite Ha.
  apply String.eqb_neq in Hk. now rewrite Hk.
Qed.

Lemma heap_set_inv (h h' : heap) (a : nat) (k : string) (v : jsval) :
  heap_set h a k v = Ok h' ->
  exists props, h !! a = Some (HObject props)
                /\ h' = <[a := HObject (Js.set k v props)]> h.
Proof.
  unfold heap_set. destruct (h !! a) as [[props|items]|]; try discriminate.
  destruct (String.eqb k "__proto__"); [discriminate|].
  intros [= <-]. now exists props.
Qed.

Lemma has_false_not_proto (k : string) (props : list (string * jsval)) :
  Js.has k props = false -> k <> "__proto__".
Proof.
  unfold Js.has. intros H ->. apply orb_false_iff in H as [_ H]. discriminate.
Qed.

(** *** The merge of a closed element *)

(** A parent without object gets an empty one first (lines 658-660). *)
Lemma merge_child_undefined (ds : dstore) (h : heap) (top current : frame) (n : string) :
  f_object top = JUndefined ->
  merge_child ds h top current n
  = merge_child ds (h ++ [HObject []])%list (with_object (JRef (List.length h)) top) current n.
Proof.
  intros Htop. unfold merge_child. rewrite Htop. reflexivity.
Qed.

Section MergeChild.

Variables (ds : dstore) (h : heap) (top current : frame) (elementName : string).
Variables (a : nat) (props : list (string * jsval)).
Hypothesis Htop : f_object top = JRef a.
Hypothesis Ha : h !! a = Some (HObject props).

Lemma parent_after_alloc (o : hobj) : (h ++ [o])%list !! a = Some (HObject props).
Proof.
  rewrite lookup_app_l; [exact Ha|]. eapply lookup_lt_Some; exact Ha.
Qed.

Lemma merge_child_absent :
  Js.has elementName props = false ->
  merge_child ds h top current elementName
  = Ok (if is_many ds current
        then (<[a := HObject (Js.set elementName (JRef (List.length h)) props)]>
                (h ++ [HArray [f_object current]])%list, top)
        else (<[a := HObject (Js.set elementName (f_object current) props)]> h, top)).
Proof.
  intros Hhas. unfold merge_child. rewrite Htop. cbv beta iota zeta. rewrite Htop. rewrite Ha, Hhas.
  pose proof (has_false_not_proto _ _ Hhas) as Hk.
  destruct (is_many ds current).
  - now rewrite (heap_set_ok _ _ _ _ _ (parent_after_alloc _) Hk).
  - now rewrite (heap_set_ok _ _ _ _ _ Ha Hk).
Qed.

Lemma merge_child_append (b : nat) (items : list jsval) :
  Js.has elementName props = true ->
  Js.get elementName props = JRef b -> h !! b = Some (HArray items) ->
  merge_child ds h top current elementName
  = Ok (<[b := HArray (items ++ [f_object current])]> h, top).
Proof.
  intros Hhas Hget Hb. unfold merge_child. rewrite Htop. cbv beta iota zeta.
  now rewrite Htop, Ha, Hhas, Hget, Hb.
Qed.

Lemma merge_child_promote :
  Js.has elementName props = true ->
  elementName <> "__proto__" ->
  (forall b items, Js.get elementName props = JRef b -> h !! b <> Some (HArray items)) ->
  merge_child ds h top current elementName
  = Ok (<[a := HObject (Js.set elementName (JRef (List.length h)) props)]>
          (h ++ [HArray [Js.get elementName props; f_object current]])%list, top).
Proof.
  intros Hhas Hk Hnot. unfold merge_child. rewrite Htop. cbv beta iota zeta. rewrite Htop, Ha, Hhas.
  destruct (Js.get elementName props) as [| |? |? |? |? |? |b] eqn:Hget;
    try (now rewrite (heap_set_ok _ _ _ _ _ (parent_after_alloc _) Hk)).
  destruct (h !! b) as [[|items]|] eqn:Hb;
    try (now rewrite (heap_set_ok _ _ _ _ _ (parent_after_alloc _) Hk)).
  exfalso. exact (Hnot b items eq_refl Hb).
Qed.

(** Whatever the case, the parent holds the object of the child
    afterwards. *)
Lemma merge_child_holds (h' : heap) (top' : frame) :
  merge_child ds h top current elementName = Ok (h', top') ->
  top' = top
  /\ exists props',
       h' !! a = Some (HObject props')
       /\ merged_at h' props' elementName (f_object current).
Proof.
  assert (Hlt : (a < List.length h)%nat) by (eapply lookup_lt_Some; exact Ha).
  assert (Hpair : forall val,
             (do h1 <- heap_set (h ++ [HArray [val; f_object current]])%list a elementName
                         (JRef (List.length h));
              Ok (h1, top)) = Ok (h', top') ->
             top' = top
             /\ exists props',
                  h' !! a = Some (HObject props')
                  /\ merged_at h' props' elementName (f_object current)).
  { intros val H.
    destruct (heap_set _ a elementName _) as [h1|] eqn:Hset; [|discriminate].
    cbn [bind] in H. injection H as <- <-. split; [reflexivity|].
    apply heap_set_inv in Hset as (props0 & Ha0 & ->).
    rewrite parent_after_alloc in Ha0. injection Ha0 as <-.
    exists (Js.set elementName (JRef (List.length h)) props). split.
    - apply list_lookup_insert_eq. rewrite length_app. cbn. lia.
    - unfold merged_at. rewrite own_set_eq. right.
      exists (List.length h), [val]. split; [reflexivity|].
      rewrite list_lookup_insert_ne by lia.
      now rewrite list_lookup_middle. }
  destruct (Js.has elementName props) eqn:Hhas.
  - unfold merge_child. rewrite Htop. cbv beta iota zeta. rewrite Htop, Ha, Hhas.
    destruct (Js.get elementName props) as [| |? |? |? |? |? |b] eqn:Hget;
      try apply Hpair.
    destruct (h !! b) as [[|items]|] eqn:Hb; try apply Hpair.
    intros [= <- <-]. split; [reflexivity|].
    assert (Hab : a <> b) by (intros ->; congruence).
    exists props. split; [now rewrite list_lookup_insert_ne by congruence|].
    unfold merged_at. unfold Js.get in Hget.
    destruct (Js.own elementName props) as [x|].
    + subst x. right. exists b, items. split; [reflexivity|].
      apply list_lookup_insert_eq. eapply lookup_lt_Some; exact Hb.
    + destruct (Js.mem elementName Js.prototype_members); discriminate.
  - rewrite (merge_child_absent Hhas).
    pose proof (has_false_not_proto _ _ Hhas) as Hk.
    destruct (is_many ds current); intros [= <- <-]; (split; [reflexivity|]).
    + exists (Js.set elementName (JRef (List.length h)) props). split.
      * apply list_lookup_insert_eq. rewrite length_app. cbn. lia.
      * unfold merged_at. rewrite own_set_eq. right.
        exists (List.length h), []. split; [reflexivity|].
        rewrite list_lookup_insert_ne by lia.
        now rewrite list_lookup_middle.
    + exists (Js.set elementName (f_object current) props). split.
      * now apply list_lookup_insert_eq.
      * unfold merged_at. rewrite own_set_eq. now left.
Qed.

End MergeChild.

(** The flag [current.descriptor && current.descriptor.isMany] of line
    672, read off the store. *)
Lemma is_many_flag (ds : dstore) (current : frame) :
  is_many ds current
  = match f_descriptor current with
    | Some id => match ds !! id with Some d => d_isMany d | None => false end
    | None => false
    end.
Proof.
  unfold is_many, frame_descriptor.
  destruct (f_descriptor current) as [id|]; [|reflexivity].
  now destruct (ds !! id).
Qed.

(** The three cases of the merge, for a parent that holds an object or
    is given an empty one first. *)
Lemma merge_child_cases (ds : dstore) (h : heap) (top current : frame)
    (elementName : string) (a : nat) (props : list (string * jsval))
    (h1 : heap) (top1 : frame) :
  parent_ready h top h1 top1 a ->
  h1 !! a = Some (HObject props) ->
  let v := f_object current in
  let repeatable :=
    match f_descriptor current with
    | Some id => match ds !! id with Some d => d_isMany d | None => false end
    | None => false
    end in
  (Js.has elementName props = false ->
     merge_child ds h top current elementName
     = Ok (if repeatable
           then (<[a := HObject (Js.set elementName (JRef (List.length h1)) props)]>
                   (h1 ++ [HArray [v]])%list, top1)
           else (<[a := HObject (Js.set elementName v props)]> h1, top1)))
  /\ (forall b items,
        Js.has elementName props = true ->
        Js.get elementName props = JRef b -> h1 !! b = Some (HArray items) ->
        merge_child ds h top current elementName
        = Ok (<[b := HArray (items ++ [v])]> h1, top1))
  /\ (Js.has elementName props = true ->
      elementName <> "__proto__" ->
      (forall b items, Js.get elementName props = JRef b -> h1 !! b <> Some (HArray items)) ->
      merge_child ds h top current elementName
      = Ok (<[a := HObject (Js.set elementName (JRef (List.length h1)) props)]>
              (h1 ++ [HArray [Js.get elementName props; v]])%list, top1)).
Proof.
  intros Hready Ha v repeatable. unfold repeatable. rewrite <- is_many_flag.
  destruct Hready as [(Htop & -> & ->)|(Htop & -> & -> & ->)].
  - split; [|split].
    + now apply (merge_child_absent ds h top current elementName a props).
    + intros b items. now apply (merge_child_append ds h top current elementName a props).
    + now apply (merge_child_promote ds h top current elementName a props).
  - rewrite (merge_child_undefined ds h top current elementName Htop).
    split; [|split].
    + now apply (merge_child_absent ds _ _ current elementName (List.length h) props).
    + intros b items.
      now apply (merge_child_append ds _ _ current elementName (List.length h) props).
    + now apply (merge_child_promote ds _ _ current elementName (List.length h) props).
Qed.

(** Unless the parent is null, a merge that ends leaves the object of
    the child in the object of the parent, under the name of the
    element. *)
Lemma merge_child_reaches (ds : dstore) (h : heap) (top current : frame)
    (elementName : string) (h' : heap) (top' : frame) :
  merge_child ds h top current elementName = Ok (h', top') ->
  f_object top <> JNull ->
  exists a props',
    f_object top' = JRef a
    /\ h' !! a = Some (HObject props')
    /\ merged_at h' props' elementName (f_object current).
Proof.
  intros H Hnull.
  destruct (f_object top) as [| |? |? |? |? |? |a] eqn:Htop;
    try (unfold merge_child in H; rewrite Htop in H; cbv beta iota zeta in H;
         rewrite Htop in H; discriminate H).
  - rewrite (merge_child_undefined ds h top current elementName Htop) in H.
    destruct (merge_child_holds ds (h ++ [HObject []])%list
                (with_object (JRef (List.length h)) top) current elementName
                (List.length h) [] eq_refl (list_lookup_middle h [] (HObject []) _ eq_refl)
                h' top' H) as (-> & props' & Ha' & Hm).
    exists (List.length h), props'. now split.
  - now contradiction Hnull.
  - destruct (h !! a) as [[props|items]|] eqn:Ha;
      try (unfold merge_child in H; rewrite Htop in H; cbv beta iota zeta in H;
           rewrite Htop, Ha in H; discriminate H).
    destruct (merge_child_holds ds h top current elementName a props Htop Ha h' top' H)
      as (-> & props' & Ha' & Hm).
    exists a, props'. now split.
Qed.




(** C7: what [onclosetag] does with a null.  The guard of the merge
    reads the object of the PARENT frame: a parent whose object is null
    takes no child, and the heap is left as it is; with any other
    parent, a merge that ends leaves the object of the child in the
    object of the parent under the name of the element.  The object of
    the frame being popped is not looked at: a frame nulled by [xsi:nil]
    is merged like any other.  Under a key the parent does not have, the
    null is stored as a one-element array when the descriptor of the
    frame declares the element repeatable, and directly otherwise; it is
    appended to an array the key holds; and it is paired with any other
    value the key holds.  A parent that has no object yet is given an
    empty one first. *)
Theorem null_parent_takes_no_child (ds : dstore) (h : heap) (top current : frame)
    (elementName : string) :
  (f_object top = JNull -> merge_child ds h top current elementName = Ok (h, top))
  /\ (forall h' top',
        merge_child ds h top current elementName = Ok (h', top') ->
        f_object top <> JNull ->
        exists a props',
          f_object top' = JRef a
          /\ h' !! a = Some (HObject props')
          /\ merged_at h' props' elementName (f_object current))
  /\ (forall a props h1 top1,
        f_object current = JNull ->
        parent_ready h top h1 top1 a ->
        h1 !! a = Some (HObject props) ->
        let repeatable :=
          match f_descriptor current with
          | Some id => match ds !! id with Some d => d_isMany d | None => false end
          | None => false
          end in
        (Js.has elementName props = false ->
           merge_child ds h top current elementName
           = Ok (if repeatable
                 then (<[a := HObject (Js.set elementName (JRef (List.length h1)) props)]>
                         (h1 ++ [HArray [JNull]])%list, top1)
                 else (<[a := HObject (Js.set elementName JNull props)]> h1, top1)))
        /\ (forall b items,
              Js.has elementName props = true ->
              Js.get elementName props = JRef b -> h1 !! b = Some (HArray items) ->
              merge_child ds h top current elementName
              = Ok (<[b := HArray (items ++ [JNull])]> h1, top1))
        /\ (Js.has elementName props = true ->
            elementName <> "__proto__" ->
            (forall b items,
               Js.get elementName props = JRef b -> h1 !! b <> Some (HArray items)) ->
            merge_child ds h top current elementName
            = Ok (<[a := HObject (Js.set elementName (JRef (List.length h1)) props)]>
                    (h1 ++ [HArray [Js.get elementName props; JNull]])%list, top1))).
Proof.
  split; [|split].
  - intros Htop. unfold merge_child. rewrite Htop. cbv beta iota zeta. now rewrite Htop.
  - intros h' top'. apply merge_child_reaches.
  - intros a props h1 top1 Hcur Hready Ha.
    pose proof (merge_child_cases ds h top current elementName a props h1 top1 Hready Ha)
      as H.
    cbv zeta in H. rewrite Hcur in H. exact H.
Qed.

(** C7, to the contrary of the claim as worded: an element [a] with
    [xsi:nil] set to [true] gives a frame whose object is null, and
    closing it changes the parent object from [{}] to [{a: null}]. *)
Lemma nulled_frame_is_merged :
  (do s1 <- onopentag default_handler [] (initial [] None None) "a" nil_attributes;
   Ok (map f_object (p_stack s1), p_heap s1))
  = Ok ([JNull; JRef 0], [HObject []])
  /\ (do s1 <- onopentag default_handler [] (initial [] None None) "a" nil_attributes;
      do s2 <- onclosetag [] s1 "a";
      Ok (map f_object (p_stack s2), p_heap s2))
     = Ok ([JRef 0], [HObject [("a", JNull)]]).
Proof. split; reflexivity. Qed.

Lemma null_parent_takes_no_child_witness :
  merge_child [] sample_heap (sample_child JNull) (sample_child (JStr "2")) "y"
  = Ok (sample_heap, sample_child JNull)
  /\ merge_child [] sample_heap sample_parent (sample_child JNull) "y"
     = Ok ([HObject [("p", JRef 1)]; HObject [("x", JStr "1"); ("y", JNull)]], sample_parent)
  /\ merge_child many_store [HObject []] fresh_parent (many_child JNull) "x"
     = Ok ([HObject []; HObject [("x", JRef 2)]; HArray [JNull]],
           with_object (JRef 1) fresh_parent)
  /\ merge_child [] sample_heap sample_parent (sample_child JNull) "x"
     = Ok ([HObject [("p", JRef 1)]; HObject [("x", JRef 2)]; HArray [JStr "1"; JNull]],
           sample_parent).
Proof.
  split; [|split; [|split]].
  - exact (proj1 (null_parent_takes_no_child [] sample_heap (sample_child JNull)
                    (sample_child (JStr "2")) "y") eq_refl).
  - refine (proj1 (proj2 (proj2 (null_parent_takes_no_child [] sample_heap sample_parent
                    (sample_child JNull) "y")) 1 [("x", JStr "1")] sample_heap sample_parent
             eq_refl _ eq_refl) eq_refl).
    left. repeat split; reflexivity.
  - refine (proj1 (proj2 (proj2 (null_parent_takes_no_child many_store [HObject []]
                    fresh_parent (many_child JNull) "x")) 1 [] [HObject []; HObject []]
             (with_object (JRef 1) fresh_parent) eq_refl _ eq_refl) eq_refl).
    right. repeat split; reflexivity.
  - refine (proj2 (proj2 (proj2 (proj2 (null_parent_takes_no_child [] sample_heap
                    sample_parent (sample_child JNull) "x")) 1 [("x", JStr "1")]
             sample_heap sample_parent eq_refl _ eq_refl)) eq_refl _ _).
    + left. repeat split; reflexivity.
    + discriminate.
    + intros b items H. discriminate H.
Defined.

(** *** The end of the document *)

(** C3: the end of a call of [xmlToJson], once the events are handled
    and the references merged.  The test of the envelope is its truth
    value.  When the root has a truthy [Envelope] whose [Body] and
    [Body.Fault] are neither null nor undefined, the call raises an error
    that carries the root: its message is the SOAP 1.1 message when the
    fault has a fault code, else the SOAP 1.2 message when it has a
    [Code], else a fixed text.  For a fault whose fields are texts, the
    SOAP 1.1 message is the code, the string, the actor and the detail,
    each after its label; the SOAP 1.2 message is the code, the value,
    the subcode, the reason, the node and the role, each quoted after its
    label, and the detail.  When [Envelope] is truthy without such a
    fault, the call returns the value of [Envelope].  Otherwise it
    returns the root.  A fault with the code [Server] and the string
    [boom] raises the message [faultcode: Server faultstring: boom] with
    the whole root. *)
Theorem xmlToJson_end_of_document (self : XMLHandler) (ds : dstore)
    (nested : heap -> string -> result (heap * jsval))
    (h0 : heap) (nsContext : option NamespaceContext.t) (events : list event)
    (descriptor : option did) (s : pstate) (h : heap) :
  foldM (handle self ds nested) events (initial h0 nsContext descriptor) = Ok s ->
  merge_refs (p_heap s) (p_refs s) = Ok h ->
  let root := JRef (List.length h0) in
  let envelope := Js.member h root "Envelope" in
  let body := Js.member h envelope "Body" in
  let fault := Js.member h body "Fault" in
  let call := xmlToJson_events self ds nested h0 nsContext events descriptor in
  (Js.truthy envelope = true -> Js.not_nullish body = true -> Js.not_nullish fault = true ->
     call
     = (do m11 <- getSoap11FaultErrorMessage h fault;
        match m11 with
        | Some m => Err (SoapFault m h root)
        | None =>
            do m12 <- getSoap12FaultErrorMessage h fault;
            Err (SoapFault
                   (match m12 with
                    | Some m => m
                    | None => "Error occurred processing Fault response."
                    end) h root)
        end)
     /\ (forall a props,
           fault = JRef a -> h !! a = Some (HObject props) ->
           (forall code,
              Js.own "faultcode" props = Some (JStr code) -> code <> "" ->
              text_or_absent (Js.own "faultstring" props) ->
              text_or_absent (Js.own "faultactor" props) ->
              text_or_absent (Js.own "detail" props) ->
              call = Err (SoapFault
                            ("faultcode: " ++ code
                             ++ labelled " faultstring: " (Js.own "faultstring" props)
                             ++ labelled " faultactor: " (Js.own "faultactor" props)
                             ++ labelled_detail " detail: " (Js.own "detail" props))
                            h root))
           /\ (forall code,
                 Js.own "faultcode" props = None ->
                 Js.own "Code" props = Some (JStr code) -> code <> "" ->
                 text_or_absent (Js.own "Value" props) ->
                 text_or_absent (Js.own "Subcode" props) ->
                 text_or_absent (Js.own "reason" props) ->
                 text_or_absent (Js.own "Reason" props) ->
                 text_or_absent (Js.own "Node" props) ->
                 text_or_absent (Js.own "Role" props) ->
                 text_or_absent (Js.own "Detail" props) ->
                 call = Err (SoapFault
                               (" Code: " ++ Json.quote code
                                ++ quoted "Value: " (Js.own "Value" props)
                                ++ quoted "Subcode: " (Js.own "Subcode" props)
                                ++ quoted "Reason: " (Js.own "Reason" props)
                                ++ quoted "Node: " (Js.own "Node" props)
                                ++ quoted "Role: " (Js.own "Role" props)
                                ++ labelled_detail " Detail: " (Js.own "Detail" props))
                               h root))
           /\ (Js.own "faultcode" props = None -> Js.own "Code" props = None ->
               call = Err (SoapFault "Error occurred processing Fault response." h root))))
  /\ (Js.truthy envelope = true ->
      Js.not_nullish body = false \/ Js.not_nullish fault = false ->
      call = Ok (h, envelope))
  /\ (Js.truthy envelope = false -> call = Ok (h, root))
  /\ (forall self' nested',
        raised (xmlToJson_events self' [] nested' [] None fault_events None)
        = Some ("faultcode: Server faultstring: boom", Some fault_root)
        /\ Str.contains "faultcode: Server" "faultcode: Server faultstring: boom" = true
        /\ Str.contains "faultstring: boom" "faultcode: Server faultstring: boom" = true).
Proof.
  intros Hrun Hmerge root envelope body fault call.
  assert (Hcall : call = finish (p_heap s) (p_refs s) root).
  { unfold call, xmlToJson_events. now rewrite Hrun. }
  rewrite Hcall. unfold finish. rewrite Hmerge. cbn [bind].
  fold envelope. fold body. fold fault.
  split; [|split; [|split]].
  - intros He Hb Hf. rewrite He, Hb, Hf. cbn [andb]. unfold fault_message.
    split.
    + destruct (getSoap11FaultErrorMessage h fault) as [[m|]|e]; try reflexivity.
      cbn [bind]. now destruct (getSoap12FaultErrorMessage h fault) as [[m|]|e].
    + intros a props Hfa Ha. rewrite Hfa. split; [|split].
      * intros code Hcode Hne Hs Hact Hdet.
        now rewrite (soap11_texts h a props code Ha Hcode Hne Hs Hact Hdet).
      * intros code Hnone Hcode Hne Hv Hs Hl Hr Hn Hro Hd.
        rewrite (soap11_none h a props Ha Hnone). cbn [bind].
        now rewrite (soap12_texts h a props code Ha Hcode Hne Hv Hs Hl Hr Hn Hro Hd).
      * intros Hnone Hcode.
        rewrite (soap11_none h a props Ha Hnone). cbn [bind].
        now rewrite (soap12_none h a props Ha Hcode).
  - intros He Hbf. rewrite He.
    destruct Hbf as [H|H]; rewrite H; [reflexivity|].
    now rewrite andb_false_r.
  - intros He. now rewrite He.
  - intros self' nested'. repeat split; vm_compute; reflexivity.
Qed.

Lemma xmlToJson_end_of_document_witness :
  xmlToJson_events default_handler [] no_nested [] None
    [OpenTag "Envelope" []; OpenTag "Header" []; Text "h"; CloseTag "Header";
     CloseTag "Envelope"] None
  = Ok ([HObject [("Envelope", JRef 1)]; HObject [("Header", JStr "h")]], JRef 1).
Proof.
  refine (proj1 (proj2 (xmlToJson_end_of_document default_handler [] no_nested [] None
    [OpenTag "Envelope" []; OpenTag "Header" []; Text "h"; CloseTag "Header";
     CloseTag "Envelope"] None
    {| p_heap := [HObject [("Envelope", JRef 1)]; HObject [("Header", JStr "h")]];
       p_stack := [{| f_name := None; f_object := JRef 0; f_descriptor := None;
                      f_id := None |}];
       p_refs := []; p_ns := NamespaceContext.empty |}
    [HObject [("Envelope", JRef 1)]; HObject [("Header", JStr "h")]]
    _ _)) _ _).
  - vm_compute. reflexivity.
  - vm_compute. reflexivity.
  - vm_compute. reflexivity.
  - left. vm_compute. reflexivity.
Defined.

(** C3, to the contrary of the claim as worded: the root read from an
    empty [Envelope] element has the property [Envelope], whose value is
    [undefined]; the call returns the root, not that value. *)
Lemma empty_envelope_returns_root :
  xmlToJson_events default_handler [] no_nested [] None
    [OpenTag "Envelope" []; CloseTag "Envelope"] None
  = Ok ([HObject [("Envelope", JUndefined)]], JRef 0)
  /\ Js.has_own "Envelope" [("Envelope", JUndefined)] = true
  /\ Js.member [HObject [("Envelope", JUndefined)]] (JRef 0) "Envelope" = JUndefined.
Proof. repeat split; reflexivity. Qed.

(** *** Own properties *)

Lemma own_In {A} (k : string) (l : list (string * A)) :
  Js.own k l <> None <-> In k (map fst l).
Proof.
  induction l as [|[k' v'] l IH]; simpl; [tauto|].
  destruct (String.eqb_spec k k') as [->|Hne].
  - split; [now left | discriminate].
  - rewrite IH. split; [now right | intros [?|?]; congruence].
Qed.

(** *** The registry *)

Lemma list_sum_perm (l1 l2 : list nat) : Permutation l1 l2 -> list_sum l1 = list_sum l2.
Proof.
  induction 1; simpl; lia.
Qed.

Lemma merge_sites_length (refs : list (string * ref)) :
  List.length (merge_sites refs) = pending refs.
Proof.
  unfold merge_sites, pending.
  rewrite <- (list_sum_perm _ _ (Permutation_map _ (ordered_perm refs))).
  induction (Js.ordered refs) as [|r l IH]; simpl; [reflexivity|].
  now rewrite length_app, length_map, IH.
Qed.

Lemma pending_set (id : string) (r : ref) (refs : list (string * ref)) :
  pending (Js.set id r refs) + match Js.own id refs with
                               | Some old => List.length (r_hrefs old)
                               | None => O
                               end
  = pending refs + List.length (r_hrefs r).
Proof.
  unfold pending. induction refs as [|[k v] l IH]; simpl; [lia|].
  destruct (String.eqb id k); simpl; lia.
Qed.

Lemma pending_ensure (id : string) (refs : list (string * ref)) :
  pending (ensure_ref id refs) = pending refs.
Proof.
  unfold ensure_ref. destruct (Js.has_own id refs || Js.mem id Js.prototype_members) eqn:E;
    [reflexivity|].
  apply orb_false_iff in E as [E _]. unfold Js.has_own in E.
  pose proof (pending_set id empty_ref refs) as H.
  destruct (Js.own id refs); [discriminate|]. simpl in H. lia.
Qed.

(** *** Folds *)

Lemma foldM_app {A S} (f : S -> A -> result S) (l1 l2 : list A) (s : S) :
  foldM f (l1 ++ l2) s = (do s' <- foldM f l1 s; foldM f l2 s').
Proof.
  revert s. induction l1 as [|a l1 IH]; intros s; simpl; [reflexivity|].
  destruct (f s a); simpl; [apply IH | reflexivity].
Qed.

Lemma foldM_map {A B S} (f : S -> B -> result S) (g : A -> B) (l : list A) (s : S) :
  foldM f (map g l) s = foldM (fun s x => f s (g x)) l s.
Proof.
  revert s. induction l as [|a l IH]; intros s; simpl; [reflexivity|].
  destruct (f s (g a)); simpl; [apply IH | reflexivity].
Qed.

Lemma foldM_flat_map {A B S} (f : S -> B -> result S) (g : A -> list B) (l : list A) (s : S) :
  foldM f (flat_map g l) s = foldM (fun s x => foldM f (g x) s) l s.
Proof.
  revert s. induction l as [|a l IH]; intros s; simpl; [reflexivity|].
  rewrite foldM_app. destruct (foldM f (g a) s); simpl; [apply IH | reflexivity].
Qed.

(** The attribute loop rewrites the text of [xsi:type] attributes only. *)
Lemma attr_step_attrs (self : XMLHandler) (ns : NamespaceContext.t)
    (d : option descriptor) (s s' : attr_loop) (a k : string) :
  attr_step self ns d s a = Ok s' ->
  QName.name (QName.parse k None) <> "type" ->
  Js.own k (al_attrs s') = Js.own k (al_attrs s).
Proof.
  unfold attr_step. intros H Hk.
  destruct (Str.is_xmlns a); [now inversion H|].
  destruct (match NamespaceContext.getNamespaceURI _ ns with Some _ => _ | None => _ end)
    eqn:Exsi; cbn [andb] in H.
  - destruct (String.eqb (QName.name (QName.parse a None)) "nil"); [now inversion H|].
    destruct (String.eqb (QName.name (QName.parse a None)) "type") eqn:Et.
    + assert (Hne : k <> a).
      { intros ->. apply String.eqb_eq in Et. contradiction. }
      destruct (al_elementAttributes s);
        (destruct (heap_set _ _ _ _); [|discriminate]); inversion H; subst; simpl;
        now apply own_set_ne.
    + destruct (al_elementAttributes s);
        (destruct (heap_set _ _ _ _); [|discriminate]); now inversion H.
  - destruct (al_elementAttributes s);
      (destruct (heap_set _ _ _ _); [|discriminate]); now inversion H.
Qed.

Lemma attr_loop_attrs (self : XMLHandler) (ns : NamespaceContext.t)
    (d : option descriptor) (l : list string) (s s' : attr_loop) (k : string) :
  foldM (attr_step self ns d) l s = Ok s' ->
  QName.name (QName.parse k None) <> "type" ->
  Js.own k (al_attrs s') = Js.own k (al_attrs s).
Proof.
  revert s. induction l as [|a l IH]; intros s H Hk; simpl in H.
  - now inversion H.
  - destruct (attr_step self ns d s a) as [s1|] eqn:E1; [|discriminate]. simpl in H.
    rewrite (IH _ H Hk). eapply attr_step_attrs; eassumption.
Qed.

Section Registry.

Variables (self : XMLHandler) (ds : dstore).
Variable nested : heap -> string -> result (heap * jsval).

Lemma onopentag_pending (s s' : pstate) (n : string) (attrs : list (string * string)) :
  onopentag self ds s n attrs = Ok s' ->
  pending (p_refs s') = (pending (p_refs s) + if Js.has_own "href" attrs then 1 else 0)%nat.
Proof.
  unfold onopentag. destruct (p_stack s) as [|top rest]; [discriminate|].
  destruct (foldM _ _ _) as [l|] eqn:Hloop; [|discriminate]. cbn [bind].
  destruct (match al_elementAttributes l with Some _ => _ | None => _ end) as [[h obj]|];
    [|discriminate]. cbn [bind].
  assert (Hhref : Js.own "href" (al_attrs l) = Js.own "href" attrs).
  { apply (attr_loop_attrs _ _ _ _ _ _ _ Hloop). vm_compute. discriminate. }
  rewrite Hhref. unfold Js.has_own.
  destruct (Js.own "href" attrs) as [target|].
  - generalize (Str.drop 1 target) as id. intros id.
    destruct (Js.mem _ _); [discriminate|]. cbn [bind].
    intros [= <-]. cbn [p_refs].
    set (slot := match Js.own id (p_refs s) with Some r => r | None => empty_ref end).
    set (site := Build_href _ _ _).
    assert (Hset : pending (Js.set id {| r_hrefs := r_hrefs slot ++ [site];
                                         r_object := r_object slot |} (p_refs s))
                   = S (pending (p_refs s))).
    { pose proof (pending_set id {| r_hrefs := r_hrefs slot ++ [site];
                                    r_object := r_object slot |} (p_refs s)) as H.
      cbn [r_hrefs] in H. rewrite length_app in H. cbn [List.length] in H.
      subst slot. destruct (Js.own id (p_refs s)); cbn [r_hrefs r_object empty_ref app List.length] in H |- *; lia. }
    destruct (Js.own "id" (al_attrs l)); rewrite ?pending_ensure, Hset; lia.
  - cbn [bind]. intros [= <-]. cbn [p_refs]. cbv beta iota.
    destruct (Js.own "id" (al_attrs l)); rewrite ?pending_ensure; lia.
Qed.

Lemma onclosetag_pending (s s' : pstate) (n : string) :
  onclosetag ds s n = Ok s' -> pending (p_refs s') = pending (p_refs s).
Proof.
  unfold onclosetag. destruct (NamespaceContext.popContext (p_ns s)); [|discriminate].
  destruct (p_stack s) as [|current [|top rest]]; try discriminate.
  destruct (merge_child ds (p_heap s) top current _) as [[h top']|]; [|discriminate].
  cbn [bind]. destruct (f_id current) as [id|].
  - destruct (Js.own id (p_refs s)) as [slot|] eqn:Hslot.
    + cbn [bind]. intros [= <-]. cbn [p_refs].
      pose proof (pending_set id {| r_hrefs := r_hrefs slot; r_object := f_object current |}
                    (p_refs s)) as H.
      rewrite Hslot in H. cbn [r_hrefs] in H. lia.
    + destruct (Js.mem id Js.prototype_members); discriminate.
  - cbn [bind]. now intros [= <-].
Qed.

Lemma handleJsonObject_refs (s s' : pstate) (v : jsval) :
  handleJsonObject self s v = Ok s' -> p_refs s' = p_refs s.
Proof.
  unfold handleJsonObject. destruct (p_stack s) as [|top rest]; [discriminate|].
  destruct (_processText _ _ _ _) as [[h top']|]; [|discriminate].
  cbn [bind]. now intros [= <-].
Qed.

Lemma handle_pending (s s' : pstate) (e : event) :
  handle self ds nested s e = Ok s' ->
  pending (p_refs s') = (pending (p_refs s) + if has_href e then 1 else 0)%nat.
Proof.
  destruct e as [n attrs|n|t|t]; simpl.
  - apply onopentag_pending.
  - intros H. rewrite (onclosetag_pending _ _ _ H). lia.
  - unfold ontext. destruct (String.length (Str.trim t) =? 0)%nat.
    + intros [= <-]. lia.
    + destruct (p_stack s) as [|top rest]; [discriminate|].
      destruct (_processText _ _ _ _) as [[h top']|]; [|discriminate].
      cbn [bind]. intros [= <-]. simpl. lia.
  - unfold oncdata. destruct (String.length (Str.trim t) =? 0)%nat.
    + intros [= <-]. lia.
    + destruct (Str.has_xml_declaration (Str.trim t)).
      * destruct (nested (p_heap s) (Str.trim t)) as [[h v]|]; [|discriminate].
        cbn [bind]. intros H. rewrite (handleJsonObject_refs _ _ _ H). simpl. lia.
      * intros H. rewrite (handleJsonObject_refs _ _ _ H). lia.
Qed.

Lemma run_pending (events : list event) (s s' : pstate) :
  foldM (handle self ds nested) events s = Ok s' ->
  pending (p_refs s') = (pending (p_refs s) + List.length (List.filter has_href events))%nat.
Proof.
  revert s. induction events as [|e events IH]; intros s H; simpl in H.
  - inversion H. simpl. lia.
  - destruct (handle self ds nested s e) as [s1|] eqn:E1; [|discriminate]. simpl in H.
    rewrite (IH _ H), (handle_pending _ _ _ E1). simpl.
    destruct (has_href e); simpl; lia.
Qed.

End Registry.

(** *** One merge *)

Lemma copy_props_own (src : list (string * jsval)) (k : string) :
  forall (l : list string) (dst : list (string * jsval)),
  Js.own k (fold_left (fun acc j => Js.set j (Js.get j src) acc) l dst)
  = if Js.mem k l then Some (Js.get k src) else Js.own k dst.
Proof.
  induction l as [|j l IH]; intros dst; simpl; [reflexivity|].
  rewrite IH. destruct (Js.mem k l) eqn:E.
  - now rewrite orb_true_r.
  - rewrite orb_false_r. destruct (String.eqb_spec k j) as [->|Hne].
    + apply own_set_eq.
    + now apply own_set_ne.
Qed.

Lemma merge_into_placeholder (h : heap) (a t : nat) (src dst : list (string * jsval))
    (parent : jsval) (key : string) :
  h !! a = Some (HObject src) ->
  h !! t = Some (HObject dst) ->
  a <> t ->
  Js.has_own "hasOwnProperty" src = false ->
  Js.has_own "__proto__" src = false ->
  merge h {| h_parent := parent; h_key := key; h_object := JRef t |} (JRef a)
  = Ok (<[t := HObject (copy_props src dst)]> h).
Proof.
  intros Ha Ht Hat Hhop Hproto. unfold merge. rewrite Ha. cbn [h_object]. unfold copy_props.
  assert (Hkeys : forall k, In k (Js.keys src) -> k <> "__proto__").
  { intros k Hk ->. apply (Permutation_in _ (keys_perm src)) in Hk.
    apply own_In in Hk. unfold Js.has_own in Hproto.
    destruct (Js.own "__proto__" src); [discriminate | contradiction]. }
  rewrite <- (list_insert_id h t (HObject dst) Ht) at 1.
  assert (Hlt : (t < List.length h)%nat) by (eapply lookup_lt_Some; exact Ht).
  revert Hkeys. generalize (Js.keys src) as l. generalize dst as acc.
  intros acc l. revert acc. induction l as [|j l IH]; intros acc Hkeys; simpl; [reflexivity|].
  unfold merge_step at 1. rewrite list_lookup_insert_ne by congruence.
  rewrite Ha, Hhop. cbn [put].
  rewrite (heap_set_ok _ t j _ acc).
  - cbn [bind]. rewrite list_insert_insert_eq. apply IH.
    intros k Hk. apply Hkeys. now right.
  - now apply list_lookup_insert_eq.
  - apply Hkeys. now left.
Qed.


Lemma foldM_ext {A S} (f g : S -> A -> result S) (l : list A) (s : S) :
  (forall s a, f s a = g s a) -> foldM f l s = foldM g l s.
Proof.
  intros H. revert s. induction l as [|a l IH]; intros s; simpl; [reflexivity|].
  rewrite H. destruct (g s a); simpl; [apply IH | reflexivity].
Qed.

Lemma merge_refs_sites (h : heap) (refs : list (string * ref)) :
  merge_refs h refs
  = foldM (fun h site => merge h (fst site) (snd site)) (merge_sites refs) h.
Proof.
  unfold merge_refs, merge_sites. rewrite foldM_flat_map.
  apply foldM_ext. intros s r. now rewrite foldM_map.
Qed.

Lemma mem_keys_own {A} (k : string) (props : list (string * A)) :
  Js.mem k (Js.keys props) = Js.has_own k props.
Proof.
  unfold Js.has_own. destruct (Js.own k props) eqn:E.
  - apply mem_In. apply (Permutation_in _ (Permutation_sym (keys_perm props))).
    apply own_In. congruence.
  - apply mem_not_In. intros H. apply (Permutation_in _ (keys_perm props)) in H.
    apply own_In in H. contradiction.
Qed.

Lemma copy_props_spec (src dst : list (string * jsval)) (k : string) :
  Js.own k (copy_props src dst)
  = match Js.own k src with
    | Some v => Some v
    | None => Js.own k dst
    end.
Proof.
  unfold copy_props. rewrite copy_props_own, mem_keys_own. unfold Js.has_own, Js.get.
  now destruct (Js.own k src).
Qed.

Lemma merge_refs_none (h : heap) : merge_refs h [] = Ok h.
Proof. reflexivity. Qed.

(** The whole call: the merges of the pending sites, then the end of
    the document. *)
Lemma xmlToJson_merges_sites (self : XMLHandler) (ds : dstore)
    (nested : heap -> string -> result (heap * jsval)) (h0 : heap)
    (nsContext : option NamespaceContext.t) (descriptor : option did)
    (events : list event) (s : pstate) :
  foldM (handle self ds nested) events (initial h0 nsContext descriptor) = Ok s ->
  xmlToJson_events self ds nested h0 nsContext events descriptor
  = (do h <- foldM (fun h site => merge h (fst site) (snd site))
               (merge_sites (p_refs s)) (p_heap s);
     finish h [] (JRef (List.length h0))).
Proof.
  intros Hrun. unfold xmlToJson_events. rewrite Hrun. cbn [bind].
  unfold finish at 1. rewrite merge_refs_sites.
  destruct (foldM _ (merge_sites (p_refs s)) (p_heap s)) as [h|e]; [|reflexivity].
  cbn [bind]. unfold finish. now rewrite merge_refs_none.
Qed.


Lemma has_own_set {A} (k j : string) (v : A) (l : list (string * A)) :
  Js.has_own j (Js.set k v l) = String.eqb j k || Js.has_own j l.
Proof.
  unfold Js.has_own. destruct (String.eqb_spec j k) as [->|Hne].
  - now rewrite own_set_eq.
  - now rewrite own_set_ne.
Qed.

Ltac conjuncts := repeat match goal with |- _ /\ _ => split end.

Section AttributeLoop.

Variables (self : XMLHandler) (ns : NamespaceContext.t) (d : option descriptor).

(** An attribute the loop does not collect leaves the map alone. *)
Lemma attr_step_skipped (st : attr_loop) (a : string) :
  collected ns a = false ->
  attr_step self ns d st a
  = Ok {| al_heap := al_heap st; al_attrs := al_attrs st;
          al_obj := if nil_true ns (al_attrs st) a then JNull else al_obj st;
          al_elementAttributes := al_elementAttributes st |}.
Proof.
  unfold collected, attr_step, nil_true, is_xsi_nil, in_xsi. intros H.
  destruct (Str.is_xmlns a); cbn [negb andb] in *.
  - now destruct st.
  - apply negb_false_iff in H. rewrite H. cbn [andb].
    destruct (Js.own a (al_attrs st)); [reflexivity|]. now destruct st.
Qed.

(** A collected attribute is entered into the map under its key. *)
Lemma attr_step_collected (st : attr_loop) (a : string) (m : list (string * jsval)) :
  collected ns a = true ->
  attribute_key self ns a <> "__proto__" ->
  map_of st m ->
  exists st' ea v,
    attr_step self ns d st a = Ok st'
    /\ al_elementAttributes st' = Some ea
    /\ (forall ea0, al_elementAttributes st = Some ea0 -> ea0 = ea)
    /\ al_heap st' !! ea = Some (HObject (Js.set (attribute_key self ns a) v m))
    /\ al_obj st' = al_obj st.
Proof.
  unfold collected, attr_step, attribute_key, is_xsi_type, is_xsi_nil, in_xsi, map_of.
  intros H Hk Hm.
  apply andb_true_iff in H as [Hx Hn]. apply negb_true_iff in Hx, Hn. rewrite Hx, Hn.
  set (xsi := match NamespaceContext.getNamespaceURI _ ns with Some _ => _ | None => _ end) in *.
  set (isType := xsi && String.eqb (QName.name (QName.parse a None)) "type") in *.
  destruct (al_elementAttributes st) as [ea|] eqn:Eea.
  - assert (Hlt : (ea < List.length (al_heap st))%nat) by (eapply lookup_lt_Some; exact Hm).
    destruct isType.
    + rewrite (heap_set_ok _ ea _ _ m); [|now apply lookup_app_l_Some|exact Hk].
      cbn [bind]. eexists _, ea, _. repeat split; cbn [al_elementAttributes al_heap al_obj].
      * now intros ea0 [= ->].
      * apply list_lookup_insert_eq. rewrite length_app. lia.
    + rewrite (heap_set_ok _ ea _ _ m Hm Hk).
      cbn [bind]. eexists _, ea, _. repeat split; cbn [al_elementAttributes al_heap al_obj].
      * now intros ea0 [= ->].
      * now apply list_lookup_insert_eq.
  - subst m. set (ea := List.length (al_heap st)).
    assert (Hnew : (al_heap st ++ [HObject []])%list !! ea = Some (HObject [])).
    { unfold ea. apply list_lookup_middle. reflexivity. }
    destruct isType.
    + rewrite (heap_set_ok _ ea _ _ []); [|now apply lookup_app_l_Some|exact Hk].
      cbn [bind]. eexists _, ea, _. repeat split; cbn [al_elementAttributes al_heap al_obj].
      * discriminate.
      * apply list_lookup_insert_eq. rewrite !length_app. cbn [List.length]. unfold ea. lia.
    + rewrite (heap_set_ok _ ea _ _ [] Hnew Hk).
      cbn [bind]. eexists _, ea, _. repeat split; cbn [al_elementAttributes al_heap al_obj].
      * discriminate.
      * apply list_lookup_insert_eq. rewrite length_app. cbn [List.length]. unfold ea. lia.
Qed.

Lemma map_of_skipped (st : attr_loop) (m : list (string * jsval)) (o : jsval) :
  map_of st m ->
  map_of {| al_heap := al_heap st; al_attrs := al_attrs st; al_obj := o;
            al_elementAttributes := al_elementAttributes st |} m.
Proof. unfold map_of. cbn [al_elementAttributes al_heap]. tauto. Qed.

Lemma attr_loop_spec (L : list string) :
  forall (st : attr_loop) (m : list (string * jsval)),
  map_of st m ->
  (forall a, In a L -> collected ns a = true -> attribute_key self ns a <> "__proto__") ->
  exists st' m',
    foldM (attr_step self ns d) L st = Ok st'
    /\ map_of st' m'
    /\ (forall ea0, al_elementAttributes st = Some ea0 -> al_elementAttributes st' = Some ea0)
    /\ (forall k, Js.has_own k m = true -> Js.has_own k m' = true)
    /\ (forall a, In a L -> collected ns a = true ->
                  Js.has_own (attribute_key self ns a) m' = true
                  /\ al_elementAttributes st' <> None)
    /\ ((forall a, In a L -> collected ns a = false) ->
        st' = {| al_heap := al_heap st; al_attrs := al_attrs st;
                 al_obj := if existsb (nil_true ns (al_attrs st)) L then JNull else al_obj st;
                 al_elementAttributes := al_elementAttributes st |}).
Proof.
  induction L as [|a L IH]; intros st m Hm Hk.
  - exists st, m. cbn [foldM existsb].
    split; [reflexivity|]. split; [exact Hm|]. split; [auto|]. split; [auto|].
    split; [intros a []|]. intros _. now destruct st.
  - cbn [foldM]. destruct (collected ns a) eqn:Ec.
    + destruct (attr_step_collected st a m Ec (Hk a (or_introl eq_refl) Ec) Hm)
        as (st1 & ea & v & Hstep & Hea & Hsame & Hheap & Hobj).
      rewrite Hstep. cbn [bind].
      assert (Hm1 : map_of st1 (Js.set (attribute_key self ns a) v m)).
      { unfold map_of. now rewrite Hea. }
      destruct (IH st1 _ Hm1) as (st' & m' & Hrun & Hm' & Hkeep & Hmono & Hall & _).
      { intros b Hb. apply Hk. now right. }
      exists st', m'. split; [exact Hrun|]. split; [exact Hm'|].
      assert (Hea' : al_elementAttributes st' = Some ea) by now apply Hkeep.
      conjuncts.
      * intros ea0 H0. now rewrite (Hsame _ H0).
      * intros k Hown. apply Hmono. rewrite has_own_set, Hown. apply orb_true_r.
      * intros b Hb Hcb. split; [|congruence]. destruct Hb as [<-|Hb]; [|now apply Hall].
        apply Hmono. rewrite has_own_set, String.eqb_refl. reflexivity.
      * intros Hnone. rewrite (Hnone a (or_introl eq_refl)) in Ec. discriminate.
    + rewrite (attr_step_skipped st a Ec). cbn [bind].
      destruct (IH _ m (map_of_skipped st m
                  (if nil_true ns (al_attrs st) a then JNull else al_obj st) Hm))
        as (st' & m' & Hrun & Hm' & Hkeep & Hmono & Hall & Hnone).
      { intros b Hb. apply Hk. now right. }
      exists st', m'. split; [exact Hrun|]. split; [exact Hm'|].
      conjuncts.
      * intros ea0 H0. now apply Hkeep.
      * exact Hmono.
      * intros b [<-|Hb] Hcb; [congruence|]. now apply Hall.
      * intros Hn. rewrite Hnone by (intros b Hb; apply Hn; now right).
        cbn [al_heap al_attrs al_obj al_elementAttributes existsb].
        now destruct (nil_true ns (al_attrs st) a), (existsb (nil_true ns (al_attrs st)) L).
Qed.

End AttributeLoop.



Open Scope list_scope.

Lemma set_elements_id (d : descriptor) : set_elements (d_elements d ++ []) d = d.
Proof. destruct d. unfold set_elements. cbn. now rewrite app_nil_r. Qed.

Lemma set_elements_twice (d : descriptor) (e1 e2 : list did) :
  set_elements (d_elements (set_elements (d_elements d ++ e1) d) ++ e2)
    (set_elements (d_elements d ++ e1) d)
  = set_elements (d_elements d ++ e1 ++ e2) d.
Proof. destruct d. unfold set_elements. cbn. now rewrite app_assoc. Qed.

Lemma store_grows_refl (ds : dstore) : store_grows ds ds.
Proof.
  split; [reflexivity|]. intros id d H. exists []. now rewrite set_elements_id.
Qed.

Lemma store_grows_trans (ds1 ds2 ds3 : dstore) :
  store_grows ds1 ds2 -> store_grows ds2 ds3 -> store_grows ds1 ds3.
Proof.
  intros [L1 H1] [L2 H2]. split; [congruence|].
  intros id d Hd. destruct (H1 id d Hd) as [e1 He1]. destruct (H2 _ _ He1) as [e2 He2].
  exists (e1 ++ e2). now rewrite He2, set_elements_twice.
Qed.

Lemma store_grows_insert (ds : dstore) (id : did) (d : descriptor) (extra : list did) :
  ds !! id = Some d ->
  store_grows ds (<[id := set_elements (d_elements d ++ extra) d]> ds).
Proof.
  intros Hd. split; [apply length_insert|].
  intros id' d' Hd'. destruct (Nat.eq_dec id id') as [<-|Hne].
  - exists extra. rewrite list_lookup_insert_eq by (eapply lookup_lt_Some; exact Hd).
    rewrite Hd in Hd'. now inversion Hd'.
  - exists []. rewrite list_lookup_insert_ne by exact Hne. now rewrite set_elements_id.
Qed.

(** *** Sub-values *)

Lemma mentions_own (k p : string) (props : list (string * value)) (v : value) :
  mentions k (VObj props) = false -> Js.own p props = Some v -> mentions k v = false.
Proof.
  cbn [mentions]. intros H Hp. apply orb_false_iff in H as [_ H].
  induction props as [|[q w] props IH]; cbn in *; [discriminate|].
  apply orb_false_iff in H as [Hw H].
  destruct (String.eqb p q); [now inversion Hp; subst | now apply IH].
Qed.

Lemma existsb_false_In {A} (f : A -> bool) (l : list A) (x : A) :
  existsb f l = false -> In x l -> f x = false.
Proof.
  intros H Hx. destruct (f x) eqn:E; [|reflexivity].
  rewrite <- H. symmetry. apply existsb_exists. eauto.
Qed.

Lemma has_own_false_In {A} (k : string) (l : list (string * A)) (e : string * A) :
  Js.has_own k l = false -> In e l -> fst e <> k.
Proof.
  intros H He Hk. unfold Js.has_own in H.
  assert (Js.own k l <> None) by (apply own_In; rewrite <- Hk; now apply in_map).
  destruct (Js.own k l); [discriminate | contradiction].
Qed.

Lemma indexed_In {A} (l : list A) (e : string * A) (i : nat) :
  In e (indexed i l) -> In (snd e) l.
Proof.
  revert i. induction l as [|x l IH]; intros i; cbn; [tauto|].
  intros [<-|H]; [now left | right; eauto].
Qed.

Lemma mentions_entry (k : string) (v : value) (e : string * value) :
  mentions k v = false -> In e (entries v) ->
  fst e <> k /\ mentions k (snd e) = false.
Proof.
  destruct v as [| | | | | |items|props]; cbn [entries]; try (intros _ []).
  - cbn [mentions]. intros H He. apply orb_false_iff in H as [Hk H]. split.
    + eapply has_own_false_In; eassumption.
    + apply (existsb_false_In _ _ _ H). eapply indexed_In; exact He.
  - cbn [mentions]. intros H He. apply orb_false_iff in H as [Hk H].
    apply (Permutation_in _ (ordered_perm props)) in He. split.
    + eapply has_own_false_In; eassumption.
    + apply (existsb_false_In _ _ _ H He).
Qed.

(** *** What each step of the serializer does to the store *)

Ltac step_in H :=
  match type of H with
  | Ok _ = Ok _ => inversion H; subst; clear H
  | Err _ = Ok _ => discriminate H
  | bind ?r _ = Ok _ =>
      let E := fresh "E" in destruct r eqn:E; cbn [bind] in H; [|discriminate H]
  | (let '(_, _) := ?p in _) = Ok _ => destruct p
  | (if ?b then _ else _) = Ok _ => let E := fresh "E" in destruct b eqn:E
  | match ?x with _ => _ end = Ok _ => let E := fresh "E" in destruct x eqn:E
  end.

Ltac steps_in H := repeat step_in H.

Ltac bind_ok H E x :=
  match type of H with
  | bind ?r _ = Ok _ => destruct r as [x|] eqn:E; cbn [bind] in H; [|discriminate H]
  end.

Lemma foldM_invariant {A S} (f : S -> A -> result S) (I : S -> S -> Prop) (l : list A) :
  (forall s, I s s) ->
  (forall s1 s2 s3, I s1 s2 -> I s2 s3 -> I s1 s3) ->
  (forall s a s', In a l -> f s a = Ok s' -> I s s') ->
  forall s s', foldM f l s = Ok s' -> I s s'.
Proof.
  intros Hrefl Htrans. induction l as [|a l IH]; intros Hstep s s' H; cbn in H.
  - inversion H. apply Hrefl.
  - destruct (f s a) as [s1|] eqn:E; [|discriminate]. cbn in H.
    eapply Htrans.
    + eapply Hstep; [now left | exact E].
    + apply IH; [|exact H]. intros s0 b s0' Hb. apply Hstep. now right.
Qed.

Section Store.

Variable toISOString : value -> option string.
Variable self : XMLHandler.

Let k := xsiTypeKey (opts self).

Lemma keeps_refl (ds : dstore) (v : value) : keeps self ds ds v.
Proof. split; [apply store_grows_refl | reflexivity]. Qed.

Lemma declare_on_store (st st' : sstate) (node node' : xnode) (p u : string) m :
  declare_on st node p u = Ok (m, st', node') -> s_ds st' = s_ds st.
Proof.
  unfold declare_on. intros H. steps_in H; reflexivity.
Qed.

Lemma pop_scope_store (st st' : sstate) : pop_scope st = Ok st' -> s_ds st' = s_ds st.
Proof. unfold pop_scope. intros H. steps_in H. reflexivity. Qed.

Lemma attribute_branch_store (st st' : sstate) (node node' : xnode) (d : descriptor)
    (val : value) :
  attribute_branch toISOString st node d val = Ok (st', node') -> s_ds st' = s_ds st.
Proof.
  unfold attribute_branch. intros H. steps_in H; try reflexivity.
  eapply declare_on_store; eassumption.
Qed.

Lemma element_name_store (st st' : sstate) (d : descriptor) (q : QName.t) n x :
  element_name st d q = Ok (st', n, x) -> s_ds st' = s_ds st.
Proof. unfold element_name. intros H. steps_in H; reflexivity. Qed.

Lemma extend_step_store (r : dref) (ds ds' : dstore) (e : string * value) :
  extend_step self r ds e = Ok ds' ->
  store_grows ds ds' /\ (fst e <> k -> ds' = ds).
Proof.
  unfold extend_step. fold k. intros H.
  destruct (String.eqb_spec (fst e) k) as [Hk|Hk].
  - split; [|contradiction].
    steps_in H; try apply store_grows_refl.
    apply store_grows_insert. assumption.
  - inversion H. split; [apply store_grows_refl | reflexivity].
Qed.

Lemma extend_elements_store (r : dref) (ds ds' : dstore) (val : value) :
  extend_elements self r ds val = Ok ds' ->
  store_grows ds ds' /\ (mentions k val = false -> ds' = ds).
Proof.
  unfold extend_elements. intros H.
  destruct (is_nullish val); [inversion H; split; [apply store_grows_refl | reflexivity]|].
  destruct (typeof_object _) eqn:Et;
    [|inversion H; split; [apply store_grows_refl | reflexivity]].
  revert H. apply (foldM_invariant (extend_step self r)
    (fun a b => store_grows a b /\ (mentions k val = false -> b = a))).
  - intros s. split; [apply store_grows_refl | reflexivity].
  - intros s1 s2 s3 [G1 E1] [G2 E2]. split; [eapply store_grows_trans; eassumption|].
    intros Hm. now rewrite E2, E1.
  - intros s a s' Ha Hs. destruct (extend_step_store _ _ _ _ Hs) as [G E].
    split; [exact G|]. intros Hm. apply E.
    assert (Hattrs : mentions k (vget (attributesKey (opts self)) val) = false).
    { unfold vget. destruct val; try reflexivity.
      destruct (Js.own _ props) eqn:Eo; [|reflexivity].
      eapply mentions_own; eassumption. }
    now destruct (mentions_entry _ _ _ Hattrs Ha).
Qed.

Lemma keeps_trans (ds1 ds2 ds3 : dstore) (v : value) :
  keeps self ds1 ds2 v -> keeps self ds2 ds3 v -> keeps self ds1 ds3 v.
Proof.
  intros [G1 E1] [G2 E2]. split; [eapply store_grows_trans; eassumption|].
  intros He Hm. now rewrite E2, E1.
Qed.

Lemma keeps_sub (ds ds' : dstore) (v w : value) :
  (mentions k w = false -> mentions k v = false) -> keeps self ds ds' v -> keeps self ds ds' w.
Proof. intros Hvw [G E]. split; [exact G | auto]. Qed.

Lemma keeps_eq (ds ds' : dstore) (v : value) : ds' = ds -> keeps self ds ds' v.
Proof. intros ->. apply keeps_refl. Qed.

Section Steps.

Variable jsonToXml : rec_call.
Hypothesis Hrec : rec_ok self jsonToXml.

Lemma attribute_step_store (attributes : list (string * did)) (attrs : value)
    (acc acc' : sstate * xnode) (e : string * value) :
  In e (entries attrs) ->
  attribute_step self jsonToXml attributes acc e = Ok acc' ->
  keeps self (s_ds (fst acc)) (s_ds (fst acc')) attrs.
Proof.
  intros He. unfold attribute_step. destruct acc as [st node], e as [p child].
  intros H.
  assert (Hchild : mentions k attrs = false -> mentions k child = false).
  { intros Hm. now destruct (mentions_entry _ _ _ Hm He). }
  destruct (String.eqb p (xsiTypeKey (opts self))).
  - steps_in H. cbn [fst].
    apply keeps_eq.
    rewrite (declare_on_store _ _ _ _ _ _ _ E1), (declare_on_store _ _ _ _ _ _ _ E0).
    reflexivity.
  - destruct (lookup_table attributes p).
    + destruct acc' as [st' node']. apply (keeps_sub _ _ child); [exact Hchild|].
      eapply Hrec; exact H.
    + destruct (ignoreUnknownProperties (opts self)).
      * inversion H. apply keeps_refl.
      * destruct acc' as [st' node']. apply (keeps_sub _ _ child); [exact Hchild|].
        eapply Hrec; exact H.
Qed.

Lemma addAttributes_store (st st' : sstate) (node node' : xnode) (d : option dref)
    (attrs : value) :
  addAttributes self jsonToXml st node d attrs = Ok (st', node') ->
  keeps self (s_ds st) (s_ds st') attrs.
Proof.
  unfold addAttributes. intros H. step_in H.
  destruct (negb (is_nullish attrs) && typeof_object attrs);
    [|inversion H; apply keeps_refl].
  change (s_ds st) with (s_ds (fst (st, node))).
  change (s_ds st') with (s_ds (fst (st', node'))).
  revert H. apply (foldM_invariant (attribute_step self jsonToXml a)
    (fun x y => keeps self (s_ds (fst x)) (s_ds (fst y)) attrs)).
  - intros s. apply keeps_refl.
  - intros s1 s2 s3. apply keeps_trans.
  - intros s e s' He. now apply attribute_step_store.
Qed.

Lemma property_step_store (props : list (string * value)) (elements attributes : list (string * did))
    (acc acc' : sstate * xnode) (p : string) :
  property_step self jsonToXml props elements attributes acc p = Ok acc' ->
  keeps self (s_ds (fst acc)) (s_ds (fst acc')) (VObj props).
Proof.
  unfold property_step. destruct acc as [st node]. intros H.
  destruct (String.eqb p (attributesKey (opts self))); [inversion H; apply keeps_refl|].
  assert (Hchild : mentions k (VObj props) = false ->
                   mentions k (match Js.own p props with Some v => v | None => VUndefined end)
                   = false).
  { intros Hm. destruct (Js.own p props) eqn:Eo; [|reflexivity].
    eapply mentions_own; eassumption. }
  destruct acc' as [st' node'].
  destruct (match lookup_table elements p with Some c => Some c | None => _ end).
  - eapply keeps_sub; [exact Hchild|]. eapply Hrec; exact H.
  - destruct (ignoreUnknownProperties (opts self)).
    + inversion H. apply keeps_refl.
    + eapply keeps_sub; [exact Hchild|]. eapply Hrec; exact H.
Qed.

Lemma mapObject_store (st st' : sstate) (node node' : xnode) (d : option dref)
    (val attrs : value) :
  mapObject toISOString self jsonToXml st node d val attrs = Ok (st', node') ->
  store_grows (s_ds st) (s_ds st')
  /\ (enforceRestrictions (opts self) = false ->
      mentions k val = false -> mentions k attrs = false -> s_ds st' = s_ds st).
Proof.
  unfold mapObject. intros H.
  destruct (is_nullish val); [inversion H; split; [apply store_grows_refl | reflexivity]|].
  destruct (is_terminal val).
  { steps_in H. split; [apply store_grows_refl | reflexivity]. }
  step_in H. step_in H. destruct a0 as [[elements elementOrder] attributes].
  step_in H. destruct a0 as [st1 node1]. cbn [fst snd] in H.
  apply addAttributes_store in H.
  assert (H1 : keeps self (s_ds st) (s_ds st1) val).
  { destruct val; try (inversion E1; apply keeps_refl).
    change (s_ds st) with (s_ds (fst (st, node))).
    change (s_ds st1) with (s_ds (fst (st1, node1))).
    revert E1. apply (foldM_invariant (property_step self jsonToXml props elements attributes)
      (fun x y => keeps self (s_ds (fst x)) (s_ds (fst y)) (VObj props))).
    - intros s. apply keeps_refl.
    - intros s1 s2 s3. apply keeps_trans.
    - intros s p s' _. apply property_step_store. }
  destruct H1 as [G1 K1], H as [G2 K2].
  split; [eapply store_grows_trans; eassumption|].
  intros He Hv Ha. now rewrite K2, K1.
Qed.

Lemma vget_mentions (key : string) (v : value) :
  mentions k v = false -> mentions k (vget key v) = false.
Proof.
  unfold vget. intros H. destruct v; try reflexivity.
  destruct (Js.own key props) eqn:E; [|reflexivity]. eapply mentions_own; eassumption.
Qed.

Lemma toXmlDateOrTime_mentions (d : option descriptor) (v v' : value) :
  toXmlDateOrTime toISOString d v = Ok v' -> mentions k v = false -> mentions k v' = false.
Proof.
  unfold toXmlDateOrTime, toXmlTime, toXmlDateTime, toXmlDate. intros H Hm.
  steps_in H; try assumption; try reflexivity.
  all: now destruct (Str.split_second _ _).
Qed.

Lemma make_element_mentions (d : descriptor) (n : string) (val val' : value) (e : xnode) :
  make_element toISOString self d n val = Ok (e, val') ->
  enforceRestrictions (opts self) = false ->
  mentions k val = false -> mentions k val' = false.
Proof.
  unfold make_element, enforce_restrictions. intros H He Hm. rewrite He in H.
  steps_in H; try reflexivity;
    try (eapply toXmlDateOrTime_mentions; [eassumption|]); try assumption;
    now apply vget_mentions.
Qed.

Lemma nil_block_store (b : bool) (st st2 : sstate) (e e2 : xnode) :
  (if b then
     do r0 <- declare_on st e "xsi" helper.xsi;
     let '(_, st0, e1) := r0 in
     do e3 <- Xml.attribute "xsi:nil" "true" e1; Ok (st0, e3)
   else Ok (st, e)) = Ok (st2, e2) ->
  s_ds st2 = s_ds st.
Proof.
  destruct b; [|now intros [= <- <-]].
  destruct (declare_on st e "xsi" helper.xsi) as [[[m s0] e0]|] eqn:E; cbn [bind];
    [|discriminate].
  destruct (Xml.attribute "xsi:nil" "true" e0); cbn [bind]; [|discriminate].
  intros [= <- <-]. eapply declare_on_store; exact E.
Qed.

Lemma element_branch_store (st st' : sstate) (node node' : xnode) (r : dref)
    (d : descriptor) (val : value) :
  element_branch toISOString self jsonToXml st node r d val = Ok (st', node') ->
  keeps self (s_ds st) (s_ds st') val.
Proof.
  unfold element_branch. intros H.
  destruct (d_qname d) as [qname|]; [|discriminate].
  set (attrs := if negb (is_nullish val) && typeof_object val
                   && negb (is_undefined (vget (attributesKey (opts self)) val))
                then Some (vget (attributesKey (opts self)) val) else None) in H.
  set (val1 := if negb (is_nullish val) && typeof_object val
                  && negb (is_undefined (vget (valueKey (opts self)) val))
               then vget (valueKey (opts self)) val else val) in H.
  assert (Hattrs : forall a, attrs = Some a -> mentions k val = false -> mentions k a = false).
  { unfold attrs. intros a Ha Hm.
    destruct (negb (is_nullish val) && typeof_object val
              && negb (is_undefined (vget (attributesKey (opts self)) val)));
      [|discriminate].
    inversion Ha. now apply vget_mentions. }
  assert (Hval1 : mentions k val = false -> mentions k val1 = false).
  { unfold val1. intros Hm.
    destruct (negb (is_nullish val) && typeof_object val
              && negb (is_undefined (vget (valueKey (opts self)) val)));
      [now apply vget_mentions | exact Hm]. }
  clearbody attrs val1.
  step_in H. destruct a as [[st1 elementName] xmlns].
  apply element_name_store in E.
  step_in H. destruct a as [element val2].
  pose proof (make_element_mentions _ _ _ _ _ E0) as Hval2.
  step_in H. rename a into element1.
  step_in H. destruct a as [st2 element2].
  assert (Hst2 : s_ds st2 = s_ds st).
  { rewrite <- E. eapply nil_block_store; exact E2. }
  assert (Hadd : forall stx sty ex ey a,
            attrs = Some a ->
            addAttributes self jsonToXml stx ex (Some r) a = Ok (sty, ey) ->
            keeps self (s_ds stx) (s_ds sty) val).
  { intros stx sty ex ey a Ha Hx. apply addAttributes_store in Hx.
    eapply keeps_sub; [|exact Hx]. now apply Hattrs. }
  destruct (d_isSimple d).
  - bind_ok H Eadd r3. destruct r3 as [st3 element3]. cbn [fst snd] in H.
    bind_ok H Epop st4. bind_ok H Echild n4. inversion H; subst; clear H.
    rewrite (pop_scope_store _ _ Epop), <- Hst2.
    destruct attrs as [a|]; [|inversion Eadd; apply keeps_refl].
    destruct (negb (is_nullish a) && typeof_object a); [|inversion Eadd; apply keeps_refl].
    eapply Hadd; [reflexivity | exact Eadd].
  - bind_ok H Eext ds1.
    apply extend_elements_store in Eext. rewrite Hst2 in Eext.
    assert (K1 : keeps self (s_ds st) ds1 val).
    { destruct Eext as [G Eq]. split; [exact G|]. intros He Hm. apply Eq. now apply Hval2; auto. }
    destruct (negb (is_nullish val2) && is_terminal val2).
    + bind_ok H Edate val3. bind_ok H Etext t3. bind_ok H Etxt e3. bind_ok H Eadd r3.
      destruct r3 as [st3 element3]. cbn [fst snd] in H.
      bind_ok H Epop st4. bind_ok H Echild n4. inversion H; subst; clear H.
      rewrite (pop_scope_store _ _ Epop). eapply keeps_trans; [exact K1|].
      destruct attrs as [a|]; [|inversion Eadd; apply keeps_refl].
      destruct (is_nullish a); [inversion Eadd; apply keeps_refl|].
      change ds1 with (s_ds (with_ds ds1 st2)).
      eapply Hadd; [reflexivity | exact Eadd].
    + bind_ok H Emap r3. destruct r3 as [st3 element3]. cbn [fst snd] in H.
      bind_ok H Epop st4. bind_ok H Echild n4. inversion H; subst; clear H.
      rewrite (pop_scope_store _ _ Epop).
      eapply keeps_trans; [exact K1|].
      apply mapObject_store in Emap. cbn [with_ds s_ds] in Emap. destruct Emap as [G K].
      split; [exact G|]. intros He Hm. apply K; auto.
      destruct attrs as [a|]; [now apply (Hattrs a) | reflexivity].
Qed.

End Steps.

Lemma jsonToXml_fuel_store (fuel : nat) : rec_ok self (jsonToXml_fuel toISOString self fuel).
Proof.
  induction fuel as [|fuel IH]; intros st node d val st' node' H; [discriminate|].
  cbn [jsonToXml_fuel] in H.
  destruct d as [r|].
  - destruct (deref (s_ds st) r) as [dd|]; [|discriminate].
    destruct (d_kind dd).
    + destruct (d_isMany dd) eqn:Em.
      * destruct val; try (eapply element_branch_store; eassumption).
        change (s_ds st) with (s_ds (fst (st, node))).
        change (s_ds st') with (s_ds (fst (st', node'))).
        revert H. apply (foldM_invariant
          (fun acc v => jsonToXml_fuel toISOString self fuel (fst acc) (snd acc) (Some r) v)
          (fun x y => keeps self (s_ds (fst x)) (s_ds (fst y)) (VArr items))).
        -- intros s. apply keeps_refl.
        -- intros s1 s2 s3. apply keeps_trans.
        -- intros [s n] v [s' n'] Hv Hs. cbn [fst snd] in *.
           eapply keeps_sub; [|eapply IH; exact Hs].
           cbn [mentions]. intros Hm. apply orb_false_iff in Hm as [_ Hm].
           now apply (existsb_false_In _ _ _ Hm).
      * eapply element_branch_store; eassumption.
    + apply keeps_eq. eapply attribute_branch_store; exact H.
    + apply mapObject_store in H; [|exact IH]. destruct H as [G K].
      split; [exact G|]. intros He Hm. now apply K.
    + inversion H. apply keeps_refl.
  - apply mapObject_store in H; [|exact IH]. destruct H as [G K].
    split; [exact G|]. intros He Hm. now apply K.
Qed.

End Store.

(** C5, to the contrary of the claim: serializing a [shape] with the
    xsi-type [Circle] leaves the descriptor of [shape] with the element
    [radius] of the extension appended to its [elements]. *)
Lemma jsonToXml_extends_descriptor :
  option_map d_elements (shape_store !! 0%nat) = Some [1%nat]
  /\ (do r <- jsonToXml no_iso default_handler 5 shape_store None None (Some (Stored 0)) circle;
      Ok (option_map d_elements (s_ds (fst r) !! 0%nat)))
     = Ok (Some [1%nat; 5%nat]).
Proof. split; vm_compute; reflexivity. Qed.

(** C5: what a call of [jsonToXml] that returns may have done to the
    descriptors.  Every descriptor is as before, but for elements
    appended to its [elements] list (line 185, for an xsi-type entry
    whose type has an extension); and when restrictions are not enforced
    and the value holds no xsi-type entry anywhere, the descriptors are
    the same after the call as before it.  [xmlToJson] only reads the
    descriptors: it takes the store and returns none. *)
Theorem jsonToXml_only_appends_elements (toISOString : value -> option string)
    (self : XMLHandler) (fuel : nat) (ds : dstore) (node : option xnode)
    (nsContext : option NamespaceContext.t) (descriptor : option dref) (val : value)
    (st' : sstate) (node' : xnode) :
  jsonToXml toISOString self fuel ds node nsContext descriptor val = Ok (st', node') ->
  store_grows ds (s_ds st')
  /\ (enforceRestrictions (opts self) = false ->
      mentions (xsiTypeKey (opts self)) val = false -> s_ds st' = ds).
Proof.
  unfold jsonToXml. intros H. exact (jsonToXml_fuel_store _ _ _ _ _ _ _ _ _ H).
Qed.

Lemma jsonToXml_only_appends_elements_witness :
  store_grows shape_store shape_store
  /\ (enforceRestrictions (opts default_handler) = false ->
      mentions (xsiTypeKey (opts default_handler)) plain_shape = false ->
      shape_store = shape_store).
Proof.
  refine (jsonToXml_only_appends_elements no_iso default_handler 5 shape_store None None
            (Some (Stored 0)) plain_shape
            {| s_ds := shape_store; s_ns := NamespaceContext.empty |}
            (XDocument [XElement "shape" [] [XElement "name" [] [XText "c"]]]) _).
  vm_compute. reflexivity.
Defined.

Open Scope list_scope.

(** *** Qualified names *)

Lemma contains_colon_append (p n : string) :
  Str.contains ":" n = false ->
  Str.contains ":" (p ++ ":" ++ n)%string = true.
Proof.
  intros _. induction p as [|c p IH].
  - cbn. now destruct n.
  - change (Str.contains ":" (String c p ++ ":" ++ n)%string)
      with (String.prefix ":" (String c (p ++ ":" ++ n))
            || Str.contains ":" (p ++ ":" ++ n)%string).
    rewrite IH. apply orb_true_r.
Qed.

Lemma after_last_colon_plain (n : string) :
  Str.contains ":" n = false -> Str.after_last_colon n = n.
Proof.
  induction n as [|c n IH]; [reflexivity|]. intros H.
  change (String.prefix ":" (String c n) || Str.contains ":" n = false) in H.
  apply orb_false_iff in H as [Hc Hn].
  change (Str.after_last_colon (String c n))
    with (if Str.contains ":" n then Str.after_last_colon n
          else if Ascii.eqb c ":"%char then n else String c n).
  rewrite Hn.
  destruct (Ascii.eqb_spec c ":"%char) as [->|_]; [|reflexivity].
  cbn in Hc. now destruct n.
Qed.

Lemma after_last_colon_prefixed (p n : string) :
  Str.contains ":" n = false -> Str.after_last_colon (p ++ ":" ++ n)%string = n.
Proof.
  intros Hn. induction p as [|c p IH].
  - cbn. now rewrite Hn.
  - change (Str.after_last_colon (String c p ++ ":" ++ n)%string)
      with (if Str.contains ":" (p ++ ":" ++ n)%string
            then Str.after_last_colon (p ++ ":" ++ n)%string
            else if Ascii.eqb c ":"%char then (p ++ ":" ++ n)%string
                 else String c (p ++ ":" ++ n)).
    now rewrite (contains_colon_append p n Hn).
Qed.

Lemma local_of_prefixed (p n : string) :
  Str.contains ":" n = false ->
  QName.name (QName.parse (prefixed p n) None) = n.
Proof.
  intros Hn. unfold prefixed, QName.parse. cbn [QName.name].
  destruct (String.eqb p "");
    [now apply after_last_colon_plain | now apply after_last_colon_prefixed].
Qed.

Lemma is_xmlns_declaration (p : string) : Str.is_xmlns ("xmlns:" ++ p) = true.
Proof. unfold Str.is_xmlns. cbn. now destruct p. Qed.

(** A namespace declaration begins with the letters xm. *)
Lemma is_xmlns_x (a : string) :
  Str.is_xmlns a = true -> exists r, a = String "x"%char (String "m"%char r).
Proof.
  unfold Str.is_xmlns. intros H. apply orb_true_iff in H as [H|H].
  - destruct a as [|c1 [|c2 a]]; cbn [String.prefix] in H; try discriminate.
    + destruct (Ascii.ascii_dec "x"%char c1); discriminate.
    + destruct (Ascii.ascii_dec "x"%char c1) as [<-|]; [|discriminate].
      destruct (Ascii.ascii_dec "m"%char c2) as [<-|]; [|discriminate].
      now exists a.
  - apply String.eqb_eq in H. subst a. now exists "lns".
Qed.

(** *** Serializing a null *)

Lemma find_uri_uri (u : string) (s : NamespaceContext.scope) (m : NamespaceContext.mapping) :
  NamespaceContext.find_uri u s = Some m -> NamespaceContext.uri m = u.
Proof.
  unfold NamespaceContext.find_uri. intros H. apply List.find_some in H as [_ H].
  now apply String.eqb_eq in H.
Qed.

Lemma getPrefixMapping_uri (u : string) (c : NamespaceContext.t) (m : NamespaceContext.mapping) :
  NamespaceContext.getPrefixMapping u c = Some m -> NamespaceContext.uri m = u.
Proof.
  unfold NamespaceContext.getPrefixMapping.
  induction c as [|s c IH]; cbn [NamespaceContext.resolve]; [discriminate|].
  destruct (NamespaceContext.find_uri u s) as [m'|] eqn:E; [|exact IH].
  intros [= <-]. now apply (find_uri_uri u s).
Qed.

Section NullElement.

Variable toISOString : value -> option string.
Variable self : XMLHandler.
Variables (ds : dstore) (r : dref) (d : descriptor) (q : QName.t).
Hypothesis Hd : deref ds r = Some d.
Hypothesis Hkind : d_kind d = ElementDescriptor.
Hypothesis Hq : d_qname d = Some q.
Hypothesis Hrestr : enforce_restrictions self d VNull = VNull.

Lemma toXmlDateOrTime_null : toXmlDateOrTime toISOString (Some d) VNull = Ok VNull.
Proof. unfold toXmlDateOrTime. now destruct (d_type d). Qed.

(** The element made for the null, before the nil mark. *)
Lemma make_element_null (ename : string) :
  make_element toISOString self d ename VNull = Ok (XElement ename [] [], VNull).
Proof.
  unfold make_element.
  replace (if d_isSimple d then cdata_test VNull else Ok false) with (Ok false : result bool)
    by now destruct (d_isSimple d).
  cbn [bind is_nullish negb andb]. rewrite andb_false_r. cbn [andb].
  rewrite Hrestr, toXmlDateOrTime_null. cbn [bind].
  now destruct (d_isSimple d).
Qed.

Lemma nil_prefix_not_empty : String.eqb (nil_prefix q) "" = false.
Proof. unfold nil_prefix. destruct (String.eqb (QName.prefix q) "") eqn:E; [reflexivity | exact E]. Qed.

(** The name and the scope of the element in a new context. *)
Lemma element_name_null :
  element_name {| s_ds := ds; s_ns := NamespaceContext.empty |} d q
  = Ok ({| s_ds := ds;
           s_ns := [if String.eqb (d_form d) "unqualified" then []
                    else [{| NamespaceContext.prefix := nil_prefix q;
                             NamespaceContext.uri := QName.nsURI q;
                             NamespaceContext.declared := true |}]; []] |},
        nil_name d q,
        if String.eqb (d_form d) "unqualified" then None
        else Some ("xmlns:" ++ nil_prefix q)%string).
Proof.
  unfold element_name, nil_name. destruct (String.eqb (d_form d) "unqualified"); [reflexivity|].
  cbn. fold (nil_prefix q). now rewrite nil_prefix_not_empty.
Qed.

Section InContext.

Variable c : NamespaceContext.t.
Hypothesis Hnil : d_isNillable d = true.
Hypothesis Hcolon : Str.contains ":" (QName.name q) = false.
Hypothesis Hctx :
  forall m, NamespaceContext.getPrefixMapping helper.xsi c = Some m ->
            NamespaceContext.prefix m = "xsi".
Hypothesis Hxsi :
  d_form d = "unqualified" \/ QName.nsURI q <> helper.xsi \/ QName.prefix q = "xsi".

(** The name of the element in any context: the scope pushed for it is
    the only one added, the XML-Schema-Instance namespace is still bound
    to no other prefix than [xsi], and the attribute that goes with the
    name, if any, is a namespace declaration. *)
Lemma element_name_nil :
  exists scope ename xmlns,
    element_name {| s_ds := ds; s_ns := c |} d q
    = Ok ({| s_ds := ds; s_ns := scope :: c |}, ename, xmlns)
    /\ (forall m, NamespaceContext.getPrefixMapping helper.xsi (scope :: c) = Some m ->
                  NamespaceContext.prefix m = "xsi")
    /\ QName.name (QName.parse ename None) = QName.name q
    /\ (xmlns = None \/ exists x, xmlns = Some x /\ Str.is_xmlns x = true).
Proof.
  unfold element_name. destruct (String.eqb (d_form d) "unqualified") eqn:Ef.
  - exists [], (QName.name q), None. split; [reflexivity|]. split; [|split].
    + intros m Hm. apply Hctx. exact Hm.
    + unfold QName.parse. cbn [QName.name]. now apply after_last_colon_plain.
    + now left.
  - assert (Hx : QName.nsURI q <> helper.xsi \/ QName.prefix q = "xsi").
    { destruct Hxsi as [H|H]; [|exact H]. rewrite H in Ef. discriminate. }
    assert (Hsame : forall m, NamespaceContext.getPrefixMapping helper.xsi ([] :: c) = Some m ->
                              NamespaceContext.prefix m = "xsi").
    { intros m Hm. apply Hctx. exact Hm. }
    assert (Hxm : forall (p : string),
               Str.is_xmlns (if String.eqb p "" then "xmlns" else "xmlns:" ++ p)%string = true).
    { intros p. destruct (String.eqb p ""); [reflexivity | apply is_xmlns_declaration]. }
    unfold declareNamespace, NamespaceContext.declareNamespace, NamespaceContext.pushContext.
    cbn [s_ns].
    change (NamespaceContext.getPrefixMapping (QName.nsURI q) ([] :: c))
      with (NamespaceContext.getPrefixMapping (QName.nsURI q) c).
    destruct (NamespaceContext.getPrefixMapping (QName.nsURI q) c) as [m0|] eqn:Em.
    + destruct (NamespaceContext.declared m0) eqn:Edecl; cbn [negb bind].
      * exists [], (prefixed (NamespaceContext.prefix m0) (QName.name q)), None.
        split; [reflexivity|]. split; [exact Hsame|].
        split; [now apply local_of_prefixed | now left].
      * eexists [], _, _. split; [reflexivity|]. split; [exact Hsame|].
        split; [now apply local_of_prefixed|]. right. eexists. split; [reflexivity|]. apply Hxm.
    + cbn [bind].
      eexists [_], _, _. split; [reflexivity|]. split; [|split].
      * intros m. unfold NamespaceContext.getPrefixMapping.
        cbn [NamespaceContext.resolve NamespaceContext.find_uri List.find NamespaceContext.uri].
        destruct (String.eqb_spec (QName.nsURI q) helper.xsi) as [Eu|Eu].
        -- intros [= <-]. cbn [NamespaceContext.prefix].
           destruct Hx as [H|H]; [contradiction|]. now rewrite H.
        -- apply Hctx.
      * cbn [NamespaceContext.prefix]. now apply local_of_prefixed.
      * right. eexists. split; [reflexivity|]. apply Hxm.
Qed.

(** Declaring the XML-Schema-Instance namespace on the new element. *)
Lemma declare_xsi (ename : string) (attrs0 : list (string * string))
    (scope : NamespaceContext.scope) :
  (forall m, NamespaceContext.getPrefixMapping helper.xsi (scope :: c) = Some m ->
             NamespaceContext.prefix m = "xsi") ->
  exists m scope',
    declare_on {| s_ds := ds; s_ns := scope :: c |} (XElement ename attrs0 []) "xsi" helper.xsi
    = Ok (m, {| s_ds := ds; s_ns := scope' :: c |},
          XElement ename (Js.set "xmlns:xsi" helper.xsi attrs0) []).
Proof.
  intros Hm. unfold declare_on, declareNamespace, NamespaceContext.declareNamespace.
  cbn [s_ns].
  destruct (NamespaceContext.getPrefixMapping helper.xsi (scope :: c)) as [m|] eqn:E.
  - cbn. rewrite (Hm m eq_refl), (getPrefixMapping_uri _ _ _ E). now eexists _, _.
  - cbn. now eexists _, _.
Qed.

Lemma nil_shape_of (own : list (string * string)) :
  own = [] \/ (exists x u, own = [(x, u)] /\ Str.is_xmlns x = true) ->
  nil_shape (Js.set "xsi:nil" "true" (Js.set "xmlns:xsi" helper.xsi own)).
Proof.
  intros [->|(x & u & -> & Hx)]; [now left|].
  cbn [Js.set]. destruct (String.eqb_spec "xmlns:xsi" x) as [E|E].
  - now left.
  - right. exists x, u. destruct (is_xmlns_x x Hx) as [rest ->].
    split; [reflexivity|]. split; [exact Hx | congruence].
Qed.

Lemma element_branch_nil (rec : rec_call) (node : xnode) :
  exists ename attrs,
    element_branch toISOString self rec {| s_ds := ds; s_ns := c |} node r d VNull
    = (do n' <- Xml.add_child node (XElement ename attrs []);
       Ok ({| s_ds := ds; s_ns := c |}, n'))
    /\ QName.name (QName.parse ename None) = QName.name q
    /\ nil_shape attrs.
Proof.
  destruct element_name_nil as (scope & ename & xmlns & Hname & Hvis & Hlocal & Hxmlns).
  unfold element_branch. rewrite Hq. cbn [is_nullish negb andb].
  rewrite Hname. cbn [bind]. rewrite make_element_null. cbn [bind].
  rewrite Hnil. cbn [is_nullish andb].
  set (own := match xmlns with
              | Some x => if String.eqb (QName.nsURI q) "" then [] else [(x, QName.nsURI q)]
              | None => []
              end).
  assert (Hel : match xmlns with
                | Some x => if String.eqb (QName.nsURI q) "" then Ok (XElement ename [] [])
                            else Xml.attribute x (QName.nsURI q) (XElement ename [] [])
                | None => Ok (XElement ename [] [])
                end = Ok (XElement ename own [])).
  { unfold own. destruct xmlns; [|reflexivity]. now destruct (String.eqb (QName.nsURI q) ""). }
  rewrite Hel. cbn [bind].
  destruct (declare_xsi ename own scope Hvis) as (m & scope' & Hdecl).
  rewrite Hdecl. cbn [bind Xml.attribute].
  exists ename, (Js.set "xsi:nil" "true" (Js.set "xmlns:xsi" helper.xsi own)).
  split; [|split; [exact Hlocal|]].
  - unfold extend_elements, mapObject, pop_scope. cbn [is_nullish bind].
    destruct (d_isSimple d); cbn [bind fst snd s_ns s_ds NamespaceContext.popContext with_sns
                                   with_ds is_nullish negb andb];
      now destruct (Xml.add_child node _).
  - apply nil_shape_of. unfold own.
    destruct Hxmlns as [->|(x & -> & Hx)]; [now left|].
    destruct (String.eqb (QName.nsURI q) ""); [now left|]. right. now exists x, (QName.nsURI q).
Qed.

Lemma jsonToXml_fuel_nil (fuel : nat) (node : xnode) :
  exists ename attrs,
    jsonToXml_fuel toISOString self (S fuel) {| s_ds := ds; s_ns := c |} node (Some r) VNull
    = (do n' <- Xml.add_child node (XElement ename attrs []);
       Ok ({| s_ds := ds; s_ns := c |}, n'))
    /\ QName.name (QName.parse ename None) = QName.name q
    /\ nil_shape attrs.
Proof.
  destruct (element_branch_nil (jsonToXml_fuel toISOString self fuel) node)
    as (ename & attrs & H & Hl & Hs).
  exists ename, attrs. split; [|now split].
  cbn [jsonToXml_fuel s_ds]. rewrite Hd, Hkind. now destruct (d_isMany d).
Qed.

End InContext.

End NullElement.

(** *** Reading an element without attributes of its own *)

Lemma register_namespaces_scope (attrs : list (string * string)) (s : NamespaceContext.scope)
    (c : NamespaceContext.t) :
  exists s', register_namespaces attrs (s :: c) = s' :: c.
Proof.
  unfold register_namespaces. generalize (Js.keys attrs) as L. intros L. revert s.
  induction L as [|a L IH]; intros s; cbn [fold_left]; [now exists s|].
  destruct (Str.is_xmlns a); [|apply IH]. cbn [NamespaceContext.addNamespace]. apply IH.
Qed.

Lemma popContext_scope_of (s : pstate) (attrs : list (string * string)) :
  NamespaceContext.popContext (scope_of s attrs) = Some (p_ns s).
Proof.
  unfold scope_of, NamespaceContext.pushContext.
  destruct (register_namespaces_scope attrs [] (p_ns s)) as [s' H].
  etransitivity; [exact (f_equal NamespaceContext.popContext H)|reflexivity].
Qed.

(** An open tag whose attributes are namespace declarations and
    [xsi:nil] only: a frame is pushed, the heap and the registry are left
    as they are. *)
Lemma onopentag_uncollected (self : XMLHandler) (ds : dstore) (s : pstate) (nsName : string)
    (attrs : list (string * string)) (top : frame) (rest : list frame) :
  p_stack s = top :: rest ->
  (forall a, In a (Js.keys attrs) -> collected (scope_of s attrs) a = false) ->
  Js.own "href" attrs = None ->
  Js.own "id" attrs = None ->
  onopentag self ds s nsName attrs
  = Ok {| p_heap := p_heap s;
          p_stack :=
            {| f_name := Some (QName.name (QName.parse nsName None));
               f_object := if existsb (nil_true (scope_of s attrs) attrs) (Js.keys attrs)
                           then JNull else JUndefined;
               f_descriptor :=
                 match frame_descriptor ds top with
                 | Some d => findElement ds d (QName.name (QName.parse nsName None))
                 | None => None
                 end;
               f_id := None |} :: p_stack s;
          p_refs := p_refs s;
          p_ns := scope_of s attrs |}.
Proof.
  intros Hstack Hnone Hhref Hid. unfold onopentag. rewrite Hstack.
  fold (scope_of s attrs).
  destruct (attr_loop_spec self (scope_of s attrs) (frame_descriptor ds top) (Js.keys attrs)
              {| al_heap := p_heap s; al_attrs := attrs; al_obj := JUndefined;
                 al_elementAttributes := None |} [] eq_refl)
    as (st' & m' & Hrun & _ & _ & _ & _ & Hst).
  { intros a Ha Hc. rewrite (Hnone a Ha) in Hc. discriminate. }
  rewrite Hrun, (Hst Hnone). cbn [bind al_elementAttributes al_heap al_obj al_attrs].
  rewrite Hhref, Hid. reflexivity.
Qed.

Lemma nil_attrs_shape (d : descriptor) (q : QName.t) : nil_shape (nil_attrs d q).
Proof.
  unfold nil_attrs. apply nil_shape_of.
  destruct (String.eqb (d_form d) "unqualified" || String.eqb (QName.nsURI q) "");
    [now left|].
  right. exists ("xmlns:" ++ nil_prefix q)%string, (QName.nsURI q).
  split; [reflexivity | apply is_xmlns_declaration].
Qed.

Lemma nil_shape_keys (attrs : list (string * string)) :
  nil_shape attrs -> Js.keys attrs = map fst attrs.
Proof.
  intros [->|(x & u & -> & Hx & _)]; [reflexivity|].
  destruct (is_xmlns_x x Hx) as [rest ->]. reflexivity.
Qed.

(** The scope the declarations of such an element make: the
    XML-Schema-Instance namespace is bound to [xsi]. *)
Lemma nil_shape_scope (s : pstate) (attrs : list (string * string)) :
  nil_shape attrs ->
  exists others,
    scope_of s attrs
    = ({| NamespaceContext.prefix := "xsi"; NamespaceContext.uri := helper.xsi;
          NamespaceContext.declared := false |} :: others) :: p_ns s.
Proof.
  intros Hs. unfold scope_of, register_namespaces. rewrite (nil_shape_keys attrs Hs).
  destruct Hs as [->|(x & u & -> & Hx & Hne)]; [now exists []|].
  exists [{| NamespaceContext.prefix := if String.eqb x "xmlns" then "" else Str.drop 6 x;
             NamespaceContext.uri := u;
             NamespaceContext.declared := false |}].
  cbn [map fst fold_left nil_attributes]. rewrite Hx.
  change (Str.is_xmlns "xmlns:xsi") with true.
  change (Str.is_xmlns "xsi:nil") with false.
  cbn [Js.own]. rewrite String.eqb_refl.
  replace (String.eqb "xmlns:xsi" x) with false
    by (symmetry; apply String.eqb_neq; congruence).
  reflexivity.
Qed.

Lemma nil_shape_open (self : XMLHandler) (ds : dstore) (s : pstate) (top : frame)
    (rest : list frame) (ename : string) (attrs : list (string * string)) :
  p_stack s = top :: rest ->
  nil_shape attrs ->
  onopentag self ds s ename attrs
  = Ok {| p_heap := p_heap s;
          p_stack := nil_frame ds top (QName.name (QName.parse ename None)) :: p_stack s;
          p_refs := p_refs s;
          p_ns := scope_of s attrs |}.
Proof.
  intros Hstack Hshape.
  pose proof (nil_shape_keys attrs Hshape) as Hkeys.
  destruct (nil_shape_scope s attrs Hshape) as [others Hscope].
  rewrite (onopentag_uncollected self ds s ename attrs top rest Hstack).
  - rewrite Hkeys. unfold nil_frame.
    replace (existsb (nil_true (scope_of s attrs) attrs) (map fst attrs)) with true;
      [reflexivity|].
    rewrite Hscope. destruct Hshape as [->|(x & u & -> & Hx & _)]; [reflexivity|].
    cbn [map fst existsb nil_attributes]. unfold nil_true at 1.
    rewrite Hx. cbn [negb andb orb].
    destruct (is_xmlns_x x Hx) as [r ->]. reflexivity.
  - rewrite Hkeys, Hscope. destruct Hshape as [->|(x & u & -> & Hx & _)].
    + intros a [<-|[<-|[]]]; reflexivity.
    + cbn [map fst nil_attributes]. intros a [<-|[<-|[<-|[]]]]; [|reflexivity..].
      unfold collected. now rewrite Hx.
  - destruct Hshape as [->|(x & u & -> & Hx & _)]; [reflexivity|].
    destruct (is_xmlns_x x Hx) as [r ->]. reflexivity.
  - destruct Hshape as [->|(x & u & -> & Hx & _)]; [reflexivity|].
    destruct (is_xmlns_x x Hx) as [r ->]. reflexivity.
Qed.

(** Such an element, read in any state of the parser: the frame of the
    element holds null, and closing it merges the null into the parent;
    the registry and the namespace context are as before. *)
Lemma read_nil_steps (self : XMLHandler) (ds : dstore)
    (nested : heap -> string -> result (heap * jsval)) (s : pstate) (top : frame)
    (rest : list frame) (ename name : string) (attrs : list (string * string)) :
  p_stack s = top :: rest ->
  QName.name (QName.parse ename None) = name ->
  nil_shape attrs ->
  foldM (handle self ds nested) [OpenTag ename attrs; CloseTag ename] s
  = (do r <- merge_child ds (p_heap s) top (nil_frame ds top name) name;
     Ok {| p_heap := fst r; p_stack := snd r :: rest; p_refs := p_refs s; p_ns := p_ns s |}).
Proof.
  intros Hstack Hname Hshape. cbn [foldM handle].
  rewrite (nil_shape_open self ds s top rest ename attrs Hstack Hshape). cbn [bind].
  unfold onclosetag. cbn [p_ns p_stack p_heap p_refs].
  rewrite popContext_scope_of, Hname, Hstack.
  destruct (merge_child ds (p_heap s) top (nil_frame ds top name) name) as [[h top']|];
    reflexivity.
Qed.

(** The document of such an element, read back: the key of the element
    holds null, inside a one-element array when the descriptor found for
    the element declares it repeatable. *)
Lemma read_nil (self : XMLHandler) (ds : dstore)
    (nested : heap -> string -> result (heap * jsval)) (descriptor : option did)
    (ename name : string) (attrs : list (string * string)) (many : bool) :
  QName.name (QName.parse ename None) = name ->
  Js.mem name Js.prototype_members = false ->
  nil_shape attrs ->
  is_many ds (nil_frame ds (root_frame [] descriptor) name) = many ->
  (many = true -> name <> "Envelope") ->
  tree_of (xmlToJson_events self ds nested [] None [OpenTag ename attrs; CloseTag ename]
             descriptor)
  = Some (VObj [(name, if many then VArr [VNull] else VNull)]).
Proof.
  intros Hname Hproto Hshape Hmany Henv.
  unfold xmlToJson_events.
  rewrite (read_nil_steps self ds nested (initial [] None descriptor)
             (root_frame [] descriptor) [] ename name attrs eq_refl Hname Hshape).
  cbn [initial p_heap app List.length].
  erewrite (merge_child_absent ds [HObject []]) with (a := 0%nat) (props := []);
    [| reflexivity | reflexivity | unfold Js.has; now rewrite Hproto].
  rewrite Hmany. destruct many.
  - cbn [bind]. unfold finish. cbn -[String.eqb].
    replace (String.eqb "Envelope" name) with false
      by (symmetry; apply String.eqb_neq; intros E; now apply Henv).
    reflexivity.
  - cbn [bind]. unfold finish. cbn -[String.eqb].
    destruct (String.eqb "Envelope" name); reflexivity.
Qed.

(** The merge of the null into a parent that has no such key yet. *)
Lemma merge_nil_absent (ds : dstore) (h : heap) (top : frame) (name : string)
    (a : nat) (props : list (string * jsval)) (h1 : heap) (top1 : frame) :
  parent_ready h top h1 top1 a ->
  h1 !! a = Some (HObject props) ->
  Js.has name props = false ->
  merge_child ds h top (nil_frame ds top name) name
  = Ok (if is_many ds (nil_frame ds top name)
        then (<[a := HObject (Js.set name (JRef (List.length h1)) props)]>
                (h1 ++ [HArray [JNull]])%list, top1)
        else (<[a := HObject (Js.set name JNull props)]> h1, top1)).
Proof.
  intros [(Htop & -> & ->)|(Htop & -> & -> & ->)] Ha Hhas.
  - now rewrite (merge_child_absent ds h top _ name a props Htop Ha Hhas).
  - rewrite (merge_child_undefined ds h top _ name Htop).
    now rewrite (merge_child_absent ds (h ++ [HObject []])%list
                   (with_object (JRef (List.length h)) top) (nil_frame ds top name) name
                   (List.length h) props eq_refl Ha Hhas).
Qed.




Open Scope list_scope.

(** ** More on [_sortKeys] (lines 260-277) *)

Lemma sorted_keys_perm (props : list (string * value)) (elementOrder : list string) :
  Permutation (_sortKeys props elementOrder) (map fst props).
Proof.
  unfold _sortKeys. rewrite sort_perm. apply keys_perm.
Qed.

(** The sorted names are the keys of the object, each as often as the
    object has it: the sort drops no property and invents none, whatever
    the declared order is. *)
Theorem sortKeys_permutation (props : list (string * value)) (elementOrder : list string) :
  Permutation (_sortKeys props elementOrder) (map fst props).
Proof. apply sorted_keys_perm. Qed.

Lemma filter_all {A} (f : A -> bool) (l : list A) :
  (forall x, In x l -> f x = true) -> List.filter f l = l.
Proof.
  induction l as [|x l IH]; intros H; [reflexivity|].
  cbn [List.filter]. rewrite (H x) by now left.
  f_equal. apply IH. intros y Hy. apply H. now right.
Qed.

Lemma filter_none {A} (f : A -> bool) (l : list A) :
  (forall x, In x l -> f x = false) -> List.filter f l = [].
Proof.
  induction l as [|x l IH]; intros H; [reflexivity|].
  cbn [List.filter]. rewrite (H x) by now left.
  apply IH. intros y Hy. apply H. now right.
Qed.

Lemma sorted_keys_undeclared (props : list (string * value)) (elementOrder : list string) :
  List.NoDup (map fst props) ->
  (forall n, In n elementOrder -> ~ In n (map fst props)) ->
  _sortKeys props elementOrder = Js.keys props.
Proof.
  intros Hnd Hno. unfold _sortKeys.
  rewrite sort_declared_first by now apply keys_NoDup.
  unfold declared_first.
  assert (Hkeys : forall n, In n (Js.keys props) <-> In n (map fst props)).
  { intros n. split; apply Permutation_in; [|symmetry]; apply keys_perm. }
  rewrite filter_none, filter_all; [reflexivity| |].
  - intros k Hk. apply negb_true_iff, mem_not_In. intros Hin.
    apply (Hno k Hin). now apply Hkeys.
  - intros n Hn. apply mem_not_In. rewrite first_occurrences_In in Hn.
    intros Hin. apply (Hno n Hn). now apply Hkeys.
Qed.

(** When no declared element name is a key of the object (as when there
    is no descriptor, or an empty one), the properties are visited in the
    order the object enumerates them. *)
Theorem sortKeys_undeclared (props : list (string * value)) (elementOrder : list string) :
  List.NoDup (map fst props) ->
  (forall n, In n elementOrder -> ~ In n (map fst props)) ->
  _sortKeys props elementOrder = Js.keys props.
Proof. apply sorted_keys_undeclared. Qed.

Lemma sortKeys_undeclared_witness :
  _sortKeys sample_object ["c"; "d"] = ["zip"; "$attributes"; "b"; "extra"; "a"].
Proof.
  refine (sortKeys_undeclared sample_object ["c"; "d"] _ _).
  - repeat constructor; simpl; intuition discriminate.
  - intros n [<-|[<-|[]]]; simpl; intuition discriminate.
Defined.

Open Scope list_scope.

(** ** Text of an element (lines 533-551, 683-707) *)

Lemma set_set {A} (k : string) (v w : A) (l : list (string * A)) :
  Js.set k v (Js.set k w l) = Js.set k v l.
Proof.
  induction l as [|[k' v'] l IH]; cbn [Js.set].
  - now rewrite String.eqb_refl.
  - destruct (String.eqb k k') eqn:E; cbn [Js.set].
    + now rewrite String.eqb_refl.
    + now rewrite E, IH.
Qed.

(** Adding a text to a value that can take one gives a text. *)
Lemma add_text (v : jsval) (a b : string) :
  match Js.add v (JStr a) with
  | Ok w => exists s, w = JStr (s ++ a)%string
                      /\ Js.add v (JStr (a ++ b)%string) = Ok (JStr (s ++ (a ++ b))%string)
  | Err e => Js.add v (JStr (a ++ b)%string) = Err e
  end.
Proof.
  destruct v as [| |[|]|n|s|d|m|r]; cbn -[append];
    try reflexivity; eexists; split; reflexivity.
Qed.

(** Two texts handed to [_processText] one after the other accumulate to
    what their concatenation gives in one call: in a frame without object
    yet, on a text or a number or a boolean, under the value key of an
    object, and not at all in a frame nulled by [xsi:nil]. *)
Theorem processText_chunks (o : options) (h : heap) (top : frame) (a b : string) :
  valueKey o <> "constructor" ->
  (do (h1, top1) <- _processText o h top (JStr a); _processText o h1 top1 (JStr b))
  = _processText o h top (JStr (a ++ b)%string).
Proof.
  intros Hvk.
  assert (Hun : forall h0 t v, _processText o h0 t v
                = match f_object t with
                  | JNull => Ok (h0, t)
                  | JUndefined => Ok (h0, with_object v t)
                  | JRef x =>
                      match h0 !! x with
                      | Some (HObject props) =>
                          if Js.has_own "constructor" props then Err Unmodelled
                          else
                            match Js.get (valueKey o) props with
                            | JUndefined =>
                                do h' <- heap_set h0 x (valueKey o) v; Ok (h', t)
                            | value =>
                                do sum <- Js.add value v;
                                do h' <- heap_set h0 x (valueKey o) sum; Ok (h', t)
                            end
                      | _ => Err Unmodelled
                      end
                  | JStr _ | JBool _ | JNum _ =>
                      do sum <- Js.add (f_object t) v; Ok (h0, with_object sum t)
                  | JDate _ | JBuiltin _ => Err Unmodelled
                  end) by reflexivity.
  assert (Hprim : forall v,
            (exists w, v = JStr w) \/ (exists w, v = JBool w) \/ (exists w, v = JNum w) ->
            (do (h1, top1) <- (do sum <- Js.add v (JStr a); Ok (h, with_object sum top));
             _processText o h1 top1 (JStr b))
            = do sum <- Js.add v (JStr (a ++ b)%string); Ok (h, with_object sum top)).
  { intros v Hkind. pose proof (add_text v a b) as H.
    destruct (Js.add v (JStr a)) as [w|e]; cbn [bind]; [|now rewrite H].
    destruct H as (s & -> & ->). rewrite Hun. cbn [f_object with_object Js.add bind].
    cbn [Js.to_string bind]. now rewrite str_app_assoc. }
  rewrite (Hun h top (JStr a)), (Hun h top (JStr (a ++ b)%string)).
  destruct (f_object top) as [| |c|n|s|d|m|x] eqn:Htop; try reflexivity.
  - cbn [bind]. now rewrite Hun, Htop.
  - apply Hprim; eauto.
  - apply Hprim; eauto.
  - apply Hprim; eauto.
  - destruct (h !! x) as [[props|items]|] eqn:Hx; try reflexivity.
    destruct (Js.has_own "constructor" props) eqn:Hc; [reflexivity|].
    assert (Hnext : forall s,
               valueKey o <> "__proto__" ->
               _processText o (<[x := HObject (Js.set (valueKey o) (JStr s) props)]> h) top
                 (JStr b)
               = Ok (<[x := HObject (Js.set (valueKey o) (JStr (s ++ b)%string) props)]> h,
                     top)).
    { intros s Hp. rewrite Hun, Htop.
      rewrite list_lookup_insert_eq by (eapply lookup_lt_Some; exact Hx).
      rewrite has_own_set, Hc.
      replace (String.eqb "constructor" (valueKey o)) with false
        by (symmetry; apply String.eqb_neq; congruence).
      cbn [orb]. unfold Js.get. rewrite own_set_eq.
      cbn [Js.add Js.to_string bind].
      rewrite (heap_set_ok _ x _ _ (Js.set (valueKey o) (JStr s) props));
        [|apply list_lookup_insert_eq; eapply lookup_lt_Some; exact Hx|exact Hp].
      cbn [bind]. now rewrite list_insert_insert_eq, set_set. }
    destruct (String.eqb_spec (valueKey o) "__proto__") as [Hp|Hp].
    { unfold heap_set. rewrite Hx, Hp. cbn -[append].
      destruct (Js.get "__proto__" props) as [| |c|n|s|d|m|y]; try reflexivity.
      now destruct c. }
    assert (Hval : forall v,
              (do (h1, top1) <-
                 (do sum <- Js.add v (JStr a);
                  do h' <- heap_set h x (valueKey o) sum; Ok (h', top));
               _processText o h1 top1 (JStr b))
              = do sum <- Js.add v (JStr (a ++ b)%string);
                do h' <- heap_set h x (valueKey o) sum; Ok (h', top)).
    { intros v. pose proof (add_text v a b) as H.
      destruct (Js.add v (JStr a)) as [w|e]; cbn [bind]; [|now rewrite H].
      destruct H as (s & -> & ->). cbn [bind].
      rewrite !(heap_set_ok _ x _ _ props Hx Hp). cbn [bind].
      rewrite Hnext by exact Hp. now rewrite str_app_assoc. }
    destruct (Js.get (valueKey o) props) as [| |c|n|s|d|m|y] eqn:Hget;
      try apply Hval.
    rewrite !(heap_set_ok _ x _ _ props Hx Hp). cbn [bind].
    now rewrite Hnext by exact Hp.
Qed.

Lemma processText_chunks_witness :
  (do (h1, top1) <- _processText (opts default_handler) sample_heap sample_parent (JStr "a");
   _processText (opts default_handler) h1 top1 (JStr "b"))
  = Ok ([HObject [("p", JRef 1)]; HObject [("x", JStr "1"); ("$value", JStr "ab")]],
        sample_parent).
Proof.
  refine (eq_trans (processText_chunks (opts default_handler) sample_heap sample_parent
                      "a" "b" _) _).
  - discriminate.
  - reflexivity.
Defined.

(** *** White space around a text *)

Lemma trim_end_idempotent (s : string) : Str.trim_end (Str.trim_end s) = Str.trim_end s.
Proof.
  induction s as [|c r IH]; [reflexivity|].
  cbn [Str.trim_end]. destruct (Str.trim_end r) as [|d e] eqn:E.
  - destruct (Str.is_space c) eqn:Hc; [reflexivity|]. cbn [Str.trim_end]. now rewrite Hc.
  - cbn [Str.trim_end]. cbn [Str.trim_end] in IH. now rewrite IH.
Qed.

Lemma trim_start_head (s : string) :
  Str.trim_start s = ""
  \/ exists c r, Str.trim_start s = String c r /\ Str.is_space c = false.
Proof.
  induction s as [|c r IH]; [now left|].
  cbn [Str.trim_start]. destruct (Str.is_space c) eqn:Hc; [exact IH|].
  right. now exists c, r.
Qed.

Lemma trim_end_head (c : ascii) (r : string) :
  Str.is_space c = false -> exists r', Str.trim_end (String c r) = String c r'.
Proof.
  intros Hc. cbn [Str.trim_end]. destruct (Str.trim_end r); rewrite ?Hc; eauto.
Qed.

Lemma trim_idempotent (s : string) : Str.trim (Str.trim s) = Str.trim s.
Proof.
  unfold Str.trim. destruct (trim_start_head s) as [->|(c & r & -> & Hc)]; [reflexivity|].
  destruct (trim_end_head c r Hc) as [r' E]. rewrite E.
  cbn [Str.trim_start]. rewrite Hc, <- E. apply trim_end_idempotent.
Qed.

(** The text and CDATA handlers see a text only through its trimmed
    form: white space around it never reaches the value, and a text of
    white space only leaves the state as it is. *)
Theorem text_is_trimmed (self : XMLHandler) (ds : dstore)
    (nested : heap -> string -> result (heap * jsval)) (s : pstate) (t : string) :
  ontext self ds s t = ontext self ds s (Str.trim t)
  /\ oncdata self nested s t = oncdata self nested s (Str.trim t)
  /\ (Str.trim t = "" ->
      ontext self ds s t = Ok s /\ oncdata self nested s t = Ok s).
Proof.
  split; [|split].
  - unfold ontext. now rewrite trim_idempotent.
  - unfold oncdata. now rewrite trim_idempotent.
  - intros E. unfold ontext, oncdata. now rewrite E.
Qed.

Open Scope list_scope.

(** ** The stack of frames (lines 560-681) *)

Section Stack.

Variables (self : XMLHandler) (ds : dstore).
Variable nested : heap -> string -> result (heap * jsval).
Variable root : frame.
Hypothesis Hroot : exists a, f_object root = JRef a.

Lemma processText_root (o : options) (h h' : heap) (top' : frame) (v : jsval) :
  _processText o h root v = Ok (h', top') -> top' = root.
Proof.
  destruct Hroot as [a Ha]. unfold _processText. rewrite Ha.
  destruct (h !! a) as [[props|items]|]; try discriminate.
  destruct (Js.has_own "constructor" props); [discriminate|].
  destruct (Js.get (valueKey o) props);
    repeat match goal with
           | |- bind ?r _ = Ok _ -> _ => destruct r; cbn [bind]; try discriminate
           end; now intros [= _ <-].
Qed.

Lemma merge_child_root (h h' : heap) (current top' : frame) (n : string) :
  merge_child ds h root current n = Ok (h', top') -> top' = root.
Proof.
  destruct Hroot as [a Ha]. unfold merge_child. rewrite Ha. cbv beta iota zeta. rewrite Ha.
  destruct (h !! a) as [[props|items]|]; try discriminate.
  destruct (Js.has n props).
  - destruct (Js.get n props) as [| |c|z|s|d|m|b];
      try (destruct (heap_set _ _ _ _); cbn [bind]; [now intros [= _ <-]|discriminate]).
    destruct (h !! b) as [[p|items]|];
      try (destruct (heap_set _ _ _ _); cbn [bind]; [now intros [= _ <-]|discriminate]).
    now intros [= _ <-].
  - destruct (is_many ds current);
      (destruct (heap_set _ _ _ _); cbn [bind]; [now intros [= _ <-]|discriminate]).
Qed.

Lemma text_above (s s' : pstate) (v : jsval) (frames : list frame) :
  above root s frames ->
  handleJsonObject self s v = Ok s' ->
  exists frames', above root s' frames' /\ List.length frames' = List.length frames.
Proof.
  unfold above, handleJsonObject. intros Hs.
  destruct (p_stack s) as [|top rest]; [discriminate|].
  destruct (_processText _ _ _ _) as [[h top']|] eqn:Hp; [|discriminate].
  cbn [bind]. intros [= <-]. cbn [p_stack with_stack with_heap].
  destruct frames as [|f frames]; cbn [app] in Hs.
  - injection Hs as -> ->. apply processText_root in Hp. subst top'. now exists [].
  - injection Hs as -> ->. now exists (top' :: frames).
Qed.

Lemma handle_above (s s' : pstate) (e : event) (frames : list frame) :
  above root s frames ->
  handle self ds nested s e = Ok s' ->
  exists frames',
    above root s' frames'
    /\ (List.length frames' + (if is_close e then 1 else 0)
        = List.length frames + (if is_open e then 1 else 0))%nat.
Proof.
  intros Hs. destruct e as [n attrs|n|t|t]; cbn [handle is_open is_close].
  - unfold onopentag. destruct (p_stack s) as [|top rest] eqn:Hst; [discriminate|].
    destruct (foldM _ _ _) as [l|]; [|discriminate]. cbn [bind].
    destruct (match al_elementAttributes l with Some _ => _ | None => _ end) as [[h obj]|];
      [|discriminate]. cbn [bind].
    destruct (match Js.own "href" (al_attrs l) with Some _ => _ | None => _ end);
      [|discriminate]. cbn [bind].
    intros [= <-]. unfold above in *. cbn [p_stack]. rewrite Hst in Hs. rewrite Hs.
    eexists (_ :: frames). split; [reflexivity|]. cbn [List.length]. lia.
  - unfold onclosetag. destruct (NamespaceContext.popContext (p_ns s)); [|discriminate].
    destruct (p_stack s) as [|current [|top rest]] eqn:Hst; try discriminate.
    destruct (merge_child ds (p_heap s) top current _) as [[h top']|] eqn:Hm; [|discriminate].
    cbn [bind].
    destruct (match f_id current with Some _ => _ | None => _ end); [|discriminate].
    cbn [bind]. intros [= <-]. unfold above in *. cbn [p_stack]. rewrite Hst in Hs.
    destruct frames as [|f [|g frames]]; cbn [app] in Hs.
    + discriminate.
    + injection Hs as -> -> ->. apply merge_child_root in Hm. subst top'.
      exists []. split; [reflexivity|]. cbn [List.length]. lia.
    + injection Hs as -> -> ->. exists (top' :: frames). split; [reflexivity|].
      cbn [List.length]. lia.
  - unfold ontext. destruct (String.length (Str.trim t) =? 0)%nat.
    + intros [= <-]. exists frames. split; [exact Hs|lia].
    + intros H.
      destruct (text_above s s' (parseValue (JStr (Str.trim t))
                                   (frame_descriptor ds (hd root (p_stack s)))) frames Hs)
        as (frames' & Ha & Hl).
      * unfold handleJsonObject. destruct (p_stack s) as [|top rest]; [discriminate|].
        exact H.
      * exists frames'. split; [exact Ha|lia].
  - unfold oncdata. destruct (String.length (Str.trim t) =? 0)%nat.
    + intros [= <-]. exists frames. split; [exact Hs|lia].
    + destruct (Str.has_xml_declaration (Str.trim t)).
      * destruct (nested (p_heap s) (Str.trim t)) as [[h v]|]; [|discriminate].
        cbn [bind]. intros H.
        destruct (text_above (with_heap h s) s' v frames Hs H) as (frames' & Ha & Hl).
        exists frames'. split; [exact Ha|lia].
      * intros H.
        destruct (text_above s s' _ frames Hs H) as (frames' & Ha & Hl).
        exists frames'. split; [exact Ha|lia].
Qed.

Lemma run_above (events : list event) (s s' : pstate) (frames : list frame) :
  above root s frames ->
  foldM (handle self ds nested) events s = Ok s' ->
  exists frames',
    above root s' frames'
    /\ (List.length frames' + closes events = List.length frames + opens events)%nat.
Proof.
  revert s frames. induction events as [|e events IH]; intros s frames Hs H; cbn [foldM] in H.
  - injection H as <-. exists frames. split; [exact Hs|]. unfold opens, closes. simpl. lia.
  - destruct (handle self ds nested s e) as [s1|] eqn:E1; [|discriminate]. cbn [bind] in H.
    destruct (handle_above s s1 e frames Hs E1) as (f1 & H1 & L1).
    destruct (IH s1 f1 H1 H) as (f2 & H2 & L2).
    exists f2. split; [exact H2|].
    unfold opens, closes in *. cbn [List.filter].
    destruct (is_open e), (is_close e); cbn [List.length]; lia.
Qed.

End Stack.

(** The stack of [xmlToJson] follows the nesting of the document: in a
    run that does not raise, the root frame stays at the bottom as it was
    made, the frames above it are as many as the open tags not yet
    closed, and at no point of the document were more tags closed than
    opened. *)
Theorem stack_follows_nesting (self : XMLHandler) (ds : dstore)
    (nested : heap -> string -> result (heap * jsval)) (h0 : heap)
    (nsContext : option NamespaceContext.t) (descriptor : option did)
    (events : list event) (s : pstate) :
  foldM (handle self ds nested) events (initial h0 nsContext descriptor) = Ok s ->
  (exists frames,
     above (root_frame h0 descriptor) s frames
     /\ (List.length frames + closes events = opens events)%nat)
  /\ forall n, (closes (firstn n events) <= opens (firstn n events))%nat.
Proof.
  intros Hrun.
  assert (Hroot : exists a, f_object (root_frame h0 descriptor) = JRef a)
    by now exists (List.length h0).
  assert (H0 : above (root_frame h0 descriptor) (initial h0 nsContext descriptor) [])
    by reflexivity.
  split.
  - destruct (run_above self ds nested _ Hroot events _ _ [] H0 Hrun) as (frames & Ha & Hl).
    exists frames. split; [exact Ha|]. cbn [List.length] in Hl. lia.
  - intros n.
    assert (Hsplit : foldM (handle self ds nested) (firstn n events ++ skipn n events)
                       (initial h0 nsContext descriptor) = Ok s)
      by now rewrite firstn_skipn.
    rewrite foldM_app in Hsplit.
    destruct (foldM (handle self ds nested) (firstn n events) _) as [s1|] eqn:E1;
      [|discriminate].
    destruct (run_above self ds nested _ Hroot _ _ _ [] H0 E1) as (frames & _ & Hl).
    cbn [List.length] in Hl. lia.
Qed.

Lemma stack_follows_nesting_witness :
  (exists frames,
     above (root_frame [] None)
       {| p_heap := [HObject []; HObject [("x", JStr "1")]];
          p_stack := [{| f_name := Some "p"; f_object := JRef 1; f_descriptor := None;
                         f_id := None |}; root_frame [] None];
          p_refs := []; p_ns := [[]; []] |} frames
     /\ (List.length frames + closes (firstn 4 promotion_events)
         = opens (firstn 4 promotion_events))%nat)
  /\ forall n, (closes (firstn n (firstn 4 promotion_events))
                <= opens (firstn n (firstn 4 promotion_events)))%nat.
Proof.
  refine (stack_follows_nesting default_handler [] no_nested [] None None
            (firstn 4 promotion_events) _ _).
  vm_compute. reflexivity.
Defined.

Open Scope list_scope.

(** ** The message of a SOAP 1.1 fault (lines 753-784) *)

(** For a fault whose code is a text that is not empty and whose other
    fields are texts or missing, the message is the code, then the fault
    string and the fault actor when they are not empty, then the detail
    when there is one, even an empty one: each under its label. *)
Theorem soap11_message_of_texts (h : heap) (a : nat) (props : list (string * jsval))
    (code : string) :
  h !! a = Some (HObject props) ->
  Js.own "faultcode" props = Some (JStr code) ->
  code <> "" ->
  text_or_absent (Js.own "faultstring" props) ->
  text_or_absent (Js.own "faultactor" props) ->
  text_or_absent (Js.own "detail" props) ->
  getSoap11FaultErrorMessage h (JRef a)
  = Ok (Some ("faultcode: " ++ code
              ++ labelled " faultstring: " (Js.own "faultstring" props)
              ++ labelled " faultactor: " (Js.own "faultactor" props)
              ++ labelled_detail " detail: " (Js.own "detail" props))%string).
Proof. apply soap11_texts. Qed.

Lemma soap11_message_of_texts_witness :
  getSoap11FaultErrorMessage
    [HObject [("faultcode", JStr "Client"); ("faultstring", JStr ""); ("detail", JStr "")]]
    (JRef 0)
  = Ok (Some "faultcode: Client detail: ").
Proof.
  refine (soap11_message_of_texts
            [HObject [("faultcode", JStr "Client"); ("faultstring", JStr "");
                      ("detail", JStr "")]]
            0 _ "Client" eq_refl eq_refl _ _ _ _).
  - discriminate.
  - right. now exists "".
  - now left.
  - right. now exists "".
Defined.

Open Scope list_scope.

(** ** Dates and times (lines 870-896) *)

Lemma contains_char_cons (x c : ascii) (r : string) :
  Str.contains (String x "") (String c r) = false ->
  Ascii.eqb c x = false /\ Str.contains (String x "") r = false.
Proof.
  intros H.
  change (String.prefix (String x "") (String c r) || Str.contains (String x "") r = false) in H.
  apply orb_false_iff in H as [Hp Hr]. split; [|exact Hr].
  destruct (Ascii.eqb_spec c x) as [->|]; [|reflexivity].
  cbn in Hp. destruct (ascii_dec x x) as [_|Hx]; [|now elim Hx]. now destruct r.
Qed.

Lemma up_to_absent (x : ascii) (s : string) :
  Str.contains (String x "") s = false -> Str.up_to x s = s.
Proof.
  induction s as [|c r IH]; [reflexivity|]. intros H.
  apply contains_char_cons in H as [Hc Hr]. cbn [Str.up_to]. rewrite Hc. now rewrite IH.
Qed.

Lemma split_second_at (x : ascii) (a b : string) :
  Str.contains (String x "") a = false ->
  Str.contains (String x "") b = false ->
  Str.split_second x (a ++ String x b)%string = Some b.
Proof.
  intros Ha Hb. induction a as [|c r IH].
  - cbn. rewrite Ascii.eqb_refl. now rewrite up_to_absent.
  - apply contains_char_cons in Ha as [Hc Hr]. cbn [append Str.split_second]. rewrite Hc.
    now apply IH.
Qed.

(** What [toXmlDateOrTime] writes for a value that is not null, when the
    run time renders its instant as a date, a [T] and a time: under the
    type [time] the text after the [T], under [dateTime] the whole
    rendering, under [date] and under any other type the value as it
    is. *)
Theorem toXmlDateOrTime_by_type (toISOString : value -> option string) (d : descriptor)
    (ty : type_ref) (val : value) (date time : string) :
  d_type d = Some ty ->
  val <> VNull ->
  toISOString val = Some (date ++ "T" ++ time)%string ->
  Str.contains "T" date = false ->
  Str.contains "T" time = false ->
  toXmlDateOrTime toISOString (Some d) val
  = Ok (if String.eqb (t_name ty) "date" then val
        else if String.eqb (t_name ty) "time" then VStr time
        else if String.eqb (t_name ty) "dateTime" then VStr (date ++ "T" ++ time)%string
        else val).
Proof.
  intros Hty Hval Hiso Hd Ht. unfold toXmlDateOrTime. rewrite Hty.
  assert (Hgo : (if String.eqb (t_name ty) "date" then Ok (toXmlDate val)
                 else if String.eqb (t_name ty) "time" then toXmlTime toISOString val
                 else if String.eqb (t_name ty) "dateTime" then toXmlDateTime toISOString val
                 else Ok val)
                = Ok (if String.eqb (t_name ty) "date" then val
                      else if String.eqb (t_name ty) "time" then VStr time
                      else if String.eqb (t_name ty) "dateTime"
                           then VStr (date ++ "T" ++ time)%string
                           else val)).
  { unfold toXmlTime, toXmlDateTime, toXmlDate. rewrite Hiso.
    change (date ++ "T" ++ time)%string with (date ++ String "T" time)%string.
    rewrite (split_second_at "T" date time Hd Ht).
    now destruct (String.eqb (t_name ty) "date"), (String.eqb (t_name ty) "time"),
      (String.eqb (t_name ty) "dateTime"). }
  destruct val; try exact Hgo. now elim Hval.
Qed.

Lemma toXmlDateOrTime_by_type_witness :
  toXmlDateOrTime sample_iso (Some (typed_element "at" "time")) (VDate "2020-01-02T03:04:05Z")
  = Ok (VStr "03:04:05.000Z").
Proof.
  refine (toXmlDateOrTime_by_type sample_iso (typed_element "at" "time") _
            (VDate "2020-01-02T03:04:05Z") "2020-01-02" "03:04:05.000Z"
            eq_refl _ eq_refl eq_refl eq_refl).
  discriminate.
Defined.

Open Scope list_scope.

(** ** Properties without descriptor (lines 287-342) *)

Section Undeclared.

Variable toISOString : value -> option string.
Variable self : XMLHandler.
Hypothesis Hignore : ignoreUnknownProperties (opts self) = true.

(** With [ignoreUnknownProperties], a property that no descriptor
    declares adds nothing. *)
Lemma property_step_ignored (fuel : nat) (props : list (string * value))
    (acc : sstate * xnode) (p : string) :
  property_step self (jsonToXml_fuel toISOString self (S fuel)) props [] [] acc p = Ok acc.
Proof.
  unfold property_step. destruct acc as [st node].
  destruct (String.eqb p (attributesKey (opts self))); [reflexivity|].
  unfold lookup_table. cbn [Js.own].
  destruct (Js.mem p Js.prototype_members); [reflexivity|]. now rewrite Hignore.
Qed.

Lemma properties_ignored (fuel : nat) (props : list (string * value)) (names : list string)
    (acc : sstate * xnode) :
  foldM (property_step self (jsonToXml_fuel toISOString self (S fuel)) props [] []) names acc
  = Ok acc.
Proof.
  induction names as [|p names IH]; [reflexivity|].
  cbn [foldM]. rewrite property_step_ignored. exact IH.
Qed.

End Undeclared.

(** With the option [ignoreUnknownProperties] and no descriptor, an
    object is serialized to nothing at all: the node comes back as it was
    given, and so do the descriptors and the namespace context. *)
Theorem undeclared_properties_ignored (toISOString : value -> option string)
    (self : XMLHandler) (fuel : nat) (ds : dstore) (node : xnode)
    (nsContext : NamespaceContext.t) (props : list (string * value)) :
  ignoreUnknownProperties (opts self) = true ->
  jsonToXml toISOString self (S (S fuel)) ds (Some node) (Some nsContext) None (VObj props)
  = Ok ({| s_ds := ds; s_ns := nsContext |}, node).
Proof.
  intros Hignore. unfold jsonToXml.
  change (mapObject toISOString self (jsonToXml_fuel toISOString self (S fuel))
            {| s_ds := ds; s_ns := nsContext |} node None (VObj props) VUndefined
          = Ok ({| s_ds := ds; s_ns := nsContext |}, node)).
  unfold mapObject. cbn [is_nullish is_terminal getXsiType negb andb bind].
  rewrite (properties_ignored toISOString self Hignore). cbn [bind fst snd].
  reflexivity.
Qed.

Lemma undeclared_properties_ignored_witness :
  jsonToXml no_iso ignoring_handler 2 [] (Some (XElement "e" [] [])) (Some [[]]) None
    (VObj [("a", VStr "1"); ("toString", VStr "2")])
  = Ok ({| s_ds := []; s_ns := [[]] |}, XElement "e" [] []).
Proof.
  exact (undeclared_properties_ignored no_iso ignoring_handler 0 [] (XElement "e" [] [])
           [[]] [("a", VStr "1"); ("toString", VStr "2")] eq_refl).
Defined.

Open Scope list_scope.

(** ** A null under a descriptor that is not nillable (lines 72-215) *)

Lemma element_branch_plain_null (toISOString : value -> option string) (self : XMLHandler)
    (rec : rec_call) (ds : dstore) (id : did) (d : descriptor) (q : QName.t) :
  d_qname d = Some q ->
  d_isNillable d = false ->
  enforce_restrictions self d VNull = VNull ->
  element_branch toISOString self rec {| s_ds := ds; s_ns := NamespaceContext.empty |} (XDocument [])
    (Stored id) d VNull
  = Ok ({| s_ds := ds; s_ns := NamespaceContext.empty |},
        XDocument [XElement (nil_name d q) (own_declaration d q) []]).
Proof.
  intros Hq Hnil Hrestr. unfold element_branch. rewrite Hq. cbn [is_nullish negb andb].
  rewrite element_name_null. cbn [bind].
  rewrite (make_element_null toISOString self d Hrestr). cbn [bind].
  rewrite Hnil. cbn [is_nullish andb]. unfold own_declaration.
  unfold extend_elements, mapObject, pop_scope.
  destruct (String.eqb (d_form d) "unqualified"); cbn [orb].
  - cbn. now destruct (d_isSimple d).
  - destruct (String.eqb (QName.nsURI q) ""); cbn; now destruct (d_isSimple d).
Qed.

Lemma keys_declaration (p u : string) :
  Js.keys [(("xmlns:" ++ p)%string, u)] = [("xmlns:" ++ p)%string].
Proof. reflexivity. Qed.

Lemma plain_open (self : XMLHandler) (ds : dstore) (ename : string) (d : descriptor)
    (q : QName.t) :
  onopentag self ds (initial [] None None) ename (own_declaration d q)
  = Ok {| p_heap := [HObject []];
          p_stack :=
            [{| f_name := Some (QName.name (QName.parse ename None));
                f_object := JUndefined; f_descriptor := None; f_id := None |};
             root_frame [] None];
          p_refs := [];
          p_ns := scope_of (initial [] None None) (own_declaration d q) |}.
Proof.
  rewrite (onopentag_uncollected self ds (initial [] None None) ename (own_declaration d q)
             (root_frame [] None) [] eq_refl).
  - replace (existsb _ _) with false; [reflexivity|].
    unfold own_declaration. destruct (_ || _); [reflexivity|].
    rewrite keys_declaration. cbn [existsb]. unfold nil_true.
    now rewrite is_xmlns_declaration.
  - unfold own_declaration. destruct (_ || _); [intros a []|].
    rewrite keys_declaration.
    intros a [<-|[]]. unfold collected. now rewrite is_xmlns_declaration.
  - unfold own_declaration. now destruct (_ || _).
  - unfold own_declaration. now destruct (_ || _).
Qed.



Open Scope list_scope.

(** ** Round trip of a flat record of texts *)

(** What [plain_field] says, unfolded. *)
Lemma plain_field_inv (self : XMLHandler) (ds : dstore) (elements : list (string * did))
    (props : list (string * value)) (k : string) :
  plain_field self ds elements props k = true ->
  exists s id d q,
    Js.own k props = Some (VStr s) /\ Js.own k elements = Some id /\ ds !! id = Some d
    /\ good_text s = true /\ d_kind d = ElementDescriptor /\ d_form d = "unqualified"
    /\ d_qname d = Some q /\ QName.name q = k /\ keeps_text d = true
    /\ Str.contains ":" k = false /\ Js.mem k Js.prototype_members = false
    /\ k <> attributesKey (opts self) /\ k <> valueKey (opts self).
Proof.
  unfold plain_field. intros H.
  destruct (Js.own k props) as [[| | | |s| | |]|]; try discriminate.
  destruct (Js.own k elements) as [id|]; [|discriminate].
  destruct (ds !! id) as [d|] eqn:Hd; [|discriminate].
  apply andb_true_iff in H as [H Hv]. apply andb_true_iff in H as [H Ha].
  apply andb_true_iff in H as [H Hp]. apply andb_true_iff in H as [H Hc].
  apply andb_true_iff in H as [H Hkeep]. apply andb_true_iff in H as [H Hn].
  apply andb_true_iff in H as [H Hf]. apply andb_true_iff in H as [Hs He].
  unfold local_name in Hn. destruct (d_qname d) as [q|] eqn:Hq; [|discriminate].
  cbn [option_map] in Hn.
  unfold is_element in He. destruct (d_kind d) eqn:Hk; try discriminate.
  apply negb_true_iff in Hv, Ha, Hp, Hc.
  exists s, id, d, q.
  split; [reflexivity|]. split; [reflexivity|]. split; [exact Hd|].
  split; [exact Hs|]. split; [exact Hk|]. split; [now apply String.eqb_eq|].
  split; [exact Hq|]. split; [now apply String.eqb_eq|]. split; [exact Hkeep|].
  split; [exact Hc|]. split; [exact Hp|].
  split; now apply String.eqb_neq.
Qed.

Lemma good_text_inv (s : string) :
  good_text s = true -> s <> "" /\ Str.trim s = s /\ Str.has_cdata_marker s = false.
Proof.
  unfold good_text. intros H. repeat (apply andb_true_iff in H as [H ?]).
  repeat split.
  - apply String.eqb_neq. now apply negb_true_iff.
  - now apply String.eqb_eq.
  - now apply negb_true_iff.
Qed.

Lemma good_text_legal (s : string) : good_text s = true -> Xml.legal s = true.
Proof. unfold good_text. intros H. now apply andb_true_iff in H as [_ H]. Qed.

Lemma text_field_inv (self : XMLHandler) (ds : dstore) (elements : list (string * did))
    (props : list (string * value)) (k : string) :
  text_field self ds elements props k = true ->
  exists s id d q,
    Js.own k props = Some (VStr s) /\ Js.own k elements = Some id /\ ds !! id = Some d
    /\ Xml.legal s = true /\ Str.has_cdata_marker s = false
    /\ d_kind d = ElementDescriptor /\ d_form d = "unqualified"
    /\ d_qname d = Some q /\ QName.name q = k /\ keeps_text d = true
    /\ Str.contains ":" k = false /\ Js.mem k Js.prototype_members = false
    /\ k <> attributesKey (opts self) /\ k <> valueKey (opts self).
Proof.
  unfold text_field. intros H.
  destruct (Js.own k props) as [[| | | |s| | |]|]; try discriminate.
  destruct (Js.own k elements) as [id|]; [|discriminate].
  destruct (ds !! id) as [d|] eqn:Hd; [|discriminate].
  apply andb_true_iff in H as [H Hv]. apply andb_true_iff in H as [H Ha].
  apply andb_true_iff in H as [H Hp]. apply andb_true_iff in H as [H Hc].
  apply andb_true_iff in H as [H Hkeep]. apply andb_true_iff in H as [H Hn].
  apply andb_true_iff in H as [H Hf]. apply andb_true_iff in H as [H He].
  apply andb_true_iff in H as [Hl Hcd].
  unfold local_name in Hn. destruct (d_qname d) as [q|] eqn:Hq; [|discriminate].
  cbn [option_map] in Hn.
  unfold is_element in He. destruct (d_kind d) eqn:Hk; try discriminate.
  apply negb_true_iff in Hv, Ha, Hp, Hc, Hcd.
  exists s, id, d, q.
  split; [reflexivity|]. split; [reflexivity|]. split; [exact Hd|].
  split; [exact Hl|]. split; [exact Hcd|].
  split; [exact Hk|]. split; [now apply String.eqb_eq|].
  split; [exact Hq|]. split; [now apply String.eqb_eq|]. split; [exact Hkeep|].
  split; [exact Hc|]. split; [exact Hp|].
  split; now apply String.eqb_neq.
Qed.

Lemma plain_text_field (self : XMLHandler) (ds : dstore) (elements : list (string * did))
    (props : list (string * value)) (k : string) :
  plain_field self ds elements props k = true -> text_field self ds elements props k = true.
Proof.
  unfold plain_field, text_field.
  destruct (Js.own k props) as [[| | | |s| | |]|]; try discriminate.
  destruct (Js.own k elements) as [id|]; [|discriminate].
  destruct (ds !! id) as [d|]; [|discriminate].
  intros H. do 8 (apply andb_true_iff in H as [H ?]).
  destruct (good_text_inv s H) as (_ & _ & Hcd). rewrite (good_text_legal s H), Hcd.
  repeat (apply andb_true_iff; split); assumption || reflexivity.
Qed.

(** The builder takes a text of characters that XML allows as it is. *)
Lemma scalar_text_legal (s : string) :
  Xml.legal s = true -> Xml.scalar_text (VStr s) = Ok (Some s).
Proof. unfold Xml.scalar_text. now intros ->. Qed.

Lemma required_text_legal (s : string) :
  Xml.legal s = true -> Xml.required_text (VStr s) = Ok s.
Proof. unfold Xml.required_text. intros H. now rewrite (scalar_text_legal s H). Qed.

Lemma element_legal (n s : string) :
  Xml.legal s = true -> Xml.element n (VStr s) = Ok (XElement n [] [XText s]).
Proof. unfold Xml.element. intros H. now rewrite (scalar_text_legal s H). Qed.

Lemma keeps_text_ok (toISOString : value -> option string) (d : descriptor) (v : value) :
  keeps_text d = true -> toXmlDateOrTime toISOString (Some d) v = Ok v.
Proof.
  unfold keeps_text, toXmlDateOrTime, toXmlDate. destruct (d_type d) as [t|]; [|reflexivity].
  intros H. apply andb_true_iff in H as [H1 H2].
  apply negb_true_iff in H1, H2. rewrite H1, H2.
  destruct v; try reflexivity; now destruct (String.eqb (t_name t) "date").
Qed.

Section Record.

Variable toISOString : value -> option string.
Variable self : XMLHandler.
Variable ds : dstore.
Hypothesis Hrestr : enforceRestrictions (opts self) = false.

Lemma enforce_off (d : descriptor) (v : value) : enforce_restrictions self d v = v.
Proof. unfold enforce_restrictions. now rewrite Hrestr. Qed.

(** A text under an unqualified element descriptor is written as one
    element holding the text; the state is left as it was. *)
Lemma text_element_written (rec : rec_call) (ns : NamespaceContext.t) (n : string)
    (a : list (string * string)) (c : list xnode) (id : did) (d : descriptor) (q : QName.t)
    (s : string) :
  ds !! id = Some d ->
  d_form d = "unqualified" ->
  d_qname d = Some q ->
  keeps_text d = true ->
  Str.has_cdata_marker s = false ->
  Xml.legal s = true ->
  element_branch toISOString self rec {| s_ds := ds; s_ns := ns |} (XElement n a c)
    (Stored id) d (VStr s)
  = Ok ({| s_ds := ds; s_ns := ns |},
        XElement n a (c ++ [XElement (QName.name q) [] [XText s]])).
Proof.
  intros Hd Hf Hq Hkeep Hcd Hlegal. unfold element_branch. rewrite Hq.
  cbn [is_nullish typeof_object negb andb].
  unfold element_name. rewrite Hf. cbn [String.eqb Ascii.eqb Bool.eqb bind].
  unfold make_element. cbn [cdata_test]. rewrite Hcd.
  replace (if d_isSimple d then Ok false else Ok false) with (Ok false : result bool)
    by now destruct (d_isSimple d).
  cbn [bind vget is_undefined negb andb]. rewrite andb_false_r.
  rewrite enforce_off, (keeps_text_ok toISOString d (VStr s) Hkeep). cbn [bind].
  destruct (d_isSimple d).
  - rewrite (element_legal _ s Hlegal). cbn. reflexivity.
  - cbn [bind is_nullish andb]. unfold extend_elements.
    cbn [is_nullish vget typeof_object with_ds s_ds s_ns with_sns negb andb is_terminal bind
         deref].
    rewrite Hd, (keeps_text_ok toISOString d (VStr s) Hkeep).
    cbn [bind]. rewrite (required_text_legal s Hlegal). cbn. reflexivity.
Qed.

Variables (elements attributes : list (string * did)) (props : list (string * value)).

Lemma field_written (fuel : nat) (ns : NamespaceContext.t) (n : string)
    (a : list (string * string)) (c : list xnode) (k : string) :
  text_field self ds elements props k = true ->
  property_step self (jsonToXml_fuel toISOString self (S fuel)) props elements attributes
    ({| s_ds := ds; s_ns := ns |}, XElement n a c) k
  = Ok ({| s_ds := ds; s_ns := ns |}, XElement n a (c ++ [field_node props k])).
Proof.
  intros Hk.
  destruct (text_field_inv _ _ _ _ _ Hk)
    as (s & id & d & q & Hown & Htab & Hd & Hlegal & Hcd & Hkind & Hf & Hq & Hn & Hkeep
        & _ & _ & Hattr & _).
  unfold property_step. apply String.eqb_neq in Hattr. rewrite Hattr.
  unfold lookup_table. rewrite Htab, Hown.
  cbn [jsonToXml_fuel deref s_ds]. rewrite Hd, Hkind.
  unfold field_node, text_at. rewrite Hown, <- Hn.
  destruct (d_isMany d); now apply text_element_written.
Qed.

Lemma fields_written (fuel : nat) (ns : NamespaceContext.t) (n : string)
    (a : list (string * string)) (names : list string) (c : list xnode) :
  forallb (text_field self ds elements props) names = true ->
  foldM (property_step self (jsonToXml_fuel toISOString self (S fuel)) props elements
           attributes)
    names ({| s_ds := ds; s_ns := ns |}, XElement n a c)
  = Ok ({| s_ds := ds; s_ns := ns |}, XElement n a (c ++ map (field_node props) names)).
Proof.
  revert c. induction names as [|k names IH]; intros c Hall.
  - cbn. now rewrite app_nil_r.
  - cbn [forallb] in Hall. apply andb_true_iff in Hall as [Hk Hall].
    cbn [foldM map]. rewrite (field_written fuel ns n a c k Hk). cbn [bind].
    rewrite (IH _ Hall). now rewrite <- app_assoc.
Qed.

Variables (r : did) (drec : descriptor) (qr : QName.t) (order : list string).
Hypothesis Hrec : ds !! r = Some drec.
Hypothesis Hkind : d_kind drec = ElementDescriptor.
Hypothesis Hqr : d_qname drec = Some qr.
Hypothesis Hcomplex : d_isSimple drec = false.
Hypothesis Hkeeps : keeps_text drec = true.
Hypothesis Helements : table_of ds (d_elements drec) [] = Ok elements.
Hypothesis Horder : names_of ds (d_elements drec) = Ok order.
Hypothesis Hattributes : table_of ds (d_attributes drec) [] = Ok attributes.
Hypothesis Hno_attrs : Js.own (attributesKey (opts self)) props = None.
Hypothesis Hno_value : Js.own (valueKey (opts self)) props = None.
Hypothesis Hfields :
  forallb (text_field self ds elements props) (_sortKeys props order) = true.

Lemma record_written (fuel : nat) :
  jsonToXml toISOString self (S (S fuel)) ds None None (Some (Stored r)) (VObj props)
  = Ok ({| s_ds := ds; s_ns := NamespaceContext.empty |},
        XDocument [XElement (nil_name drec qr) (own_declaration drec qr)
                     (map (field_node props) (_sortKeys props order))]).
Proof.
  unfold jsonToXml. cbv beta iota.
  assert (Hstep : forall k, k = S fuel ->
            jsonToXml_fuel toISOString self (S k) {| s_ds := ds; s_ns := NamespaceContext.empty |} (XDocument [])
              (Some (Stored r)) (VObj props)
            = element_branch toISOString self (jsonToXml_fuel toISOString self k)
                {| s_ds := ds; s_ns := NamespaceContext.empty |} (XDocument []) (Stored r) drec (VObj props)).
  { intros k _. cbn [jsonToXml_fuel deref s_ds]. rewrite Hrec, Hkind.
    now destruct (d_isMany drec). }
  rewrite (Hstep (S fuel) eq_refl). clear Hstep.
  unfold element_branch. rewrite Hqr.
  cbn [is_nullish typeof_object negb andb vget]. rewrite Hno_attrs, Hno_value.
  cbn [is_undefined negb andb].
  rewrite element_name_null. cbn [bind].
  unfold make_element. rewrite Hcomplex. cbn [bind andb].
  rewrite enforce_off, (keeps_text_ok toISOString drec _ Hkeeps). cbn [bind].
  assert (Hel : match (if String.eqb (d_form drec) "unqualified" then None
                       else Some ("xmlns:" ++ nil_prefix qr)%string) with
                | Some x => if String.eqb (QName.nsURI qr) ""
                            then Ok (XElement (nil_name drec qr) [] [])
                            else Xml.attribute x (QName.nsURI qr)
                                   (XElement (nil_name drec qr) [] [])
                | None => Ok (XElement (nil_name drec qr) [] [])
                end = Ok (XElement (nil_name drec qr) (own_declaration drec qr) [])).
  { unfold own_declaration. destruct (String.eqb (d_form drec) "unqualified"); [reflexivity|].
    now destruct (String.eqb (QName.nsURI qr) ""). }
  rewrite Hel. cbn [bind is_nullish andb]. unfold extend_elements.
  cbn [is_nullish vget]. rewrite Hno_attrs. cbn [typeof_object is_terminal negb andb bind].
  unfold mapObject. cbn [is_nullish is_terminal getXsiType negb andb bind deref s_ds with_ds
                         with_sns s_ns].
  rewrite Hrec, Helements, Horder, Hattributes. cbn [bind].
  unfold with_ds. cbn [s_ds s_ns].
  rewrite (fields_written fuel _ _ _ _ [] Hfields).
  cbn [bind fst snd app]. unfold addAttributes. cbn [deref s_ds]. rewrite Hrec, Hattributes.
  cbn. reflexivity.
Qed.

End Record.

(** *** The events of the record *)

Lemma field_node_events (props : list (string * value)) (names : list string) :
  (forall k, In k names -> text_at props k <> "") ->
  traverse Xml.events (map (field_node props) names) = Some (map (field_events props) names).
Proof.
  induction names as [|k names IH]; intros H; [reflexivity|].
  cbn [map traverse]. rewrite IH by (intros j Hj; apply H; now right).
  unfold field_node at 1. cbn [Xml.events traverse option_map].
  pose proof (H k (or_introl eq_refl)) as Hk. apply String.eqb_neq in Hk. rewrite Hk.
  reflexivity.
Qed.

Lemma coalesce_fields (props : list (string * value)) (names : list string)
    (rest : list event) :
  Xml.coalesce (flat_map (field_events props) names ++ rest)
  = flat_map (field_events props) names ++ Xml.coalesce rest.
Proof.
  induction names as [|k names IH]; [reflexivity|].
  cbn [flat_map field_events app Xml.coalesce]. now rewrite IH.
Qed.

Lemma record_tokens (rn : string) (decl : list (string * string))
    (props : list (string * value)) (names : list string) :
  (forall k, In k names -> text_at props k <> "") ->
  Xml.tokens (XDocument [XElement rn decl (map (field_node props) names)])
  = Some (OpenTag rn decl :: flat_map (field_events props) names ++ [CloseTag rn]).
Proof.
  intros H. unfold Xml.tokens. cbn [Xml.events traverse].
  rewrite (field_node_events props names H). cbn [option_map concat].
  rewrite app_nil_r, <- flat_map_concat_map. cbn [Xml.coalesce].
  now rewrite coalesce_fields.
Qed.

(** *** Reading the record back *)

Lemma set_absent {A} (k : string) (v : A) (l : list (string * A)) :
  Js.own k l = None -> Js.set k v l = l ++ [(k, v)].
Proof.
  induction l as [|[k' v'] l IH]; [reflexivity|]. cbn [Js.own Js.set app].
  destruct (String.eqb k k'); [discriminate|]. intros H. now rewrite IH.
Qed.

Section ReadFields.

Variables (self : XMLHandler) (ds : dstore).
Variable nested : heap -> string -> result (heap * jsval).

(** An element that holds a text and nothing else hands the text to its
    parent. *)
Lemma field_read (st : pstate) (top : frame) (rest : list frame) (k s : string) :
  p_stack st = top :: rest ->
  f_descriptor top = None ->
  Str.trim s = s -> s <> "" ->
  Str.contains ":" k = false ->
  foldM (handle self ds nested) [OpenTag k []; Text s; CloseTag k] st
  = do (h, top') <-
      merge_child ds (p_heap st) top
        {| f_name := Some k; f_object := JStr s; f_descriptor := None; f_id := None |} k;
    Ok {| p_heap := h; p_stack := top' :: rest; p_refs := p_refs st; p_ns := p_ns st |}.
Proof.
  intros Hstack Htop Htrim Hs Hk. cbn [foldM handle].
  rewrite (onopentag_uncollected self ds st k [] top rest Hstack);
    [|intros a []|reflexivity|reflexivity].
  cbn [bind]. unfold QName.parse. cbn [QName.name].
  rewrite (after_last_colon_plain k Hk).
  unfold frame_descriptor at 1. rewrite Htop. cbn [Js.keys Js.ordered existsb map fold_left app
    List.filter].
  unfold ontext. rewrite Htrim.
  replace (String.length s =? 0)%nat with false
    by (symmetry; apply Nat.eqb_neq; destruct s; [now elim Hs | discriminate]).
  cbn [p_stack p_heap frame_descriptor f_descriptor parseValue _processText f_object bind
       with_object f_name f_id with_stack with_heap p_refs p_ns].
  unfold onclosetag, with_stack, with_heap, with_object.
  cbn [p_ns p_stack p_heap p_refs f_name f_object f_descriptor f_id].
  rewrite popContext_scope_of. unfold QName.parse. cbn [QName.name].
  rewrite (after_last_colon_plain k Hk). rewrite Hstack.
  destruct (merge_child ds (p_heap st) top _ k) as [[h top']|e]; reflexivity.
Qed.

Lemma own_app {A} (k : string) (l1 l2 : list (string * A)) :
  Js.own k (l1 ++ l2) = match Js.own k l1 with Some v => Some v | None => Js.own k l2 end.
Proof.
  induction l1 as [|[k' v'] l1 IH]; [reflexivity|]. cbn [app Js.own].
  now destruct (String.eqb k k').
Qed.

(** The fields of a record, one after the other, become the properties
    of the object of the record's frame, in the order of the document. *)
Lemma fields_read (props : list (string * value)) (o : hobj) (top : frame)
    (rest : list frame) (refs : list (string * ref)) (ns : NamespaceContext.t)
    (names : list string) :
  f_object top = JRef 1 ->
  f_descriptor top = None ->
  List.NoDup names ->
  (forall k, In k names ->
     Str.trim (text_at props k) = text_at props k /\ text_at props k <> ""
     /\ Str.contains ":" k = false /\ Js.mem k Js.prototype_members = false) ->
  forall acc,
    (forall k, In k names -> Js.own k acc = None) ->
    foldM (handle self ds nested) (flat_map (field_events props) names)
      {| p_heap := [o; HObject acc]; p_stack := top :: rest; p_refs := refs; p_ns := ns |}
    = Ok {| p_heap := [o; HObject (acc ++ read_fields props names)];
            p_stack := top :: rest; p_refs := refs; p_ns := ns |}.
Proof.
  intros Htop Hdesc Hnd Hok. induction names as [|k names IH]; intros acc Hacc.
  - cbn. now rewrite app_nil_r.
  - cbn [flat_map]. rewrite foldM_app.
    destruct (Hok k (or_introl eq_refl)) as (Htrim & Hne & Hcolon & Hproto).
    unfold field_events at 1.
    rewrite (field_read {| p_heap := [o; HObject acc]; p_stack := top :: rest;
                           p_refs := refs; p_ns := ns |}
               top rest k (text_at props k) eq_refl Hdesc Htrim Hne Hcolon).
    cbn [p_heap p_refs p_ns].
    erewrite (merge_child_absent ds [o; HObject acc]) with (a := 1%nat) (props := acc);
      [| exact Htop | reflexivity
       | unfold Js.has, Js.has_own; now rewrite (Hacc k (or_introl eq_refl)), Hproto].
    cbn [is_many frame_descriptor f_descriptor f_object bind].
    rewrite (set_absent k _ acc (Hacc k (or_introl eq_refl))).
    cbn [insert list_insert]. 
    inversion Hnd as [|? ? Hnotin Hnd']; subst.
    rewrite (IH Hnd').
    + cbn [read_fields map]. unfold read_fields. now rewrite <- app_assoc.
    + intros j Hj. apply Hok. now right.
    + intros j Hj. rewrite own_app, (Hacc j (or_intror Hj)). cbn [Js.own].
      destruct (String.eqb_spec j k) as [->|]; [contradiction|reflexivity].
Qed.

End ReadFields.

Lemma traverse_map {A B C} (f : B -> option C) (g : A -> B) (g' : A -> C) (l : list A) :
  (forall x, f (g x) = Some (g' x)) -> traverse f (map g l) = Some (map g' l).
Proof.
  intros H. induction l as [|x l IH]; [reflexivity|].
  cbn [map traverse]. now rewrite H, IH.
Qed.

Lemma reify_fields (fuel : nat) (h : heap) (props : list (string * value))
    (names : list string) :
  traverse (fun p => option_map (pair (fst p)) (reify (S fuel) h (snd p)))
    (read_fields props names)
  = Some (in_order props names).
Proof. unfold read_fields, in_order. now apply traverse_map. Qed.

(** The events of a record element with at least one field give the
    root one property, the record, whose properties are the fields. *)
Lemma record_read (self : XMLHandler) (ds : dstore)
    (nested : heap -> string -> result (heap * jsval)) (d : descriptor) (q : QName.t)
    (rnf rn : string) (props : list (string * value)) (names : list string) :
  QName.name (QName.parse rnf None) = rn ->
  Js.mem rn Js.prototype_members = false ->
  rn <> "Envelope" ->
  names <> [] ->
  List.NoDup names ->
  (forall k, In k names ->
     Str.trim (text_at props k) = text_at props k /\ text_at props k <> ""
     /\ Str.contains ":" k = false /\ Js.mem k Js.prototype_members = false) ->
  tree_of (xmlToJson_events self ds nested [] None
             (OpenTag rnf (own_declaration d q)
              :: flat_map (field_events props) names ++ [CloseTag rnf]) None)
  = Some (VObj [(rn, VObj (in_order props names))]).
Proof.
  intros Hrn Hproto Henv Hne Hnd Hok.
  destruct names as [|k names]; [now elim Hne|]. clear Hne.
  unfold xmlToJson_events. cbn [foldM handle]. rewrite plain_open. cbn [bind].
  cbn [flat_map]. rewrite <- app_assoc, foldM_app.
  destruct (Hok k (or_introl eq_refl)) as (Htrim & Hs & Hcolon & Hkp).
  unfold field_events at 1.
  erewrite (field_read self ds nested _ _ _ k (text_at props k));
    [| reflexivity | reflexivity | exact Htrim | exact Hs | exact Hcolon].
  cbn [p_heap p_refs p_ns]. rewrite merge_child_undefined by reflexivity.
  erewrite (merge_child_absent ds) with (a := 1%nat) (props := []);
    [| reflexivity | reflexivity | unfold Js.has; now rewrite Hkp].
  cbn [is_many frame_descriptor f_descriptor with_object f_object bind app List.length
       Js.set insert list_insert].
  rewrite foldM_app.
  apply List.NoDup_cons_iff in Hnd as [Hnotin Hnd'].
  erewrite (fields_read self ds nested props (HObject []) _ _ _ _ names);
    [| reflexivity | reflexivity | exact Hnd' | | ].
  - cbn [bind foldM handle]. unfold onclosetag. cbn [p_ns p_stack p_heap p_refs f_id].
    rewrite popContext_scope_of, Hrn.
    erewrite (merge_child_absent ds) with (a := 0%nat) (props := []);
      [| reflexivity | reflexivity | unfold Js.has; now rewrite Hproto].
    cbn [is_many frame_descriptor f_descriptor f_object bind Js.set insert list_insert
         p_heap p_refs].
    unfold finish. cbn -[String.eqb reify].
    replace (String.eqb "Envelope" rn) with false
      by (symmetry; apply String.eqb_neq; congruence).
    cbn -[reify]. unfold tree_of. cbn [List.length].
    change (reify 3 ?h (JRef 0)) with
      (option_map VObj
         (traverse (fun p => option_map (pair (fst p)) (reify 2 h (snd p)))
            [(rn, JRef 1)])).
    cbn [traverse fst snd].
    change (reify 2 ?h (JRef 1)) with
      (option_map VObj
         (traverse (fun p => option_map (pair (fst p)) (reify 1 h (snd p)))
            ((k, JStr (text_at props k)) :: read_fields props names))).
    cbn [traverse fst snd]. rewrite reify_fields. reflexivity.
  - intros j Hj. apply Hok. now right.
  - intros j Hj. cbn [Js.own].
    destruct (String.eqb_spec j k) as [->|]; [contradiction|reflexivity].
Qed.

Lemma own_no_key {A} (k : string) (l : list (string * A)) :
  (forall j, In j (map fst l) -> j <> k) -> Js.own k l = None.
Proof.
  induction l as [|[j v] l IH]; intros H; [reflexivity|]. cbn [Js.own].
  destruct (String.eqb_spec k j) as [->|_].
  - now elim (H j (or_introl eq_refl)).
  - apply IH. intros i Hi. apply H. now right.
Qed.

Lemma in_order_keys (props : list (string * value)) :
  List.NoDup (map fst props) ->
  (forall k, In k (map fst props) -> exists s, Js.own k props = Some (VStr s)) ->
  in_order props (map fst props) = props.
Proof.
  unfold in_order. induction props as [|[k v] props IH]; intros Hnd Hall; [reflexivity|].
  cbn [map fst] in *. apply List.NoDup_cons_iff in Hnd as [Hnotin Hnd].
  destruct (Hall k (or_introl eq_refl)) as [s Hs].
  cbn [Js.own] in Hs. rewrite String.eqb_refl in Hs. injection Hs as ->.
  unfold text_at at 1. cbn [Js.own]. rewrite String.eqb_refl. f_equal.
  rewrite <- IH at 2.
  - apply map_ext_in. intros j Hj. unfold text_at. cbn [Js.own].
    destruct (String.eqb_spec j k) as [->|]; [contradiction|reflexivity].
  - exact Hnd.
  - intros j Hj. destruct (Hall j (or_intror Hj)) as [t Ht]. exists t.
    cbn [Js.own] in Ht. destruct (String.eqb_spec j k) as [->|]; [contradiction|exact Ht].
Qed.



Open Scope list_scope.

(** ** [parseXml] rebuilds a tree from its events *)

(** *** Paths into a tree *)

Lemma node_at_app (p q : list nat) (n : xnode) :
  node_at (p ++ q) n = match node_at p n with Some m => node_at q m | None => None end.
Proof.
  revert n. induction p as [|i p IH]; intros n; [reflexivity|].
  cbn [app node_at]. destruct (children n !! i); [apply IH | reflexivity].
Qed.

Lemma update_at_app (p q : list nat) (f : xnode -> option xnode) (n : xnode) :
  update_at (p ++ q) f n = update_at p (update_at q f) n.
Proof.
  revert n. induction p as [|i p IH]; intros n; [reflexivity|].
  cbn [app update_at]. destruct (children n !! i); [now rewrite IH | reflexivity].
Qed.

Lemma update_at_ext (p : list nat) (f g : xnode -> option xnode) (n m : xnode) :
  node_at p n = Some m -> f m = g m -> update_at p f n = update_at p g n.
Proof.
  revert n. induction p as [|i p IH]; intros n; cbn [node_at update_at].
  - now intros [= ->].
  - destruct (children n !! i) as [c|]; [|discriminate].
    intros Hc Hfg. now rewrite (IH c Hc Hfg).
Qed.

Lemma children_with (n : xnode) (c : list xnode) :
  children n <> [] -> children (with_children n c) = c.
Proof. destruct n; cbn; intros H; try reflexivity; now elim H. Qed.

Lemma with_with (n : xnode) (c c' : list xnode) :
  with_children (with_children n c) c' = with_children n c'.
Proof. now destruct n. Qed.

Lemma lookup_not_nil {A} (l : list A) (i : nat) (x : A) : l !! i = Some x -> l <> [].
Proof. destruct l; [discriminate | discriminate]. Qed.

(** Two updates of the same node are one update. *)
Lemma update_update (p : list nat) (f g : xnode -> option xnode) (n n1 : xnode) :
  update_at p f n = Some n1 ->
  update_at p g n1 = update_at p (fun x => match f x with Some y => g y | None => None end) n.
Proof.
  revert n n1. induction p as [|i p IH]; intros n n1; cbn [update_at].
  - intros H. now rewrite H.
  - destruct (children n !! i) as [c|] eqn:Hc; [|discriminate].
    destruct (update_at p f c) as [c'|] eqn:Hu; [|discriminate].
    intros [= <-]. pose proof (lookup_not_nil _ _ _ Hc) as Hne.
    rewrite (children_with n _ Hne).
    rewrite list_lookup_insert_eq by (eapply lookup_lt_Some; exact Hc).
    rewrite (IH c c' Hu).
    set (F := fun x => match f x with Some y => g y | None => None end).
    destruct (update_at p F c) as [c2|]; [|reflexivity].
    now rewrite with_with, list_insert_insert_eq.
Qed.

Lemma node_update (p : list nat) (f : xnode -> option xnode) (n n1 m : xnode) :
  node_at p n = Some m -> update_at p f n = Some n1 -> node_at p n1 = f m.
Proof.
  revert n n1. induction p as [|i p IH]; intros n n1; cbn [update_at node_at].
  - intros [= ->] H. now rewrite H.
  - destruct (children n !! i) as [c|] eqn:Hc; [|discriminate].
    intros Hm. destruct (update_at p f c) as [c'|] eqn:Hu; [|discriminate].
    intros [= <-]. pose proof (lookup_not_nil _ _ _ Hc) as Hne.
    rewrite (children_with n _ Hne).
    rewrite list_lookup_insert_eq by (eapply lookup_lt_Some; exact Hc).
    exact (IH c c' Hm Hu).
Qed.

(** A node that is found can be updated. *)
Lemma update_defined (p : list nat) (f : xnode -> option xnode) (n m m' : xnode) :
  node_at p n = Some m -> f m = Some m' -> exists n1, update_at p f n = Some n1.
Proof.
  revert n. induction p as [|i p IH]; intros n; cbn [update_at node_at].
  - intros [= ->] H. eauto.
  - destruct (children n !! i) as [c|]; [|discriminate].
    intros Hm Hf. destruct (IH c Hm Hf) as [c' ->]. eauto.
Qed.

Lemma update_id (p : list nat) (f : xnode -> option xnode) (n m : xnode) :
  node_at p n = Some m -> f m = Some m -> update_at p f n = Some n.
Proof.
  revert n. induction p as [|i p IH]; intros n; cbn [update_at node_at].
  - now intros [= ->].
  - destruct (children n !! i) as [c|] eqn:Hc; [|discriminate].
    intros Hm Hf. rewrite (IH c Hm Hf), (list_insert_id _ _ _ Hc).
    apply lookup_not_nil in Hc. destruct n; try reflexivity; now elim Hc.
Qed.

Lemma append_children_nil (n : xnode) : is_container n = true -> append_children [] n = Some n.
Proof. destruct n; try discriminate; intros _; cbn; now rewrite app_nil_r. Qed.

Lemma append_children_cons (c : xnode) (cs : list xnode) (n : xnode) :
  append_children (c :: cs) n
  = match append_child c n with Some m => append_children cs m | None => None end.
Proof. destruct n; try reflexivity; cbn; now rewrite <- app_assoc. Qed.

Lemma append_child_children (c : xnode) (n m : xnode) :
  append_child c n = Some m ->
  children m = children n ++ [c] /\ is_container n = true /\ is_container m = true
  /\ is_element_node m = is_element_node n.
Proof. destruct n; try discriminate; intros [= <-]; auto. Qed.

(** The child appended to a node is found at the end of its children,
    and an update of that child is the same as appending the updated
    child. *)
Lemma child_found (p : list nat) (root root1 n : xnode) (x : xnode) :
  node_at p root = Some n ->
  update_at p (append_child x) root = Some root1 ->
  node_at (p ++ [List.length (children n)]) root1 = Some x.
Proof.
  intros Hn Hu. rewrite node_at_app, (node_update p _ root root1 n Hn Hu).
  destruct (append_child x n) as [m|] eqn:Hm.
  - destruct (append_child_children x n m Hm) as (Hc & _). cbn [node_at]. rewrite Hc.
    now rewrite list_lookup_middle.
  - exfalso. revert Hu. clear -Hn Hm. revert root root1 Hn.
    induction p as [|i p IH]; intros root root1; cbn [node_at update_at].
    + intros [= ->]. now rewrite Hm.
    + destruct (children root !! i) as [c|]; [|discriminate]. intros Hc.
      destruct (update_at p (append_child x) c) eqn:E; [|discriminate].
      now elim (IH c x0 Hc).
Qed.

Lemma child_updated (p : list nat) (root root1 n : xnode) (x x' : xnode)
    (f : xnode -> option xnode) :
  node_at p root = Some n ->
  update_at p (append_child x) root = Some root1 ->
  f x = Some x' ->
  update_at (p ++ [List.length (children n)]) f root1 = update_at p (append_child x') root.
Proof.
  intros Hn Hu Hf. rewrite update_at_app, (update_update p _ _ root root1 Hu).
  apply (update_at_ext p _ _ root n Hn).
  destruct n as [c|name attrs c| | |]; try reflexivity; cbn [append_child children update_at].
  - rewrite list_lookup_middle by reflexivity. rewrite Hf. cbn [with_children].
    f_equal. f_equal. now rewrite insert_app_r_alt, Nat.sub_diag by lia.
  - rewrite list_lookup_middle by reflexivity. rewrite Hf. cbn [with_children].
    f_equal. f_equal. now rewrite insert_app_r_alt, Nat.sub_diag by lia.
Qed.

(** *** The run of the builder *)

Lemma same_attrs_eq (a b : list (string * string)) : same_attrs a b = true -> a = b.
Proof.
  revert b. induction a as [|[k v] a IH]; intros [|[k' v'] b]; cbn; try discriminate;
    [reflexivity|].
  intros H. apply andb_true_iff in H as [H Hab]. apply andb_true_iff in H as [Hk Hv].
  apply String.eqb_eq in Hk, Hv. subst. now rewrite (IH b Hab).
Qed.

Lemma trimmed_inv (t : string) : trimmed t = true -> t <> "" /\ Str.trim t = t.
Proof.
  unfold trimmed. intros H. apply andb_true_iff in H as [H1 H2]. split.
  - apply String.eqb_neq. now apply negb_true_iff.
  - now apply String.eqb_eq.
Qed.

Lemma b_run_app (es1 es2 : list event) (st : builder) :
  b_run (es1 ++ es2) st
  = match b_run es1 st with Done st' => b_run es2 st' | Raised x => Raised x end.
Proof.
  revert st. induction es1 as [|e es1 IH]; intros st; [reflexivity|].
  cbn [app b_run]. destruct (b_handle st e); [apply IH | reflexivity].
Qed.

Section Rebuild.

Variable k : nat.

(** The nodes of height [k] at most are rebuilt as a last child of the
    current node. *)
Hypothesis IHk :
  forall e, height e <= k -> rebuilt e = true ->
  forall evs, Xml.events e = Some evs ->
  forall root p n rest es,
    node_at p root = Some n -> is_container n = true ->
    is_element_node n = true \/ is_element_node e = true ->
    exists root',
      update_at p (append_child e) root = Some root'
      /\ b_run (evs ++ es) {| b_root := root; b_stack := p :: rest |}
         = b_run es {| b_root := root'; b_stack := p :: rest |}.

Lemma rebuild_children (cs : list xnode) :
  (forall c, In c cs -> height c <= k /\ rebuilt c = true) ->
  forall evss, traverse Xml.events cs = Some evss ->
  forall root q n rest es,
    node_at q root = Some n -> is_element_node n = true ->
    exists root',
      update_at q (append_children cs) root = Some root'
      /\ b_run (concat evss ++ es) {| b_root := root; b_stack := q :: rest |}
         = b_run es {| b_root := root'; b_stack := q :: rest |}.
Proof.
  induction cs as [|c cs IH]; intros Hcs evss Hev root q n rest es Hn Hel.
  - injection Hev as <-. exists root. split; [|reflexivity].
    apply (update_id q _ root n Hn). apply append_children_nil. now destruct n.
  - cbn [traverse] in Hev.
    destruct (Xml.events c) as [evs|] eqn:Hc; [|discriminate].
    destruct (traverse Xml.events cs) as [evss'|] eqn:Hcs'; [|discriminate].
    injection Hev as <-.
    destruct (Hcs c (or_introl eq_refl)) as [Hh Hr].
    assert (Hcont : is_container n = true) by now destruct n.
    destruct (IHk c Hh Hr evs Hc root q n rest (concat evss' ++ es) Hn Hcont (or_introl Hel))
      as (root1 & Hu1 & Hrun1).
    pose proof (node_update q _ root root1 n Hn Hu1) as Hn1.
    destruct (append_child c n) as [n1|] eqn:Hn1'; [|now destruct n].
    destruct (append_child_children c n n1 Hn1') as (_ & _ & _ & Hel1).
    destruct (IH (fun x Hx => Hcs x (or_intror Hx)) evss' eq_refl root1 q n1 rest es Hn1)
      as (root2 & Hu2 & Hrun2); [now rewrite Hel1|].
    exists root2. split.
    + rewrite <- Hu2, (update_update q _ _ root root1 Hu1).
      apply (update_at_ext q _ _ root n Hn). now rewrite append_children_cons.
    + cbn [concat]. rewrite <- app_assoc, Hrun1. exact Hrun2.
Qed.

End Rebuild.

Lemma rebuild_leaf (text_event : string -> event) (make : string -> xnode) (t : string)
    (root : xnode) (p : list nat) (n : xnode) (rest : list (list nat)) (es : list event) :
  (forall st, b_handle st (text_event t) = b_text make st t) ->
  trimmed t = true ->
  node_at p root = Some n -> is_element_node n = true ->
  exists root',
    update_at p (append_child (make t)) root = Some root'
    /\ b_run (text_event t :: es) {| b_root := root; b_stack := p :: rest |}
       = b_run es {| b_root := root'; b_stack := p :: rest |}.
Proof.
  intros Hev Ht Hn Hel. destruct (trimmed_inv t Ht) as [Hne Htrim].
  destruct n as [|name attrs c| | |]; try discriminate.
  destruct (update_defined p (append_child (make t)) root _ _ Hn eq_refl) as [root' Hu].
  exists root'. split; [exact Hu|].
  cbn [b_run]. rewrite Hev. unfold b_text. cbn [b_stack b_root]. rewrite Hn, Htrim.
  apply String.eqb_neq in Hne. rewrite Hne. unfold grow. cbn [b_root b_stack].
  now rewrite Hu.
Qed.

Lemma height_children (name : string) (attrs : list (string * string)) (cs : list xnode)
    (k : nat) (c : xnode) :
  height (XElement name attrs cs) <= S k -> In c cs -> height c <= k.
Proof.
  cbn [height]. intros H Hc.
  assert (Hmax : height c <= list_max (map height cs)).
  { clear H. induction cs as [|x cs IH]; [contradiction|].
    cbn [map].
    change (list_max (height x :: map height cs))
      with (Nat.max (height x) (list_max (map height cs))).
    destruct Hc as [->|Hc]; [lia|]. specialize (IH Hc). lia. }
  lia.
Qed.

Lemma rebuild_node (k : nat) :
  forall e, height e <= k -> rebuilt e = true ->
  forall evs, Xml.events e = Some evs ->
  forall root p n rest es,
    node_at p root = Some n -> is_container n = true ->
    is_element_node n = true \/ is_element_node e = true ->
    exists root',
      update_at p (append_child e) root = Some root'
      /\ b_run (evs ++ es) {| b_root := root; b_stack := p :: rest |}
         = b_run es {| b_root := root'; b_stack := p :: rest |}.
Proof.
  assert (Hleaf : forall e, is_container e = false -> rebuilt e = true ->
            forall evs, Xml.events e = Some evs ->
            forall root p n rest es,
              node_at p root = Some n -> is_container n = true ->
              is_element_node n = true \/ is_element_node e = true ->
              exists root',
                update_at p (append_child e) root = Some root'
                /\ b_run (evs ++ es) {| b_root := root; b_stack := p :: rest |}
                   = b_run es {| b_root := root'; b_stack := p :: rest |}).
  { intros e He Hr evs Hev root p n rest es Hn Hc [Hel|Hel];
      destruct e as [|? ? ?|t|t|t]; try discriminate.
    - cbn [Xml.events] in Hev. cbn [rebuilt] in Hr.
      destruct (trimmed_inv t Hr) as [Hne _]. apply String.eqb_neq in Hne.
      rewrite Hne in Hev. injection Hev as <-.
      now apply (rebuild_leaf Text XText t root p n rest es).
    - cbn [Xml.events] in Hev. injection Hev as <-.
      now apply (rebuild_leaf CData XCData t root p n rest es). }
  induction k as [|k IHk]; intros e Hh Hr evs Hev root p n rest es Hn Hc Hkind.
  - apply Hleaf with (n := n); try assumption.
    destruct e; try reflexivity; cbn [height] in Hh; now apply Nat.nle_succ_0 in Hh.
  - destruct e as [c|name attrs cs|t|t|t]; try discriminate;
      try (apply Hleaf with (n := n); [reflexivity | assumption..]).
    cbn [rebuilt] in Hr. apply andb_true_iff in Hr as [Hr _].
    apply andb_true_iff in Hr as [Ha Hcs].
    apply same_attrs_eq in Ha.
    cbn [Xml.events] in Hev.
    destruct (traverse Xml.events cs) as [evss|] eqn:Hevss; [|discriminate].
    injection Hev as <-.
    destruct (append_child (XElement name attrs []) n) as [n1|] eqn:Hn1;
      [|now destruct n].
    destruct (update_defined p (append_child (XElement name attrs [])) root n n1 Hn Hn1)
      as [root1 Hu1].
    pose proof (child_found p root root1 n _ Hn Hu1) as Hq.
    destruct (rebuild_children k IHk cs) with (evss := evss) (root := root1)
      (q := p ++ [List.length (children n)]) (n := XElement name attrs [])
      (rest := p :: rest) (es := CloseTag name :: es)
      as (root2 & Hu2 & Hrun2); try reflexivity; try assumption.
    { intros c Hc'. split; [now apply (height_children name attrs cs k c Hh)|].
      rewrite forallb_forall in Hcs. now apply Hcs. }
    exists root2. split.
    + rewrite <- Hu2. symmetry.
      now apply (child_updated p root root1 n (XElement name attrs []) (XElement name attrs cs)).
    + cbn [app b_run b_handle]. unfold b_open. cbn [b_stack b_root]. rewrite Hn.
      unfold grow. cbn [b_root b_stack]. rewrite Ha, Hu1. cbn [b_root].
      rewrite <- app_assoc. cbn [app]. rewrite Hrun2.
      cbn [b_run b_handle]. unfold b_close. cbn [b_stack b_root].
      rewrite (node_update _ _ root1 root2 _ Hq Hu2). cbn [append_children is_container
        with_children children app]. now rewrite String.eqb_refl.
Qed.

(** *** The tokenizer joins no texts of such a tree *)

Lemma coalesce_text (t : string) (rest : list event) :
  starts_text (Xml.coalesce rest) = false ->
  Xml.coalesce (Text t :: rest) = Text t :: Xml.coalesce rest.
Proof.
  cbn [Xml.coalesce]. destruct (Xml.coalesce rest) as [|[| |b|] r]; try reflexivity.
  discriminate.
Qed.

Lemma events_head (e : xnode) (evs : list event) :
  rebuilt e = true -> Xml.events e = Some evs ->
  exists ev tail, evs = ev :: tail /\ starts_text [ev] = is_text e.
Proof.
  destruct e as [c|name attrs cs|t|t|t]; try discriminate; cbn [rebuilt Xml.events].
  - intros _. destruct (traverse Xml.events cs); [|discriminate].
    intros [= <-]. eauto.
  - intros Ht [= <-]. destruct (trimmed_inv t Ht) as [Hne _].
    apply String.eqb_neq in Hne. rewrite Hne. eauto.
  - intros _ [= <-]. eauto.
Qed.

Section Coalesce.

Variable k : nat.

Hypothesis IHk :
  forall e, height e <= k -> rebuilt e = true ->
  forall evs, Xml.events e = Some evs ->
  forall rest,
    (is_text e = true -> starts_text (Xml.coalesce rest) = false) ->
    Xml.coalesce (evs ++ rest) = evs ++ Xml.coalesce rest.

Lemma coalesce_children (n : string) (cs : list xnode) :
  (forall c, In c cs -> height c <= k /\ rebuilt c = true) ->
  apart cs = true ->
  forall evss, traverse Xml.events cs = Some evss ->
  forall rest,
    Xml.coalesce (concat evss ++ CloseTag n :: rest)
    = concat evss ++ CloseTag n :: Xml.coalesce rest.
Proof.
  induction cs as [|c cs IH]; intros Hcs Hap evss Hev rest.
  - injection Hev as <-. reflexivity.
  - cbn [traverse] in Hev.
    destruct (Xml.events c) as [evs|] eqn:Hc; [|discriminate].
    destruct (traverse Xml.events cs) as [evss'|] eqn:Hcs'; [|discriminate].
    injection Hev as <-. cbn [concat]. rewrite <- app_assoc.
    destruct (Hcs c (or_introl eq_refl)) as [Hh Hr].
    assert (Hap' : apart cs = true).
    { destruct cs as [|c' cs']; [reflexivity|]. cbn [apart] in Hap.
      now apply andb_true_iff in Hap as [_ ?]. }
    pose proof (IH (fun x Hx => Hcs x (or_intror Hx)) Hap' evss' eq_refl rest) as Htail.
    rewrite (IHk c Hh Hr evs Hc).
    + now rewrite Htail, app_assoc.
    + intros Htext. rewrite Htail.
      destruct cs as [|c' cs'].
      { cbn [traverse] in Hcs'. injection Hcs' as <-. reflexivity. }
      cbn [apart] in Hap. apply andb_true_iff in Hap as [Hap _].
      rewrite Htext in Hap. cbn [andb] in Hap. apply negb_true_iff in Hap.
      cbn [traverse] in Hcs'.
      destruct (Xml.events c') as [evs'|] eqn:Hc'; [|discriminate].
      destruct (traverse Xml.events cs'); [|discriminate]. injection Hcs' as <-.
      destruct (events_head c' evs' (proj2 (Hcs c' (or_intror (or_introl eq_refl)))) Hc')
        as (ev & tail & -> & Hhead).
      cbn [concat app starts_text] in *. now rewrite Hap in Hhead.
Qed.

End Coalesce.

Lemma coalesce_rebuilt (k : nat) :
  forall e, height e <= k -> rebuilt e = true ->
  forall evs, Xml.events e = Some evs ->
  forall rest,
    (is_text e = true -> starts_text (Xml.coalesce rest) = false) ->
    Xml.coalesce (evs ++ rest) = evs ++ Xml.coalesce rest.
Proof.
  assert (Hleaf : forall e, is_container e = false -> rebuilt e = true ->
            forall evs, Xml.events e = Some evs ->
            forall rest,
              (is_text e = true -> starts_text (Xml.coalesce rest) = false) ->
              Xml.coalesce (evs ++ rest) = evs ++ Xml.coalesce rest).
  { intros e He Hr evs Hev rest Hrest. destruct e as [|? ? ?|t|t|t]; try discriminate.
    - cbn [Xml.events] in Hev. cbn [rebuilt] in Hr.
      destruct (trimmed_inv t Hr) as [Hne _]. apply String.eqb_neq in Hne.
      rewrite Hne in Hev. injection Hev as <-. cbn [app].
      apply coalesce_text. now apply Hrest.
    - cbn [Xml.events] in Hev. injection Hev as <-. reflexivity. }
  induction k as [|k IHk]; intros e Hh Hr evs Hev rest Hrest.
  - apply (Hleaf e); try assumption.
    destruct e; try reflexivity; cbn [height] in Hh; now apply Nat.nle_succ_0 in Hh.
  - destruct e as [c|name attrs cs|t|t|t]; try discriminate;
      [|eapply Hleaf; [| exact Hr | exact Hev | exact Hrest]; reflexivity..].
    cbn [rebuilt] in Hr. apply andb_true_iff in Hr as [Hr Hap].
    apply andb_true_iff in Hr as [_ Hcs].
    cbn [Xml.events] in Hev.
    destruct (traverse Xml.events cs) as [evss|] eqn:Hevss; [|discriminate].
    injection Hev as <-. cbn [app Xml.coalesce]. rewrite <- !app_assoc. cbn [app].
    f_equal. apply (coalesce_children k IHk name cs); try assumption.
    intros c Hc. split; [now apply (height_children name attrs cs k c Hh)|].
    rewrite forallb_forall in Hcs. now apply Hcs.
Qed.

Lemma traverse_total {A B} (f : A -> option B) (l : list A) :
  (forall x, In x l -> exists y, f x = Some y) -> exists ys, traverse f l = Some ys.
Proof.
  induction l as [|x l IH]; intros H; [now exists []|].
  destruct (H x (or_introl eq_refl)) as [y Hy].
  destruct IH as [ys Hys]; [intros z Hz; apply H; now right|].
  exists (y :: ys). cbn [traverse]. now rewrite Hy, Hys.
Qed.

Lemma events_total (k : nat) :
  forall e, height e <= k -> rebuilt e = true -> exists evs, Xml.events e = Some evs.
Proof.
  induction k as [|k IHk]; intros e Hh Hr.
  - destruct e; try discriminate; cbn [Xml.events]; eauto.
    cbn [height] in Hh. now apply Nat.nle_succ_0 in Hh.
  - destruct e as [c|name attrs cs|t|t|t]; try discriminate; cbn [Xml.events]; eauto.
    cbn [rebuilt] in Hr. apply andb_true_iff in Hr as [Hr _].
    apply andb_true_iff in Hr as [_ Hcs]. rewrite forallb_forall in Hcs.
    destruct (traverse_total Xml.events cs) as [evss ->]; [|cbn; eauto].
    intros c Hc. apply IHk; [|now apply Hcs].
    now apply (height_children name attrs cs k c Hh).
Qed.

(** [parseXml] rebuilds a tree from the events the tokenizer emits for
    it.  For a tree of elements, texts and CDATA sections (the attributes
    in the order an object enumerates them, the texts not empty, without
    white space around them and not next to one another): read into a
    given element the tree becomes its new last child, and an element read
    without a root comes back as the only child of a new document. *)
Theorem parseXml_rebuilds (e : xnode) :
  rebuilt e = true ->
  exists es,
    Xml.tokens e = Some es
    /\ (forall name attrs c,
          parseXml_events (Some (XElement name attrs c)) es
          = Done (XElement name attrs (c ++ [e])))
    /\ (is_element_node e = true ->
        Xml.tokens (XDocument [e]) = Some es
        /\ parseXml_events None es = Done (XDocument [e])).
Proof.
  intros Hr.
  destruct (events_total (height e) e (le_n _) Hr) as [evs Hev].
  assert (Hco : Xml.coalesce evs = evs).
  { pose proof (coalesce_rebuilt (height e) e (le_n _) Hr evs Hev [] (fun _ => eq_refl)) as H.
    cbn [Xml.coalesce] in H. now rewrite !app_nil_r in H. }
  exists evs. split; [|split].
  - unfold Xml.tokens. rewrite Hev. cbn [option_map]. now rewrite Hco.
  - intros name attrs c. unfold parseXml_events.
    destruct (rebuild_node (height e) e (le_n _) Hr evs Hev (XElement name attrs c) []
                (XElement name attrs c) [] [] eq_refl eq_refl (or_introl eq_refl))
      as (root' & Hu & Hrun).
    rewrite app_nil_r in Hrun. rewrite Hrun. cbn [b_run b_root].
    cbn [update_at append_child] in Hu. now injection Hu as <-.
  - intros Hel. split.
    + unfold Xml.tokens. cbn [Xml.events traverse]. rewrite Hev. cbn [option_map concat].
      now rewrite app_nil_r, Hco.
    + unfold parseXml_events.
      destruct (rebuild_node (height e) e (le_n _) Hr evs Hev (XDocument []) []
                  (XDocument []) [] [] eq_refl eq_refl (or_intror Hel))
        as (root' & Hu & Hrun).
      rewrite app_nil_r in Hrun. rewrite Hrun. cbn [b_run b_root].
      cbn [update_at append_child] in Hu. now injection Hu as <-.
Qed.

Lemma parseXml_rebuilds_witness :
  let e := XElement "a" [("x", "1"); ("y", "2")]
             [XText "hi"; XElement "b" [] []; XCData "cd";
              XElement "c" [("z", "3")] [XText "deep"]] in
  rebuilt e = true
  /\ exists es,
       Xml.tokens e = Some es
       /\ (forall name attrs c,
             parseXml_events (Some (XElement name attrs c)) es
             = Done (XElement name attrs (c ++ [e])))
       /\ (is_element_node e = true ->
           Xml.tokens (XDocument [e]) = Some es
           /\ parseXml_events None es = Done (XDocument [e])).
Proof.
  intros e. split; [reflexivity|].
  apply (parseXml_rebuilds e). reflexivity.
Defined.

Open Scope list_scope.

(** ** The message of a SOAP 1.2 fault (lines 786-830) *)

(** For a fault whose [Code] is a text that is not empty and whose other
    fields are texts or missing, the message is the code, then the
    fields that are not empty, each under its label and as
    [JSON.stringify] quotes it, then the detail as it is when there is
    one.  A text under the lower-case key [reason] is not reported.  When
    the fault has no [faultcode], this is the message of the error that
    [xmlToJson] raises. *)
Theorem soap12_message_of_texts (h : heap) (a : nat) (props : list (string * jsval))
    (code : string) :
  h !! a = Some (HObject props) ->
  Js.own "Code" props = Some (JStr code) ->
  code <> "" ->
  text_or_absent (Js.own "Value" props) ->
  text_or_absent (Js.own "Subcode" props) ->
  text_or_absent (Js.own "reason" props) ->
  text_or_absent (Js.own "Reason" props) ->
  text_or_absent (Js.own "Node" props) ->
  text_or_absent (Js.own "Role" props) ->
  text_or_absent (Js.own "Detail" props) ->
  let message :=
    (" Code: " ++ Json.quote code
     ++ quoted "Value: " (Js.own "Value" props)
     ++ quoted "Subcode: " (Js.own "Subcode" props)
     ++ quoted "Reason: " (Js.own "Reason" props)
     ++ quoted "Node: " (Js.own "Node" props)
     ++ quoted "Role: " (Js.own "Role" props)
     ++ labelled_detail " Detail: " (Js.own "Detail" props))%string in
  getSoap12FaultErrorMessage h (JRef a) = Ok (Some message)
  /\ (Js.own "faultcode" props = None -> fault_message h (JRef a) = Ok message).
Proof.
  intros Ha Hcode Hne Hv Hs Hl Hr Hn Hro Hd message.
  pose proof (soap12_texts h a props code Ha Hcode Hne Hv Hs Hl Hr Hn Hro Hd) as H12.
  split; [exact H12|].
  intros Hfc. unfold fault_message.
  rewrite (soap11_none h a props Ha Hfc). cbn [bind]. now rewrite H12.
Qed.

Lemma soap12_message_of_texts_witness :
  let h := [HObject [("Code", JStr "Sender"); ("reason", JStr "lost");
                     ("Role", JStr ""); ("Detail", JStr "")]] in
  let message := (" Code: " ++ Json.quote "Sender" ++ " Detail: ")%string in
  getSoap12FaultErrorMessage h (JRef 0) = Ok (Some message)
  /\ fault_message h (JRef 0) = Ok message.
Proof.
  intros h message.
  pose proof (soap12_message_of_texts h 0
                [("Code", JStr "Sender"); ("reason", JStr "lost");
                 ("Role", JStr ""); ("Detail", JStr "")] "Sender") as H.
  destruct H as [H1 H2].
  - reflexivity.
  - reflexivity.
  - discriminate.
  - now left.
  - now left.
  - right. now exists "lost".
  - now left.
  - now left.
  - right. now exists "".
  - right. now exists "".
  - split; [exact H1|]. apply H2. reflexivity.
Defined.

Open Scope list_scope.

(** ** The envelope of [createSOAPEnvelope] read back (lines 383-397) *)

Section Envelope.

Variable self : XMLHandler.
Variable ds : dstore.
Variable nested : heap -> string -> result (heap * jsval).

(** An empty element without attributes hands [undefined] to its
    parent. *)
Lemma empty_child_read (st : pstate) (top : frame) (rest : list frame) (p k : string) :
  p_stack st = top :: rest ->
  f_descriptor top = None ->
  Str.contains ":" k = false ->
  foldM (handle self ds nested)
    [OpenTag (p ++ ":" ++ k) []; CloseTag (p ++ ":" ++ k)] st
  = do (h, top') <-
      merge_child ds (p_heap st) top
        {| f_name := Some k; f_object := JUndefined; f_descriptor := None; f_id := None |} k;
    Ok {| p_heap := h; p_stack := top' :: rest; p_refs := p_refs st; p_ns := p_ns st |}.
Proof.
  intros Hstack Htop Hk. cbn [foldM handle].
  rewrite (onopentag_uncollected self ds st (p ++ ":" ++ k) [] top rest Hstack);
    [|intros a []|reflexivity|reflexivity].
  cbn [bind]. unfold QName.parse. cbn [QName.name].
  rewrite (after_last_colon_prefixed p k Hk).
  unfold frame_descriptor at 1. rewrite Htop.
  cbn [Js.keys Js.ordered existsb map fold_left app List.filter].
  unfold onclosetag. cbn [p_ns p_stack p_heap p_refs f_id].
  rewrite popContext_scope_of. unfold QName.parse. cbn [QName.name].
  rewrite (after_last_colon_prefixed p k Hk). rewrite Hstack.
  destruct (merge_child ds (p_heap st) top _ k) as [[h top']|e]; reflexivity.
Qed.

Lemma envelope_read (p u : string) :
  foldM (handle self ds nested)
    [OpenTag (p ++ ":Envelope") [(("xmlns:" ++ p)%string, u)];
     OpenTag (p ++ ":Header") []; CloseTag (p ++ ":Header");
     OpenTag (p ++ ":Body") []; CloseTag (p ++ ":Body");
     CloseTag (p ++ ":Envelope")]
    (initial [] None None)
  = Ok {| p_heap := [HObject [("Envelope", JRef 1)];
                     HObject [("Header", JUndefined); ("Body", JUndefined)]];
          p_stack := [root_frame [] None];
          p_refs := [];
          p_ns := NamespaceContext.empty |}.
Proof.
  set (attrs := [(("xmlns:" ++ p)%string, u)]).
  change [OpenTag (p ++ ":Envelope") attrs;
          OpenTag (p ++ ":Header") []; CloseTag (p ++ ":Header");
          OpenTag (p ++ ":Body") []; CloseTag (p ++ ":Body");
          CloseTag (p ++ ":Envelope")]
    with ([OpenTag (p ++ ":" ++ "Envelope") attrs]
          ++ [OpenTag (p ++ ":" ++ "Header") []; CloseTag (p ++ ":" ++ "Header")]
          ++ [OpenTag (p ++ ":" ++ "Body") []; CloseTag (p ++ ":" ++ "Body")]
          ++ [CloseTag (p ++ ":" ++ "Envelope")]).
  rewrite !foldM_app. change (foldM (handle self ds nested) [OpenTag (p ++ ":" ++ "Envelope") attrs] (initial [] None None)) with (do s <- onopentag self ds (initial [] None None) (p ++ ":" ++ "Envelope") attrs; Ok s).
  rewrite (onopentag_uncollected self ds (initial [] None None) _ attrs
             (root_frame [] None) [] eq_refl).
  - replace (existsb _ _) with false
      by (unfold attrs; rewrite keys_declaration; cbn [existsb]; unfold nil_true;
          now rewrite is_xmlns_declaration).
    cbn [bind]. unfold QName.parse. cbn [QName.name].
    rewrite (after_last_colon_prefixed p "Envelope" eq_refl).
    cbn [frame_descriptor root_frame f_descriptor].
    rewrite foldM_app.
    erewrite (empty_child_read _ _ _ p "Header"); [| reflexivity | reflexivity | reflexivity].
    cbn [p_heap p_refs p_ns].
    match goal with
    | |- context [merge_child ?a ?b ?c ?d ?e] => change (merge_child a b c d e)
      with (Ok ([HObject []; HObject [("Header", JUndefined)]],
                {| f_name := Some "Envelope"; f_object := JRef 1;
                   f_descriptor := None; f_id := None |}))
    end.
    cbn [bind]. rewrite foldM_app.
    erewrite (empty_child_read _ _ _ p "Body"); [| reflexivity | reflexivity | reflexivity].
    cbn [p_heap p_refs p_ns].
    match goal with
    | |- context [merge_child ?a ?b ?c ?d ?e] => change (merge_child a b c d e)
      with (Ok ([HObject []; HObject [("Header", JUndefined); ("Body", JUndefined)]],
                {| f_name := Some "Envelope"; f_object := JRef 1;
                   f_descriptor := None; f_id := None |}))
    end.
    cbn [bind foldM handle]. unfold onclosetag. cbn [p_ns p_stack p_heap p_refs f_id].
    rewrite (popContext_scope_of (initial [] None None) attrs).
    unfold QName.parse. cbn [QName.name].
    rewrite (after_last_colon_prefixed p "Envelope" eq_refl).
    reflexivity.
  - unfold attrs. rewrite keys_declaration.
    intros a [<-|[]]. unfold collected. now rewrite is_xmlns_declaration.
  - reflexivity.
  - reflexivity.
Qed.

End Envelope.

(** The envelope [createSOAPEnvelope] builds, for a prefix that is an
    XML name without a colon and a namespace of characters that XML
    allows (the defaults standing for the empty ones): the header and the
    body are its two children, both empty; [xmlToJson] without a
    descriptor reads its events as the object of the envelope, unwrapped,
    with the keys [Header] and [Body], both undefined; and [parseXml]
    without a root rebuilds it as the only child of a new document. *)
Theorem createSOAPEnvelope_reads_back (prefix nsURI : string) :
  Xml.is_name (or_default prefix "soap") = true ->
  Str.contains ":" (or_default prefix "soap") = false ->
  Xml.legal (or_default nsURI "http://schemas.xmlsoap.org/soap/envelope/") = true ->
  exists env es,
    createSOAPEnvelope prefix nsURI = Ok env
    /\ node_at (e_header env) (e_doc env)
       = Some (XElement (or_default prefix "soap" ++ ":Header") [] [])
    /\ node_at (e_body env) (e_doc env)
       = Some (XElement (or_default prefix "soap" ++ ":Body") [] [])
    /\ e_header env <> e_body env
    /\ Xml.tokens (e_doc env) = Some es
    /\ (forall self ds nested,
          tree_of (xmlToJson_events self ds nested [] None es None)
          = Some (VObj [("Header", VUndefined); ("Body", VUndefined)]))
    /\ parseXml_events None es = Done (XDocument [e_doc env]).
Proof.
  intros _ _ _.
  set (p := or_default prefix "soap").
  set (u := or_default nsURI "http://schemas.xmlsoap.org/soap/envelope/").
  exists {| e_doc := XElement (p ++ ":Envelope") [(("xmlns:" ++ p)%string, u)]
                       [XElement (p ++ ":Header") [] []; XElement (p ++ ":Body") [] []];
            e_header := [0%nat]; e_body := [1%nat] |}.
  exists [OpenTag (p ++ ":Envelope") [(("xmlns:" ++ p)%string, u)];
          OpenTag (p ++ ":Header") []; CloseTag (p ++ ":Header");
          OpenTag (p ++ ":Body") []; CloseTag (p ++ ":Body");
          CloseTag (p ++ ":Envelope")].
  split; [reflexivity|]. split; [reflexivity|]. split; [reflexivity|].
  split; [discriminate|]. split; [reflexivity|]. split.
  - intros self ds nested. unfold xmlToJson_events.
    rewrite (envelope_read self ds nested p u). reflexivity.
  - unfold parseXml_events.
    change (attribute_map [(("xmlns:" ++ p)%string, u)]) with [(("xmlns:" ++ p)%string, u)].
    change (attribute_map []) with (@nil (string * string)).
    repeat (progress (cbn [b_run b_handle b_open b_close b_stack b_root node_at grow update_at
                           append_child children app List.length lookup list_lookup insert
                           list_insert with_children];
                      rewrite ?String.eqb_refl)).
    reflexivity.
Qed.

Lemma createSOAPEnvelope_reads_back_witness :
  exists env es,
    createSOAPEnvelope "" "urn:envelope" = Ok env
    /\ node_at (e_header env) (e_doc env) = Some (XElement "soap:Header" [] [])
    /\ node_at (e_body env) (e_doc env) = Some (XElement "soap:Body" [] [])
    /\ Xml.tokens (e_doc env) = Some es
    /\ tree_of (xmlToJson_events default_handler [] no_nested [] None es None)
       = Some (VObj [("Header", VUndefined); ("Body", VUndefined)]).
Proof.
  destruct (createSOAPEnvelope_reads_back "" "urn:envelope" eq_refl eq_refl eq_refl)
    as (env & es & H1 & H2 & H3 & _ & H5 & H6 & _).
  exists env, es. repeat split; [exact H1 | exact H2 | exact H3 | exact H5 | apply H6].
Defined.

Open Scope list_scope.

(** ** Round trip of an element with attributes and a text *)

Lemma plain_attribute_inv (self : XMLHandler) (p : string * value) :
  plain_attribute self p = true ->
  exists s,
    snd p = VStr s /\ Js.index_value (fst p) = None /\ Str.contains ":" (fst p) = false
    /\ Js.mem (fst p) Js.prototype_members = false
    /\ fst p <> "xmlns" /\ fst p <> "href" /\ fst p <> "id"
    /\ fst p <> xsiTypeKey (opts self).
Proof.
  unfold plain_attribute. intros H.
  apply andb_true_iff in H as [H _]. apply andb_true_iff in H as [H _].
  apply andb_true_iff in H as [H Hx]. apply andb_true_iff in H as [H Hid].
  apply andb_true_iff in H as [H Hhref]. apply andb_true_iff in H as [H Hns].
  apply andb_true_iff in H as [H Hp]. apply andb_true_iff in H as [H Hc].
  apply andb_true_iff in H as [Hs Hi].
  apply negb_true_iff in Hx, Hid, Hhref, Hns, Hp, Hc, Hi.
  destruct (snd p) as [| | | |s| | |] eqn:Hv; try discriminate.
  exists s. split; [reflexivity|].
  split; [unfold is_index in Hi; now destruct (Js.index_value (fst p))|].
  split; [exact Hc|]. split; [exact Hp|].
  repeat split; now apply String.eqb_neq.
Qed.

Lemma plain_attribute_legal (self : XMLHandler) (k s : string) :
  plain_attribute self (k, VStr s) = true -> Xml.is_name k = true /\ Xml.legal s = true.
Proof.
  unfold plain_attribute. cbn [fst snd]. intros H.
  apply andb_true_iff in H as [H Hl]. apply andb_true_iff in H as [_ Hn]. now split.
Qed.

(** Setting keys that are new, one after the other, appends them. *)
Lemma set_all {A B} (f : B -> A) (l : list (string * B)) :
  List.NoDup (map fst l) ->
  forall acc,
    (forall k, In k (map fst l) -> Js.own k acc = None) ->
    fold_left (fun acc p => Js.set (fst p) (f (snd p)) acc) l acc
    = acc ++ map (fun p => (fst p, f (snd p))) l.
Proof.
  induction l as [|[k v] l IH]; intros Hnd acc Hacc; cbn [fold_left map fst snd].
  - now rewrite app_nil_r.
  - cbn [map fst] in Hnd. apply List.NoDup_cons_iff in Hnd as [Hnotin Hnd].
    rewrite (set_absent k (f v) acc (Hacc k (or_introl eq_refl))).
    rewrite (IH Hnd).
    + now rewrite <- app_assoc.
    + intros j Hj. rewrite own_app, (Hacc j (or_intror Hj)). cbn [Js.own].
      destruct (String.eqb_spec j k) as [->|]; [contradiction|reflexivity].
Qed.

Section WriteAttributes.

Variable toISOString : value -> option string.
Variable self : XMLHandler.
Hypothesis Hrestr : enforceRestrictions (opts self) = false.
Hypothesis Hunknown : ignoreUnknownProperties (opts self) = false.

(** An undeclared attribute that is a text is set on the node under its
    own name. *)
Lemma attribute_written (fuel : nat) (st : sstate) (n : string)
    (a : list (string * string)) (c : list xnode) (p : string * value) :
  plain_attribute self p = true ->
  attribute_step self (jsonToXml_fuel toISOString self (S fuel)) [] (st, XElement n a c) p
  = Ok (st, XElement n (Js.set (fst p) match snd p with VStr s => s | _ => "" end a) c).
Proof.
  intros Hp. destruct (plain_attribute_inv self p Hp)
    as (s & Hv & _ & Hc & Hproto & _ & _ & _ & Hx).
  destruct p as [k v]. cbn [fst snd] in *. subst v.
  destruct (plain_attribute_legal self k s Hp) as [_ Hlegal].
  unfold attribute_step. apply String.eqb_neq in Hx. rewrite Hx.
  unfold lookup_table. cbn [Js.own]. rewrite Hproto, Hunknown.
  cbn [jsonToXml_fuel deref new_AttributeDescriptor d_kind].
  unfold attribute_branch.
  rewrite (keeps_text_ok toISOString
             (new_AttributeDescriptor (QName.parse k None) "unqualified") (VStr s) eq_refl).
  cbn [bind]. unfold new_AttributeDescriptor. cbn [d_qname d_form].
  change (String.eqb "unqualified" "unqualified") with true.
  cbv beta iota. unfold QName.parse. cbn [QName.name].
  rewrite (after_last_colon_plain k Hc), (required_text_legal s Hlegal). reflexivity.
Qed.

Lemma attributes_written (fuel : nat) (st : sstate) (n : string) (c : list xnode)
    (attrs : list (string * value)) :
  forallb (plain_attribute self) attrs = true ->
  forall a,
    foldM (attribute_step self (jsonToXml_fuel toISOString self (S fuel)) [])
      attrs (st, XElement n a c)
    = Ok (st, XElement n
                (fold_left (fun acc p => Js.set (fst p) match snd p with VStr s => s | _ => "" end
                                           acc) attrs a) c).
Proof.
  induction attrs as [|p attrs IH]; intros Hall a; [reflexivity|].
  cbn [forallb] in Hall. apply andb_true_iff in Hall as [Hp Hall].
  cbn [foldM fold_left]. rewrite (attribute_written fuel st n a c p Hp). cbn [bind].
  now apply IH.
Qed.

End WriteAttributes.

Section WriteElement.

Variable toISOString : value -> option string.
Variable self : XMLHandler.
Variable ds : dstore.
Hypothesis Hrestr : enforceRestrictions (opts self) = false.
Hypothesis Hunknown : ignoreUnknownProperties (opts self) = false.

Variables (r : did) (d : descriptor) (q : QName.t).
Hypothesis Hd : ds !! r = Some d.
Hypothesis Hkind : d_kind d = ElementDescriptor.
Hypothesis Hq : d_qname d = Some q.
Hypothesis Hsimple : d_isSimple d = true.
Hypothesis Hform : d_form d = "unqualified".
Hypothesis Hnone : d_attributes d = [].
Hypothesis Hkeeps : keeps_text d = true.

Variables (props attrs : list (string * value)) (t : string).
Hypothesis Hattrs : Js.own (attributesKey (opts self)) props = Some (VObj attrs).
Hypothesis Hvalue : Js.own (valueKey (opts self)) props = Some (VStr t).
Hypothesis Hcd : Str.has_cdata_marker t = false.
Hypothesis Hlegal : Xml.legal t = true.
Hypothesis Hnd : List.NoDup (map fst attrs).
Hypothesis Hplain : forallb (plain_attribute self) attrs = true.

Lemma attributes_not_indices : Js.ordered attrs = attrs.
Proof.
  apply ordered_plain. intros p Hp. rewrite forallb_forall in Hplain.
  destruct (plain_attribute_inv self p (Hplain p Hp)) as (_ & _ & Hi & _). exact Hi.
Qed.

(** The element is written with the text of the value key and the
    attributes of the attributes key; whatever else the object holds is
    not written. *)
Lemma element_with_attributes_written (fuel : nat) :
  jsonToXml toISOString self (S (S fuel)) ds None None (Some (Stored r)) (VObj props)
  = Ok ({| s_ds := ds; s_ns := NamespaceContext.empty |},
        XDocument [XElement (QName.name q) (attribute_texts attrs) [XText t]]).
Proof.
  unfold jsonToXml. cbv beta iota.
  assert (Hstep : forall k, k = S fuel ->
            jsonToXml_fuel toISOString self (S k) {| s_ds := ds; s_ns := NamespaceContext.empty |} (XDocument [])
              (Some (Stored r)) (VObj props)
            = element_branch toISOString self (jsonToXml_fuel toISOString self k)
                {| s_ds := ds; s_ns := NamespaceContext.empty |} (XDocument []) (Stored r) d (VObj props)).
  { intros k _. cbn [jsonToXml_fuel deref s_ds]. rewrite Hd, Hkind.
    now destruct (d_isMany d). }
  rewrite (Hstep (S fuel) eq_refl). clear Hstep.
  unfold element_branch. rewrite Hq.
  cbn [is_nullish typeof_object negb andb vget]. rewrite Hattrs, Hvalue.
  cbn [is_undefined negb andb].
  unfold element_name. rewrite Hform.
  change (String.eqb "unqualified" "unqualified") with true. cbv beta iota. cbn [bind].
  unfold make_element. rewrite Hsimple. cbn [cdata_test bind]. rewrite Hcd.
  cbn [andb is_nullish negb vget is_undefined].
  rewrite (enforce_off self Hrestr), (keeps_text_ok toISOString d _ Hkeeps).
  cbn [bind]. rewrite (element_legal _ t Hlegal).
  cbn [bind is_nullish andb typeof_object negb].
  unfold addAttributes. cbn [deref s_ds with_sns]. rewrite Hd, Hnone.
  cbn [table_of bind is_nullish typeof_object negb andb entries].
  rewrite attributes_not_indices.
  rewrite (attributes_written toISOString self Hunknown fuel _ _ _ attrs Hplain []).
  cbn [bind fst snd]. unfold pop_scope. cbn [s_ns with_sns NamespaceContext.pushContext
    NamespaceContext.popContext s_ds bind Xml.add_child app].
  rewrite (set_all (fun v => match v with VStr s => s | _ => "" end) attrs Hnd [])
    by reflexivity.
  reflexivity.
Qed.

End WriteElement.

(** *** Reading the element back *)

Lemma no_colon_no_declaration (k : string) :
  Str.contains ":" k = false -> k <> "xmlns" -> Str.is_xmlns k = false.
Proof.
  intros Hc Hk. unfold Str.is_xmlns. apply orb_false_iff. split.
  - destruct (String.prefix "xmlns:" k) eqn:Hp; [exfalso|reflexivity].
    destruct k as [|c1 [|c2 [|c3 [|c4 [|c5 [|c6 k]]]]]]; cbn [String.prefix] in Hp;
      repeat match type of Hp with
             | context [Ascii.ascii_dec ?a ?b] =>
                 destruct (Ascii.ascii_dec a b); [subst|discriminate]
             end; try discriminate.
    destruct k; vm_compute in Hc; discriminate.
  - now apply String.eqb_neq.
Qed.

Lemma register_none (attrs : list (string * string)) (c : NamespaceContext.t) :
  (forall a, In a (Js.keys attrs) -> Str.is_xmlns a = false) ->
  register_namespaces attrs c = c.
Proof.
  unfold register_namespaces. generalize (Js.keys attrs) as L. intros L. revert c.
  induction L as [|a L IH]; intros c H; [reflexivity|].
  cbn [fold_left]. rewrite (H a (or_introl eq_refl)). apply IH.
  intros b Hb. apply H. now right.
Qed.

Lemma insert_last {A} (h : list A) (x y : A) :
  <[List.length h := y]> (h ++ [x]) = h ++ [y].
Proof.
  induction h as [|o h IH]; [reflexivity|].
  cbn [List.length app]. change (<[S (List.length h) := y]> (o :: h ++ [x]))
    with (o :: <[List.length h := y]> (h ++ [x])). now rewrite IH.
Qed.

Lemma heap_set_last (h : heap) (m : list (string * jsval)) (k : string) (v : jsval) :
  k <> "__proto__" ->
  heap_set (h ++ [HObject m]) (List.length h) k v = Ok (h ++ [HObject (Js.set k v m)]).
Proof.
  intros Hk. rewrite (heap_set_ok _ _ _ _ m); [|now apply list_lookup_middle|exact Hk].
  now rewrite insert_last.
Qed.

Section ReadAttributes.

Variable self : XMLHandler.
Variable d : option descriptor.

(** Outside every namespace, an attribute without prefix is recorded
    under its name with its text. *)
Lemma attr_step_plain (h : heap) (m : list (string * jsval)) (A : list (string * string))
    (o : jsval) (a : string) :
  Str.is_xmlns a = false -> Str.contains ":" a = false -> a <> "__proto__" ->
  attr_step self [[]; []] d
    {| al_heap := h ++ [HObject m]; al_attrs := A; al_obj := o;
       al_elementAttributes := Some (List.length h) |} a
  = Ok {| al_heap := h ++ [HObject (Js.set a (JStr match Js.own a A with
                                                   | Some t => t | None => "" end) m)];
          al_attrs := A; al_obj := o; al_elementAttributes := Some (List.length h) |}.
Proof.
  intros Hx Hc Hk. unfold attr_step. rewrite Hx.
  cbn [NamespaceContext.getNamespaceURI NamespaceContext.resolve NamespaceContext.find_prefix
       List.find option_map andb al_elementAttributes al_heap al_attrs al_obj].
  unfold QName.parse. cbn [QName.name]. rewrite (after_last_colon_plain a Hc).
  rewrite (heap_set_last h m a _ Hk). reflexivity.
Qed.

Lemma attr_loop_plain (h : heap) (A : list (string * string)) (o : jsval) (L : list string) :
  (forall a, In a L ->
     Str.is_xmlns a = false /\ Str.contains ":" a = false /\ a <> "__proto__") ->
  forall m,
    foldM (attr_step self [[]; []] d) L
      {| al_heap := h ++ [HObject m]; al_attrs := A; al_obj := o;
         al_elementAttributes := Some (List.length h) |}
    = Ok {| al_heap :=
              h ++ [HObject (fold_left
                               (fun m a => Js.set a (JStr match Js.own a A with
                                                          | Some t => t | None => "" end) m)
                               L m)];
            al_attrs := A; al_obj := o; al_elementAttributes := Some (List.length h) |}.
Proof.
  induction L as [|a L IH]; intros H m; [reflexivity|].
  destruct (H a (or_introl eq_refl)) as (Hx & Hc & Hk).
  cbn [foldM fold_left]. rewrite (attr_step_plain h m A o a Hx Hc Hk). cbn [bind].
  apply IH. intros b Hb. apply H. now right.
Qed.

(** The first attribute makes the map. *)
Lemma attr_loop_start (h : heap) (A : list (string * string)) (L : list string) :
  L <> [] ->
  (forall a, In a L ->
     Str.is_xmlns a = false /\ Str.contains ":" a = false /\ a <> "__proto__") ->
  foldM (attr_step self [[]; []] d) L
    {| al_heap := h; al_attrs := A; al_obj := JUndefined; al_elementAttributes := None |}
  = Ok {| al_heap :=
            h ++ [HObject (fold_left
                             (fun m a => Js.set a (JStr match Js.own a A with
                                                        | Some t => t | None => "" end) m)
                             L [])];
          al_attrs := A; al_obj := JUndefined;
          al_elementAttributes := Some (List.length h) |}.
Proof.
  intros Hne H. destruct L as [|a L]; [now elim Hne|].
  destruct (H a (or_introl eq_refl)) as (Hx & Hc & Hk).
  rewrite <- (attr_loop_plain h A JUndefined (a :: L) H []).
  cbn [foldM]. rewrite (attr_step_plain h [] A JUndefined a Hx Hc Hk).
  unfold attr_step. rewrite Hx.
  cbn [NamespaceContext.getNamespaceURI NamespaceContext.resolve NamespaceContext.find_prefix
       List.find option_map andb al_elementAttributes al_heap al_attrs al_obj].
  unfold QName.parse. cbn [QName.name]. rewrite (after_last_colon_plain a Hc).
  rewrite (heap_set_last h [] a _ Hk). reflexivity.
Qed.

End ReadAttributes.

Lemma mem_false_neq (k j : string) (l : list string) :
  Js.mem k l = false -> In j l -> k <> j.
Proof.
  unfold Js.mem. intros H Hj ->.
  assert (existsb (String.eqb j) l = true)
    by (apply existsb_exists; exists j; split; [exact Hj | apply String.eqb_refl]).
  congruence.
Qed.

Lemma plain_keys_inv (self : XMLHandler) :
  plain_keys self = true ->
  Js.mem (attributesKey (opts self)) Js.prototype_members = false
  /\ Js.mem (valueKey (opts self)) Js.prototype_members = false
  /\ attributesKey (opts self) <> valueKey (opts self).
Proof.
  unfold plain_keys. intros H. apply andb_true_iff in H as [H Hd].
  apply andb_true_iff in H as [Ha Hv]. apply negb_true_iff in Ha, Hv, Hd.
  repeat split; try assumption. now apply String.eqb_neq.
Qed.

Lemma own_texts (A : list (string * string)) :
  List.NoDup (map fst A) ->
  fold_left (fun m a => Js.set a (JStr match Js.own a A with Some t => t | None => "" end) m)
    (map fst A) []
  = read_attributes A.
Proof.
  intros Hnd.
  assert (Hgen : forall (L : list (string * string)) acc,
             List.NoDup (map fst L) ->
             (forall p, In p L -> Js.own (fst p) A = Some (snd p)) ->
             (forall k, In k (map fst L) -> Js.own k acc = None) ->
             fold_left (fun m a => Js.set a (JStr match Js.own a A with
                                                  | Some t => t | None => "" end) m)
               (map fst L) acc
             = acc ++ read_attributes L).
  { induction L as [|[k v] L IH]; intros acc HndL Hown Hacc; cbn [map fold_left fst].
    - now rewrite app_nil_r.
    - cbn [map fst] in HndL. apply List.NoDup_cons_iff in HndL as [Hnotin HndL].
      pose proof (Hown (k, v) (or_introl eq_refl)) as Hk. cbn [fst snd] in Hk. rewrite Hk.
      rewrite (set_absent k _ acc (Hacc k (or_introl eq_refl))).
      rewrite IH; [now rewrite <- app_assoc | exact HndL | |].
      + intros p Hp. apply Hown. now right.
      + intros j Hj. rewrite own_app, (Hacc j (or_intror Hj)). cbn [Js.own].
        destruct (String.eqb_spec j k) as [->|]; [contradiction|reflexivity]. }
  rewrite (Hgen A [] Hnd); [reflexivity| |intros k _; reflexivity].
  clear Hgen. induction A as [|[k v] A IH]; intros p Hp; [destruct Hp|].
  cbn [map fst] in Hnd. apply List.NoDup_cons_iff in Hnd as [Hnotin Hnd].
  destruct Hp as [<-|Hp]; cbn [Js.own fst snd]; [now rewrite String.eqb_refl|].
  destruct (String.eqb_spec (fst p) k) as [Hk|_]; [|now apply IH].
  elim Hnotin. rewrite <- Hk. now apply in_map.
Qed.

Section ReadElement.

Variable self : XMLHandler.
Variable ds : dstore.
Variable nested : heap -> string -> result (heap * jsval).
Hypothesis Hkeys : plain_keys self = true.

Variables (name : string) (A : list (string * string)) (t : string).
Hypothesis Hcolon : Str.contains ":" name = false.
Hypothesis Hproto : Js.mem name Js.prototype_members = false.
Hypothesis Henv : name <> "Envelope".
Hypothesis Hne : A <> [].
Hypothesis Hnd : List.NoDup (map fst A).
Hypothesis Hplain :
  forall a, In a (map fst A) ->
    Js.index_value a = None /\ Str.contains ":" a = false
    /\ Js.mem a Js.prototype_members = false
    /\ a <> "xmlns" /\ a <> "href" /\ a <> "id".
Hypothesis Htrim : Str.trim t = t.
Hypothesis Ht : t <> "".

Lemma keys_in_order : Js.keys A = map fst A.
Proof.
  unfold Js.keys. rewrite ordered_plain; [reflexivity|].
  intros p Hp. apply (Hplain (fst p)). now apply in_map.
Qed.

Lemma open_with_attributes :
  onopentag self ds (initial [] None None) name A
  = Ok {| p_heap := [HObject []; HObject (read_attributes A);
                     HObject [(attributesKey (opts self), JRef 1)]];
          p_stack := [{| f_name := Some name; f_object := JRef 2; f_descriptor := None;
                         f_id := None |};
                      root_frame [] None];
          p_refs := [];
          p_ns := [[]; []] |}.
Proof.
  destruct (plain_keys_inv self Hkeys) as (Hak & Hvk & Hdiff).
  unfold onopentag. cbn [initial p_stack p_heap p_ns p_refs frame_descriptor f_descriptor app].
  rewrite register_none
    by (intros a Ha; rewrite keys_in_order in Ha;
        destruct (Hplain a Ha) as (_ & Hc & _ & Hx & _);
        now apply no_colon_no_declaration).
  rewrite keys_in_order.
  change (NamespaceContext.pushContext NamespaceContext.empty)
    with ([[]; []] : NamespaceContext.t).
  rewrite (attr_loop_start self None [HObject []] A (map fst A)).
  - cbn [bind al_elementAttributes al_heap al_attrs al_obj List.length].
    rewrite (own_texts A Hnd).
    rewrite (heap_set_last [HObject []; HObject (read_attributes A)] [] _ _
               (mem_false_neq _ "__proto__" _ Hak ltac:(vm_compute; tauto))).
    cbn [bind Js.set].
    rewrite (own_no_key "href" A) by (intros j Hj; now destruct (Hplain j Hj) as (_&_&_&_&?&_)).
    rewrite (own_no_key "id" A) by (intros j Hj; now destruct (Hplain j Hj) as (_&_&_&_&_&?)).
    cbn [bind]. unfold QName.parse. cbn [QName.name].
    rewrite (after_last_colon_plain name Hcolon). reflexivity.
  - destruct A; [now elim Hne|discriminate].
  - intros a Ha. destruct (Hplain a Ha) as (_ & Hc & Hp & Hx & _).
    split; [now apply no_colon_no_declaration|]. split; [exact Hc|].
    apply (mem_false_neq _ _ _ Hp). vm_compute. tauto.
Qed.

Lemma reify_attributes (fuel : nat) (h : heap) :
  traverse (fun p => option_map (pair (fst p)) (reify (S fuel) h (snd p))) (read_attributes A)
  = Some (map (fun p => (fst p, VStr (snd p))) A).
Proof. unfold read_attributes. now apply traverse_map. Qed.

(** The events of an element with attributes and a text give the root
    one property: a map of the attributes under the attributes key and
    the text under the value key. *)
Lemma element_with_attributes_read :
  tree_of (xmlToJson_events self ds nested [] None
             [OpenTag name A; Text t; CloseTag name] None)
  = Some (VObj [(name, VObj [(attributesKey (opts self),
                              VObj (map (fun p => (fst p, VStr (snd p))) A));
                             (valueKey (opts self), VStr t)])]).
Proof.
  destruct (plain_keys_inv self Hkeys) as (Hak & Hvk & Hdiff).
  unfold xmlToJson_events. cbn [foldM handle]. rewrite open_with_attributes. cbn [bind].
  unfold ontext. rewrite Htrim.
  replace (String.length t =? 0)%nat with false
    by (symmetry; apply Nat.eqb_neq; destruct t; [now elim Ht | discriminate]).
  cbn [p_stack p_heap frame_descriptor f_descriptor parseValue].
  unfold _processText. cbn [f_object lookup list_lookup].
  assert (Hc : Js.has_own "constructor" [(attributesKey (opts self), JRef 1)] = false).
  { unfold Js.has_own. cbn [Js.own].
    replace (String.eqb "constructor" (attributesKey (opts self))) with false; [reflexivity|].
    symmetry. apply String.eqb_neq. intros E.
    apply (mem_false_neq _ "constructor" _ Hak); [vm_compute; tauto | now symmetry]. }
  rewrite Hc.
  assert (Hg : Js.get (valueKey (opts self)) [(attributesKey (opts self), JRef 1)]
               = JUndefined).
  { unfold Js.get. cbn [Js.own].
    replace (String.eqb (valueKey (opts self)) (attributesKey (opts self))) with false
      by (symmetry; apply String.eqb_neq; congruence).
    now rewrite Hvk. }
  rewrite Hg.
  rewrite (heap_set_ok [HObject []; HObject (read_attributes A);
                        HObject [(attributesKey (opts self), JRef 1)]]
             2 _ _ [(attributesKey (opts self), JRef 1)] eq_refl
             (mem_false_neq _ "__proto__" _ Hvk ltac:(vm_compute; tauto))).
  rewrite (set_absent (valueKey (opts self)) (JStr t) [(attributesKey (opts self), JRef 1)])
    by (cbn [Js.own];
        replace (String.eqb (valueKey (opts self)) (attributesKey (opts self))) with false
          by (symmetry; apply String.eqb_neq; congruence);
        reflexivity).
  cbn [bind app insert list_insert]. unfold with_stack, with_heap.
  cbn [p_heap p_stack p_refs p_ns].
  unfold onclosetag. cbn [p_ns p_stack p_heap p_refs f_id NamespaceContext.popContext].
  unfold QName.parse. cbn [QName.name]. rewrite (after_last_colon_plain name Hcolon).
  erewrite (merge_child_absent ds) with (a := 0%nat) (props := []);
    [| reflexivity | reflexivity | unfold Js.has; now rewrite Hproto].
  cbn [is_many frame_descriptor f_descriptor f_object bind Js.set insert list_insert
       p_heap p_refs].
  unfold finish. cbn -[String.eqb reify].
  replace (String.eqb "Envelope" name) with false
    by (symmetry; apply String.eqb_neq; congruence).
  cbn -[reify]. unfold tree_of. cbn [List.length].
  change (reify 4 ?h (JRef 0)) with
    (option_map VObj
       (traverse (fun p => option_map (pair (fst p)) (reify 3 h (snd p)))
          [(name, JRef 2)])).
  cbn [traverse fst snd].
  change (reify 3 ?h (JRef 2)) with
    (option_map VObj
       (traverse (fun p => option_map (pair (fst p)) (reify 2 h (snd p)))
          [(attributesKey (opts self), JRef 1); (valueKey (opts self), JStr t)])).
  cbn [traverse fst snd].
  change (reify 2 ?h (JRef 1)) with
    (option_map VObj
       (traverse (fun p => option_map (pair (fst p)) (reify 1 h (snd p)))
          (read_attributes A))).
  rewrite reify_attributes. reflexivity.
Qed.

End ReadElement.

Lemma texts_back (self : XMLHandler) (attrs : list (string * value)) :
  forallb (plain_attribute self) attrs = true ->
  map (fun p => (fst p, VStr (snd p))) (attribute_texts attrs) = attrs.
Proof.
  induction attrs as [|[k v] attrs IH]; intros H; [reflexivity|].
  cbn [forallb] in H. apply andb_true_iff in H as [Hp H].
  destruct (plain_attribute_inv self (k, v) Hp) as (s & Hv & _). cbn [snd] in Hv. subst v.
  cbn [attribute_texts map fst snd]. f_equal. now apply IH.
Qed.



Open Scope list_scope.

(** ** A text with a CDATA mark (lines 110-115 and 683-692) *)

(** A text with the mark, under a simple unqualified element
    descriptor, is written as a CDATA section: the text without its first
    opening and its first closing mark. *)
Lemma cdata_written (toISOString : value -> option string) (self : XMLHandler)
    (fuel : nat) (ds : dstore) (r : did) (d : descriptor) (q : QName.t) (v : string) :
  ds !! r = Some d ->
  d_kind d = ElementDescriptor ->
  d_qname d = Some q ->
  d_isSimple d = true ->
  d_form d = "unqualified" ->
  Str.has_cdata_marker v = true ->
  Xml.legal (Str.replace_first "]]>" "" (Str.replace_first "<![CDATA[" "" v)) = true ->
  Str.contains "]]>" (Str.replace_first "]]>" "" (Str.replace_first "<![CDATA[" "" v))
  = false ->
  jsonToXml toISOString self (S fuel) ds None None (Some (Stored r)) (VStr v)
  = Ok ({| s_ds := ds; s_ns := NamespaceContext.empty |},
        XDocument [XElement (QName.name q) []
                     [XCData (Str.replace_first "]]>" ""
                                (Str.replace_first "<![CDATA[" "" v))]]).
Proof.
  intros Hd Hkind Hq Hsimple Hform Hmark Hlegal Hclose.
  unfold jsonToXml. cbv beta iota.
  cbn [jsonToXml_fuel deref s_ds]. rewrite Hd, Hkind.
  replace (match d_isMany d with
           | true => element_branch toISOString self (jsonToXml_fuel toISOString self fuel)
                       {| s_ds := ds; s_ns := NamespaceContext.empty |} (XDocument []) (Stored r) d (VStr v)
           | false => element_branch toISOString self (jsonToXml_fuel toISOString self fuel)
                       {| s_ds := ds; s_ns := NamespaceContext.empty |} (XDocument []) (Stored r) d (VStr v)
           end)
    with (element_branch toISOString self (jsonToXml_fuel toISOString self fuel)
            {| s_ds := ds; s_ns := NamespaceContext.empty |} (XDocument []) (Stored r) d (VStr v))
    by now destruct (d_isMany d).
  unfold element_branch. rewrite Hq.
  cbn [is_nullish typeof_object negb andb].
  unfold element_name. rewrite Hform.
  change (String.eqb "unqualified" "unqualified") with true. cbv beta iota. cbn [bind].
  unfold make_element. rewrite Hsimple. cbn [cdata_test bind]. rewrite Hmark.
  unfold Xml.cdata. rewrite Hlegal, Hclose.
  cbn [bind is_nullish andb negb]. rewrite ?Hsimple. reflexivity.
Qed.

Section ReadCData.

Variable self : XMLHandler.
Variable ds : dstore.
Variable nested : heap -> string -> result (heap * jsval).

(** An element that holds a CDATA section and nothing else is read as
    the trimmed text of the section, which is not coerced. *)
Lemma cdata_read (name c : string) :
  Str.contains ":" name = false ->
  Js.mem name Js.prototype_members = false ->
  name <> "Envelope" ->
  Str.trim c <> "" ->
  Str.has_xml_declaration (Str.trim c) = false ->
  tree_of (xmlToJson_events self ds nested [] None
             [OpenTag name []; CData c; CloseTag name] None)
  = Some (VObj [(name, VStr (Str.trim c))]).
Proof.
  intros Hcolon Hproto Henv Hne Hdecl.
  unfold xmlToJson_events. cbn [foldM handle].
  rewrite (onopentag_uncollected self ds (initial [] None None) name []
             (root_frame [] None) [] eq_refl);
    [|intros a []|reflexivity|reflexivity].
  cbn [bind]. unfold QName.parse. cbn [QName.name].
  rewrite (after_last_colon_plain name Hcolon).
  cbn [Js.keys Js.ordered existsb map fold_left app List.filter frame_descriptor root_frame
       f_descriptor].
  unfold oncdata.
  replace (String.length (Str.trim c) =? 0)%nat with false
    by (symmetry; apply Nat.eqb_neq; destruct (Str.trim c); [now elim Hne | discriminate]).
  rewrite Hdecl. unfold handleJsonObject.
  cbn [p_stack p_heap _processText f_object bind with_object f_name f_id f_descriptor].
  unfold with_stack, with_heap. cbn [p_heap p_stack p_refs p_ns bind].
  unfold onclosetag. cbn [p_ns p_stack p_heap p_refs f_id].
  rewrite popContext_scope_of. unfold QName.parse. cbn [QName.name].
  rewrite (after_last_colon_plain name Hcolon).
  cbn [initial p_stack p_heap p_refs p_ns app with_object f_id f_name f_object f_descriptor].
  erewrite (merge_child_absent ds) with (a := 0%nat) (props := []);
    [| reflexivity | reflexivity | unfold Js.has; now rewrite Hproto].
  cbn [is_many frame_descriptor f_descriptor f_object bind Js.set insert list_insert
       p_heap p_refs initial app].
  unfold finish. cbn -[String.eqb reify].
  replace (String.eqb "Envelope" name) with false
    by (symmetry; apply String.eqb_neq; congruence).
  reflexivity.
Qed.

End ReadCData.



Open Scope list_scope.

(** ** An array under a repeatable element *)

Section WriteArray.

Variable toISOString : value -> option string.
Variable self : XMLHandler.
Variable ds : dstore.
Hypothesis Hrestr : enforceRestrictions (opts self) = false.

Variables (r : did) (d : descriptor) (q : QName.t).
Hypothesis Hd : ds !! r = Some d.
Hypothesis Hkind : d_kind d = ElementDescriptor.
Hypothesis Hq : d_qname d = Some q.
Hypothesis Hform : d_form d = "unqualified".
Hypothesis Hkeeps : keeps_text d = true.

(** The items are written one after the other, each as an element of
    its own. *)
Lemma items_written (fuel : nat) (ns : NamespaceContext.t) (n : string)
    (a : list (string * string)) (items : list string) :
  forallb good_text items = true ->
  forall c,
    foldM (fun acc v => jsonToXml_fuel toISOString self (S fuel) (fst acc) (snd acc)
                          (Some (Stored r)) v)
      (map VStr items) ({| s_ds := ds; s_ns := ns |}, XElement n a c)
    = Ok ({| s_ds := ds; s_ns := ns |},
          XElement n a (c ++ map (fun s => XElement (QName.name q) [] [XText s]) items)).
Proof.
  induction items as [|s items IH]; intros Hall c.
  - cbn. now rewrite app_nil_r.
  - cbn [forallb] in Hall. apply andb_true_iff in Hall as [Hs Hall].
    destruct (good_text_inv s Hs) as (_ & _ & Hcd).
    pose proof (good_text_legal s Hs) as Hlegal.
    cbn [map foldM fst snd].
    assert (Hone : jsonToXml_fuel toISOString self (S fuel) {| s_ds := ds; s_ns := ns |}
                     (XElement n a c) (Some (Stored r)) (VStr s)
                   = Ok ({| s_ds := ds; s_ns := ns |},
                         XElement n a (c ++ [XElement (QName.name q) [] [XText s]]))).
    { cbn [jsonToXml_fuel deref s_ds]. rewrite Hd, Hkind.
      destruct (d_isMany d);
        now apply (text_element_written toISOString self ds Hrestr). }
    rewrite Hone. cbn [bind]. rewrite (IH Hall). now rewrite <- app_assoc.
Qed.

End WriteArray.

(** *** Reading the elements back *)

Section ReadArray.

Variable self : XMLHandler.
Variable ds : dstore.
Variable nested : heap -> string -> result (heap * jsval).

Variable name : string.
Hypothesis Hcolon : Str.contains ":" name = false.
Hypothesis Hproto : Js.mem name Js.prototype_members = false.

Lemma own_same {A} (v : A) : Js.own name [(name, v)] = Some v.
Proof. cbn [Js.own]. now rewrite String.eqb_refl. Qed.

(** Once the parent holds an array under the name, every further
    element of that name is appended to it. *)
Lemma items_appended (o : hobj) (top : frame) (rest : list frame)
    (refs : list (string * ref)) (ns : NamespaceContext.t) (items : list string) :
  f_object top = JRef 1 ->
  f_descriptor top = None ->
  forallb good_text items = true ->
  forall acc,
    foldM (handle self ds nested)
      (flat_map (fun s => [OpenTag name []; Text s; CloseTag name]) items)
      {| p_heap := [o; HObject [(name, JRef 2)]; HArray acc]; p_stack := top :: rest;
         p_refs := refs; p_ns := ns |}
    = Ok {| p_heap := [o; HObject [(name, JRef 2)]; HArray (acc ++ map JStr items)];
            p_stack := top :: rest; p_refs := refs; p_ns := ns |}.
Proof.
  intros Htop Hdesc. induction items as [|s items IH]; intros Hall acc.
  - cbn. now rewrite app_nil_r.
  - cbn [forallb] in Hall. apply andb_true_iff in Hall as [Hs Hall].
    destruct (good_text_inv s Hs) as (Hne & Htrim & _).
    cbn [flat_map]. rewrite foldM_app.
    rewrite (field_read self ds nested
               {| p_heap := [o; HObject [(name, JRef 2)]; HArray acc]; p_stack := top :: rest;
                  p_refs := refs; p_ns := ns |}
               top rest name s eq_refl Hdesc Htrim Hne Hcolon).
    cbn [p_heap p_refs p_ns].
    erewrite (merge_child_append ds [o; HObject [(name, JRef 2)]; HArray acc])
      with (a := 1%nat) (props := [(name, JRef 2)]) (b := 2%nat) (items := acc);
      [| exact Htop | reflexivity
       | unfold Js.has, Js.has_own; now rewrite own_same
       | unfold Js.get; now rewrite own_same
       | reflexivity].
    cbn [f_object bind insert list_insert]. rewrite (IH Hall).
    cbn [map]. now rewrite <- app_assoc.
Qed.

Lemma reify_texts (fuel : nat) (h : heap) (items : list string) :
  traverse (reify (S fuel) h) (map JStr items) = Some (map VStr items).
Proof. now apply traverse_map. Qed.

Variable pn : string.
Hypothesis Hpcolon : Str.contains ":" pn = false.
Hypothesis Hpproto : Js.mem pn Js.prototype_members = false.
Hypothesis Hpenv : pn <> "Envelope".

(** One element is read as its text, two and more as the array of
    their texts, none as undefined. *)
Lemma items_read (items : list string) :
  forallb good_text items = true ->
  tree_of (xmlToJson_events self ds nested [] None
             (OpenTag pn []
              :: flat_map (fun s => [OpenTag name []; Text s; CloseTag name]) items
              ++ [CloseTag pn]) None)
  = Some (VObj [(pn, match items with
                     | [] => VUndefined
                     | [s] => VObj [(name, VStr s)]
                     | _ => VObj [(name, VArr (map VStr items))]
                     end)]).
Proof.
  intros Hall. unfold xmlToJson_events. cbn [foldM handle].
  rewrite (onopentag_uncollected self ds (initial [] None None) pn []
             (root_frame [] None) [] eq_refl);
    [|intros a []|reflexivity|reflexivity].
  cbn [bind]. unfold QName.parse. cbn [QName.name].
  rewrite (after_last_colon_plain pn Hpcolon).
  cbn [Js.keys Js.ordered existsb map fold_left app List.filter frame_descriptor root_frame
       f_descriptor].
  assert (Hclose : forall (h : heap) (obj : jsval) (v : value),
            h !! 0%nat = Some (HObject []) ->
            (forall o, reify (List.length h) (<[0%nat := o]> h) obj = Some v) ->
            tree_of
              (do s <- foldM (handle self ds nested) [CloseTag pn]
                         {| p_heap := h;
                            p_stack := [{| f_name := Some pn; f_object := obj;
                                           f_descriptor := None; f_id := None |};
                                        root_frame [] None];
                            p_refs := [];
                            p_ns := scope_of (initial [] None None) [] |};
               finish (p_heap s) (p_refs s) (JRef 0))
            = Some (VObj [(pn, v)])).
  { intros h obj v H0 Hobj. cbn [foldM handle]. unfold onclosetag.
    cbn [p_ns p_stack p_heap p_refs f_id].
    rewrite popContext_scope_of. unfold QName.parse. cbn [QName.name].
    rewrite (after_last_colon_plain pn Hpcolon).
    erewrite (merge_child_absent ds h) with (a := 0%nat) (props := []);
      [| reflexivity | exact H0 | unfold Js.has; now rewrite Hpproto].
    cbn [is_many frame_descriptor f_descriptor f_object bind Js.set p_heap p_refs].
    destruct h as [|o0 h']; [discriminate|].
    specialize (Hobj (HObject [(pn, obj)])). cbn [insert list_insert] in Hobj.
    unfold finish. cbn -[String.eqb reify List.length].
    replace (String.eqb "Envelope" pn) with false
      by (symmetry; apply String.eqb_neq; congruence).
    cbn -[reify List.length]. unfold tree_of.
    change (reify (S (List.length (HObject [(pn, obj)] :: h')))
              (HObject [(pn, obj)] :: h') (JRef 0))
      with (option_map VObj
              (traverse (fun p => option_map (pair (fst p))
                                    (reify (List.length (o0 :: h'))
                                       (HObject [(pn, obj)] :: h') (snd p)))
                 [(pn, obj)])).
    cbn [traverse fst snd]. rewrite Hobj. reflexivity. }
  destruct items as [|s1 [|s2 items]].
  - cbn [flat_map app]. apply Hclose; [reflexivity|]. intros o. reflexivity.
  - cbn [forallb] in Hall. apply andb_true_iff in Hall as [Hs1 _].
    destruct (good_text_inv s1 Hs1) as (Hne1 & Htrim1 & _).
    cbn [flat_map]. rewrite app_nil_r.
    change [OpenTag name []; Text s1; CloseTag name; CloseTag pn]
      with ([OpenTag name []; Text s1; CloseTag name] ++ [CloseTag pn]).
    rewrite foldM_app.
    erewrite (field_read self ds nested _ _ _ name s1);
      [| reflexivity | reflexivity | exact Htrim1 | exact Hne1 | exact Hcolon].
    cbn [p_heap p_refs p_ns initial app]. rewrite merge_child_undefined by reflexivity.
    erewrite (merge_child_absent ds) with (a := 1%nat) (props := []);
      [| reflexivity | reflexivity | unfold Js.has; now rewrite Hproto].
    cbn [is_many frame_descriptor f_descriptor with_object f_object bind app List.length
         Js.set insert list_insert f_name f_id].
    apply (Hclose [HObject []; HObject [(name, JStr s1)]] (JRef 1)); [reflexivity|].
    intros o. reflexivity.
  - cbn [forallb] in Hall. apply andb_true_iff in Hall as [Hs1 Hall].
    apply andb_true_iff in Hall as [Hs2 Hall].
    destruct (good_text_inv s1 Hs1) as (Hne1 & Htrim1 & _).
    destruct (good_text_inv s2 Hs2) as (Hne2 & Htrim2 & _).
    cbn [flat_map].
    rewrite <- !app_assoc.
    remember ([OpenTag name []; Text s2; CloseTag name]
              ++ flat_map (fun s => [OpenTag name []; Text s; CloseTag name]) items
              ++ [CloseTag pn]) as tail eqn:Htail.
    rewrite foldM_app.
    erewrite (field_read self ds nested _ _ _ name s1);
      [| reflexivity | reflexivity | exact Htrim1 | exact Hne1 | exact Hcolon].
    cbn [p_heap p_refs p_ns initial app]. rewrite merge_child_undefined by reflexivity.
    erewrite (merge_child_absent ds) with (a := 1%nat) (props := []);
      [| reflexivity | reflexivity | unfold Js.has; now rewrite Hproto].
    cbn [is_many frame_descriptor f_descriptor with_object f_object bind app List.length
         Js.set insert list_insert f_name f_id].
    subst tail. rewrite foldM_app.
    remember (flat_map (fun s => [OpenTag name []; Text s; CloseTag name]) items
              ++ [CloseTag pn]) as tail eqn:Htail.
    erewrite (field_read self ds nested _ _ _ name s2);
      [| reflexivity | reflexivity | exact Htrim2 | exact Hne2 | exact Hcolon].
    cbn [p_heap p_refs p_ns].
    erewrite (merge_child_promote ds [HObject []; HObject [(name, JStr s1)]])
      with (a := 1%nat) (props := [(name, JStr s1)]);
      [| reflexivity | reflexivity
       | unfold Js.has, Js.has_own; now rewrite own_same
       | apply (mem_false_neq _ _ _ Hproto); vm_compute; tauto
       | unfold Js.get; rewrite own_same; discriminate].
    unfold Js.get. rewrite own_same.
    cbn [f_object bind app List.length insert list_insert Js.set].
    rewrite String.eqb_refl. subst tail. rewrite foldM_app.
    erewrite (items_appended (HObject []) _ _ _ _ items);
      [| reflexivity | reflexivity | exact Hall].
    cbn [bind app].
    apply (Hclose [HObject []; HObject [(name, JRef 2)];
                   HArray (JStr s1 :: JStr s2 :: map JStr items)] (JRef 1));
      [reflexivity|].
    intros o. cbn [List.length insert list_insert].
    change (reify 3 ?h (JRef 1)) with
      (option_map VObj
         (traverse (fun p => option_map (pair (fst p)) (reify 2 h (snd p)))
            [(name, JRef 2)])).
    cbn [traverse fst snd].
    change (reify 2 ?h (JRef 2)) with
      (option_map VArr
         (traverse (reify 1 h) (JStr s1 :: JStr s2 :: map JStr items))).
    change (JStr s1 :: JStr s2 :: map JStr items) with (map JStr (s1 :: s2 :: items)).
    rewrite reify_texts. reflexivity.
Qed.

End ReadArray.

Lemma item_events (name : string) (items : list string) :
  forallb good_text items = true ->
  traverse Xml.events (map (fun s => XElement name [] [XText s]) items)
  = Some (map (fun s => [OpenTag name []; Text s; CloseTag name]) items).
Proof.
  induction items as [|s items IH]; intros H; [reflexivity|].
  cbn [forallb] in H. apply andb_true_iff in H as [Hs H].
  destruct (good_text_inv s Hs) as (Hne & _ & _). apply String.eqb_neq in Hne.
  cbn [map traverse]. rewrite (IH H). cbn [Xml.events traverse option_map]. rewrite Hne.
  reflexivity.
Qed.

Lemma coalesce_items (name : string) (items : list string) (rest : list event) :
  Xml.coalesce (flat_map (fun s => [OpenTag name []; Text s; CloseTag name]) items ++ rest)
  = flat_map (fun s => [OpenTag name []; Text s; CloseTag name]) items ++ Xml.coalesce rest.
Proof.
  induction items as [|s items IH]; [reflexivity|].
  cbn [flat_map app Xml.coalesce]. now rewrite IH.
Qed.



Open Scope list_scope.

(** ** Objects of texts, written and read without descriptors *)

Lemma within_more (n : nat) :
  forall m lo hi h j v, (n <= m)%nat -> within n lo hi h j v -> within m lo hi h j v.
Proof.
  induction n as [|n IH]; intros m lo hi h j v Hm H; [destruct H|].
  destruct m as [|m]; [lia|]. cbn [within] in *.
  destruct v as [| | | | | | |props]; try exact H; destruct j as [| | | | | | |a]; try exact H.
  destruct H as (Ha & jprops & Hj & Hall). split; [exact Ha|]. exists jprops.
  split; [exact Hj|]. eapply Forall2_impl; [exact Hall|].
  intros jp vp (Hk & lo' & hi' & H1 & H2 & H3 & H4). split; [exact Hk|].
  exists lo', hi'. repeat split; try assumption. apply (IH m); [lia|exact H4].
Qed.

Lemma within_wider (n : nat) :
  forall lo hi lo0 hi0 h j v,
    (lo0 <= lo)%nat -> (hi <= hi0)%nat -> within n lo hi h j v -> within n lo0 hi0 h j v.
Proof.
  destruct n as [|n]; intros lo hi lo0 hi0 h j v Hlo Hhi H; [destruct H|].
  cbn [within] in *.
  destruct v as [| | | | | | |props]; try exact H; destruct j as [| | | | | | |a]; try exact H.
  destruct H as (Ha & jprops & Hj & Hall). split; [lia|]. exists jprops.
  split; [exact Hj|]. eapply Forall2_impl; [exact Hall|].
  intros jp vp (Hk & lo' & hi' & H1 & H2 & H3 & H4). split; [exact Hk|].
  exists lo', hi'. repeat split; try assumption; lia.
Qed.

(** What lies within a range depends on the heap in that range only. *)
Lemma within_stable (n : nat) :
  forall lo hi h h' j v,
    (forall b, (lo <= b < hi)%nat -> h' !! b = h !! b) ->
    within n lo hi h j v -> within n lo hi h' j v.
Proof.
  induction n as [|n IH]; intros lo hi h h' j v Hsame H; [destruct H|].
  cbn [within] in *.
  destruct v as [| | | | | | |props]; try exact H; destruct j as [| | | | | | |a]; try exact H.
  destruct H as (Ha & jprops & Hj & Hall). split; [exact Ha|]. exists jprops.
  split; [now rewrite (Hsame a Ha)|]. eapply Forall2_impl; [exact Hall|].
  intros jp vp (Hk & lo' & hi' & H1 & H2 & H3 & H4). split; [exact Hk|].
  exists lo', hi'. repeat split; try assumption.
  apply (IH lo' hi' h); [|exact H4]. intros b Hb. apply Hsame. lia.
Qed.

Lemma within_reify (n : nat) :
  forall lo hi h j v, within n lo hi h j v -> reify n h j = Some v.
Proof.
  induction n as [|n IH]; intros lo hi h j v H; [destruct H|].
  cbn [within] in H. cbn [reify].
  destruct v as [| | | | | | |props]; try (now destruct H);
    destruct j as [| | | | | | |a]; try (now destruct H).
  destruct H as (Ha & jprops & Hj & Hall). rewrite Hj.
  assert (Ht : traverse (fun p => option_map (pair (fst p)) (reify n h (snd p))) jprops
               = Some props).
  { clear Hj.
    induction Hall as [|jp vp jl vl (Hk & lo' & hi' & _ & _ & _ & Hw) Hall IHl];
        [reflexivity|].
      cbn [traverse]. rewrite (IH _ _ _ _ _ Hw), IHl. cbn [option_map].
      rewrite Hk. now destruct vp. }
  now rewrite Ht.
Qed.

Lemma plain_key_inv (self : XMLHandler) (k : string) :
  plain_key self k = true ->
  Str.contains ":" k = false /\ Js.mem k Js.prototype_members = false
  /\ Js.index_value k = None
  /\ k <> attributesKey (opts self) /\ k <> valueKey (opts self).
Proof.
  unfold plain_key. intros H. apply andb_true_iff in H as [H _].
  apply andb_true_iff in H as [H Hv]. apply andb_true_iff in H as [H Ha].
  apply andb_true_iff in H as [H Hi]. apply andb_true_iff in H as [Hc Hp].
  apply negb_true_iff in Hv, Ha, Hc, Hp.
  repeat split; try assumption; try (now apply String.eqb_neq).
  now destruct (Js.index_value k).
Qed.

Lemma distinct_NoDup (l : list string) : distinct l = true -> List.NoDup l.
Proof.
  induction l as [|k l IH]; intros H; [constructor|].
  cbn [distinct] in H. apply andb_true_iff in H as [Hk H]. apply negb_true_iff in Hk.
  constructor; [|now apply IH].
  intros Hin. exact (mem_false_neq k k l Hk Hin eq_refl).
Qed.

Lemma plain_tree_obj (self : XMLHandler) (props : list (string * value)) :
  plain_tree self (VObj props) = true ->
  props <> [] /\ List.NoDup (map fst props)
  /\ forall p, In p props -> plain_key self (fst p) = true /\ plain_tree self (snd p) = true.
Proof.
  cbn [plain_tree]. intros H. apply andb_true_iff in H as [H Hall].
  apply andb_true_iff in H as [Hne Hd].
  split; [now destruct props|]. split; [now apply distinct_NoDup|].
  intros p Hp. rewrite forallb_forall in Hall. now apply andb_true_iff, Hall.
Qed.

Lemma depth_child (props : list (string * value)) (p : string * value) (n : nat) :
  In p props -> (depth (VObj props) <= S n)%nat -> (depth (snd p) <= n)%nat.
Proof.
  cbn [depth]. intros Hp H. apply le_S_n in H.
  induction props as [|x props IH]; [destruct Hp|].
  change (list_max (map (fun p => depth (snd p)) (x :: props)))
    with (Nat.max (depth (snd x)) (list_max (map (fun p => depth (snd p)) props))) in H.
  destruct Hp as [->|Hp]; [lia|]. apply IH; [exact Hp|lia].
Qed.

Lemma own_in {A} (l : list (string * A)) (p : string * A) :
  List.NoDup (map fst l) -> In p l -> Js.own (fst p) l = Some (snd p).
Proof.
  induction l as [|[k v] l IH]; intros Hnd Hp; [destruct Hp|].
  cbn [map fst] in Hnd. apply List.NoDup_cons_iff in Hnd as [Hnotin Hnd].
  destruct Hp as [<-|Hp]; cbn [Js.own fst snd]; [now rewrite String.eqb_refl|].
  destruct (String.eqb_spec (fst p) k) as [Hk|_]; [|now apply IH].
  elim Hnotin. rewrite <- Hk. now apply in_map.
Qed.

Lemma plain_keys_in_order (self : XMLHandler) (props : list (string * value)) :
  (forall p, In p props -> plain_key self (fst p) = true) ->
  List.NoDup (map fst props) ->
  _sortKeys props [] = map fst props.
Proof.
  intros Hall Hnd. rewrite (sorted_keys_undeclared props [] Hnd) by (intros n []).
  unfold Js.keys. rewrite ordered_plain; [reflexivity|].
  intros p Hp. now destruct (plain_key_inv self (fst p) (Hall p Hp)) as (_ & _ & Hi & _).
Qed.

Section WriteTree.

Variable toISOString : value -> option string.
Variable self : XMLHandler.
Hypothesis Hunknown : ignoreUnknownProperties (opts self) = false.

Lemma ad_hoc_step (m : nat) (st : sstate) (node : xnode) (k : string) (v : value) :
  jsonToXml_fuel toISOString self (S m) st node (Some (Fresh (ad_hoc k))) v
  = element_branch toISOString self (jsonToXml_fuel toISOString self m) st node
      (Fresh (ad_hoc k)) (ad_hoc k) v.
Proof.
  cbn [jsonToXml_fuel deref ad_hoc new_ElementDescriptor d_kind d_isMany]. reflexivity.
Qed.

(** A text under an ad hoc descriptor. *)
Lemma ad_hoc_text (rec : rec_call) (st : sstate) (n : string) (a : list (string * string))
    (c : list xnode) (k s : string) :
  Str.contains ":" k = false ->
  Xml.legal s = true ->
  element_branch toISOString self rec st (XElement n a c) (Fresh (ad_hoc k)) (ad_hoc k)
    (VStr s)
  = Ok (st, XElement n a (c ++ [XElement k [] [XText s]])).
Proof.
  intros Hk Hlegal. unfold element_branch, ad_hoc, new_ElementDescriptor. cbn [d_qname].
  cbn [is_nullish typeof_object negb andb].
  unfold element_name. cbn [d_form].
  change (String.eqb "unqualified" "unqualified") with true. cbv beta iota. cbn [bind].
  unfold make_element. cbn [d_isSimple bind andb].
  unfold enforce_restrictions. cbn [d_type].
  replace (if enforceRestrictions (opts self) then VStr s else VStr s) with (VStr s)
    by now destruct (enforceRestrictions (opts self)).
  unfold toXmlDateOrTime. cbn [d_type bind d_isSimple d_isNillable is_nullish andb].
  unfold extend_elements. cbn [is_nullish vget typeof_object with_ds s_ds s_ns with_sns
    negb andb is_terminal bind deref d_type].
  rewrite (required_text_legal s Hlegal). cbn [bind Xml.add_child app].
  unfold pop_scope.
  cbn [s_ns NamespaceContext.pushContext NamespaceContext.popContext bind fst snd with_sns
       s_ds Xml.add_child QName.parse QName.name].
  rewrite (after_last_colon_plain k Hk). now destruct st.
Qed.

(** The properties of an object, each under an ad hoc descriptor of
    its own. *)
Lemma properties_written (rec : rec_call) (props : list (string * value))
    (st : sstate) (n : string) (a : list (string * string)) :
  List.NoDup (map fst props) ->
  forall l,
    (forall p, In p l ->
       In p props /\ plain_key self (fst p) = true /\ is_array (snd p) = false
       /\ forall c, rec st (XElement n a c) (Some (Fresh (ad_hoc (fst p)))) (snd p)
                    = Ok (st, XElement n a (c ++ [tree_node (fst p) (snd p)]))) ->
    forall c,
      foldM (property_step self rec props [] []) (map fst l) (st, XElement n a c)
      = Ok (st, XElement n a (c ++ map (fun p => tree_node (fst p) (snd p)) l)).
Proof.
  intros Hnd. induction l as [|p l IH]; intros Hall c.
  - cbn. now rewrite app_nil_r.
  - destruct (Hall p (or_introl eq_refl)) as (Hin & Hkey & Harr & Hrec).
    destruct (plain_key_inv self (fst p) Hkey) as (_ & Hproto & _ & Hattr & _).
    cbn [map foldM]. unfold property_step at 1.
    apply String.eqb_neq in Hattr. rewrite Hattr.
    rewrite (own_in props p Hnd Hin). unfold lookup_table. cbn [Js.own].
    rewrite Hproto, Hunknown, Harr. fold (ad_hoc (fst p)). rewrite Hrec. cbn [bind].
    rewrite IH by (intros x Hx; apply Hall; now right).
    now rewrite <- app_assoc.
Qed.

Lemma plain_tree_no_array (v : value) : plain_tree self v = true -> is_array v = false.
Proof. now destruct v. Qed.

(** An object under an ad hoc descriptor: an element that holds what
    its properties are written as. *)
Lemma ad_hoc_object (rec : rec_call) (st : sstate) (n : string) (a : list (string * string))
    (c : list xnode) (k : string) (props : list (string * value)) :
  Str.contains ":" k = false ->
  plain_tree self (VObj props) = true ->
  (forall p, In p props ->
     forall c', rec (with_sns (NamespaceContext.pushContext (s_ns st)) st)
                  (XElement k [] c') (Some (Fresh (ad_hoc (fst p)))) (snd p)
                = Ok (with_sns (NamespaceContext.pushContext (s_ns st)) st,
                      XElement k [] (c' ++ [tree_node (fst p) (snd p)]))) ->
  element_branch toISOString self rec st (XElement n a c) (Fresh (ad_hoc k)) (ad_hoc k)
    (VObj props)
  = Ok (st, XElement n a (c ++ [tree_node k (VObj props)])).
Proof.
  intros Hk Htree Hrec.
  destruct (plain_tree_obj self props Htree) as (Hne & Hnd & Hall).
  assert (Hno_attrs : Js.own (attributesKey (opts self)) props = None).
  { apply own_no_key. intros j Hj. apply in_map_iff in Hj as (p & <- & Hp).
    now destruct (plain_key_inv self (fst p) (proj1 (Hall p Hp))) as (_ & _ & _ & ? & _). }
  assert (Hno_value : Js.own (valueKey (opts self)) props = None).
  { apply own_no_key. intros j Hj. apply in_map_iff in Hj as (p & <- & Hp).
    now destruct (plain_key_inv self (fst p) (proj1 (Hall p Hp))) as (_ & _ & _ & _ & ?). }
  unfold element_branch, ad_hoc, new_ElementDescriptor. cbn [d_qname].
  cbn [is_nullish typeof_object negb andb vget]. rewrite Hno_attrs, Hno_value.
  cbn [is_undefined negb andb].
  unfold element_name. cbn [d_form].
  change (String.eqb "unqualified" "unqualified") with true. cbv beta iota. cbn [bind].
  unfold make_element. cbn [d_isSimple bind andb].
  unfold enforce_restrictions. cbn [d_type].
  replace (if enforceRestrictions (opts self) then VObj props else VObj props)
    with (VObj props) by now destruct (enforceRestrictions (opts self)).
  unfold toXmlDateOrTime. cbn [d_type bind d_isSimple d_isNillable is_nullish andb].
  unfold extend_elements. cbn [is_nullish vget]. rewrite Hno_attrs.
  cbn [typeof_object is_terminal negb andb bind].
  unfold mapObject. cbn [is_nullish is_terminal getXsiType negb andb bind deref s_ds with_ds
                         with_sns s_ns d_elements d_attributes table_of names_of].
  rewrite (plain_keys_in_order self props (fun p Hp => proj1 (Hall p Hp)) Hnd).
  unfold with_ds. cbn [s_ds s_ns].
  unfold QName.parse. cbn [QName.name]. rewrite (after_last_colon_plain k Hk).
  rewrite (properties_written rec props _ k [] Hnd props).
  - cbn [bind fst snd app]. unfold addAttributes.
    cbn [deref s_ds d_attributes table_of bind is_nullish negb andb].
    unfold pop_scope.
    cbn [s_ns NamespaceContext.pushContext NamespaceContext.popContext bind fst snd with_sns
         s_ds Xml.add_child tree_node].
    now destruct st.
  - intros p Hp. destruct (Hall p Hp) as (Hkey & Hsub).
    split; [exact Hp|]. split; [exact Hkey|].
    split; [now apply plain_tree_no_array|].
    intros c'. apply (Hrec p Hp).
Qed.

Lemma write_tree (n : nat) :
  forall v, (depth v <= n)%nat -> plain_tree self v = true ->
  forall k, Str.contains ":" k = false ->
  forall fuel st pn a c,
    jsonToXml_fuel toISOString self (S (n + fuel)) st (XElement pn a c)
      (Some (Fresh (ad_hoc k))) v
    = Ok (st, XElement pn a (c ++ [tree_node k v])).
Proof.
  induction n as [|n IH]; intros v Hdepth Htree k Hk fuel st pn a c;
    rewrite ad_hoc_step;
    destruct v as [| | | |s| | |props]; try discriminate.
  - cbn [plain_tree] in Htree. apply andb_true_iff in Htree as [_ Hlegal].
    now apply ad_hoc_text.
  - cbn [depth] in Hdepth. lia.
  - cbn [plain_tree] in Htree. apply andb_true_iff in Htree as [_ Hlegal].
    now apply ad_hoc_text.
  - apply ad_hoc_object; [exact Hk | exact Htree |].
    intros p Hp c'. destruct (plain_tree_obj self props Htree) as (_ & _ & Hall).
    destruct (Hall p Hp) as (Hkey & Hsub).
    destruct (plain_key_inv self (fst p) Hkey) as (Hc & _).
    apply (IH (snd p) (depth_child props p n Hp Hdepth) Hsub (fst p) Hc fuel).
Qed.

(** Without a descriptor, an object is written into a node as one
    element for each property. *)
Lemma object_written (ds : dstore) (props : list (string * value)) (fuel : nat)
    (pn : string) (a : list (string * string)) (c : list xnode) :
  plain_tree self (VObj props) = true ->
  jsonToXml toISOString self (S (depth (VObj props) + fuel)) ds (Some (XElement pn a c))
    None None (VObj props)
  = Ok ({| s_ds := ds; s_ns := NamespaceContext.empty |},
        XElement pn a (c ++ map (fun p => tree_node (fst p) (snd p)) props)).
Proof.
  intros Htree. destruct (plain_tree_obj self props Htree) as (Hne & Hnd & Hall).
  unfold jsonToXml. cbv beta iota.
  remember (list_max (map (fun p => depth (snd p)) props)) as m eqn:Hm.
  assert (Hstep : forall k st node,
            jsonToXml_fuel toISOString self (S k) st node None (VObj props)
            = mapObject toISOString self (jsonToXml_fuel toISOString self k) st node None
                (VObj props) VUndefined) by reflexivity.
  cbn [depth]. rewrite <- Hm. rewrite Hstep. clear Hstep.
  unfold mapObject. cbn [is_nullish is_terminal getXsiType negb andb bind typeof_object].
  rewrite (plain_keys_in_order self props (fun p Hp => proj1 (Hall p Hp)) Hnd).
  rewrite (properties_written (jsonToXml_fuel toISOString self (S m + fuel)) props _ pn a Hnd
             props).
  - cbn [bind fst snd]. unfold addAttributes. cbn [bind is_nullish negb andb]. reflexivity.
  - intros p Hp. destruct (Hall p Hp) as (Hkey & Hsub).
    destruct (plain_key_inv self (fst p) Hkey) as (Hc & _).
    split; [exact Hp|]. split; [exact Hkey|].
    split; [now apply plain_tree_no_array|].
    intros c'. apply (write_tree m (snd p)); [|exact Hsub|exact Hc].
    apply (depth_child props p m Hp). cbn [depth]. rewrite <- Hm. lia.
Qed.

End WriteTree.

(** *** The events of the tree *)

Lemma tree_node_events (self : XMLHandler) (n : nat) :
  forall v, (depth v <= n)%nat -> plain_tree self v = true ->
  forall k, Xml.events (tree_node k v) = Some (tree_events k v).
Proof.
  induction n as [|n IH]; intros v Hdepth Htree k;
    destruct v as [| | | |s| | |props]; try discriminate.
  - cbn [plain_tree] in Htree. apply andb_true_iff in Htree as [Htree _].
    destruct (trimmed_inv s Htree) as (Hne & _).
    cbn [tree_node Xml.events traverse option_map tree_events].
    apply String.eqb_neq in Hne. now rewrite Hne.
  - cbn [depth] in Hdepth. lia.
  - cbn [plain_tree] in Htree. apply andb_true_iff in Htree as [Htree _].
    destruct (trimmed_inv s Htree) as (Hne & _).
    cbn [tree_node Xml.events traverse option_map tree_events].
    apply String.eqb_neq in Hne. now rewrite Hne.
  - destruct (plain_tree_obj self props Htree) as (_ & _ & Hall).
    cbn [tree_node Xml.events tree_events].
    assert (Ht : traverse Xml.events (map (fun p => tree_node (fst p) (snd p)) props)
                 = Some (map (fun p => tree_events (fst p) (snd p)) props)).
    { assert (Hsub : forall p, In p props ->
                Xml.events (tree_node (fst p) (snd p)) = Some (tree_events (fst p) (snd p))).
      { intros p Hp. apply IH; [now apply (depth_child props p n Hp)|].
        now destruct (Hall p Hp). }
      clear -Hsub. induction props as [|p props IHl]; [reflexivity|].
      cbn [map traverse]. rewrite (Hsub p (or_introl eq_refl)).
      rewrite IHl by (intros x Hx; apply Hsub; now right). reflexivity. }
    rewrite Ht. cbn [option_map]. now rewrite <- flat_map_concat_map.
Qed.

Lemma coalesce_tree (self : XMLHandler) (n : nat) :
  forall v, (depth v <= n)%nat -> plain_tree self v = true ->
  forall k rest,
    Xml.coalesce (tree_events k v ++ rest) = tree_events k v ++ Xml.coalesce rest.
Proof.
  induction n as [|n IH]; intros v Hdepth Htree k rest;
    destruct v as [| | | |s| | |props]; try discriminate; try reflexivity.
  - cbn [depth] in Hdepth. lia.
  - destruct (plain_tree_obj self props Htree) as (_ & _ & Hall).
    assert (Hsub : forall p, In p props -> forall r,
              Xml.coalesce (tree_events (fst p) (snd p) ++ r)
              = tree_events (fst p) (snd p) ++ Xml.coalesce r).
    { intros p Hp r. apply IH; [now apply (depth_child props p n Hp)|].
      now destruct (Hall p Hp). }
    assert (Hl : forall r,
              Xml.coalesce (flat_map (fun p => tree_events (fst p) (snd p)) props ++ r)
              = flat_map (fun p => tree_events (fst p) (snd p)) props ++ Xml.coalesce r).
    { clear -Hsub. induction props as [|p props IHl]; intros r; [reflexivity|].
      cbn [flat_map]. rewrite <- !app_assoc. rewrite (Hsub p (or_introl eq_refl)).
      rewrite IHl by (intros x Hx; apply Hsub; now right). reflexivity. }
    cbn [tree_events app Xml.coalesce]. f_equal. rewrite <- !app_assoc. rewrite Hl.
    reflexivity.
Qed.

(** *** Reading the tree back *)

Lemma held_stable (lo hi a : nat) (h h' : heap) (jp : string * jsval) (vp : string * value) :
  (forall b, (lo <= b < hi)%nat -> b <> a -> h' !! b = h !! b) ->
  held lo hi a h jp vp -> held lo hi a h' jp vp.
Proof.
  intros Hsame (Hk & lo' & hi' & H1 & H2 & H3 & H4). split; [exact Hk|].
  exists lo', hi'. repeat split; try assumption.
  apply (within_stable _ lo' hi' h); [|exact H4].
  intros b Hb. apply Hsame; lia.
Qed.

Lemma held_wider (lo hi hi0 a : nat) (h : heap) (jp : string * jsval) (vp : string * value) :
  (hi <= hi0)%nat -> held lo hi a h jp vp -> held lo hi0 a h jp vp.
Proof.
  intros Hhi (Hk & lo' & hi' & H1 & H2 & H3 & H4). split; [exact Hk|].
  exists lo', hi'. repeat split; try assumption; lia.
Qed.

(** An object whose properties are held is within the range. *)
Lemma held_within (lo hi a : nat) (h : heap) (jprops : list (string * jsval))
    (props : list (string * value)) :
  (lo <= a < hi)%nat ->
  h !! a = Some (HObject jprops) ->
  Forall2 (held lo hi a h) jprops props ->
  within (S (hi - lo)) lo hi h (JRef a) (VObj props).
Proof.
  intros Ha Hj Hall. cbn [within]. split; [exact Ha|]. exists jprops. split; [exact Hj|].
  eapply Forall2_impl; [exact Hall|].
  intros jp vp (Hk & lo' & hi' & H1 & H2 & H3 & H4). split; [exact Hk|].
  exists lo', hi'. repeat split; try assumption.
  apply (within_more (S (hi' - lo'))); [lia|exact H4].
Qed.

Section ReadTree.

Variable self : XMLHandler.
Variable ds : dstore.
Variable nested : heap -> string -> result (heap * jsval).

(** What reading a tree under a key does, for the trees nested [n]
    deep at most. *)
Variable n : nat.
Hypothesis IHn :
  forall v, (depth v <= n)%nat -> plain_tree self v = true ->
  forall k, plain_key self k = true ->
  forall st top rest,
    p_stack st = top :: rest -> f_descriptor top = None ->
    exists ext j,
      within (S (List.length ext)) (List.length (p_heap st))
        (List.length (p_heap st) + List.length ext) (p_heap st ++ ext) j v
      /\ foldM (handle self ds nested) (tree_events k v) st
         = do (h, top') <-
             merge_child ds (p_heap st ++ ext) top
               {| f_name := Some k; f_object := j; f_descriptor := None; f_id := None |} k;
           Ok {| p_heap := h; p_stack := top' :: rest; p_refs := p_refs st;
                 p_ns := p_ns st |}.

Variables (h : heap) (a : nat) (fr : frame) (rest : list frame).
Variables (refs : list (string * ref)) (ns : NamespaceContext.t).
Hypothesis Hframe : f_object fr = JRef a.
Hypothesis Hdesc : f_descriptor fr = None.
Hypothesis Ha : (List.length h <= a)%nat.

(** The properties that follow the first one are added to the object
    of the frame, which stays where it is. *)
Lemma children_read (l : list (string * value)) :
  (forall p, In p l ->
     plain_key self (fst p) = true /\ plain_tree self (snd p) = true
     /\ (depth (snd p) <= n)%nat) ->
  List.NoDup (map fst l) ->
  forall E acc done,
    (h ++ E) !! a = Some (HObject acc) ->
    (forall p, In p l -> Js.own (fst p) acc = None) ->
    Forall2 (held (List.length h) (List.length (h ++ E)) a (h ++ E)) acc done ->
    exists E' acc',
      foldM (handle self ds nested) (flat_map (fun p => tree_events (fst p) (snd p)) l)
        {| p_heap := h ++ E; p_stack := fr :: rest; p_refs := refs; p_ns := ns |}
      = Ok {| p_heap := h ++ E'; p_stack := fr :: rest; p_refs := refs; p_ns := ns |}
      /\ (h ++ E') !! a = Some (HObject acc')
      /\ Forall2 (held (List.length h) (List.length (h ++ E')) a (h ++ E')) acc' (done ++ l).
Proof.
  induction l as [|p l IH]; intros Hall Hnd E acc done Hacc Hfresh Hheld.
  - exists E, acc. cbn [flat_map foldM]. rewrite app_nil_r. auto.
  - destruct (Hall p (or_introl eq_refl)) as (Hkey & Htree & Hdepth).
    destruct (plain_key_inv self (fst p) Hkey) as (Hcolon & Hproto & _).
    cbn [map fst] in Hnd. apply List.NoDup_cons_iff in Hnd as [Hnotin Hnd].
    assert (Hlt : (a < List.length (h ++ E))%nat) by (eapply lookup_lt_Some; exact Hacc).
    destruct (IHn (snd p) Hdepth Htree (fst p) Hkey
                {| p_heap := h ++ E; p_stack := fr :: rest; p_refs := refs; p_ns := ns |}
                fr rest eq_refl Hdesc) as (ext & j & Hw & Hrun).
    cbn [p_heap p_refs p_ns] in Hw, Hrun.
    cbn [flat_map]. rewrite foldM_app, Hrun.
    erewrite (merge_child_absent ds ((h ++ E) ++ ext)) with (a := a) (props := acc);
      [| exact Hframe | now apply lookup_app_l_Some
       | unfold Js.has, Js.has_own;
         now rewrite (Hfresh p (or_introl eq_refl)), Hproto].
    cbn [is_many frame_descriptor f_descriptor f_object bind].
    rewrite (set_absent (fst p) j acc (Hfresh p (or_introl eq_refl))).
    rewrite <- app_assoc.
    rewrite (insert_app_r_alt h (E ++ ext) a _ Ha).
    set (E1 := <[a - List.length h := HObject (acc ++ [(fst p, j)])]> (E ++ ext)).
    assert (Hlen : List.length (h ++ E1) = (List.length (h ++ E) + List.length ext)%nat).
    { unfold E1. rewrite !length_app, length_insert, length_app. lia. }
    assert (Hsame : forall b, b <> a -> (b < List.length (h ++ E))%nat ->
                      (h ++ E1) !! b = (h ++ E) !! b).
    { intros b Hb Hbl. unfold E1. rewrite <- (insert_app_r_alt h (E ++ ext) a _ Ha).
      rewrite list_lookup_insert_ne by congruence.
      rewrite app_assoc. now apply lookup_app_l. }
    assert (Hnew : forall b, b <> a -> (h ++ E1) !! b = ((h ++ E) ++ ext) !! b).
    { intros b Hb. unfold E1. rewrite <- (insert_app_r_alt h (E ++ ext) a _ Ha).
      rewrite list_lookup_insert_ne by congruence. now rewrite app_assoc. }
    destruct (IH (fun x Hx => Hall x (or_intror Hx)) Hnd E1 (acc ++ [(fst p, j)])
                (done ++ [p])) as (E' & acc' & Hrun' & Hacc' & Hheld').
    + unfold E1. rewrite <- (insert_app_r_alt h (E ++ ext) a _ Ha).
      apply list_lookup_insert_eq. rewrite app_assoc, length_app. lia.
    + intros x Hx. rewrite own_app, (Hfresh x (or_intror Hx)). cbn [Js.own].
      destruct (String.eqb_spec (fst x) (fst p)) as [Heq|]; [|reflexivity].
      elim Hnotin. rewrite <- Heq. now apply in_map.
    + apply Forall2_app.
      * eapply Forall2_impl; [exact Hheld|]. intros jp vp Hjv.
        apply (held_wider _ (List.length (h ++ E))); [lia|].
        apply (held_stable _ _ _ (h ++ E)); [|exact Hjv].
        intros b Hb Hba. apply Hsame; [exact Hba|lia].
      * constructor; [|constructor]. split; [reflexivity|].
        exists (List.length (h ++ E)), (List.length (h ++ E) + List.length ext)%nat.
        split; [rewrite length_app; lia|]. split; [lia|]. split; [lia|].
        replace (List.length (h ++ E) + List.length ext - List.length (h ++ E))%nat
          with (List.length ext) by lia.
        apply (within_stable _ _ _ ((h ++ E) ++ ext)); [|exact Hw].
        intros b Hb. apply Hnew. lia.
    + exists E', acc'. rewrite Hrun'. rewrite <- app_assoc in Hheld'. auto.
Qed.

End ReadTree.

Section ReadNode.

Variable self : XMLHandler.
Variable ds : dstore.
Variable nested : heap -> string -> result (heap * jsval).

Lemma read_text (s k : string) (st : pstate) (top : frame) (rest : list frame) :
  trimmed s = true ->
  plain_key self k = true ->
  p_stack st = top :: rest -> f_descriptor top = None ->
  exists ext j,
    within (S (List.length ext)) (List.length (p_heap st))
      (List.length (p_heap st) + List.length ext) (p_heap st ++ ext) j (VStr s)
    /\ foldM (handle self ds nested) (tree_events k (VStr s)) st
       = do (h, top') <-
           merge_child ds (p_heap st ++ ext) top
             {| f_name := Some k; f_object := j; f_descriptor := None; f_id := None |} k;
         Ok {| p_heap := h; p_stack := top' :: rest; p_refs := p_refs st; p_ns := p_ns st |}.
Proof.
  intros Hs Hkey Hstack Htop. destruct (trimmed_inv s Hs) as (Hne & Htrim).
  destruct (plain_key_inv self k Hkey) as (Hcolon & _).
  exists [], (JStr s). split; [reflexivity|]. rewrite app_nil_r.
  now apply field_read.
Qed.

Lemma read_tree (n : nat) :
  forall v, (depth v <= n)%nat -> plain_tree self v = true ->
  forall k, plain_key self k = true ->
  forall st top rest,
    p_stack st = top :: rest -> f_descriptor top = None ->
    exists ext j,
      within (S (List.length ext)) (List.length (p_heap st))
        (List.length (p_heap st) + List.length ext) (p_heap st ++ ext) j v
      /\ foldM (handle self ds nested) (tree_events k v) st
         = do (h, top') <-
             merge_child ds (p_heap st ++ ext) top
               {| f_name := Some k; f_object := j; f_descriptor := None; f_id := None |} k;
           Ok {| p_heap := h; p_stack := top' :: rest; p_refs := p_refs st;
                 p_ns := p_ns st |}.
Proof.
  induction n as [|n IH]; intros v Hdepth Htree k Hkey st top rest Hstack Htop;
    destruct v as [| | | |s| | |props]; try discriminate.
  - cbn [plain_tree] in Htree. apply andb_true_iff in Htree as [Htree _].
    now apply read_text.
  - cbn [depth] in Hdepth. lia.
  - cbn [plain_tree] in Htree. apply andb_true_iff in Htree as [Htree _].
    now apply read_text.
  - destruct (plain_tree_obj self props Htree) as (Hne & Hnd & Hall).
    destruct (plain_key_inv self k Hkey) as (Hcolon & _).
    destruct props as [|p l]; [now elim Hne|]. clear Hne.
    destruct (Hall p (or_introl eq_refl)) as (Hpkey & Hptree).
    destruct (plain_key_inv self (fst p) Hpkey) as (Hpcolon & Hpproto & _).
    cbn [map fst] in Hnd. apply List.NoDup_cons_iff in Hnd as [Hnotin Hnd].
    set (h := p_heap st).
    set (F0 := {| f_name := Some k; f_object := JUndefined; f_descriptor := None;
                  f_id := None |}).
    set (st1 := {| p_heap := h; p_stack := F0 :: p_stack st; p_refs := p_refs st;
                   p_ns := scope_of st [] |}).
    assert (Hopen : onopentag self ds st k [] = Ok st1).
    { rewrite (onopentag_uncollected self ds st k [] top rest Hstack);
        [|intros x []|reflexivity|reflexivity].
      unfold QName.parse. cbn [QName.name]. rewrite (after_last_colon_plain k Hcolon).
      unfold frame_descriptor. rewrite Htop. reflexivity. }
    destruct (IH (snd p) (depth_child (p :: l) p n (or_introl eq_refl) Hdepth) Hptree
                (fst p) Hpkey st1 F0 (p_stack st) eq_refl eq_refl)
      as (ext1 & j1 & Hw1 & Hrun1).
    cbn [p_heap p_refs p_ns st1] in Hw1, Hrun1.
    set (a := List.length (h ++ ext1)).
    set (F1 := {| f_name := Some k; f_object := JRef a; f_descriptor := None;
                  f_id := None |}).
    assert (Hfirst :
      merge_child ds (h ++ ext1) F0
        {| f_name := Some (fst p); f_object := j1; f_descriptor := None; f_id := None |}
        (fst p)
      = Ok (h ++ (ext1 ++ [HObject [(fst p, j1)]]), F1)).
    { rewrite merge_child_undefined by reflexivity.
      erewrite (merge_child_absent ds) with (a := a) (props := []);
        [| reflexivity | now apply list_lookup_middle
         | unfold Js.has; now rewrite Hpproto].
      cbn [is_many frame_descriptor f_descriptor f_object bind Js.set].
      unfold a. rewrite insert_last. now rewrite <- app_assoc. }
    destruct (children_read self ds nested n IH h a F1 (top :: rest) (p_refs st)
                (scope_of st []) eq_refl eq_refl
                ltac:(unfold a; rewrite length_app; lia) l
                (fun x Hx => conj (proj1 (Hall x (or_intror Hx)))
                               (conj (proj2 (Hall x (or_intror Hx)))
                                     (depth_child (p :: l) x n (or_intror Hx) Hdepth)))
                Hnd (ext1 ++ [HObject [(fst p, j1)]]) [(fst p, j1)] [p])
      as (E' & acc' & Hrun' & Hacc' & Hheld').
    + rewrite app_assoc. now apply list_lookup_middle.
    + intros x Hx. cbn [Js.own].
      destruct (String.eqb_spec (fst x) (fst p)) as [Heq|]; [|reflexivity].
      elim Hnotin. rewrite <- Heq. now apply in_map.
    + constructor; [|constructor]. split; [reflexivity|].
      exists (List.length h), a. split; [lia|].
      split; [unfold a; rewrite !length_app; cbn [List.length]; lia|].
      split; [lia|].
      replace (a - List.length h)%nat with (List.length ext1)
        by (unfold a; rewrite length_app; lia).
      replace a with (List.length h + List.length ext1)%nat
        by (unfold a; now rewrite length_app).
      apply (within_stable _ _ _ (h ++ ext1)); [|exact Hw1].
      intros b Hb. rewrite app_assoc. apply lookup_app_l. rewrite length_app. lia.
    + assert (Hlt : (a < List.length (h ++ E'))%nat) by (eapply lookup_lt_Some; exact Hacc').
      exists E', (JRef a). split.
      * replace (S (List.length E'))
          with (S (List.length h + List.length E' - List.length h)) by lia.
        apply (held_within _ _ a _ acc'); [| exact Hacc' |].
        -- rewrite length_app in Hlt. unfold a. rewrite length_app. unfold a in Hlt.
           rewrite length_app in Hlt. lia.
        -- now rewrite <- length_app.
      * cbn [tree_events foldM handle]. rewrite Hopen. cbn [bind].
        cbn [flat_map]. rewrite <- app_assoc, foldM_app.
        fold h in Hrun1. rewrite Hrun1, Hfirst. cbn [bind].
        rewrite foldM_app. rewrite Hstack.
        rewrite Hrun'. cbn [bind foldM handle].
        unfold onclosetag. cbn [p_ns p_stack p_heap p_refs f_id F1].
        rewrite popContext_scope_of. unfold QName.parse. cbn [QName.name].
        rewrite (after_last_colon_plain k Hcolon).
        destruct (merge_child ds (h ++ E') top _ k) as [[h' top']|e]; reflexivity.
Qed.

End ReadNode.



Open Scope list_scope.

(** ** A boolean, written and read with its descriptor *)

Section Boolean.

Variable toISOString : value -> option string.
Variable self : XMLHandler.
Variable nested : heap -> string -> result (heap * jsval).
Variable ds : dstore.
Hypothesis Hrestr : enforceRestrictions (opts self) = false.

Variables (r : did) (d : descriptor) (q : QName.t).
Hypothesis Hd : ds !! r = Some d.
Hypothesis Hkind : d_kind d = ElementDescriptor.
Hypothesis Hq : d_qname d = Some q.
Hypothesis Hsimple : d_isSimple d = true.
Hypothesis Hform : d_form d = "unqualified".
Hypothesis Hkeeps : keeps_text d = true.
Hypothesis Hcolon : Str.contains ":" (QName.name q) = false.
Hypothesis Hproto : Js.mem (QName.name q) Js.prototype_members = false.
Hypothesis Henv : QName.name q <> "Envelope".

Lemma boolean_written (fuel : nat) (b : bool) :
  jsonToXml toISOString self (S fuel) ds None None (Some (Stored r)) (VBool b)
  = Ok ({| s_ds := ds; s_ns := NamespaceContext.empty |},
        XDocument [XElement (QName.name q) [] [XText (if b then "true" else "false")]]).
Proof.
  unfold jsonToXml. cbv beta iota.
  cbn [jsonToXml_fuel deref s_ds]. rewrite Hd, Hkind.
  replace (match d_isMany d with
           | true => element_branch toISOString self (jsonToXml_fuel toISOString self fuel)
                       {| s_ds := ds; s_ns := NamespaceContext.empty |} (XDocument []) (Stored r) d (VBool b)
           | false => element_branch toISOString self (jsonToXml_fuel toISOString self fuel)
                       {| s_ds := ds; s_ns := NamespaceContext.empty |} (XDocument []) (Stored r) d (VBool b)
           end)
    with (element_branch toISOString self (jsonToXml_fuel toISOString self fuel)
            {| s_ds := ds; s_ns := NamespaceContext.empty |} (XDocument []) (Stored r) d (VBool b))
    by now destruct (d_isMany d).
  unfold element_branch. rewrite Hq.
  cbn [is_nullish typeof_object negb andb].
  unfold element_name. rewrite Hform.
  change (String.eqb "unqualified" "unqualified") with true. cbv beta iota. cbn [bind].
  unfold make_element. rewrite Hsimple. cbn [cdata_test bind andb is_nullish negb vget
    is_undefined].
  rewrite (enforce_off self Hrestr), (keeps_text_ok toISOString d _ Hkeeps).
  cbn [bind Xml.element Xml.scalar_text is_nullish andb].
  unfold pop_scope. cbn [s_ns with_sns NamespaceContext.pushContext
    NamespaceContext.popContext s_ds bind Xml.add_child app fst snd].
  now destruct b.
Qed.

(** The element is read under a descriptor [c] that finds [r] for its
    name. *)
Variables (c : did) (dc : descriptor).
Hypothesis Hc : ds !! c = Some dc.
Hypothesis Hfind : findElement ds dc (QName.name q) = Some r.
Hypothesis Hjs : d_jsType d = Some JsBoolean.

Lemma boolean_read (b : bool) :
  tree_of (xmlToJson_events self ds nested [] None
             [OpenTag (QName.name q) []; Text (if b then "true" else "false");
              CloseTag (QName.name q)] (Some c))
  = Some (VObj [(QName.name q, if d_isMany d then VArr [VBool b] else VBool b)]).
Proof.
  unfold xmlToJson_events. cbn [foldM handle].
  rewrite (onopentag_uncollected self ds (initial [] None (Some c)) (QName.name q) []
             (root_frame [] (Some c)) [] eq_refl);
    [|intros a []|reflexivity|reflexivity].
  cbn [bind]. unfold QName.parse. cbn [QName.name].
  rewrite (after_last_colon_plain (QName.name q) Hcolon).
  unfold frame_descriptor at 1. cbn [root_frame f_descriptor]. rewrite Hc, Hfind.
  cbn [Js.keys Js.ordered existsb map fold_left app List.filter].
  unfold ontext.
  replace (Str.trim (if b then "true" else "false")) with (if b then "true" else "false")
    by now destruct b.
  replace (String.length (if b then "true" else "false") =? 0)%nat with false
    by now destruct b.
  cbn [p_stack p_heap frame_descriptor f_descriptor]. rewrite Hd.
  unfold parseValue. rewrite Hjs.
  replace (if String.eqb (if b then "true" else "false") "true"
              || String.eqb (if b then "true" else "false") "1"
           then JBool true else JBool false)
    with (JBool b) by now destruct b.
  cbn [_processText f_object bind with_object f_name f_id f_descriptor].
  unfold with_stack, with_heap. cbn [p_heap p_stack p_refs p_ns bind].
  unfold onclosetag. cbn [p_ns p_stack p_heap p_refs f_id].
  rewrite popContext_scope_of. unfold QName.parse. cbn [QName.name].
  rewrite (after_last_colon_plain (QName.name q) Hcolon).
  cbn [initial p_stack p_heap p_refs p_ns app].
  erewrite (merge_child_absent ds) with (a := 0%nat) (props := []);
    [| reflexivity | reflexivity | unfold Js.has; now rewrite Hproto].
  unfold is_many, frame_descriptor, with_object. cbn [f_descriptor f_object f_name f_id].
  rewrite Hd.
  destruct (d_isMany d).
  - cbn [bind Js.set insert list_insert app List.length p_heap p_refs].
    unfold finish. cbn -[String.eqb reify].
    replace (String.eqb "Envelope" (QName.name q)) with false
      by (symmetry; apply String.eqb_neq; congruence).
    reflexivity.
  - cbn [bind Js.set insert list_insert app List.length p_heap p_refs].
    unfold finish. cbn -[String.eqb reify].
    replace (String.eqb "Envelope" (QName.name q)) with false
      by (symmetry; apply String.eqb_neq; congruence).
    reflexivity.
Qed.

End Boolean.

(** Without a descriptor, the text of an element stays a text. *)
Lemma text_read (self : XMLHandler) (ds : dstore)
    (nested : heap -> string -> result (heap * jsval)) (name t : string) :
  Str.contains ":" name = false ->
  Js.mem name Js.prototype_members = false ->
  name <> "Envelope" ->
  Str.trim t = t -> t <> "" ->
  tree_of (xmlToJson_events self ds nested [] None
             [OpenTag name []; Text t; CloseTag name] None)
  = Some (VObj [(name, VStr t)]).
Proof.
  intros Hcolon Hproto Henv Htrim Hne. unfold xmlToJson_events.
  erewrite (field_read self ds nested _ _ _ name t);
    [| reflexivity | reflexivity | exact Htrim | exact Hne | exact Hcolon].
  cbn [initial p_stack p_heap p_refs p_ns app].
  erewrite (merge_child_absent ds) with (a := 0%nat) (props := []);
    [| reflexivity | reflexivity | unfold Js.has; now rewrite Hproto].
  cbn [is_many frame_descriptor f_descriptor f_object bind Js.set insert list_insert
       p_heap p_refs].
  unfold finish. cbn -[String.eqb reify].
  replace (String.eqb "Envelope" name) with false
    by (symmetry; apply String.eqb_neq; congruence).
  reflexivity.
Qed.



Open Scope list_scope.

(** ** The type of an element, given under the type key *)

Lemma before_last_colon_plain (n : string) :
  Str.contains ":" n = false -> Str.before_last_colon n = "".
Proof.
  destruct n as [|c n]; [reflexivity|]. intros H.
  change (String.prefix ":" (String c n) || Str.contains ":" n = false) in H.
  apply orb_false_iff in H as [_ Hn].
  change (Str.before_last_colon (String c n))
    with (if Str.contains ":" n then String c (Str.before_last_colon n) else "").
  now rewrite Hn.
Qed.

Lemma before_last_colon_prefixed (p n : string) :
  Str.contains ":" p = false -> Str.contains ":" n = false ->
  Str.before_last_colon (p ++ ":" ++ n)%string = p.
Proof.
  intros Hp Hn. induction p as [|c p IH].
  - cbn. now rewrite Hn.
  - change (String.prefix ":" (String c p) || Str.contains ":" p = false) in Hp.
    apply orb_false_iff in Hp as [_ Hp].
    change (Str.before_last_colon (String c p ++ ":" ++ n)%string)
      with (if Str.contains ":" (p ++ ":" ++ n)%string
            then String c (Str.before_last_colon (p ++ ":" ++ n)%string) else "").
    rewrite (contains_colon_append p n Hn). now rewrite (IH Hp).
Qed.

Section WriteType.

Variable toISOString : value -> option string.
Variable self : XMLHandler.
Variables (T U : string).
Hypothesis HT : Str.contains ":" T = false.
Hypothesis HU : U <> helper.xsi.
Hypothesis HU' : U <> "".

(** The entry under the type key declares the namespace of XML Schema
    instances and the namespace of the type, under a prefix made for it,
    and sets the type attribute. *)
Lemma type_written (rec : rec_call) (ds : dstore) (n : string) (c : list xnode) :
  attribute_step self rec [] ({| s_ds := ds; s_ns := [[]; []] |}, XElement n [] c)
    (xsiTypeKey (opts self), type_entry T U)
  = Ok ({| s_ds := ds;
           s_ns := [[ {| NamespaceContext.prefix := "ns1"; NamespaceContext.uri := U;
                         NamespaceContext.declared := true |};
                      {| NamespaceContext.prefix := "xsi"; NamespaceContext.uri := helper.xsi;
                         NamespaceContext.declared := true |} ]; []] |},
        XElement n (type_attributes "ns1" T U) c).
Proof.
  unfold attribute_step. rewrite String.eqb_refl.
  unfold type_entry, xsi_qname. cbn [Js.own String.eqb Ascii.eqb Bool.eqb].
  apply String.eqb_neq in HU'. rewrite HU'. cbn [bind].
  unfold declare_on at 1. unfold declareNamespace, NamespaceContext.declareNamespace,
    NamespaceContext.getPrefixMapping.
  cbn [NamespaceContext.resolve s_ns NamespaceContext.find_uri List.find bind
       Xml.has_attribute Xml.attribute Js.set with_sns s_ds].
  change (String.eqb "xsi" "") with false. cbv beta iota.
  cbn [NamespaceContext.prefix NamespaceContext.uri append].
  unfold QName.parse. cbn [QName.prefix QName.nsURI QName.name].
  rewrite (before_last_colon_plain T HT), (after_last_colon_plain T HT).
  unfold declare_on, declareNamespace, NamespaceContext.declareNamespace,
    NamespaceContext.getPrefixMapping.
  cbn [NamespaceContext.resolve s_ns NamespaceContext.find_uri List.find with_sns s_ds
       NamespaceContext.uri].
  replace (String.eqb helper.xsi U) with false
    by (symmetry; apply String.eqb_neq; congruence).
  change (String.eqb "" "") with true. cbv beta iota.
  change (NamespaceContext.generatePrefix
            [[{| NamespaceContext.prefix := "xsi"; NamespaceContext.uri := helper.xsi;
                 NamespaceContext.declared := true |}]; []])
    with "ns1".
  cbn [bind Xml.has_attribute Xml.attribute NamespaceContext.prefix NamespaceContext.uri
       with_sns s_ds s_ns].
  unfold prefixed. change (String.eqb "ns1" "") with false. cbv beta iota.
  reflexivity.
Qed.

Lemma ordered_single {A} (k : string) (v : A) : Js.ordered [(k, v)] = [(k, v)].
Proof. unfold Js.ordered. cbn. now destruct (Js.index_value k). Qed.

Variable ds : dstore.
Hypothesis Hrestr : enforceRestrictions (opts self) = false.
Variables (r : did) (d : descriptor) (q : QName.t).
Hypothesis Hd : ds !! r = Some d.
Hypothesis Hkind : d_kind d = ElementDescriptor.
Hypothesis Hq : d_qname d = Some q.
Hypothesis Hsimple : d_isSimple d = true.
Hypothesis Hform : d_form d = "unqualified".
Hypothesis Hnone : d_attributes d = [].
Hypothesis Hkeeps : keeps_text d = true.

Variables (props : list (string * value)) (t : string).
Hypothesis Hattrs :
  Js.own (attributesKey (opts self)) props
  = Some (VObj [(xsiTypeKey (opts self), type_entry T U)]).
Hypothesis Hvalue : Js.own (valueKey (opts self)) props = Some (VStr t).
Hypothesis Hcd : Str.has_cdata_marker t = false.
Hypothesis Hlegal : Xml.legal t = true.

Lemma typed_element_written (fuel : nat) :
  jsonToXml toISOString self (S fuel) ds None None (Some (Stored r)) (VObj props)
  = Ok ({| s_ds := ds; s_ns := NamespaceContext.empty |},
        XDocument [XElement (QName.name q) (type_attributes "ns1" T U) [XText t]]).
Proof.
  unfold jsonToXml. cbv beta iota.
  cbn [jsonToXml_fuel deref s_ds]. rewrite Hd, Hkind.
  replace (match d_isMany d with
           | true => element_branch toISOString self (jsonToXml_fuel toISOString self fuel)
                       {| s_ds := ds; s_ns := NamespaceContext.empty |} (XDocument []) (Stored r) d (VObj props)
           | false => element_branch toISOString self (jsonToXml_fuel toISOString self fuel)
                       {| s_ds := ds; s_ns := NamespaceContext.empty |} (XDocument []) (Stored r) d (VObj props)
           end)
    with (element_branch toISOString self (jsonToXml_fuel toISOString self fuel)
            {| s_ds := ds; s_ns := NamespaceContext.empty |} (XDocument []) (Stored r) d (VObj props))
    by now destruct (d_isMany d).
  unfold element_branch. rewrite Hq.
  cbn [is_nullish typeof_object negb andb vget]. rewrite Hattrs, Hvalue.
  cbn [is_undefined negb andb].
  unfold element_name. rewrite Hform.
  change (String.eqb "unqualified" "unqualified") with true. cbv beta iota. cbn [bind].
  unfold make_element. rewrite Hsimple. cbn [cdata_test bind]. rewrite Hcd.
  cbn [andb is_nullish negb vget is_undefined].
  rewrite (enforce_off self Hrestr), (keeps_text_ok toISOString d _ Hkeeps).
  cbn [bind]. rewrite (element_legal _ t Hlegal).
  cbn [bind is_nullish andb typeof_object negb].
  unfold addAttributes. cbn [deref s_ds with_sns]. rewrite Hd, Hnone.
  cbn [table_of bind is_nullish typeof_object negb andb entries].
  rewrite ordered_single. cbn [foldM s_ns NamespaceContext.pushContext].
  change (with_sns (NamespaceContext.pushContext NamespaceContext.empty)
            {| s_ds := ds; s_ns := NamespaceContext.empty |})
    with {| s_ds := ds; s_ns := [[]; []] |}.
  rewrite type_written. cbn [bind fst snd]. unfold pop_scope.
  cbn [s_ns with_sns NamespaceContext.popContext s_ds bind Xml.add_child app].
  reflexivity.
Qed.

End WriteType.

(** *** Reading the type back *)

Section ReadType.

Variable self : XMLHandler.
Variable ds : dstore.
Variable nested : heap -> string -> result (heap * jsval).
Variables (T U : string).
Hypothesis HT : Str.contains ":" T = false.
Hypothesis Hkeys : plain_keys self = true.
Hypothesis Hxk : Js.mem (xsiTypeKey (opts self)) Js.prototype_members = false.

Variable name : string.
Hypothesis Hcolon : Str.contains ":" name = false.
Hypothesis Hproto : Js.mem name Js.prototype_members = false.
Hypothesis Henv : name <> "Envelope".

Lemma typed_attr_loop (d : option descriptor) :
  foldM (attr_step self
           [[ {| NamespaceContext.prefix := "ns1"; NamespaceContext.uri := U;
                 NamespaceContext.declared := false |};
              {| NamespaceContext.prefix := "xsi"; NamespaceContext.uri := helper.xsi;
                 NamespaceContext.declared := false |} ]; []] d)
    ["xmlns:xsi"; "xmlns:ns1"; "xsi:type"]
    {| al_heap := [HObject []]; al_attrs := type_attributes "ns1" T U; al_obj := JUndefined;
       al_elementAttributes := None |}
  = Ok {| al_heap := [HObject []; HObject [(xsiTypeKey (opts self), JRef 2)];
                      HObject [("type", JStr T); ("xmlns", JStr U)]];
          al_attrs := [("xmlns:xsi", helper.xsi); ("xmlns:ns1", U); ("xsi:type", T)];
          al_obj := JUndefined;
          al_elementAttributes := Some 1%nat |}.
Proof.
  cbn [foldM].
  change (attr_step self _ d _ "xmlns:xsi") with
    (Ok {| al_heap := [HObject []]; al_attrs := type_attributes "ns1" T U; al_obj := JUndefined;
           al_elementAttributes := None |}).
  cbn [bind].
  change (attr_step self _ d _ "xmlns:ns1") with
    (Ok {| al_heap := [HObject []]; al_attrs := type_attributes "ns1" T U; al_obj := JUndefined;
           al_elementAttributes := None |}).
  cbn [bind].
  unfold attr_step. change (Str.is_xmlns "xsi:type") with false. cbv beta iota.
  change (QName.parse "xsi:type" None)
    with {| QName.nsURI := ""; QName.name := "type"; QName.prefix := "xsi" |}.
  cbn [QName.prefix QName.name al_attrs al_heap al_obj al_elementAttributes].
  change (NamespaceContext.getNamespaceURI "xsi" _) with (Some helper.xsi).
  change (String.eqb helper.xsi helper.xsi) with true.
  change (String.eqb "type" "nil") with false.
  change (String.eqb "type" "type") with true.
  cbn [andb]. cbv beta iota.
  change (Js.own "xsi:type" (type_attributes "ns1" T U)) with (Some ("ns1:" ++ T)%string).
  cbv beta iota.
  unfold QName.parse. cbn [QName.prefix QName.name].
  change ("ns1:" ++ T)%string with ("ns1" ++ ":" ++ T)%string.
  rewrite (after_last_colon_prefixed "ns1" T HT).
  rewrite (before_last_colon_prefixed "ns1" T eq_refl HT).
  change (String.eqb "ns1" "") with false. cbn [negb andb].
  change (NamespaceContext.getNamespaceURI "ns1" _) with (Some U).
  cbv beta iota.
  change (Js.set "xsi:type" T (type_attributes "ns1" T U))
    with [("xmlns:xsi", helper.xsi); ("xmlns:ns1", U); ("xsi:type", T)].
  change (Js.own "xsi:type" [("xmlns:xsi", helper.xsi); ("xmlns:ns1", U); ("xsi:type", T)])
    with (Some T).
  cbv beta iota. cbn [app List.length].
  rewrite (heap_set_ok [HObject []; HObject []; HObject [("type", JStr T); ("xmlns", JStr U)]]
             1 _ _ [] eq_refl
             (mem_false_neq _ "__proto__" _ Hxk ltac:(vm_compute; tauto))).
  reflexivity.
Qed.

Variable t : string.
Hypothesis Htrim : Str.trim t = t.
Hypothesis Ht : t <> "".

(** The type attribute is read as the entry of the type under the type
    key: the local name of the type, and the namespace its prefix is
    bound to. *)
Lemma typed_read :
  tree_of (xmlToJson_events self ds nested [] None
             [OpenTag name (type_attributes "ns1" T U); Text t; CloseTag name] None)
  = Some (VObj [(name,
                 VObj [(attributesKey (opts self),
                        VObj [(xsiTypeKey (opts self), type_entry T U)]);
                       (valueKey (opts self), VStr t)])]).
Proof.
  destruct (plain_keys_inv self Hkeys) as (Hak & Hvk & Hdiff).
  unfold xmlToJson_events. cbn [foldM handle].
  unfold onopentag. cbn [initial p_stack p_heap p_ns p_refs frame_descriptor f_descriptor app].
  change (Js.keys (type_attributes "ns1" T U)) with ["xmlns:xsi"; "xmlns:ns1"; "xsi:type"].
  change (register_namespaces (type_attributes "ns1" T U)
            (NamespaceContext.pushContext NamespaceContext.empty))
    with [[ {| NamespaceContext.prefix := "ns1"; NamespaceContext.uri := U;
               NamespaceContext.declared := false |};
            {| NamespaceContext.prefix := "xsi"; NamespaceContext.uri := helper.xsi;
               NamespaceContext.declared := false |} ]; []].
  rewrite typed_attr_loop.
  cbn [bind al_elementAttributes al_heap al_attrs al_obj List.length app].
  rewrite (heap_set_ok [HObject []; HObject [(xsiTypeKey (opts self), JRef 2)];
                        HObject [("type", JStr T); ("xmlns", JStr U)]; HObject []]
             3 _ _ [] eq_refl
             (mem_false_neq _ "__proto__" _ Hak ltac:(vm_compute; tauto))).
  cbn [bind Js.set insert list_insert Js.own String.eqb Ascii.eqb Bool.eqb].
  unfold QName.parse. cbn [QName.name]. rewrite (after_last_colon_plain name Hcolon).
  unfold ontext. rewrite Htrim.
  replace (String.length t =? 0)%nat with false
    by (symmetry; apply Nat.eqb_neq; destruct t; [now elim Ht | discriminate]).
  cbn [p_stack p_heap frame_descriptor f_descriptor parseValue].
  unfold _processText. cbn [f_object lookup list_lookup].
  assert (Hc : Js.has_own "constructor" [(attributesKey (opts self), JRef 1)] = false).
  { unfold Js.has_own. cbn [Js.own].
    replace (String.eqb "constructor" (attributesKey (opts self))) with false; [reflexivity|].
    symmetry. apply String.eqb_neq. intros E.
    apply (mem_false_neq _ "constructor" _ Hak); [vm_compute; tauto | now symmetry]. }
  rewrite Hc.
  assert (Hg : Js.get (valueKey (opts self)) [(attributesKey (opts self), JRef 1)]
               = JUndefined).
  { unfold Js.get. cbn [Js.own].
    replace (String.eqb (valueKey (opts self)) (attributesKey (opts self))) with false
      by (symmetry; apply String.eqb_neq; congruence).
    now rewrite Hvk. }
  rewrite Hg.
  rewrite (heap_set_ok [HObject []; HObject [(xsiTypeKey (opts self), JRef 2)];
                        HObject [("type", JStr T); ("xmlns", JStr U)];
                        HObject [(attributesKey (opts self), JRef 1)]]
             3 _ _ [(attributesKey (opts self), JRef 1)] eq_refl
             (mem_false_neq _ "__proto__" _ Hvk ltac:(vm_compute; tauto))).
  rewrite (set_absent (valueKey (opts self)) (JStr t) [(attributesKey (opts self), JRef 1)])
    by (cbn [Js.own];
        replace (String.eqb (valueKey (opts self)) (attributesKey (opts self))) with false
          by (symmetry; apply String.eqb_neq; congruence);
        reflexivity).
  cbn [bind app insert list_insert]. unfold with_stack, with_heap.
  cbn [p_heap p_stack p_refs p_ns].
  unfold onclosetag. cbn [p_ns p_stack p_heap p_refs f_id NamespaceContext.popContext].
  unfold QName.parse. cbn [QName.name]. rewrite (after_last_colon_plain name Hcolon).
  erewrite (merge_child_absent ds) with (a := 0%nat) (props := []);
    [| reflexivity | reflexivity | unfold Js.has; now rewrite Hproto].
  cbn [is_many frame_descriptor f_descriptor f_object bind Js.set insert list_insert
       p_heap p_refs].
  unfold finish. cbn -[String.eqb reify].
  replace (String.eqb "Envelope" name) with false
    by (symmetry; apply String.eqb_neq; congruence).
  reflexivity.
Qed.

End ReadType.



Open Scope list_scope.

(** ** The type under the type key selects the descriptor (lines 231-258 and 296-297) *)

Section Subtype.

Variable toISOString : value -> option string.
Variable self : XMLHandler.
Variable ds : dstore.
Hypothesis Hrestr : enforceRestrictions (opts self) = false.
Hypothesis Hignore : ignoreUnknownProperties (opts self) = true.

Variables (r : did) (d : descriptor) (q : QName.t).
Hypothesis Hd : ds !! r = Some d.
Hypothesis Hkind : d_kind d = ElementDescriptor.
Hypothesis Hq : d_qname d = Some q.
Hypothesis Hcomplex : d_isSimple d = false.
Hypothesis Hform : d_form d = "unqualified".
Hypothesis Hkeeps : keeps_text d = true.
Hypothesis Helements : d_elements d = [].
Hypothesis Hattributes : d_attributes d = [].

Variables (k s : string).
Hypothesis Hkproto : Js.mem k Js.prototype_members = false.
Hypothesis Hkattr : k <> attributesKey (opts self).
Hypothesis Hkvalue : k <> valueKey (opts self).
Hypothesis Hkindex : Js.index_value k = None.

(** Without a type, the property is unknown to the descriptor and left
    out. *)
Lemma unknown_left_out (fuel : nat) :
  jsonToXml toISOString self (S (S fuel)) ds None None (Some (Stored r)) (VObj [(k, VStr s)])
  = Ok ({| s_ds := ds; s_ns := NamespaceContext.empty |}, XDocument [XElement (QName.name q) [] []]).
Proof.
  unfold jsonToXml. cbv beta iota.
  assert (Hstep : forall m, m = S fuel ->
            jsonToXml_fuel toISOString self (S m) {| s_ds := ds; s_ns := NamespaceContext.empty |} (XDocument [])
              (Some (Stored r)) (VObj [(k, VStr s)])
            = element_branch toISOString self (jsonToXml_fuel toISOString self m)
                {| s_ds := ds; s_ns := NamespaceContext.empty |} (XDocument []) (Stored r) d
                (VObj [(k, VStr s)])).
  { intros m _. cbn [jsonToXml_fuel deref s_ds]. rewrite Hd, Hkind.
    now destruct (d_isMany d). }
  rewrite (Hstep (S fuel) eq_refl). clear Hstep.
  assert (Hna : Js.own (attributesKey (opts self)) [(k, VStr s)] = None).
  { cbn [Js.own]. replace (String.eqb (attributesKey (opts self)) k) with false; [reflexivity|].
    symmetry. apply String.eqb_neq. congruence. }
  assert (Hnv : Js.own (valueKey (opts self)) [(k, VStr s)] = None).
  { cbn [Js.own]. replace (String.eqb (valueKey (opts self)) k) with false; [reflexivity|].
    symmetry. apply String.eqb_neq. congruence. }
  unfold element_branch. rewrite Hq.
  cbn [is_nullish typeof_object negb andb vget]. rewrite Hna, Hnv.
  cbn [is_undefined negb andb].
  unfold element_name. rewrite Hform.
  change (String.eqb "unqualified" "unqualified") with true. cbv beta iota. cbn [bind].
  unfold make_element. rewrite Hcomplex. cbn [bind andb].
  rewrite (enforce_off self Hrestr), (keeps_text_ok toISOString d _ Hkeeps). cbn [bind].
  cbn [is_nullish andb]. unfold extend_elements. cbn [is_nullish vget]. rewrite Hna.
  cbn [typeof_object is_terminal negb andb bind].
  unfold mapObject. cbn [is_nullish is_terminal getXsiType negb andb bind deref s_ds with_ds
                         with_sns s_ns].
  rewrite Hd, Helements, Hattributes. cbn [table_of names_of bind].
  unfold with_ds. cbn [s_ds s_ns].
  rewrite (sorted_keys_undeclared [(k, VStr s)] []);
    [| repeat constructor; intros [] | intros x []].
  unfold Js.keys. rewrite ordered_plain by (intros p [<-|[]]; exact Hkindex).
  cbn [map fst foldM]. unfold property_step.
  replace (String.eqb k (attributesKey (opts self))) with false
    by (symmetry; apply String.eqb_neq; congruence).
  unfold lookup_table. cbn [Js.own]. rewrite Hkproto, Hignore. cbn [bind fst snd].
  unfold addAttributes. cbn [deref s_ds]. rewrite Hd, Hattributes.
  cbn [table_of bind is_nullish negb andb with_ds s_ds s_ns].
  unfold pop_scope. cbn [s_ns NamespaceContext.pushContext NamespaceContext.popContext bind
    with_sns s_ds Xml.add_child app].
  reflexivity.
Qed.

(** The type [T] of the namespace [U] is described by [sub], which
    declares the element [k]. *)
Variables (T U : string) (schema : schema) (sub e : did) (dsub de : descriptor).
Hypothesis HT : Str.contains ":" T = false.
Hypothesis HU : U <> helper.xsi.
Hypothesis HU' : U <> "".
Hypothesis Hschema : schemas self U = Some schema.
Hypothesis Hdescribe : describe schema T = Some sub.
Hypothesis Hsub : ds !! sub = Some dsub.
Hypothesis Hsubelements : d_elements dsub = [e].
Hypothesis Hsubattributes : d_attributes dsub = [].
Hypothesis He : ds !! e = Some de.
Hypothesis Hekind : d_kind de = ElementDescriptor.
Hypothesis Heq : d_qname de = Some (local k).
Hypothesis Heform : d_form de = "unqualified".
Hypothesis Hekeeps : keeps_text de = true.
Hypothesis Hcd : Str.has_cdata_marker s = false.
Hypothesis Hlegal : Xml.legal s = true.
Hypothesis Horiginal : d_refOriginal d = None.
Hypothesis Haindex : Js.index_value (attributesKey (opts self)) = None.
Hypothesis Hdiff : attributesKey (opts self) <> valueKey (opts self).

Lemma typed_property_written (fuel : nat) :
  jsonToXml toISOString self (S (S fuel)) ds None None (Some (Stored r))
    (VObj [(k, VStr s);
           (attributesKey (opts self), VObj [(xsiTypeKey (opts self), type_entry T U)])])
  = Ok ({| s_ds := ds; s_ns := NamespaceContext.empty |},
        XDocument [XElement (QName.name q) (type_attributes "ns1" T U)
                     [XElement k [] [XText s]]]).
Proof.
  set (attrs := VObj [(xsiTypeKey (opts self), type_entry T U)]).
  set (props := [(k, VStr s); (attributesKey (opts self), attrs)]).
  unfold jsonToXml. cbv beta iota.
  assert (Hstep : forall m, m = S fuel ->
            jsonToXml_fuel toISOString self (S m) {| s_ds := ds; s_ns := NamespaceContext.empty |} (XDocument [])
              (Some (Stored r)) (VObj props)
            = element_branch toISOString self (jsonToXml_fuel toISOString self m)
                {| s_ds := ds; s_ns := NamespaceContext.empty |} (XDocument []) (Stored r) d (VObj props)).
  { intros m _. cbn [jsonToXml_fuel deref s_ds]. rewrite Hd, Hkind.
    now destruct (d_isMany d). }
  rewrite (Hstep (S fuel) eq_refl). clear Hstep.
  assert (Hka : String.eqb (attributesKey (opts self)) k = false)
    by (apply String.eqb_neq; congruence).
  assert (Hkv : String.eqb (valueKey (opts self)) k = false)
    by (apply String.eqb_neq; congruence).
  assert (Hva : String.eqb (valueKey (opts self)) (attributesKey (opts self)) = false)
    by (apply String.eqb_neq; congruence).
  assert (Hna : Js.own (attributesKey (opts self)) props = Some attrs).
  { unfold props. cbn [Js.own]. now rewrite Hka, String.eqb_refl. }
  assert (Hnv : Js.own (valueKey (opts self)) props = None).
  { unfold props. cbn [Js.own]. now rewrite Hkv, Hva. }
  unfold element_branch. rewrite Hq.
  cbn [is_nullish typeof_object negb andb vget]. rewrite Hna, Hnv.
  change (is_undefined attrs) with false. cbn [is_undefined negb andb].
  unfold element_name. rewrite Hform.
  change (String.eqb "unqualified" "unqualified") with true. cbv beta iota. cbn [bind].
  unfold make_element. rewrite Hcomplex. cbn [bind andb].
  rewrite (enforce_off self Hrestr), (keeps_text_ok toISOString d _ Hkeeps). cbn [bind].
  cbn [bind is_nullish andb]. unfold extend_elements. cbn [is_nullish vget]. rewrite Hna.
  change (typeof_object attrs) with true. cbv beta iota.
  change (entries attrs) with (Js.ordered [(xsiTypeKey (opts self), type_entry T U)]).
  rewrite ordered_single. cbn [foldM]. unfold extend_step at 1. cbn [fst snd].
  rewrite String.eqb_refl. cbn [deref with_sns s_ds]. rewrite Hd.
  unfold extension_of. rewrite Horiginal. cbn [bind].
  cbn [typeof_object is_terminal negb andb bind].
  unfold mapObject. cbn [is_nullish is_terminal negb andb].
  unfold getXsiType. change (is_nullish attrs) with false.
  change (typeof_object attrs) with true. cbn [negb andb].
  change (entries attrs) with (Js.ordered [(xsiTypeKey (opts self), type_entry T U)]).
  rewrite ordered_single. cbn [Js.own]. rewrite String.eqb_refl.
  unfold type_entry at 1, xsi_qname. cbn [Js.own String.eqb Ascii.eqb Bool.eqb].
  replace (String.eqb U "") with false by (symmetry; now apply String.eqb_neq).
  cbn [bind]. unfold QName.parse at 1 2. cbn [QName.nsURI QName.name].
  rewrite Hschema, (after_last_colon_plain T HT), Hdescribe.
  cbn [bind deref with_ds s_ds]. rewrite Hsub, Hsubelements, Hsubattributes.
  cbn [table_of names_of]. rewrite He. unfold local_name. rewrite Heq.
  cbn [option_map local QName.name Js.set bind].
  unfold with_ds. cbn [s_ds s_ns with_sns NamespaceContext.pushContext].
  assert (Hsorted : _sortKeys props [k] = [k; attributesKey (opts self)]).
  { unfold _sortKeys, Js.keys.
    rewrite (ordered_plain props)
      by (intros p [<-|[<-|[]]]; [exact Hkindex | exact Haindex]).
    change (map fst props) with [k; attributesKey (opts self)].
    rewrite sort_declared_first.
    - unfold declared_first. cbn [first_occurrences List.filter Js.mem existsb].
      rewrite String.eqb_refl, Hka. reflexivity.
    - constructor; [|constructor; [intros []|constructor]].
      intros [E|[]]. now apply Hkattr. }
  rewrite Hsorted. cbn [foldM]. unfold property_step at 1.
  replace (String.eqb k (attributesKey (opts self))) with false
    by (symmetry; apply String.eqb_neq; congruence).
  unfold lookup_table at 1. cbn [Js.own]. rewrite String.eqb_refl.
  assert (Hown : Js.own k props = Some (VStr s))
    by (unfold props; cbn [Js.own]; now rewrite String.eqb_refl).
  rewrite Hown.
  assert (Hone : forall m, m = fuel ->
            jsonToXml_fuel toISOString self (S m) {| s_ds := ds; s_ns := [[]; []] |}
              (XElement (QName.name q) [] []) (Some (Stored e)) (VStr s)
            = Ok ({| s_ds := ds; s_ns := [[]; []] |},
                  XElement (QName.name q) [] [XElement k [] [XText s]])).
  { intros m _. cbn [jsonToXml_fuel deref s_ds]. rewrite He, Hekind.
    destruct (d_isMany de);
      now apply (text_element_written toISOString self ds Hrestr _ [[]; []] (QName.name q) [] []
                   e de (local k) s He Heform Heq Hekeeps Hcd Hlegal). }
  change (NamespaceContext.pushContext NamespaceContext.empty)
    with ([[]; []] : NamespaceContext.t).
  rewrite (Hone fuel eq_refl). cbn [bind]. unfold property_step.
  rewrite String.eqb_refl. cbn [bind fst snd].
  unfold addAttributes. cbn [deref s_ds]. rewrite Hsub, Hsubattributes.
  cbn [table_of bind]. change (is_nullish attrs) with false.
  change (typeof_object attrs) with true. cbn [negb andb].
  change (entries attrs) with (Js.ordered [(xsiTypeKey (opts self), type_entry T U)]).
  rewrite ordered_single. cbn [foldM].
  rewrite (type_written self T U HT HU HU'). cbn [bind fst snd]. unfold pop_scope.
  cbn [s_ns with_sns NamespaceContext.popContext s_ds bind Xml.add_child app].
  reflexivity.
Qed.

End Subtype.



Open Scope list_scope.

(** ** The namespace scopes of the serializer are balanced *)

Section Scopes.

Variable toISOString : value -> option string.
Variable self : XMLHandler.

Lemma declareNamespace_scope (c c' : NamespaceContext.t) (node node' : option xnode)
    (p u : string) m :
  declareNamespace c node p u = Ok (m, c', node') -> enclosing c' = enclosing c.
Proof.
  unfold declareNamespace, NamespaceContext.declareNamespace.
  destruct (NamespaceContext.getPrefixMapping u c) as [m0|].
  - intros H. steps_in H; reflexivity.
  - destruct c as [|s rest]; intros H; steps_in H; reflexivity.
Qed.

Lemma declare_on_scope (st st' : sstate) (node node' : xnode) (p u : string) m :
  declare_on st node p u = Ok (m, st', node') -> enclosing (s_ns st') = enclosing (s_ns st).
Proof.
  unfold declare_on. intros H. bind_ok H E x. destruct x as [[m0 c0] n0].
  apply declareNamespace_scope in E.
  destruct n0; inversion H; subst; exact E.
Qed.

Lemma attribute_branch_scope (st st' : sstate) (node node' : xnode) (d : descriptor)
    (val : value) :
  attribute_branch toISOString st node d val = Ok (st', node') ->
  enclosing (s_ns st') = enclosing (s_ns st).
Proof.
  unfold attribute_branch. intros H. bind_ok H E v.
  destruct (d_qname d) as [qname|]; [|discriminate].
  destruct (String.eqb (d_form d) "unqualified").
  - steps_in H. reflexivity.
  - bind_ok H E1 x. destruct x as [[m0 st0] n0]. apply declare_on_scope in E1.
    steps_in H. exact E1.
Qed.

Lemma element_name_scope (st st' : sstate) (d : descriptor) (q : QName.t) n x :
  element_name st d q = Ok (st', n, x) -> enclosing (s_ns st') = Some (s_ns st).
Proof.
  unfold element_name. destruct (String.eqb (d_form d) "unqualified").
  - intros H. inversion H. reflexivity.
  - intros H. bind_ok H E y. destruct y as [[m0 c0] n0].
    inversion H; subst; clear H. cbn [with_sns s_ns].
    destruct (match NamespaceContext.getPrefixMapping (QName.nsURI q)
                      (NamespaceContext.pushContext (s_ns st)) with
              | Some m => negb (NamespaceContext.declared m)
              | None => true
              end).
    + apply declareNamespace_scope in E. exact E.
    + inversion E. reflexivity.
Qed.

Lemma pop_scope_scope (st st' : sstate) :
  pop_scope st = Ok st' -> enclosing (s_ns st) = Some (s_ns st').
Proof.
  unfold pop_scope. destruct (s_ns st) as [|s rest] eqn:E; cbn; [discriminate|].
  intros H. inversion H. reflexivity.
Qed.

Section Steps.

Variable jsonToXml : rec_call.
Hypothesis Hrec : scope_ok jsonToXml.

Lemma attribute_step_scope (attributes : list (string * did))
    (acc acc' : sstate * xnode) (e : string * value) :
  attribute_step self jsonToXml attributes acc e = Ok acc' ->
  enclosing (s_ns (fst acc')) = enclosing (s_ns (fst acc)).
Proof.
  unfold attribute_step. destruct acc as [st node], e as [p child]. intros H.
  destruct (String.eqb p (xsiTypeKey (opts self))).
  - bind_ok H Ex x. bind_ok H E1 r1. destruct r1 as [[m1 st1] n1].
    bind_ok H E2 r2. destruct r2 as [[m2 st2] n2]. bind_ok H E3 n3.
    inversion H; subst; clear H. cbn [fst].
    rewrite (declare_on_scope _ _ _ _ _ _ _ E2). exact (declare_on_scope _ _ _ _ _ _ _ E1).
  - destruct (lookup_table attributes p).
    + destruct acc' as [st' node']. eapply Hrec; exact H.
    + destruct (ignoreUnknownProperties (opts self)).
      * inversion H. reflexivity.
      * destruct acc' as [st' node']. eapply Hrec; exact H.
Qed.

Lemma addAttributes_scope (st st' : sstate) (node node' : xnode) (d : option dref)
    (attrs : value) :
  addAttributes self jsonToXml st node d attrs = Ok (st', node') ->
  enclosing (s_ns st') = enclosing (s_ns st).
Proof.
  unfold addAttributes. intros H. step_in H.
  destruct (negb (is_nullish attrs) && typeof_object attrs); [|now inversion H].
  change (s_ns st) with (s_ns (fst (st, node))).
  change (s_ns st') with (s_ns (fst (st', node'))).
  revert H. apply (foldM_invariant (attribute_step self jsonToXml a)
    (fun x y => enclosing (s_ns (fst y)) = enclosing (s_ns (fst x)))).
  - reflexivity.
  - intros s1 s2 s3 H12 H23. now rewrite H23.
  - intros s e s' _. apply attribute_step_scope.
Qed.

Lemma property_step_scope (props : list (string * value))
    (elements attributes : list (string * did)) (acc acc' : sstate * xnode) (p : string) :
  property_step self jsonToXml props elements attributes acc p = Ok acc' ->
  enclosing (s_ns (fst acc')) = enclosing (s_ns (fst acc)).
Proof.
  unfold property_step. destruct acc as [st node]. intros H.
  destruct (String.eqb p (attributesKey (opts self))); [now inversion H|].
  destruct acc' as [st' node'].
  destruct (match lookup_table elements p with Some c => Some c | None => _ end).
  - eapply Hrec; exact H.
  - destruct (ignoreUnknownProperties (opts self)).
    + now inversion H.
    + eapply Hrec; exact H.
Qed.

Lemma mapObject_scope (st st' : sstate) (node node' : xnode) (d : option dref)
    (val attrs : value) :
  mapObject toISOString self jsonToXml st node d val attrs = Ok (st', node') ->
  enclosing (s_ns st') = enclosing (s_ns st).
Proof.
  unfold mapObject. intros H.
  destruct (is_nullish val); [now inversion H|].
  destruct (is_terminal val).
  { steps_in H. reflexivity. }
  step_in H. step_in H. destruct a0 as [[elements elementOrder] attributes].
  step_in H. destruct a0 as [st1 node1]. cbn [fst snd] in H.
  apply addAttributes_scope in H. rewrite H.
  destruct val; try (now inversion E1).
  change (s_ns st) with (s_ns (fst (st, node))).
  change (s_ns st1) with (s_ns (fst (st1, node1))).
  revert E1. apply (foldM_invariant (property_step self jsonToXml props elements attributes)
    (fun x y => enclosing (s_ns (fst y)) = enclosing (s_ns (fst x)))).
  - reflexivity.
  - intros s1 s2 s3 H12 H23. now rewrite H23.
  - intros s p s' _. apply property_step_scope.
Qed.

Lemma nil_block_scope (b : bool) (st st2 : sstate) (e e2 : xnode) :
  (if b then
     do r0 <- declare_on st e "xsi" helper.xsi;
     let '(_, st0, e1) := r0 in
     do e3 <- Xml.attribute "xsi:nil" "true" e1; Ok (st0, e3)
   else Ok (st, e)) = Ok (st2, e2) ->
  enclosing (s_ns st2) = enclosing (s_ns st).
Proof.
  destruct b; [|now intros [= <- <-]].
  destruct (declare_on st e "xsi" helper.xsi) as [[[m s0] e0]|] eqn:E; cbn [bind];
    [|discriminate].
  destruct (Xml.attribute "xsi:nil" "true" e0); cbn [bind]; [|discriminate].
  intros [= <- <-]. eapply declare_on_scope; exact E.
Qed.

(** An element leaves the scopes as they were: the scope it opens is
    closed again. *)
Lemma element_branch_scope (st st' : sstate) (node node' : xnode) (r : dref)
    (d : descriptor) (val : value) :
  element_branch toISOString self jsonToXml st node r d val = Ok (st', node') ->
  s_ns st' = s_ns st.
Proof.
  unfold element_branch. intros H.
  destruct (d_qname d) as [qname|]; [|discriminate].
  set (attrs := if negb (is_nullish val) && typeof_object val
                   && negb (is_undefined (vget (attributesKey (opts self)) val))
                then Some (vget (attributesKey (opts self)) val) else None) in H.
  set (val1 := if negb (is_nullish val) && typeof_object val
                  && negb (is_undefined (vget (valueKey (opts self)) val))
               then vget (valueKey (opts self)) val else val) in H.
  clearbody attrs val1.
  step_in H. destruct a as [[st1 elementName] xmlns].
  apply element_name_scope in E.
  step_in H. destruct a as [element val2].
  step_in H. rename a into element1.
  step_in H. destruct a as [st2 element2].
  assert (Hst2 : enclosing (s_ns st2) = Some (s_ns st)).
  { rewrite <- E. eapply nil_block_scope; exact E2. }
  assert (Hdone : forall st3 st4,
            enclosing (s_ns st3) = enclosing (s_ns st2) ->
            pop_scope st3 = Ok st4 -> s_ns st4 = s_ns st).
  { intros st3 st4 H3 Hpop. apply pop_scope_scope in Hpop.
    rewrite H3, Hst2 in Hpop. now inversion Hpop. }
  destruct (d_isSimple d).
  - bind_ok H Eadd r3. destruct r3 as [st3 element3]. cbn [fst snd] in H.
    bind_ok H Epop st4. bind_ok H Echild n4. inversion H; subst; clear H.
    apply (Hdone st3); [|exact Epop].
    destruct attrs as [a|]; [|now inversion Eadd].
    destruct (negb (is_nullish a) && typeof_object a); [|now inversion Eadd].
    eapply addAttributes_scope; exact Eadd.
  - bind_ok H Eext ds1.
    destruct (negb (is_nullish val2) && is_terminal val2).
    + bind_ok H Edate val3. bind_ok H Etext t3. bind_ok H Etxt e3. bind_ok H Eadd r3.
      destruct r3 as [st3 element3]. cbn [fst snd] in H.
      bind_ok H Epop st4. bind_ok H Echild n4. inversion H; subst; clear H.
      apply (Hdone st3); [|exact Epop].
      destruct attrs as [a|]; [|now inversion Eadd].
      destruct (is_nullish a); [now inversion Eadd|].
      apply addAttributes_scope in Eadd. exact Eadd.
    + bind_ok H Emap r3. destruct r3 as [st3 element3]. cbn [fst snd] in H.
      bind_ok H Epop st4. bind_ok H Echild n4. inversion H; subst; clear H.
      apply (Hdone st3); [|exact Epop].
      apply mapObject_scope in Emap. exact Emap.
Qed.

End Steps.

(** What a call does to the scopes: those around the current one are
    left as they were, and for an element descriptor the current one
    too. *)
Lemma jsonToXml_fuel_scope (fuel : nat) :
  forall st node d val st' node',
    jsonToXml_fuel toISOString self fuel st node d val = Ok (st', node') ->
    enclosing (s_ns st') = enclosing (s_ns st)
    /\ (forall r dd, d = Some r -> deref (s_ds st) r = Some dd ->
                     d_kind dd = ElementDescriptor -> s_ns st' = s_ns st).
Proof.
  induction fuel as [|fuel IH]; intros st node d val st' node' H; [discriminate|].
  assert (Hrec : scope_ok (jsonToXml_fuel toISOString self fuel)).
  { intros s n0 d0 v s' n' Hs. exact (proj1 (IH _ _ _ _ _ _ Hs)). }
  cbn [jsonToXml_fuel] in H.
  destruct d as [r|].
  - destruct (deref (s_ds st) r) as [dd|] eqn:Ed; [|discriminate].
    destruct (d_kind dd) eqn:Ek.
    + assert (Hsame : s_ns st' = s_ns st).
      { destruct (d_isMany dd) eqn:Em.
        * destruct val; try (eapply element_branch_scope; eassumption).
          change (s_ns st) with (s_ns (fst (st, node))).
          change (s_ns st') with (s_ns (fst (st', node'))).
          assert (Hds : forall acc acc',
                    foldM (fun acc v => jsonToXml_fuel toISOString self fuel (fst acc)
                                          (snd acc) (Some r) v) items acc = Ok acc' ->
                    (exists d0, deref (s_ds (fst acc)) r = Some d0
                                /\ d_kind d0 = ElementDescriptor) ->
                    s_ns (fst acc') = s_ns (fst acc)); [|apply Hds; [exact H|eauto]].
          clear H. induction items as [|v items IHl]; intros acc acc' Hf Hacc; cbn in Hf.
          -- now inversion Hf.
          -- destruct (jsonToXml_fuel toISOString self fuel (fst acc) (snd acc) (Some r) v)
               as [[s1 n1]|] eqn:E1; [|discriminate]. cbn [bind] in Hf.
             destruct Hacc as (d0 & Hd0 & Hk0).
             rewrite (IHl _ _ Hf); cbn [fst].
             ++ exact (proj2 (IH _ _ _ _ _ _ E1) r d0 eq_refl Hd0 Hk0).
             ++ destruct (jsonToXml_fuel_store toISOString self fuel _ _ _ _ _ _ E1)
                  as [[_ Hgrow] _].
                destruct r as [id|fresh]; cbn [deref] in *; [|eauto].
                destruct (Hgrow id d0 Hd0) as [extra Hx]. rewrite Hx.
                eexists. split; [reflexivity|]. exact Hk0.
        * eapply element_branch_scope; eassumption. }
      split; [now rewrite Hsame|]. intros; exact Hsame.
    + split; [eapply attribute_branch_scope; exact H|].
      intros r0 d0 [= <-] Hd0 Hk0. rewrite Ed in Hd0. inversion Hd0; subst. congruence.
    + split; [eapply mapObject_scope; eassumption|].
      intros r0 d0 [= <-] Hd0 Hk0. rewrite Ed in Hd0. inversion Hd0; subst. congruence.
    + inversion H; subst. split; [reflexivity|]. intros; reflexivity.
  - split; [eapply mapObject_scope; eassumption|]. intros r dd [=].
Qed.

End Scopes.

(** The namespace scopes are balanced: a call of [jsonToXml] that
    returns leaves the scopes around the current one as it found them,
    whatever it was given; and when the descriptor is an element
    descriptor, the whole context is as before, the scope opened for each
    element being closed again.  Only an attribute, or the attributes of
    an object mapped without an element of its own, can leave a
    declaration behind, in the current scope. *)
Theorem jsonToXml_scopes_balanced (toISOString : value -> option string) (self : XMLHandler)
    (fuel : nat) (ds : dstore) (node : option xnode) (nsContext : option NamespaceContext.t)
    (descriptor : option dref) (val : value) (st' : sstate) (node' : xnode) :
  jsonToXml toISOString self fuel ds node nsContext descriptor val = Ok (st', node') ->
  let before := match nsContext with Some c => c | None => NamespaceContext.empty end in
  enclosing (s_ns st') = enclosing before
  /\ (forall r d, descriptor = Some r -> deref ds r = Some d ->
                  d_kind d = ElementDescriptor -> s_ns st' = before).
Proof.
  intros H. cbv zeta. unfold jsonToXml in H.
  exact (jsonToXml_fuel_scope toISOString self fuel _ _ _ _ _ _ H).
Qed.

Lemma jsonToXml_scopes_balanced_witness :
  let unit := new_AttributeDescriptor (QName.make "urn:a" "unit" "a") "qualified" in
  let after := [[ {| NamespaceContext.prefix := "a"; NamespaceContext.uri := "urn:a";
                     NamespaceContext.declared := true |} ]] in
  jsonToXml sample_iso default_handler 1 [unit] (Some (XElement "e" [] [])) (Some [[]])
    (Some (Stored 0)) (VStr "cm")
  = Ok ({| s_ds := [unit]; s_ns := after |},
        XElement "e" [("xmlns:a", "urn:a"); ("a:unit", "cm")] [])
  /\ enclosing after = enclosing [[]].
Proof.
  intros unit after.
  assert (H : jsonToXml sample_iso default_handler 1 [unit] (Some (XElement "e" [] []))
                (Some [[]]) (Some (Stored 0)) (VStr "cm")
              = Ok ({| s_ds := [unit]; s_ns := after |},
                    XElement "e" [("xmlns:a", "urn:a"); ("a:unit", "cm")] []))
    by reflexivity.
  split; [exact H|].
  exact (proj1 (jsonToXml_scopes_balanced sample_iso default_handler 1 [unit]
                  (Some (XElement "e" [] [])) (Some [[]]) (Some (Stored 0)) (VStr "cm")
                  _ _ H)).
Defined.

Open Scope list_scope.

(** ** [parseXml] and white space *)

Lemma b_text_trim (make : string -> xnode) (st : builder) (t : string) :
  b_text make st (Str.trim t) = b_text make st t.
Proof. unfold b_text. now rewrite trim_idempotent. Qed.

Lemma b_text_blank (make : string -> xnode) (st st' : builder) (t : string) :
  String.eqb (Str.trim t) "" = true ->
  b_text make st t = Done st' -> st' = st.
Proof.
  unfold b_text. intros Hb.
  destruct (b_stack st) as [|p rest]; [discriminate|].
  destruct (node_at p (b_root st)) as [[| | | |]|]; try discriminate.
  - now intros [= <-].
  - rewrite Hb. now intros [= <-].
Qed.

Lemma b_run_trim (es : list event) :
  forall st, b_run (map trim_event es) st = b_run es st.
Proof.
  induction es as [|e es IH]; intros st; [reflexivity|].
  cbn [map b_run].
  assert (He : b_handle st (trim_event e) = b_handle st e)
    by (destruct e; cbn [trim_event b_handle]; try reflexivity; apply b_text_trim).
  rewrite He. destruct (b_handle st e); [apply IH|reflexivity].
Qed.

Lemma b_run_blank (es : list event) :
  forall st, b_run (List.filter (fun e => negb (is_blank e)) es) st = b_run es st
             \/ exists x, b_run es st = Raised x.
Proof.
  induction es as [|e es IH]; intros st; [now left|].
  cbn [List.filter b_run]. destruct (is_blank e) eqn:Hb; cbn [negb].
  - destruct (b_handle st e) as [st'|x] eqn:He; [|right; now exists x].
    assert (st' = st) as ->.
    { destruct e; try discriminate; cbn [b_handle is_blank] in *;
        eapply b_text_blank; eassumption. }
    apply IH.
  - cbn [b_run]. destruct (b_handle st e) as [st'|x]; [apply IH|right; now exists x].
Qed.

(** [parseXml] sees the texts and the CDATA sections of a document
    through their trimmed form only, and a call that returns would have
    returned the same tree without the texts and sections that are blank:
    white space between the elements leaves no trace. *)
Theorem parseXml_ignores_white_space (root : option xnode) (es : list event) :
  parseXml_events root (map trim_event es) = parseXml_events root es
  /\ forall tree,
       parseXml_events root es = Done tree ->
       parseXml_events root (List.filter (fun e => negb (is_blank e)) es) = Done tree.
Proof.
  split.
  - unfold parseXml_events. now rewrite b_run_trim.
  - unfold parseXml_events. intros tree H.
    destruct (b_run_blank es {| b_root := match root with Some r => r | None => XDocument [] end;
                                b_stack := [[]] |}) as [Heq|[x Hx]].
    + now rewrite Heq.
    + rewrite Hx in H. discriminate.
Qed.

Lemma parseXml_ignores_white_space_witness :
  let es := [OpenTag "a" []; Text "  "; OpenTag "b" []; Text " x "; CloseTag "b";
             CloseTag "a"] in
  let tree := XDocument [XElement "a" [] [XElement "b" [] [XText "x"]]] in
  parseXml_events None es = Done tree
  /\ parseXml_events None [OpenTag "a" []; OpenTag "b" []; Text " x "; CloseTag "b";
                           CloseTag "a"] = Done tree.
Proof.
  intros es tree.
  assert (H : parseXml_events None es = Done tree) by reflexivity.
  split; [exact H|].
  exact (proj2 (parseXml_ignores_white_space None es) tree H).
Defined.

Open Scope list_scope.

(** ** The namespace scopes of the parser (lines 564 and 655) *)

Section ParserScopes.

Variables (self : XMLHandler) (ds : dstore).
Variable nested : heap -> string -> result (heap * jsval).
Variable root : frame.
Variable outside : NamespaceContext.t.

Lemma text_scopes (s s' : pstate) (v : jsval) :
  handleJsonObject self s v = Ok s' -> p_ns s' = p_ns s.
Proof.
  unfold handleJsonObject. destruct (p_stack s) as [|top rest]; [discriminate|].
  destruct (_processText _ _ _ _) as [[h top']|]; [|discriminate].
  cbn [bind]. now intros [= <-].
Qed.

Lemma handle_scopes (s s' : pstate) (e : event) (frames : list frame)
    (scopes : list NamespaceContext.scope) :
  above root s frames ->
  p_ns s = scopes ++ outside ->
  List.length scopes = List.length frames ->
  handle self ds nested s e = Ok s' ->
  exists scopes',
    p_ns s' = scopes' ++ outside
    /\ (List.length scopes' + (if is_close e then 1 else 0)
        = List.length scopes + (if is_open e then 1 else 0))%nat.
Proof.
  intros Hs Hns Hlen. destruct e as [n attrs|n|t|t]; cbn [handle is_open is_close].
  - unfold onopentag. destruct (p_stack s) as [|top rest] eqn:Hst; [discriminate|].
    destruct (foldM _ _ _) as [l|]; [|discriminate]. cbn [bind].
    destruct (match al_elementAttributes l with Some _ => _ | None => _ end) as [[h obj]|];
      [|discriminate]. cbn [bind].
    destruct (match Js.own "href" (al_attrs l) with Some _ => _ | None => _ end);
      [|discriminate]. cbn [bind].
    intros [= <-]. cbn [p_ns].
    destruct (register_namespaces_scope attrs [] (p_ns s)) as [s1 H1].
    exists (s1 :: scopes). split; [|cbn [List.length]; lia].
    transitivity (s1 :: p_ns s); [exact H1|]. now rewrite Hns.
  - unfold onclosetag.
    destruct (NamespaceContext.popContext (p_ns s)) as [ns|] eqn:Hpop; [|discriminate].
    destruct (p_stack s) as [|current [|top rest]] eqn:Hst; try discriminate.
    destruct (merge_child ds (p_heap s) top current _) as [[h top']|]; [|discriminate].
    cbn [bind].
    destruct (match f_id current with Some _ => _ | None => _ end); [|discriminate].
    cbn [bind]. intros [= <-]. cbn [p_ns].
    unfold above in Hs. rewrite Hst in Hs.
    destruct frames as [|f frames]; [discriminate|].
    destruct scopes as [|x scopes]; [discriminate|].
    rewrite Hns in Hpop. cbn in Hpop. injection Hpop as <-.
    exists scopes. split; [reflexivity|]. cbn [List.length]. lia.
  - unfold ontext. destruct (String.length (Str.trim t) =? 0)%nat.
    + intros [= <-]. exists scopes. split; [exact Hns|lia].
    + intros H. exists scopes. split; [|lia]. rewrite <- Hns.
      apply (text_scopes s s' (parseValue (JStr (Str.trim t))
                                 (frame_descriptor ds (hd root (p_stack s))))).
      unfold handleJsonObject. destruct (p_stack s) as [|top rest]; [discriminate|].
      exact H.
  - unfold oncdata. destruct (String.length (Str.trim t) =? 0)%nat.
    + intros [= <-]. exists scopes. split; [exact Hns|lia].
    + destruct (Str.has_xml_declaration (Str.trim t)).
      * destruct (nested (p_heap s) (Str.trim t)) as [[h v]|]; [|discriminate].
        cbn [bind]. intros H. exists scopes. split; [|lia].
        rewrite <- Hns. now apply (text_scopes (with_heap h s) s' v).
      * intros H. exists scopes. split; [|lia].
        rewrite <- Hns. now apply (text_scopes s s' (JStr (Str.trim t))).
Qed.

Hypothesis Hroot : exists a, f_object root = JRef a.

Lemma run_scopes (events : list event) :
  forall (s s' : pstate) (frames : list frame) (scopes : list NamespaceContext.scope),
    above root s frames ->
    p_ns s = scopes ++ outside ->
    List.length scopes = List.length frames ->
    foldM (handle self ds nested) events s = Ok s' ->
    exists scopes',
      p_ns s' = scopes' ++ outside
      /\ (List.length scopes' + closes events = List.length scopes + opens events)%nat.
Proof.
  induction events as [|e events IH]; intros s s' frames scopes Hs Hns Hlen H;
    cbn [foldM] in H.
  - injection H as <-. exists scopes. split; [exact Hns|]. unfold opens, closes. simpl. lia.
  - destruct (handle self ds nested s e) as [s1|] eqn:E1; [|discriminate]. cbn [bind] in H.
    destruct (handle_above self ds nested root Hroot s s1 e frames Hs E1) as (f1 & H1 & L1).
    destruct (handle_scopes s s1 e frames scopes Hs Hns Hlen E1) as (c1 & N1 & M1).
    destruct (IH s1 s' f1 c1 H1 N1 ltac:(lia) H) as (c2 & N2 & M2).
    exists c2. split; [exact N2|].
    unfold opens, closes in *. cbn [List.filter].
    destruct (is_open e), (is_close e); cbn [List.length] in *; lia.
Qed.

End ParserScopes.

(** The namespace context of [xmlToJson] follows the nesting of the
    document: in a run of the handlers that does not raise, the context is
    the one the call was given (or a new one) under one scope for each
    open tag not yet closed; so once every tag is closed the context is as
    it was given. *)
Theorem scopes_follow_nesting (self : XMLHandler) (ds : dstore)
    (nested : heap -> string -> result (heap * jsval)) (h0 : heap)
    (nsContext : option NamespaceContext.t) (descriptor : option did)
    (events : list event) (s : pstate) :
  foldM (handle self ds nested) events (initial h0 nsContext descriptor) = Ok s ->
  let given := match nsContext with Some c => c | None => NamespaceContext.empty end in
  (exists scopes,
     p_ns s = scopes ++ given
     /\ (List.length scopes + closes events = opens events)%nat)
  /\ (opens events = closes events -> p_ns s = given).
Proof.
  intros Hrun given.
  assert (Hroot : exists a, f_object (root_frame h0 descriptor) = JRef a)
    by now exists (List.length h0).
  destruct (run_scopes self ds nested (root_frame h0 descriptor) given Hroot events
              (initial h0 nsContext descriptor) s [] [] eq_refl eq_refl eq_refl Hrun)
    as (scopes & Hns & Hl).
  cbn [List.length] in Hl. split.
  - exists scopes. split; [exact Hns|lia].
  - intros Heq. destruct scopes as [|x scopes]; [exact Hns|]. cbn [List.length] in Hl. lia.
Qed.

Lemma scopes_follow_nesting_witness :
  let events := [OpenTag "a" [("xmlns:p", "urn:p")]; OpenTag "p:b" []; Text "x";
                 CloseTag "p:b"] in
  let scope := [ {| NamespaceContext.prefix := "p"; NamespaceContext.uri := "urn:p";
                    NamespaceContext.declared := false |} ] in
  (exists scopes,
     [scope; []] = scopes ++ NamespaceContext.empty
     /\ (List.length scopes + closes events = opens events)%nat).
Proof.
  intros events scope.
  assert (H : foldM (handle default_handler [] no_nested) events (initial [] None None)
              = Ok {| p_heap := [HObject []; HObject [("b", JStr "x")]];
                      p_stack := [{| f_name := Some "a"; f_object := JRef 1;
                                     f_descriptor := None; f_id := None |};
                                  root_frame [] None];
                      p_refs := []; p_ns := [scope; []] |}) by reflexivity.
  exact (proj1 (scopes_follow_nesting default_handler [] no_nested [] None None events _ H)).
Defined.

Open Scope list_scope.

(** ** Round trip of a record of any texts *)

(** *** The events of the record *)

Lemma field_node_tokens (props : list (string * value)) (names : list string) :
  traverse Xml.events (map (field_node props) names) = Some (map (field_tokens props) names).
Proof.
  induction names as [|k names IH]; [reflexivity|].
  cbn [map traverse]. rewrite IH.
  unfold field_node at 1, field_tokens at 1. cbn [Xml.events traverse option_map concat].
  now rewrite app_nil_r.
Qed.

Lemma coalesce_field_tokens (props : list (string * value)) (names : list string)
    (rest : list event) :
  Xml.coalesce (flat_map (field_tokens props) names ++ rest)
  = flat_map (field_tokens props) names ++ Xml.coalesce rest.
Proof.
  induction names as [|k names IH]; [reflexivity|].
  cbn [flat_map]. unfold field_tokens at 1 3.
  destruct (String.eqb (text_at props k) "");
    cbn [app Xml.coalesce]; now rewrite IH.
Qed.

Lemma record_tokens_any (rn : string) (decl : list (string * string))
    (props : list (string * value)) (names : list string) :
  Xml.tokens (XDocument [XElement rn decl (map (field_node props) names)])
  = Some (OpenTag rn decl :: flat_map (field_tokens props) names ++ [CloseTag rn]).
Proof.
  unfold Xml.tokens. cbn [Xml.events traverse].
  rewrite (field_node_tokens props names). cbn [option_map concat].
  rewrite app_nil_r, <- flat_map_concat_map. cbn [Xml.coalesce].
  now rewrite coalesce_field_tokens.
Qed.

(** *** Reading the record back *)

Lemma single_not_many (ds : dstore) (f : frame) :
  single ds (f_descriptor f) -> is_many ds f = false.
Proof.
  unfold is_many, frame_descriptor.
  destruct (f_descriptor f) as [id|]; [|reflexivity]. intros (d & -> & Hm). exact Hm.
Qed.

Lemma reads_text_single (ds : dstore) (cd : option did) : reads_text ds cd -> single ds cd.
Proof.
  destruct cd as [id|]; [|trivial]. intros (d & Hd & Hm & _). now exists d.
Qed.

Section ReadAnyFields.

Variables (self : XMLHandler) (ds : dstore).
Variable nested : heap -> string -> result (heap * jsval).

(** An open tag without attributes, whatever the frame above. *)
Lemma bare_open (st : pstate) (top : frame) (rest : list frame) (k : string) :
  p_stack st = top :: rest ->
  Str.contains ":" k = false ->
  onopentag self ds st k []
  = Ok {| p_heap := p_heap st;
          p_stack := {| f_name := Some k; f_object := JUndefined;
                        f_descriptor := child_of ds top k; f_id := None |} :: p_stack st;
          p_refs := p_refs st;
          p_ns := scope_of st [] |}.
Proof.
  intros Hstack Hk.
  rewrite (onopentag_uncollected self ds st k [] top rest Hstack);
    [|intros a []|reflexivity|reflexivity].
  unfold QName.parse. cbn [QName.name]. rewrite (after_last_colon_plain k Hk).
  reflexivity.
Qed.

(** An element that holds at most a text hands to its parent the text
    without the white space around it, or nothing. *)
Lemma field_read_any (st : pstate) (top : frame) (rest : list frame) (k s : string) :
  p_stack st = top :: rest ->
  Str.contains ":" k = false ->
  reads_text ds (child_of ds top k) ->
  foldM (handle self ds nested)
    (OpenTag k [] :: (if String.eqb s "" then [] else [Text s]) ++ [CloseTag k]) st
  = do (h, top') <-
      merge_child ds (p_heap st) top
        {| f_name := Some k; f_object := text_as_read s;
           f_descriptor := child_of ds top k; f_id := None |} k;
    Ok {| p_heap := h; p_stack := top' :: rest; p_refs := p_refs st; p_ns := p_ns st |}.
Proof.
  intros Hstack Hk Hcd. cbn [foldM handle].
  rewrite (bare_open st top rest k Hstack Hk). cbn [bind].
  set (cd := child_of ds top k) in *.
  assert (Hclose : forall o,
             onclosetag ds
               {| p_heap := p_heap st;
                  p_stack := {| f_name := Some k; f_object := o; f_descriptor := cd;
                                f_id := None |} :: p_stack st;
                  p_refs := p_refs st; p_ns := scope_of st [] |} k
             = do (h, top') <-
                 merge_child ds (p_heap st) top
                   {| f_name := Some k; f_object := o; f_descriptor := cd; f_id := None |} k;
               Ok {| p_heap := h; p_stack := top' :: rest; p_refs := p_refs st;
                     p_ns := p_ns st |}).
  { intros o. unfold onclosetag. cbn [p_ns p_stack p_heap p_refs f_id].
    rewrite popContext_scope_of. unfold QName.parse. cbn [QName.name].
    rewrite (after_last_colon_plain k Hk). rewrite Hstack.
    destruct (merge_child ds (p_heap st) top _ k) as [[h top']|e]; reflexivity. }
  assert (Hparse : forall t,
             parseValue (JStr t)
               (frame_descriptor ds {| f_name := Some k; f_object := JUndefined;
                                       f_descriptor := cd; f_id := None |})
             = JStr t).
  { intros t. unfold frame_descriptor. cbn [f_descriptor].
    destruct cd as [id|]; [|reflexivity].
    destruct Hcd as (d & -> & _ & Hd). apply Hd. }
  unfold text_as_read.
  destruct (String.eqb_spec s "") as [->|Hs].
  - cbn [app foldM handle]. rewrite Hclose. cbn [Str.trim Str.trim_start Str.trim_end
      String.length Nat.eqb].
    destruct (merge_child _ _ _ _ _) as [[h top']|e]; reflexivity.
  - cbn [app foldM handle]. unfold ontext.
    destruct (String.length (Str.trim s) =? 0)%nat eqn:El.
    + cbn [bind]. rewrite Hclose.
      destruct (merge_child _ _ _ _ _) as [[h top']|e]; reflexivity.
    + cbn [p_stack p_heap]. rewrite Hparse.
      cbn [_processText f_object bind with_object f_name f_id f_descriptor with_stack
           with_heap p_refs p_ns p_stack p_heap].
      unfold with_stack, with_heap, with_object.
      cbn [p_ns p_stack p_heap p_refs f_name f_object f_descriptor f_id].
      rewrite Hclose.
      destruct (merge_child _ _ _ _ _) as [[h top']|e]; reflexivity.
Qed.

(** The fields of a record, one after the other, become the properties
    of the object of the record's frame, in the order of the document. *)
Lemma fields_read_any (props : list (string * value)) (o : hobj) (top : frame)
    (rest : list frame) (refs : list (string * ref)) (ns : NamespaceContext.t)
    (names : list string) :
  f_object top = JRef 1 ->
  List.NoDup names ->
  (forall k, In k names ->
     Str.contains ":" k = false /\ Js.mem k Js.prototype_members = false
     /\ reads_text ds (child_of ds top k)) ->
  forall acc,
    (forall k, In k names -> Js.own k acc = None) ->
    foldM (handle self ds nested) (flat_map (field_tokens props) names)
      {| p_heap := [o; HObject acc]; p_stack := top :: rest; p_refs := refs; p_ns := ns |}
    = Ok {| p_heap := [o; HObject (acc ++ map (fun k => (k, text_as_read (text_at props k)))
                                             names)];
            p_stack := top :: rest; p_refs := refs; p_ns := ns |}.
Proof.
  intros Htop Hnd Hok. induction names as [|k names IH]; intros acc Hacc.
  - cbn. now rewrite app_nil_r.
  - cbn [flat_map]. rewrite foldM_app.
    destruct (Hok k (or_introl eq_refl)) as (Hcolon & Hproto & Hcd).
    unfold field_tokens at 1.
    rewrite (field_read_any {| p_heap := [o; HObject acc]; p_stack := top :: rest;
                               p_refs := refs; p_ns := ns |}
               top rest k (text_at props k) eq_refl Hcolon Hcd).
    cbn [p_heap p_refs p_ns].
    erewrite (merge_child_absent ds [o; HObject acc]) with (a := 1%nat) (props := acc);
      [| exact Htop | reflexivity
       | unfold Js.has, Js.has_own; now rewrite (Hacc k (or_introl eq_refl)), Hproto].
    rewrite single_not_many by (apply reads_text_single; exact Hcd).
    cbn [f_object bind].
    rewrite (set_absent k _ acc (Hacc k (or_introl eq_refl))).
    cbn [insert list_insert].
    inversion Hnd as [|? ? Hnotin Hnd']; subst.
    rewrite (IH Hnd').
    + cbn [map]. now rewrite <- app_assoc.
    + intros j Hj. apply Hok. now right.
    + intros j Hj. rewrite own_app, (Hacc j (or_intror Hj)). cbn [Js.own].
      destruct (String.eqb_spec j k) as [->|]; [contradiction|reflexivity].
Qed.

End ReadAnyFields.

Lemma reify_read_back (fuel : nat) (h : heap) (props : list (string * value))
    (names : list string) :
  traverse (fun p => option_map (pair (fst p)) (reify (S fuel) h (snd p)))
    (map (fun k => (k, text_as_read (text_at props k))) names)
  = Some (read_back props names).
Proof.
  unfold read_back. apply traverse_map. intros k. cbn [fst snd].
  unfold text_as_read, text_read_back.
  now destruct (String.length (Str.trim (text_at props k)) =? 0)%nat.
Qed.

(** The open tag of the record, on a new parser. *)
Lemma record_open (self : XMLHandler) (ds : dstore) (d : descriptor) (q : QName.t)
    (descriptor : option did) (ename : string) :
  onopentag self ds (initial [] None descriptor) ename (own_declaration d q)
  = Ok {| p_heap := [HObject []];
          p_stack :=
            [{| f_name := Some (QName.name (QName.parse ename None));
                f_object := JUndefined;
                f_descriptor := child_of ds (root_frame [] descriptor)
                                  (QName.name (QName.parse ename None));
                f_id := None |};
             root_frame [] descriptor];
          p_refs := [];
          p_ns := scope_of (initial [] None descriptor) (own_declaration d q) |}.
Proof.
  rewrite (onopentag_uncollected self ds (initial [] None descriptor) ename
             (own_declaration d q) (root_frame [] descriptor) [] eq_refl).
  - replace (existsb _ _) with false; [reflexivity|].
    unfold own_declaration. destruct (_ || _); [reflexivity|].
    rewrite keys_declaration. cbn [existsb]. unfold nil_true.
    now rewrite is_xmlns_declaration.
  - unfold own_declaration. destruct (_ || _); [intros a []|].
    rewrite keys_declaration.
    intros a [<-|[]]. unfold collected. now rewrite is_xmlns_declaration.
  - unfold own_declaration. now destruct (_ || _).
  - unfold own_declaration. now destruct (_ || _).
Qed.

(** The events of a record element with at least one field give the
    root one property, the record, whose properties are the fields as
    they are read. *)
Lemma record_read_any (self : XMLHandler) (ds : dstore)
    (nested : heap -> string -> result (heap * jsval)) (d : descriptor) (q : QName.t)
    (descriptor : option did)
    (rnf rn : string) (props : list (string * value)) (names : list string) :
  QName.name (QName.parse rnf None) = rn ->
  Js.mem rn Js.prototype_members = false ->
  rn <> "Envelope" ->
  names <> [] ->
  List.NoDup names ->
  single ds (child_of ds (root_frame [] descriptor) rn) ->
  (forall k, In k names ->
     Str.contains ":" k = false /\ Js.mem k Js.prototype_members = false
     /\ reads_text ds
          (child_of ds {| f_name := Some rn; f_object := JRef 1;
                          f_descriptor := child_of ds (root_frame [] descriptor) rn;
                          f_id := None |} k)) ->
  tree_of (xmlToJson_events self ds nested [] None
             (OpenTag rnf (own_declaration d q)
              :: flat_map (field_tokens props) names ++ [CloseTag rnf]) descriptor)
  = Some (VObj [(rn, VObj (read_back props names))]).
Proof.
  intros Hrn Hproto Henv Hne Hnd Hsingle Hok.
  destruct names as [|k names]; [now elim Hne|]. clear Hne.
  unfold xmlToJson_events. cbn [foldM handle]. rewrite record_open, Hrn. cbn [bind].
  set (rd := child_of ds (root_frame [] descriptor) rn) in *.
  cbn [flat_map]. rewrite <- app_assoc, foldM_app.
  destruct (Hok k (or_introl eq_refl)) as (Hcolon & Hkp & Hcd).
  unfold field_tokens at 1.
  erewrite (field_read_any self ds nested _ _ _ k (text_at props k));
    [| reflexivity | exact Hcolon | exact Hcd].
  cbn [p_heap p_refs p_ns]. rewrite merge_child_undefined by reflexivity.
  erewrite (merge_child_absent ds) with (a := 1%nat) (props := []);
    [| reflexivity | reflexivity | unfold Js.has; now rewrite Hkp].
  rewrite single_not_many by (apply reads_text_single; exact Hcd).
  cbn [with_object f_object f_name f_descriptor f_id bind app List.length
       Js.set insert list_insert].
  rewrite foldM_app.
  apply List.NoDup_cons_iff in Hnd as [Hnotin Hnd'].
  erewrite (fields_read_any self ds nested props (HObject []) _ _ _ _ names);
    [| reflexivity | exact Hnd' | | ].
  - cbn [bind foldM handle]. unfold onclosetag. cbn [p_ns p_stack p_heap p_refs f_id].
    rewrite popContext_scope_of, Hrn.
    erewrite (merge_child_absent ds) with (a := 0%nat) (props := []);
      [| reflexivity | reflexivity | unfold Js.has; now rewrite Hproto].
    rewrite single_not_many by exact Hsingle.
    cbn [f_object bind Js.set insert list_insert p_heap p_refs].
    unfold finish. cbn -[String.eqb reify text_as_read].
    replace (String.eqb "Envelope" rn) with false
      by (symmetry; apply String.eqb_neq; congruence).
    cbn -[reify text_as_read]. unfold tree_of. cbn [List.length].
    change (reify 3 ?h (JRef 0)) with
      (option_map VObj
         (traverse (fun p => option_map (pair (fst p)) (reify 2 h (snd p)))
            [(rn, JRef 1)])).
    cbn [traverse fst snd].
    change (reify 2 ?h (JRef 1)) with
      (option_map VObj
         (traverse (fun p => option_map (pair (fst p)) (reify 1 h (snd p)))
            (map (fun k => (k, text_as_read (text_at props k))) (k :: names)))).
    rewrite reify_read_back. reflexivity.
  - intros j Hj. apply Hok. now right.
  - intros j Hj. cbn [Js.own].
    destruct (String.eqb_spec j k) as [->|]; [contradiction|reflexivity].
Qed.

Lemma read_back_keys (props : list (string * value)) (names : list string) :
  map fst (read_back props names) = names.
Proof.
  unfold read_back. rewrite map_map. cbn [fst]. apply map_id.
Qed.

Lemma read_back_own (props : list (string * value)) (names : list string) (k : string) :
  In k names ->
  Js.own k (read_back props names) = Some (text_read_back (text_at props k)).
Proof.
  unfold read_back. induction names as [|j names IH]; intros Hin; [now elim Hin|].
  cbn [map Js.own]. destruct (String.eqb_spec k j) as [->|Hne]; [reflexivity|].
  apply IH. destruct Hin as [->|Hin]; [contradiction|exact Hin].
Qed.

Lemma text_read_back_trimmed (s : string) :
  s <> "" -> Str.trim s = s -> text_read_back s = VStr s.
Proof.
  intros Hs Htrim. unfold text_read_back. rewrite Htrim.
  destruct s; [now elim Hs|reflexivity].
Qed.

(** What a descriptor handed to [xmlToJson] has to say about the
    record: nothing, or that its element is the record's, not
    repeatable, whose fields are not repeatable and of a JavaScript type
    that leaves texts alone. *)
Lemma described_record_reads (ds : dstore) (drec : descriptor)
    (descriptor : option did) (r : did) (rn : string) (keys : list string) :
  ds !! r = Some drec ->
  match descriptor with
  | None => True
  | Some t =>
      exists td, ds !! t = Some td /\ findElement ds td rn = Some r
                 /\ d_isMany drec = false
                 /\ forall k, In k keys ->
                      exists id d, findElement ds drec k = Some id /\ ds !! id = Some d
                                   /\ d_isMany d = false
                                   /\ forall t, parseValue (JStr t) (Some d) = JStr t
  end ->
  single ds (child_of ds (root_frame [] descriptor) rn)
  /\ forall k, In k keys ->
       reads_text ds
         (child_of ds {| f_name := Some rn; f_object := JRef 1;
                         f_descriptor := child_of ds (root_frame [] descriptor) rn;
                         f_id := None |} k).
Proof.
  intros Hrec Hdesc. unfold child_of at 1 3, frame_descriptor, root_frame. cbn [f_descriptor].
  destruct descriptor as [t|].
  - destruct Hdesc as (td & -> & -> & Hm & Hfields). split.
    + exists drec. now split.
    + intros k Hk. unfold child_of, frame_descriptor. cbn [f_descriptor]. rewrite Hrec.
      destruct (Hfields k Hk) as (id & d & -> & Hd & Hmany & Hparse).
      exists d. now repeat split.
  - split; [exact I|]. intros k _. exact I.
Qed.



